(* ===== verification/_CoqProject ===== *)
-Q . S2P
Prelude.v
Machine.v
X86Api.v
Buddy.v
BuddySpec.v
FreeList.v
BuddyBits.v
BuddyProofs.v
BuddySystem.v
BuddyTheorems.v
BootFrames.v
BootFramesProofs.v
BootCoalesce.v
BootInit.v
BootSystem.v
BootTheorems.v
Cpu.v
Drivers.v
Gdt.v
Tasks.v
TasksProofs.v
SwitchProofs.v
TasksTheorems.v
Syscall.v
SyscallProofs.v
SyscallTheorems.v
UserProgram.v
Preemption.v
PreemptedCalls.v
Slub.v
SlubRep.v
SlubProofs.v
SlubOps.v
SlubDealloc.v
GlobalAlloc.v
PageProvider.v
HeapRep.v
HeapProofs.v
HeapSystem.v
HeapTheorems.v
Collections.v
CollectionsTheorems.v
Paging.v
UserSpace.v
Elf.v
ElfProofs.v
ElfLoad.v
ElfTheorems.v
ElfRefusals.v
MemoryBoot.v
Spawn.v
KernelPages.v
SpawnTheorems.v
Events.v
EventsTheorems.v
Interrupts.v
HostRunner.v
Graphics.v
GraphicsTheorems.v
Acpi.v
Apic.v
ApicTheorems.v
KernelInit.v
MainBoot.v
