(* ===== verification/Prelude.v ===== *)
(** * A verification development for the lymadOS kernel

    lymadOS is a small x86-64 kernel in Rust (crate [kernel], sources under
    [kernel/src/]).  This library models its own logic as functions on explicit
    state and proves what makes each part correct.  This file is its root: the
    documentation below, then the prelude that all files share.

    ** The program

    The boot loader starts [main] ([main.rs]) with a memory map and all physical
    memory mapped at an offset (the direct map).  [kernel::init] sets up the
    console, the descriptor tables and system calls.  [BootInfoFrameAllocator]
    ([mm/memory.rs]) collects the free memory; the framebuffer ([graphics.rs])
    takes its back buffer from it.  All remaining frames go to the buddy
    allocator ([mm/buddy.rs]), on which the slab caches ([mm/slub.rs]) and the
    global allocator ([mm/allocator.rs]) build the kernel heap.  The APICs are
    found through ACPI ([drivers/acpi.rs]), mapped and programmed
    ([drivers/apic.rs]); the interrupt handlers of keyboard and mouse feed the
    event queue ([events.rs]).  The embedded executable is loaded into user
    pages ([tasks/elf.rs], [mm/user.rs]), becomes a task ([tasks/task.rs]) of
    the round-robin scheduler ([tasks/scheduler.rs]), and is entered and
    preempted by the context switch ([tasks/switch.rs]); it calls the kernel
    through [tasks/syscall.rs].

    ** How code is modelled

    A Rust function is a Rocq function of the same name in the state monad [M]
    below, whose outcomes are a value, a panic, undefined behaviour or a hang
    (a spin lock that is never released).  [u64] and [usize] are integers below
    2^64; arithmetic is checked or wraps, as [OverflowChecks] says, and every
    theorem holds for both builds.  Memory that code reaches through raw pointers is
    a map of words ([Machine]), of bytes ([UserSpace]) or of pixels
    ([Graphics]); null and misaligned accesses are undefined.  Mutexes are
    booleans of the state, taken and dropped where the code does.  Assembly runs
    on the register file of [Cpu].  Third-party crates are classes of operations
    with their documented behaviour as classes of laws; each theorem about code
    over them has a witness with a concrete instance.

    ** Files

    - [Prelude], [Machine], [X86Api], [Cpu]: outcomes, integers, memory,
      interfaces of the [x86_64] crate, instructions.
    - [Buddy] is [mm/buddy.rs]; [BuddySpec] the allocator on plain lists,
      [FreeList], [BuddyBits], [BuddyProofs] the refinement of embedded lists
      and bitmap, [BuddySystem] reachable states, [BuddyTheorems] the properties.
    - [BootFrames] is the frame allocator of [mm/memory.rs]; [BootFramesProofs],
      [BootCoalesce], [BootInit], [BootSystem], [BootTheorems] prove it against
      sets of free bytes.  [Paging] is the page-table walk of the same file.
    - [Slub] is [mm/slub.rs] over the class [PageProvider]; [SlubRep],
      [SlubProofs], [SlubOps], [SlubDealloc] its representation and operations.
      [GlobalAlloc] is [mm/allocator.rs]; [PageProvider] shows that the buddy
      allocator keeps the provider's contract; [HeapRep], [HeapProofs],
      [HeapSystem], [HeapTheorems] the heap as a whole.
    - [UserSpace] is [mm/user.rs] and the mapper's interface, [Elf] is
      [tasks/elf.rs], with [ElfProofs], [ElfLoad], [ElfTheorems] for the files it
      loads and [ElfRefusals] for those it refuses.
    - [Drivers] is the console ([drivers/serial.rs]) and the registers of the
      APIC, [Apic] its set-up, [Acpi] is [drivers/acpi.rs], [Gdt] the selectors
      of [gdt.rs], [Interrupts] is [interrupts.rs], [drivers/exit.rs],
      [drivers/pit.rs] and the interrupt stacks of [gdt.rs]; [ApicTheorems].
    - [Tasks] is [tasks/task.rs], [scheduler.rs] and [switch.rs];
      [TasksProofs], [SwitchProofs], [TasksTheorems].  [Syscall] is
      [tasks/syscall.rs]; [SyscallProofs], [SyscallTheorems].
    - [Events] is [events.rs], [drivers/keyboard.rs] and [drivers/mouse.rs];
      [EventsTheorems].  [Graphics] is [graphics.rs]; [GraphicsTheorems].
    - [Collections] and [CollectionsTheorems] are [Box], [Vec] and [Rc] of
      Rust's library over the heap, as [main.rs] uses them.
    - [KernelInit] is [lib.rs] with the [init] functions of the modules.
      [MainBoot] is the first half of [main.rs], up to the APICs, on one state;
      [MemoryBoot] its step that fills the heap; [Spawn] and [SpawnTheorems]
      its end, that starts the user program, with [Task::from_elf];
      [KernelPages] puts the loader, [Box] and the task vector on the frame
      allocator of [mm/user.rs] and the heap of [mm/allocator.rs].
    - [UserProgram] is [userspace/rs_helloworld/src/main.rs] against the
      system-call path; [Preemption] runs it with timer interrupts between its
      instructions and inside its calls, [PreemptedCalls] lets a second task
      call in the middle of a call of the first; [HostRunner] is [build.rs] and the runner
      [src/main.rs] against [drivers/exit.rs].

    ** What is proved

    - Memory.  The buddy allocator refines one on plain lists; [alloc] and
      [dealloc] take and return exactly their block, merging is complete whatever
      the history, and in every reachable state blocks are disjoint and nothing is lost.  The same
      for the boot allocator, with sorted and merged ranges.  A slab cache
      refines a set of objects over any page provider; in every reachable heap
      blocks do not overlap, every page added is free, holds a block or was taken
      as a frame, allocation fails only when memory is used up, and pointers fit
      their types.  The address translation is the architecture's on pages of
      4 KiB without the PAT bit, and panics on the others.
    - Multitasking.  A timer interrupt saves the interrupted registers and
      resumes the next task exactly; exactly one task runs; scheduling is fair.
      A system call returns its result with the other registers kept, and no
      result depends on memory at or above [USER_SPACE_LIMIT].  On one task timer interrupts in a call
      are harmless; with two tasks the call of the one is shown to be continued
      with the registers of the other, as there is one stack for both.
    - Programs and devices.  The loader puts every byte of every segment where
      it belongs or refuses the file at the header that is wrong; the end of
      [main] reaches the entry point in user mode, with all its memory from the
      kernel's heap; input interrupts refine a bounded queue; device interrupts
      reach their handlers; the screen shows what was painted.
    - Booting.  [kernel::init] leaves segment registers, interrupt table,
      interrupt stacks and system-call registers that agree with each other; the
      first half of [main] ends with a reachable heap that owns exactly the free
      frames of the first gigabyte and holds exactly the values of the
      demonstration; the boot allocator goes on handing out the same frames.
    - Clients.  A vector on the heap refines a list, and its push panics where
      no block is large enough; the user program makes the kernel print exactly
      its lines, whenever the timer interrupts it; the runner on the host reports what the kernel's exit code says.

    ** Recursion

    Loops over lists and counters are structural.  Fuel bounds the others, and
    the theorems show that it suffices: [MAX_ORDER] levels for splitting and
    merging blocks, [range_count] rounds for merging ranges, and [HEAP_FUEL],
    one more than the number of pages, for the walk over a list of slabs.

    ** Not modelled

    One run of [main] from its first line to its last: its second half takes
    page-table frames from the boot allocator, which still owns the frames of the
    heap, so the heap's invariant does not survive it in general; [main] is
    modelled and proved in three parts instead.  The crates (page tables, ACPI
    tables, PS/2 decoders, UART, queue, image builder, firmware) are interfaces,
    as is QEMU.  Of Rust's [alloc] library only what [main] uses is modelled.
    [hlt_loop] and [current_context_mut] are used nowhere.  Several processors are
    not modelled, since the kernel runs on one. *)

From stdpp Require Export base decidable list gmap.
From Stdlib Require Export ZArith Lia.

#[global] Open Scope Z_scope.
#[export] Set Warnings "-clear-no-such-hyp".

(** ** Outcomes of Rust code

    A Rust computation returns a value, panics (an index out of range, an
    [unwrap] of [None], an arithmetic overflow in a build with overflow
    checks) or has undefined behaviour (a dereference of a null or misaligned
    pointer), or hangs (spins on a lock that nobody will release).
    [OutOfFuel] is the model's own: a recursive function was given too small a
    bound; the theorems show that it never comes out. *)
Inductive outcome (A : Type) : Type :=
  | Ret (a : A)
  | Panic
  | Undef
  | Hang
  | OutOfFuel.
Arguments Ret {A} a.
Arguments Panic {A}.
Arguments Undef {A}.
Arguments Hang {A}.
Arguments OutOfFuel {A}.

#[global] Instance outcome_ret : MRet outcome := fun A a => Ret a.
#[global] Instance outcome_bind : MBind outcome := fun A B f c =>
  match c with
  | Ret a => f a
  | Panic => Panic
  | Undef => Undef
  | Hang => Hang
  | OutOfFuel => OutOfFuel
  end.

(** State-passing computations over a state [S]. *)
Definition M (S A : Type) : Type := S -> outcome (A * S).

#[global] Instance M_ret {S} : MRet (M S) := fun A a s => Ret (a, s).
#[global] Instance M_bind {S} : MBind (M S) := fun A B f c s =>
  match c s with
  | Ret (a, s') => f a s'
  | Panic => Panic
  | Undef => Undef
  | Hang => Hang
  | OutOfFuel => OutOfFuel
  end.

Definition get {S} : M S S := fun s => Ret (s, s).
Definition put {S} (s' : S) : M S () := fun _ => Ret ((), s').
Definition panic {S A} : M S A := fun _ => Panic.
Definition undef {S A} : M S A := fun _ => Undef.
Definition hang {S A} : M S A := fun _ => Hang.
Definition out_of_fuel {S A} : M S A := fun _ => OutOfFuel.
Definition lift {S A} (o : outcome A) : M S A := fun s =>
  match o with
  | Ret a => Ret (a, s)
  | Panic => Panic
  | Undef => Undef
  | Hang => Hang
  | OutOfFuel => OutOfFuel
  end.

(** [when b c]: an [if] without an [else]. *)
Definition when {S} (b : bool) (c : M S ()) : M S () := if b then c else mret ().

Lemma run_bind {S A B} (c : M S A) (f : A -> M S B) s a s' :
  c s = Ret (a, s') -> (c ≫= f) s = f a s'.
Proof. intros H. unfold mbind, M_bind. by rewrite H. Qed.

Lemma run_bind_inv {S A B} (c : M S A) (f : A -> M S B) s r :
  (c ≫= f) s = Ret r -> exists a s', c s = Ret (a, s') /\ f a s' = Ret r.
Proof.
  unfold mbind, M_bind. destruct (c s) as [[a s']| | | |]; intros; simplify_eq; eauto.
Qed.

(** A step that does not return ends the computation. *)
Lemma run_bind_panic {S A B} (c : M S A) (f : A -> M S B) s : c s = Panic -> (c ≫= f) s = Panic.
Proof. intros Hc. unfold mbind, M_bind. by rewrite Hc. Qed.
Lemma run_bind_undef {S A B} (c : M S A) (f : A -> M S B) s : c s = Undef -> (c ≫= f) s = Undef.
Proof. intros Hc. unfold mbind, M_bind. by rewrite Hc. Qed.
Lemma run_bind_hang {S A B} (c : M S A) (f : A -> M S B) s : c s = Hang -> (c ≫= f) s = Hang.
Proof. intros Hc. unfold mbind, M_bind. by rewrite Hc. Qed.

Lemma run_ret {S A} (a : A) (s : S) : (mret a : M S A) s = Ret (a, s).
Proof. reflexivity. Qed.
Lemma run_get {S} (s : S) : get s = Ret (s, s).
Proof. reflexivity. Qed.
Lemma run_put {S} (s s' : S) : put s' s = Ret ((), s').
Proof. reflexivity. Qed.
Lemma run_lift {S A} (a : A) (s : S) o : o = Ret a -> lift o s = Ret (a, s).
Proof. by intros ->. Qed.

Lemma bind_Ret {A B} (a : A) (f : A -> outcome B) (c : outcome A) :
  c = Ret a -> (c ≫= f) = f a.
Proof. by intros ->. Qed.

(** ** Machine integers

    [u64] and [usize] values are integers in [0, 2^64).  [ck] says whether the
    build has overflow checks (Cargo's dev profile) or wraps (release). *)
Class OverflowChecks := overflow_checks : bool.

Abbreviation U64_LIM := 18446744073709551616.

Definition is_u64 (z : Z) : Prop := 0 <= z < U64_LIM.

Section u64.
Context {ck : OverflowChecks}.

Definition arith64 (z : Z) : outcome Z :=
  if (0 <=? z) && (z <? U64_LIM) then Ret z
  else if overflow_checks then Panic else Ret (z mod U64_LIM).

Definition add64 (a b : Z) : outcome Z := arith64 (a + b).
Definition sub64 (a b : Z) : outcome Z := arith64 (a - b).
Definition mul64 (a b : Z) : outcome Z := arith64 (a * b).

(** Shifts are checked on the shift amount only. *)
Definition shift_amount (n : Z) : outcome Z :=
  if n <? 64 then Ret n else if overflow_checks then Panic else Ret (n mod 64).
Definition shl64 (a n : Z) : outcome Z :=
  n' ← shift_amount n; Ret (Z.shiftl a n' mod U64_LIM).
Definition shr64 (a n : Z) : outcome Z :=
  n' ← shift_amount n; Ret (Z.shiftr a n').

Lemma arith64_ok z : is_u64 z -> arith64 z = Ret z.
Proof.
  unfold is_u64, arith64. intros.
  by rewrite (proj2 (Z.leb_le 0 z)), (proj2 (Z.ltb_lt z _)) by lia.
Qed.
Lemma add64_ok a b : 0 <= a + b < U64_LIM -> add64 a b = Ret (a + b).
Proof. apply arith64_ok. Qed.
Lemma sub64_ok a b : 0 <= a - b < U64_LIM -> sub64 a b = Ret (a - b).
Proof. apply arith64_ok. Qed.
Lemma mul64_ok a b : 0 <= a * b < U64_LIM -> mul64 a b = Ret (a * b).
Proof. apply arith64_ok. Qed.
Lemma shl64_ok a n :
  0 <= n < 64 -> 0 <= a * 2 ^ n < U64_LIM -> shl64 a n = Ret (a * 2 ^ n).
Proof.
  intros Hn Ha. unfold shl64, shift_amount.
  rewrite (proj2 (Z.ltb_lt n 64)) by lia. simpl.
  rewrite Z.shiftl_mul_pow2, Z.mod_small by lia. done.
Qed.
Lemma shr64_ok a n : 0 <= n < 64 -> shr64 a n = Ret (a / 2 ^ n).
Proof.
  intros Hn. unfold shr64, shift_amount.
  rewrite (proj2 (Z.ltb_lt n 64)) by lia. simpl.
  by rewrite Z.shiftr_div_pow2 by lia.
Qed.
End u64.

(** Bitwise complement at width 64: Rust's [!x]. *)
Definition not64 (a : Z) : Z := Z.lxor a (Z.ones 64).

(** Rust's [Option<NonNull<T>>]: the null word is [None]. *)
Definition nonnull (w : Z) : option Z := if w =? 0 then None else Some w.
Definition word_of (p : option Z) : Z := default 0 p.

(** Slice indexing: out of range panics. *)
Definition index {A} (l : list A) (i : nat) : outcome A :=
  match l !! i with Some a => Ret a | None => Panic end.
Definition index_set {A} (l : list A) (i : nat) (a : A) : outcome (list A) :=
  if decide (i < length l)%nat then Ret (<[i:=a]> l) else Panic.

Lemma index_ok {A} (l : list A) i a : l !! i = Some a -> index l i = Ret a.
Proof. unfold index. by intros ->. Qed.
Lemma index_set_ok {A} (l : list A) i a :
  (i < length l)%nat -> index_set l i a = Ret (<[i:=a]> l).
Proof. unfold index_set. intros. by rewrite decide_True. Qed.

Lemma nonnull_word_of p : p <> Some 0 -> nonnull (word_of p) = p.
Proof. unfold nonnull, word_of. destruct p as [[]|]; simpl; congruence. Qed.
Lemma nonnull_pos a : 0 < a -> nonnull a = Some a.
Proof. unfold nonnull. intros. by rewrite (proj2 (Z.eqb_neq a 0)) by lia. Qed.

(** ** Rounding to a power of two *)

Lemma land_not_ones a k :
  0 <= k <= 64 -> is_u64 a -> Z.land a (not64 (2 ^ k - 1)) = a / 2 ^ k * 2 ^ k.
Proof.
  intros Hk Ha. unfold is_u64 in Ha.
  rewrite <- Z.shiftr_div_pow2, <- Z.shiftl_mul_pow2, <- Z.ldiff_ones_r by lia.
  replace (2 ^ k - 1) with (Z.ones k) by (rewrite Z.ones_equiv; lia).
  unfold not64. apply Z.bits_inj'. intros n Hn.
  rewrite Z.land_spec, Z.ldiff_spec, Z.lxor_spec.
  destruct (decide (n < 64)) as [Hlt|Hge].
  - rewrite (Z.ones_spec_low 64) by lia. by rewrite xorb_true_r.
  - assert (Z.testbit a n = false) as ->; [|done].
    apply Z.testbit_false; [lia|]. rewrite Z.div_small; [done|].
    split; [lia|]. apply Z.lt_le_trans with (2 ^ 64); [lia|].
    apply Z.pow_le_mono_r; lia.
Qed.

Lemma div_mul_mod a n : 0 < n -> a / n * n = a - a mod n.
Proof. intros. pose proof (Z.div_mod a n). lia. Qed.

(** ** Shared list facts *)

Lemma NoDup_app_remove {A} (l1 l2 : list A) a :
  NoDup (l1 ++ a :: l2) -> NoDup (l1 ++ l2) /\ a ∉ l1 ++ l2.
Proof.
  intros H. assert (NoDup (a :: l1 ++ l2)) as H'.
  { by rewrite Permutation_middle. }
  apply NoDup_cons in H' as [? ?]. done.
Qed.

Lemma filter_ne_id {A} `{EqDecision A} (l : list A) a :
  a ∉ l -> filter (fun b => b <> a) l = l.
Proof.
  induction l as [|b l IH]; intros Ha; [done|].
  apply not_elem_of_cons in Ha as [Hne Ha].
  rewrite filter_cons_True by congruence. by rewrite IH.
Qed.

Lemma filter_ne_middle {A} `{EqDecision A} (l1 l2 : list A) a :
  NoDup (l1 ++ a :: l2) -> filter (fun b => b <> a) (l1 ++ a :: l2) = l1 ++ l2.
Proof.
  intros [_ Hn]%NoDup_app_remove. apply not_elem_of_app in Hn as [H1 H2].
  rewrite filter_app, filter_cons_False by tauto. by rewrite !filter_ne_id.
Qed.

(** ** Automation

    [u64_simpl] discharges the overflow checks of an arithmetic expression
    whose bounds [lia] sees; [run] executes the next step of a computation
    whose result is already an equation. *)
Create Rewrite HintDb u64.
#[export] Hint Rewrite @add64_ok @sub64_ok @mul64_ok @shl64_ok @shr64_ok
  using lia : u64.

Ltac u64_simpl := autorewrite with u64.

Ltac run_step :=
  lazymatch goal with
  | |- context [mbind ?f ?c ?s] =>
      first
        [ rewrite (run_bind c f s _ _ (run_ret _ _))
        | rewrite (run_bind c f s _ _ (run_get _))
        | rewrite (run_bind c f s _ _ (run_put _ _))
        | rewrite (run_bind c f s) by eassumption ]
  end.
Tactic Notation "run" := run_step; cbv beta.
Tactic Notation "run" uconstr(H) :=
  rewrite (run_bind _ _ _ _ _ H); cbv beta.

(** A closed decidable proposition, by evaluation. *)
Ltac by_decide := apply (bool_decide_unpack _); vm_compute; exact I.
