(* ===== verification/Machine.v ===== *)
(** * Machine memory

    Kernel code that follows raw pointers (free lists embedded in free pages,
    slab headers) reads and writes 64-bit words of memory.  The memory maps
    word addresses to words; a read or write through a null or misaligned
    pointer is undefined behaviour.  Operations run on a pair of the
    component's own state (Rust's [self]) and the memory. *)
From S2P Require Import Prelude.

Abbreviation mem := (gmap Z Z).

(** The word at an address; physical memory that nothing has written is zero. *)
Definition rd (m : mem) (a : Z) : Z := default 0 (m !! a).

Definition valid_ptr (a : Z) : Prop := 0 < a < U64_LIM /\ a mod 8 = 0.
#[global] Instance valid_ptr_dec a : Decision (valid_ptr a).
Proof. unfold valid_ptr. apply _. Defined.

Section ops.
Context {S : Type}.

Definition load (a : Z) : M (S * mem) Z := fun '(s, m) =>
  if decide (valid_ptr a) then Ret (rd m a, (s, m)) else Undef.
Definition store (a v : Z) : M (S * mem) () := fun '(s, m) =>
  if decide (valid_ptr a) then Ret ((), (s, <[a:=v]> m)) else Undef.

(** Fields of type [Option<NonNull<T>>]. *)
Definition load_ptr (a : Z) : M (S * mem) (option Z) :=
  w ← load a; mret (nonnull w).
Definition store_ptr (a : Z) (p : option Z) : M (S * mem) () :=
  store a (word_of p).

Definition get_self : M (S * mem) S := fun '(s, m) => Ret (s, (s, m)).
Definition put_self (s' : S) : M (S * mem) () := fun '(_, m) => Ret ((), (s', m)).

Lemma run_load a s m : valid_ptr a -> load a (s, m) = Ret (rd m a, (s, m)).
Proof. intros. unfold load. by rewrite decide_True. Qed.
Lemma run_store a v s m :
  valid_ptr a -> store a v (s, m) = Ret ((), (s, <[a:=v]> m)).
Proof. intros. unfold store. by rewrite decide_True. Qed.
Lemma run_load_ptr a s m :
  valid_ptr a -> load_ptr a (s, m) = Ret (nonnull (rd m a), (s, m)).
Proof. intros. unfold load_ptr. by run (run_load a s m H). Qed.
Lemma run_store_ptr a p s m :
  valid_ptr a -> store_ptr a p (s, m) = Ret ((), (s, <[a:=word_of p]> m)).
Proof. apply run_store. Qed.
Lemma run_get_self s m : get_self (s, m) = Ret (s, (s, m)).
Proof. reflexivity. Qed.
Lemma run_put_self s s' m : put_self s' (s, m) = Ret ((), (s', m)).
Proof. reflexivity. Qed.
End ops.

Lemma rd_insert_eq m a v : rd (<[a:=v]> m) a = v.
Proof. unfold rd. by rewrite lookup_insert_eq. Qed.
Lemma rd_insert_ne m a b v : a <> b -> rd (<[a:=v]> m) b = rd m b.
Proof. intros. unfold rd. by rewrite lookup_insert_ne. Qed.

(** [mem_frame P m m']: the two memories agree outside [P]. *)
Definition mem_frame (P : Z -> Prop) (m m' : mem) : Prop :=
  forall a, ~ P a -> m' !! a = m !! a.

Lemma mem_frame_refl P m : mem_frame P m m.
Proof. done. Qed.
Lemma mem_frame_trans P m1 m2 m3 :
  mem_frame P m1 m2 -> mem_frame P m2 m3 -> mem_frame P m1 m3.
Proof. unfold mem_frame. intros H1 H2 a Ha. by rewrite H2, H1. Qed.
Lemma mem_frame_mono (P Q : Z -> Prop) m m' :
  (forall a, P a -> Q a) -> mem_frame P m m' -> mem_frame Q m m'.
Proof. unfold mem_frame. intros HPQ H a Ha. apply H. auto. Qed.
Lemma mem_frame_insert (P : Z -> Prop) m a v :
  P a -> mem_frame P m (<[a:=v]> m).
Proof.
  intros HP b Hb. rewrite lookup_insert_ne; [done|]. intros ->. contradiction.
Qed.
Lemma mem_frame_rd P m m' a : mem_frame P m m' -> ~ P a -> rd m' a = rd m a.
Proof. unfold rd. intros H Ha. by rewrite H. Qed.

Create HintDb kmem.
#[export] Hint Resolve mem_frame_refl mem_frame_trans mem_frame_insert : kmem.
