(* ===== verification/X86Api.v ===== *)
(** * Interfaces of the [x86_64] crate

    The kernel takes physical frames from the [x86_64] crate, whose code is
    not part of the repository.  Each function it uses is an operation of a
    class, and the behaviour its documentation promises is a class of laws.
    [ReferenceApi] is an instance that satisfies the laws. *)
From S2P Require Import Prelude.

(** [PhysFrame::containing_address(PhysAddr::new(a))]: the start address of the
    4 KiB frame that contains [a]. *)
Class PhysFrameApi := containing_address : Z -> outcome Z.

(** [PhysAddr::new] accepts addresses of 52 bits; the frame starts at the
    address rounded down to 4 KiB. *)
Class PhysFrameLaws `{PhysFrameApi} : Prop :=
  containing_address_ok a :
    0 <= a < 4503599627370496 -> containing_address a = Ret (a / 4096 * 4096).

(** [PhysFrame::<Size2MiB>::containing_address] of a physical address. *)
Class HugeFrameApi := containing_address_2m : Z -> outcome Z.
Class HugeFrameLaws `{HugeFrameApi} : Prop :=
  containing_address_2m_ok a :
    0 <= a < 4503599627370496 -> containing_address_2m a = Ret (a / 2097152 * 2097152).

Module ReferenceApi.
Definition containing (a : Z) : outcome Z :=
  if (0 <=? a) && (a <? 4503599627370496) then Ret (a / 4096 * 4096) else Panic.

Definition containing_2m (a : Z) : outcome Z :=
  if (0 <=? a) && (a <? 4503599627370496) then Ret (a / 2097152 * 2097152) else Panic.

#[export] Instance phys_frame_api : PhysFrameApi := containing.
#[export] Instance phys_frame_laws : PhysFrameLaws.
Proof.
  intros a Ha. unfold containing_address, phys_frame_api, containing.
  by rewrite (proj2 (Z.leb_le 0 a)), (proj2 (Z.ltb_lt a _)) by lia.
Qed.

#[export] Instance huge_frame_api : HugeFrameApi := containing_2m.
#[export] Instance huge_frame_laws : HugeFrameLaws.
Proof.
  intros a Ha. unfold containing_address_2m, huge_frame_api, containing_2m.
  by rewrite (proj2 (Z.leb_le 0 a)), (proj2 (Z.ltb_lt a _)) by lia.
Qed.
End ReferenceApi.
