(* ===== verification/Buddy.v ===== *)
(** * The buddy page allocator: [kernel/src/mm/buddy.rs]

    The allocator's free lists are doubly linked lists threaded through the
    free blocks themselves; a bitmap keeps one bit per pair of buddies.  This
    file is the code: the [BuddyAllocator] struct, the [FreeFrame] nodes in
    memory, and every method.  [BuddySpec] holds the abstract allocator and
    [BuddyProofs] the refinement between the two. *)
From S2P Require Import Prelude Machine X86Api.

Definition MAX_ORDER : nat := 12.
Definition PAGE_SIZE : Z := 4096.
Definition MAX_PAGES : Z := 262144.
Definition BITMAP_SIZE : Z := MAX_PAGES / 8.

(** The static bitmap storage, as the loader leaves it. *)
Definition BITMAP_STORAGE : list Z := replicate (Z.to_nat BITMAP_SIZE) 0.

Record BuddyAllocator := mkBuddy {
  free_lists : list (option Z);
  bitmap : list Z;
  offset : Z;
}.

(** [FreeFrame] is [repr(C)]: [next] is its first word and [prev] its second. *)
Definition next_field (frame : Z) : Z := frame.
Definition prev_field (frame : Z) : Z := frame + 8.

Abbreviation B := (M (BuddyAllocator * mem)).

(** [BuddyAllocator::new()] borrows the static storage as it is. *)
Definition new (storage : list Z) : BuddyAllocator :=
  mkBuddy (replicate MAX_ORDER None) storage 0.

Definition set_offset (offset : Z) (self : BuddyAllocator) : BuddyAllocator :=
  mkBuddy (free_lists self) (bitmap self) offset.

Definition set_free_list (order : nat) (head : option Z) : B () :=
  self ← get_self;
  fl ← lift (index_set (free_lists self) order head);
  put_self (mkBuddy fl (bitmap self) (offset self)).

Section code.
Context {ck : OverflowChecks}.

(** The loop [for i in 0..order { offset += MAX_PAGES >> (i + 1) }]. *)
Definition order_offset (order : nat) : outcome Z :=
  foldl (fun acc i =>
    offset ← acc;
    shifted ← shr64 MAX_PAGES (Z.of_nat i + 1);
    add64 offset shifted) (Ret 0) (seq 0 order).

Definition get_bit_index (page_idx : Z) (order : nat) : outcome Z :=
  offset ← order_offset order;
  pair ← shr64 page_idx (Z.of_nat order + 1);
  add64 offset pair.

Definition toggle_bit (page_idx : Z) (order : nat) : B bool :=
  bit_idx ← lift (get_bit_index page_idx order);
  let byte_idx := Z.to_nat (bit_idx / 8) in
  let bit_offset := bit_idx mod 8 in
  self ← get_self;
  byte ← lift (index (bitmap self) byte_idx);
  bm ← lift (index_set (bitmap self) byte_idx (Z.lxor byte (Z.shiftl 1 bit_offset)));
  put_self (mkBuddy (free_lists self) bm (offset self));;
  byte' ← lift (index bm byte_idx);
  mret (negb (Z.land byte' (Z.shiftl 1 bit_offset) =? 0)).

Definition calculate_buddy_address (ptr : Z) (order : nat) : B Z :=
  self ← get_self;
  block_size ← lift (shl64 1 (Z.of_nat order));
  relative_addr ← lift (sub64 ptr (offset self));
  block_bytes ← lift (mul64 block_size PAGE_SIZE);
  let buddy_relative_addr := Z.lxor relative_addr block_bytes in
  lift (add64 buddy_relative_addr (offset self)).

Definition push_free (ptr : Z) (order : nat) : B () :=
  store_ptr (prev_field ptr) None;;
  self ← get_self;
  head ← lift (index (free_lists self) order);
  store_ptr (next_field ptr) head;;
  match head with
  | Some h => store_ptr (prev_field h) (nonnull ptr)
  | None => mret ()
  end;;
  set_free_list order (nonnull ptr).

Definition remove_frame (ptr : Z) (order : nat) : B () :=
  prev ← load_ptr (prev_field ptr);
  match prev with
  | Some p => next ← load_ptr (next_field ptr); store_ptr (next_field p) next
  | None => next ← load_ptr (next_field ptr); set_free_list order next
  end;;
  next ← load_ptr (next_field ptr);
  match next with
  | Some n => prev ← load_ptr (prev_field ptr); store_ptr (prev_field n) prev
  | None => mret ()
  end;;
  store_ptr (next_field ptr) None;;
  store_ptr (prev_field ptr) None.

(** [(ptr as usize - self.offset) / PAGE_SIZE] *)
Definition page_index (ptr : Z) : B Z :=
  self ← get_self;
  relative ← lift (sub64 ptr (offset self));
  mret (relative / PAGE_SIZE).

(** [alloc] calls itself one order up, so [MAX_ORDER + 1] nested calls are
    enough: the call at [MAX_ORDER] returns at once. *)
Fixpoint alloc_rec (fuel : nat) (order : nat) : B (option Z) :=
  match fuel with
  | O => out_of_fuel
  | S fuel =>
    if (MAX_ORDER <=? order)%nat then mret None
    else
      self ← get_self;
      head ← lift (index (free_lists self) order);
      match head with
      | Some frame_ptr =>
          remove_frame frame_ptr order;;
          when (order <? MAX_ORDER - 1)%nat
            (page_idx ← page_index frame_ptr;
             toggle_bit page_idx order;; mret ());;
          mret (Some frame_ptr)
      | None =>
          larger ← alloc_rec fuel (order + 1);
          match larger with
          | Some ptr =>
              buddy_addr ← calculate_buddy_address ptr order;
              when (order <? MAX_ORDER - 1)%nat
                (page_idx ← page_index ptr;
                 toggle_bit page_idx order;; mret ());;
              push_free buddy_addr order;;
              mret (Some ptr)
          | None => mret None
          end
      end
  end.
Definition alloc (order : nat) : B (option Z) := alloc_rec (S MAX_ORDER) order.

(** [addr < self.offset || addr >= self.offset + MAX_PAGES * PAGE_SIZE] *)
Definition out_of_range (addr : Z) : B bool :=
  self ← get_self;
  if addr <? offset self then mret true
  else
    bytes ← lift (mul64 MAX_PAGES PAGE_SIZE);
    limit ← lift (add64 (offset self) bytes);
    mret (limit <=? addr).

Fixpoint dealloc_rec (fuel : nat) (ptr : Z) (order : nat) : B () :=
  match fuel with
  | O => out_of_fuel
  | S fuel =>
    out ← out_of_range ptr;
    if out : bool then mret ()
    else if (MAX_ORDER - 1 <=? order)%nat then push_free ptr order
    else
      page_idx ← page_index ptr;
      is_now_one ← toggle_bit page_idx order;
      if is_now_one : bool then push_free ptr order
      else
        buddy_addr ← calculate_buddy_address ptr order;
        remove_frame buddy_addr order;;
        let merged_addr := if ptr <? buddy_addr then ptr else buddy_addr in
        dealloc_rec fuel merged_addr (order + 1)
  end.
Definition dealloc (ptr : Z) (order : nat) : B () :=
  dealloc_rec (S MAX_ORDER) ptr order.

Definition add_frame (frame : Z) : B () :=
  out ← out_of_range frame;
  if out : bool then mret () else dealloc frame 0.

(** [FrameAllocator::allocate_frame]: the frame of the page's physical address. *)
Definition allocate_frame `{PhysFrameApi} : B (option Z) :=
  p ← alloc 0;
  match p with
  | Some ptr =>
      self ← get_self;
      phys_addr ← lift (sub64 ptr (offset self));
      frame ← lift (containing_address phys_addr);
      mret (Some frame)
  | None => mret None
  end.
End code.

Arguments next_field : simpl never.
Arguments prev_field : simpl never.
