(* ===== verification/BuddySpec.v ===== *)
(** * The abstract buddy allocator

    The reference for [Buddy]: the free lists as plain lists of page indices,
    one per order, with no memory, no links and no bitmap.  A pair of buddies
    is merged when the buddy is a member of its free list, which is what the
    bitmap of the code is meant to tell.  The second half gives the meaning of
    the reference in terms of the set of free pages. *)
From S2P Require Import Prelude Buddy.

Abbreviation flists := (list (list Z)).

(** Pages in a block of order [k]. *)
Definition bsz (k : nat) : Z := 2 ^ Z.of_nat k.

(** The other half of the block of order [k + 1] around page [p]. *)
Definition buddy (p : Z) (k : nat) : Z :=
  if Z.even (p / bsz k) then p + bsz k else p - bsz k.

Definition push_block (k : nat) (p : Z) (L : flists) : flists :=
  <[k := p :: L !!! k]> L.
Definition drop_block (k : nat) (p : Z) (L : flists) : flists :=
  <[k := filter (fun q => q <> p) (L !!! k)]> L.

Fixpoint spec_alloc_rec (n k : nat) (L : flists) : option (Z * flists) :=
  match n with
  | O => None
  | S n =>
      match L !!! k with
      | p :: _ => Some (p, drop_block k p L)
      | [] =>
          match spec_alloc_rec n (S k) L with
          | Some (p, L') => Some (p, push_block k (buddy p k) L')
          | None => None
          end
      end
  end.
Definition spec_alloc (k : nat) (L : flists) : option (Z * flists) :=
  spec_alloc_rec (MAX_ORDER - k) k L.

Fixpoint spec_dealloc_rec (n : nat) (p : Z) (k : nat) (L : flists) : flists :=
  match n with
  | O => push_block k p L
  | S n =>
      if decide (buddy p k ∈ L !!! k)
      then spec_dealloc_rec n (Z.min p (buddy p k)) (S k) (drop_block k (buddy p k) L)
      else push_block k p L
  end.
Definition spec_dealloc (p : Z) (k : nat) (L : flists) : flists :=
  spec_dealloc_rec (MAX_ORDER - 1 - k) p k L.

(** The allocator with no free memory. *)
Definition no_blocks : flists := replicate MAX_ORDER [].

(** ** Meaning: the set of free pages *)

Definition in_block (k : nat) (p x : Z) : Prop := p <= x < p + bsz k.
Definition free_page (L : flists) (x : Z) : Prop :=
  exists k p, p ∈ L !!! k /\ in_block k p x.

(** A block the allocator can hold: an order with a free list, aligned to its
    size, inside the managed gigabyte and not at the null address. *)
Record block_wf (off : Z) (k : nat) (p : Z) : Prop := {
  bw_order : (k < MAX_ORDER)%nat;
  bw_align : (bsz k | p);
  bw_low : 0 <= p;
  bw_high : p + bsz k <= MAX_PAGES;
  bw_null : 0 < off + PAGE_SIZE * p;
}.

Record free_wf (off : Z) (L : flists) : Prop := {
  fw_length : length L = MAX_ORDER;
  fw_nodup : forall k, NoDup (L !!! k);
  fw_block : forall k p, p ∈ L !!! k -> block_wf off k p;
  fw_disjoint : forall k1 p1 k2 p2 x,
    p1 ∈ L !!! k1 -> p2 ∈ L !!! k2 ->
    in_block k1 p1 x -> in_block k2 p2 x -> k1 = k2 /\ p1 = p2;
  fw_merged : forall k p,
    (k < MAX_ORDER - 1)%nat -> p ∈ L !!! k -> buddy p k ∉ L !!! k;
}.

Lemma no_blocks_lookup k : no_blocks !!! k = [].
Proof.
  unfold no_blocks. destruct (decide (k < MAX_ORDER)%nat).
  - by rewrite lookup_total_replicate_2.
  - rewrite list_lookup_total_alt, lookup_ge_None_2; [done|]. rewrite length_replicate. lia.
Qed.

Lemma no_blocks_wf off : free_wf off no_blocks.
Proof.
  constructor; [apply length_replicate|..]; setoid_rewrite no_blocks_lookup;
    [intros; apply NoDup_nil_2|..].
  - intros k p []%elem_of_nil.
  - intros k1 p1 k2 p2 x []%elem_of_nil.
  - intros k p _ []%elem_of_nil.
Qed.

(** ** Buddies *)

Lemma bsz_pos k : 0 < bsz k.
Proof. unfold bsz. apply Z.pow_pos_nonneg; lia. Qed.
Lemma bsz_S k : bsz (S k) = 2 * bsz k.
Proof. unfold bsz. rewrite Nat2Z.inj_succ, Z.pow_succ_r by lia. lia. Qed.

Lemma buddy_cases k p :
  (bsz k | p) ->
  (bsz (S k) | p) /\ buddy p k = p + bsz k \/
  (bsz (S k) | p - bsz k) /\ buddy p k = p - bsz k.
Proof.
  intros [q ->]. pose proof (bsz_pos k). unfold buddy.
  rewrite Z.div_mul by lia. rewrite bsz_S.
  destruct (Z.even q) eqn:He.
  - left. apply Z.even_spec in He as [r ->]. split; [exists r; lia|done].
  - right. assert (Z.odd q = true) as Ho by (by rewrite <- Z.negb_even, He).
    apply Z.odd_spec in Ho as [r ->]. split; [exists r; lia|done].
Qed.

Lemma buddy_even k p : (bsz (S k) | p) -> buddy p k = p + bsz k.
Proof.
  intros [q ->]. pose proof (bsz_pos k). unfold buddy.
  rewrite bsz_S. replace (q * (2 * bsz k)) with (2 * q * bsz k) by lia.
  rewrite Z.div_mul by lia. rewrite Z.even_mul. done.
Qed.

Lemma buddy_odd k p : (bsz (S k) | p - bsz k) -> buddy p k = p - bsz k.
Proof.
  intros [q Hq]. pose proof (bsz_pos k). unfold buddy.
  rewrite bsz_S in Hq. replace p with ((2 * q + 1) * bsz k) by lia.
  rewrite Z.div_mul by lia. rewrite Z.even_add, Z.even_mul. done.
Qed.

Lemma bsz_divide_S k p : (bsz (S k) | p) -> (bsz k | p).
Proof. rewrite bsz_S. intros [q ->]. exists (2 * q). lia. Qed.

Lemma buddy_invol k p : (bsz k | p) -> buddy (buddy p k) k = p.
Proof.
  intros Hp. destruct (buddy_cases k p Hp) as [[Hd ->]|[Hd ->]].
  - rewrite buddy_odd; [lia|]. by replace (p + bsz k - bsz k) with p by lia.
  - rewrite buddy_even; [lia|done].
Qed.

Lemma buddy_align k p : (bsz k | p) -> (bsz k | buddy p k).
Proof.
  intros Hp. destruct (buddy_cases k p Hp) as [[_ ->]|[_ ->]].
  - apply Z.divide_add_r; [done|apply Z.divide_refl].
  - apply Z.divide_sub_r; [done|apply Z.divide_refl].
Qed.

Lemma buddy_ne k p : (bsz k | p) -> buddy p k <> p.
Proof.
  intros Hp. pose proof (bsz_pos k).
  destruct (buddy_cases k p Hp) as [[_ ->]|[_ ->]]; lia.
Qed.

(** Two buddies make up the block one order up. *)
Lemma in_block_S k p x :
  (bsz k | p) ->
  in_block (S k) (Z.min p (buddy p k)) x <-> in_block k p x \/ in_block k (buddy p k) x.
Proof.
  intros Hp. unfold in_block. rewrite bsz_S. pose proof (bsz_pos k).
  destruct (buddy_cases k p Hp) as [[_ ->]|[_ ->]]; lia.
Qed.

Lemma in_block_self k p : in_block k p p.
Proof. unfold in_block. pose proof (bsz_pos k). lia. Qed.

Lemma max_pages_bsz k : (k < MAX_ORDER)%nat -> exists q, MAX_PAGES = q * bsz k.
Proof.
  unfold MAX_ORDER, MAX_PAGES. intros Hk. exists (2 ^ (18 - Z.of_nat k)).
  unfold bsz. rewrite <- Z.pow_add_r by lia.
  by replace (18 - Z.of_nat k + Z.of_nat k) with 18 by lia.
Qed.

(** Both halves of a managed pair lie in the managed range. *)
Lemma buddy_range k p :
  (k < MAX_ORDER - 1)%nat -> (bsz k | p) -> 0 <= p < MAX_PAGES ->
  0 <= buddy p k /\ buddy p k + bsz k <= MAX_PAGES.
Proof.
  intros Hk Hp Hr. pose proof (bsz_pos k).
  destruct (max_pages_bsz (S k)) as [q Hq]; [unfold MAX_ORDER in *; lia|].
  rewrite bsz_S in Hq.
  destruct (buddy_cases k p Hp) as [[[r Hd] ->]|[[r Hd] ->]]; rewrite bsz_S in Hd;
    (assert (0 <= r < q) by nia); nia.
Qed.

Lemma block_wf_merge off k p :
  (k < MAX_ORDER - 1)%nat -> block_wf off k p -> block_wf off k (buddy p k) ->
  block_wf off (S k) (Z.min p (buddy p k)).
Proof.
  intros Hk Hp Hb. pose proof (bsz_pos k).
  destruct Hp as [? Ha ? ? ?], Hb as [? ? ? ? ?]. unfold MAX_ORDER in *.
  destruct (buddy_cases k p Ha) as [[Hd Hb]|[Hd Hb]]; rewrite Hb in *.
  - replace (Z.min p (p + bsz k)) with p by lia.
    constructor; rewrite ?bsz_S in *; unfold MAX_ORDER; lia || done.
  - replace (Z.min p (p - bsz k)) with (p - bsz k) by lia.
    constructor; rewrite ?bsz_S in *; unfold MAX_ORDER; lia || done.
Qed.

Lemma block_wf_split off k p :
  (0 <= off) -> block_wf off (S k) p ->
  block_wf off k p /\ block_wf off k (buddy p k) /\ buddy p k = p + bsz k.
Proof.
  intros Hoff [? Ha ? Hh ?]. pose proof (bsz_pos k). rewrite bsz_S in Hh.
  pose proof (bsz_divide_S _ _ Ha). rewrite (buddy_even k p Ha).
  unfold PAGE_SIZE in *.
  split_and!; [constructor..|done]; unfold PAGE_SIZE; try (lia || done).
  apply Z.divide_add_r; [done|apply Z.divide_refl].
Qed.

(** ** Free lists under insertion and removal of a block *)

Section lists.
Context (off : Z).

Lemma flists_insert (L : flists) k (l : list Z) j :
  length L = MAX_ORDER -> (k < MAX_ORDER)%nat ->
  <[k:=l]> L !!! j = if decide (j = k) then l else L !!! j.
Proof.
  intros Hlen Hk. case_decide as Hj; subst.
  - apply list_lookup_total_insert_eq. lia.
  - by apply list_lookup_total_insert_ne.
Qed.

Lemma elem_push (L : flists) k p j q :
  length L = MAX_ORDER -> (k < MAX_ORDER)%nat ->
  q ∈ push_block k p L !!! j <-> (j = k /\ q = p) \/ q ∈ L !!! j.
Proof.
  intros. unfold push_block. rewrite flists_insert by done.
  case_decide; subst; rewrite ?elem_of_cons; naive_solver.
Qed.

Lemma elem_drop (L : flists) k p j q :
  length L = MAX_ORDER -> (k < MAX_ORDER)%nat ->
  q ∈ drop_block k p L !!! j <-> q ∈ L !!! j /\ ~ (j = k /\ q = p).
Proof.
  intros. unfold drop_block. rewrite flists_insert by done.
  case_decide; subst; rewrite ?list_elem_of_filter; naive_solver.
Qed.

Lemma free_wf_elem_order (L : flists) k p : free_wf off L -> p ∈ L !!! k -> (k < MAX_ORDER)%nat.
Proof. intros HL Hp. apply (fw_block _ _ HL) in Hp. apply Hp. Qed.

Lemma free_wf_drop L k p :
  free_wf off L -> (k < MAX_ORDER)%nat -> free_wf off (drop_block k p L).
Proof.
  intros HL Hk. pose proof (fw_length _ _ HL) as Hlen. constructor.
  - unfold drop_block. by rewrite length_insert.
  - intros j. unfold drop_block. rewrite flists_insert by done.
    case_decide; [apply NoDup_filter|]; apply (fw_nodup _ _ HL).
  - intros j q Hq. apply elem_drop in Hq as [Hq _]; [|done..].
    by apply (fw_block _ _ HL).
  - intros k1 p1 k2 p2 x H1 H2. apply elem_drop in H1 as [H1 _]; [|done..].
    apply elem_drop in H2 as [H2 _]; [|done..]. by apply (fw_disjoint _ _ HL).
  - intros j q Hj Hq Hb. apply elem_drop in Hq as [Hq _]; [|done..].
    apply elem_drop in Hb as [Hb _]; [|done..]. by apply (fw_merged _ _ HL j q).
Qed.

Lemma free_wf_push L k p :
  free_wf off L -> block_wf off k p ->
  (forall x, in_block k p x -> ~ free_page L x) ->
  ((k < MAX_ORDER - 1)%nat -> buddy p k ∉ L !!! k) ->
  free_wf off (push_block k p L).
Proof.
  intros HL Hp Hfresh Hbuddy. pose proof (fw_length _ _ HL) as Hlen.
  pose proof (bw_order _ _ _ Hp) as Hk.
  assert (p ∉ L !!! k) as Hnew.
  { intros Hin. apply (Hfresh p); [apply in_block_self|].
    exists k, p. split; [done|apply in_block_self]. }
  constructor.
  - unfold push_block. by rewrite length_insert.
  - intros j. unfold push_block. rewrite flists_insert by done.
    case_decide; [apply NoDup_cons; split; [done|]|]; apply (fw_nodup _ _ HL).
  - intros j q Hq. apply elem_push in Hq as [[-> ->]|Hq]; [done| |done..].
    by apply (fw_block _ _ HL).
  - intros k1 p1 k2 p2 x H1 H2 Hx1 Hx2. rewrite elem_push in H1, H2 by done.
    destruct H1 as [[-> ->]|H1], H2 as [[-> ->]|H2]; [done| | |].
    + exfalso. apply (Hfresh x Hx1). by exists k2, p2.
    + exfalso. apply (Hfresh x Hx2). by exists k1, p1.
    + by apply (fw_disjoint _ _ HL k1 p1 k2 p2 x).
  - intros j q Hj Hq Hb. rewrite elem_push in Hq, Hb by done.
    destruct Hq as [[-> ->]|Hq], Hb as [[Heq Hb]|Hb].
    + by apply (buddy_ne k p (bw_align _ _ _ Hp)).
    + by apply Hbuddy.
    + subst. apply Hbuddy; [done|]. rewrite buddy_invol; [done|].
      by apply (fw_block _ _ HL) in Hq as [].
    + by apply (fw_merged _ _ HL j q).
Qed.

Lemma free_page_push L k p x :
  length L = MAX_ORDER -> (k < MAX_ORDER)%nat ->
  free_page (push_block k p L) x <-> in_block k p x \/ free_page L x.
Proof.
  intros Hlen Hk. unfold free_page. setoid_rewrite elem_push; [|done..].
  naive_solver.
Qed.

Lemma free_page_drop L k p x :
  free_wf off L -> p ∈ L !!! k ->
  free_page L x <-> in_block k p x \/ free_page (drop_block k p L) x.
Proof.
  intros HL Hp. pose proof (free_wf_elem_order _ _ _ HL Hp).
  pose proof (fw_length _ _ HL). unfold free_page.
  setoid_rewrite elem_drop; [|done..]. split; [|naive_solver].
  intros (j & q & Hq & Hx). destruct (decide (j = k /\ q = p)); naive_solver.
Qed.

Lemma drop_block_fresh L k p x :
  free_wf off L -> p ∈ L !!! k -> in_block k p x -> ~ free_page (drop_block k p L) x.
Proof.
  intros HL Hp Hx (j & q & Hq & Hqx).
  pose proof (free_wf_elem_order _ _ _ HL Hp). pose proof (fw_length _ _ HL).
  apply elem_drop in Hq as [Hq Hne]; [|done..].
  apply Hne. by apply (fw_disjoint _ _ HL j q k p x).
Qed.
End lists.

(** ** The reference operations on the set of free pages *)

Section spec.
Context (off : Z) (off_nonneg : 0 <= off).

Lemma spec_alloc_rec_sound n k L p L' :
  free_wf off L -> (n + k = MAX_ORDER)%nat -> spec_alloc_rec n k L = Some (p, L') ->
  free_wf off L' /\ block_wf off k p /\
  (forall x, in_block k p x -> ~ free_page L' x) /\
  (forall x, free_page L x <-> in_block k p x \/ free_page L' x).
Proof.
  revert k p L'. induction n as [|n IH]; intros k p L' HL Hn Hs; [done|].
  simpl in Hs. destruct (L !!! k) as [|q l] eqn:Hk.
  - destruct (spec_alloc_rec n (S k) L) as [[q L1]|] eqn:Hrec; [|done].
    simplify_eq. apply IH in Hrec as (HL1 & Hp & Hfresh & Hpages); [|done|lia].
    destruct (block_wf_split off k p off_nonneg Hp) as (Hwp & Hwb & Hb).
    assert (forall x, in_block (S k) p x <-> in_block k p x \/ in_block k (buddy p k) x)
      as HS.
    { intros x. rewrite <- in_block_S by apply Hwp.
      by replace (Z.min p (buddy p k)) with p by (pose proof (bsz_pos k); lia). }
    pose proof (fw_length _ _ HL1). pose proof (bw_order _ _ _ Hwp).
    split_and!; [|done| |].
    + apply free_wf_push; [done..| |].
      * intros x Hx. apply Hfresh, HS. by right.
      * rewrite buddy_invol by apply Hwp. intros _ Hin. apply (Hfresh p).
        -- apply in_block_self.
        -- exists k, p. split; [done|apply in_block_self].
    + intros x Hx. rewrite free_page_push by done. intros [Hx'|Hx'].
      * unfold in_block in *. lia.
      * apply (Hfresh x); [apply HS; by left|done].
    + intros x. rewrite Hpages, HS, free_page_push by done. tauto.
  - simplify_eq. assert (p ∈ L !!! k) as Hp by (rewrite Hk; constructor).
    split_and!.
    + apply free_wf_drop; [done|lia].
    + by apply (fw_block _ _ HL).
    + intros x. by apply (drop_block_fresh off).
    + intros x. by apply (free_page_drop off).
Qed.

Lemma spec_alloc_rec_none n k L :
  (n + k = MAX_ORDER)%nat ->
  spec_alloc_rec n k L = None <->
  forall j, (k <= j < MAX_ORDER)%nat -> L !!! j = [].
Proof.
  revert k. induction n as [|n IH]; intros k Hn; simpl.
  - split; [lia|done].
  - destruct (L !!! k) as [|q l] eqn:Hk.
    + specialize (IH (S k)).
      destruct (spec_alloc_rec n (S k) L) as [[p L1]|]; split; intros H; try done.
      * assert (Some (p, L1) = None) as Habs; [|done].
        apply IH; [lia|]. intros j Hj. apply H. lia.
      * intros j Hj. destruct (decide (j = k)) as [->|]; [done|].
        apply IH; [lia|done|lia].
    + split; [done|]. intros H. rewrite (H k) in Hk by lia. done.
Qed.

Lemma spec_dealloc_rec_sound n p k L :
  free_wf off L -> block_wf off k p -> (n + k = MAX_ORDER - 1)%nat ->
  (forall x, in_block k p x -> ~ free_page L x) ->
  free_wf off (spec_dealloc_rec n p k L) /\
  (forall x, free_page (spec_dealloc_rec n p k L) x <-> in_block k p x \/ free_page L x).
Proof.
  revert p k L. induction n as [|n IH]; intros p k L HL Hp Hn Hfresh; simpl.
  - pose proof (fw_length _ _ HL). pose proof (bw_order _ _ _ Hp). split.
    + apply free_wf_push; [done..|lia].
    + intros x. by apply free_page_push.
  - pose proof (fw_length _ _ HL). pose proof (bw_order _ _ _ Hp).
    case_decide as Hb.
    + pose proof (fw_block _ _ HL _ _ Hb) as Hwb.
      assert (forall x, in_block (S k) (Z.min p (buddy p k)) x <->
                in_block k p x \/ in_block k (buddy p k) x) as HS.
      { intros x. apply in_block_S, Hp. }
      destruct (IH (Z.min p (buddy p k)) (S k) (drop_block k (buddy p k) L))
        as [Hwf Hpages].
      * by apply free_wf_drop.
      * apply block_wf_merge; [lia|done..].
      * lia.
      * intros x [Hx|Hx]%HS Hf.
        -- apply (Hfresh x Hx), (free_page_drop off L k (buddy p k)); auto.
        -- by apply (drop_block_fresh off L k (buddy p k) x).
      * split; [done|]. intros x. rewrite Hpages, HS.
        rewrite (free_page_drop off L k (buddy p k) x HL Hb). tauto.
    + split; [by apply free_wf_push|]. intros x. by apply free_page_push.
Qed.

Lemma spec_alloc_sound k L p L' :
  free_wf off L -> spec_alloc k L = Some (p, L') ->
  free_wf off L' /\ block_wf off k p /\
  (forall x, in_block k p x -> ~ free_page L' x) /\
  (forall x, free_page L x <-> in_block k p x \/ free_page L' x).
Proof.
  unfold spec_alloc. intros HL Hs.
  destruct (decide (k <= MAX_ORDER)%nat).
  - apply (spec_alloc_rec_sound (MAX_ORDER - k)); [done|lia|done].
  - by replace (MAX_ORDER - k)%nat with 0%nat in Hs by lia.
Qed.

Lemma spec_dealloc_sound p k L :
  free_wf off L -> block_wf off k p ->
  (forall x, in_block k p x -> ~ free_page L x) ->
  free_wf off (spec_dealloc p k L) /\
  (forall x, free_page (spec_dealloc p k L) x <-> in_block k p x \/ free_page L x).
Proof.
  intros HL Hp. apply spec_dealloc_rec_sound; [done..|].
  pose proof (bw_order _ _ _ Hp). lia.
Qed.
End spec.
