(* ===== verification/FreeList.v ===== *)
(** * Doubly linked free lists in memory

    [dlist m l]: the frames [l] are linked in this order through their
    [FreeFrame] nodes.  The two routines that edit the links, [push_free] and
    [remove_frame] of [Buddy], act on such a list as consing and removing, and
    write to no memory but the nodes of the list. *)
From S2P Require Import Prelude Machine Buddy.

Definition head_or (l : list Z) (d : option Z) : option Z :=
  match l with [] => d | a :: _ => Some a end.
Fixpoint last_or (d : option Z) (l : list Z) : option Z :=
  match l with [] => d | a :: l => last_or (Some a) l end.

Fixpoint dlseg (m : mem) (prev : option Z) (l : list Z) (next : option Z) : Prop :=
  match l with
  | [] => True
  | a :: l' =>
      nonnull (rd m (prev_field a)) = prev /\
      nonnull (rd m (next_field a)) = head_or l' next /\
      dlseg m (Some a) l' next
  end.
Definition dlist (m : mem) (l : list Z) : Prop := dlseg m None l None.

(** The words of the nodes of [l]. *)
Definition node_of (l : list Z) (x : Z) : Prop :=
  exists a, a ∈ l /\ (x = next_field a \/ x = prev_field a).

(** Frames a list can hold: aligned, not null, and far enough apart for their
    nodes not to overlap. *)
Record frames_ok (l : list Z) : Prop := {
  fo_next : forall a, a ∈ l -> valid_ptr (next_field a);
  fo_prev : forall a, a ∈ l -> valid_ptr (prev_field a);
  fo_apart : forall a b, a ∈ l -> b ∈ l -> next_field a <> prev_field b;
  fo_nodup : NoDup l;
}.

Lemma prev_field_inj a b : prev_field a = prev_field b -> a = b.
Proof. unfold prev_field. lia. Qed.
Lemma next_field_inj a b : next_field a = next_field b -> a = b.
Proof. done. Qed.

Lemma valid_ptr_nonnull a : valid_ptr (next_field a) -> nonnull a = Some a.
Proof. intros [? _]. apply nonnull_pos. unfold next_field in *. lia. Qed.

Lemma frames_ok_sub l l' :
  (forall a, a ∈ l' -> a ∈ l) -> NoDup l' -> frames_ok l -> frames_ok l'.
Proof. intros Hin Hnd []. constructor; auto. Qed.

Lemma dlseg_frame m m' prev l next :
  (forall x, node_of l x -> rd m' x = rd m x) ->
  dlseg m prev l next -> dlseg m' prev l next.
Proof.
  revert prev. induction l as [|a l IH]; simpl; [done|].
  intros prev Heq (Hp & Hn & Hl). rewrite !Heq.
  - split_and!; [done..|]. apply IH; [|done].
    intros x (b & Hb & Hx). apply Heq. exists b. split; [by right|done].
  - exists a. split; [left|by left].
  - exists a. split; [left|by right].
Qed.

Lemma dlseg_app m prev l1 l2 next :
  dlseg m prev (l1 ++ l2) next <->
  dlseg m prev l1 (head_or l2 next) /\ dlseg m (last_or prev l1) l2 next.
Proof.
  revert prev. induction l1 as [|a l1 IH]; intros prev; simpl; [tauto|].
  rewrite IH. destruct l1; simpl; tauto.
Qed.

Lemma head_or_app l1 l2 d : head_or (l1 ++ l2) d = head_or l1 (head_or l2 d).
Proof. by destruct l1. Qed.
Lemma last_or_snoc d l a : last_or d (l ++ [a]) = Some a.
Proof. revert d. induction l; intros; simpl; done. Qed.

(** Changing the first [prev] link, or the last [next] link, of a segment. *)
Lemma dlseg_set_prev m prev a l next p :
  frames_ok (a :: l) -> p <> Some 0 -> dlseg m prev (a :: l) next ->
  dlseg (<[prev_field a := word_of p]> m) p (a :: l) next.
Proof.
  intros Hok Hp (_ & Hn & Hl). simpl. split_and!.
  - by rewrite rd_insert_eq, nonnull_word_of.
  - rewrite rd_insert_ne; [done|]. apply not_eq_sym, (fo_apart _ Hok); left.
  - eapply dlseg_frame, Hl. intros x (b & Hb & [->| ->]); apply rd_insert_ne.
    + apply not_eq_sym, (fo_apart _ Hok); [by right|left].
    + intros Heq%prev_field_inj. subst.
      apply (NoDup_cons_1_1 b l); [apply Hok|done].
Qed.

Lemma dlseg_set_next m prev l a next n :
  frames_ok (l ++ [a]) -> n <> Some 0 -> dlseg m prev (l ++ [a]) next ->
  dlseg (<[next_field a := word_of n]> m) prev (l ++ [a]) n.
Proof.
  intros Hok Hn. rewrite !dlseg_app. simpl. intros (Hl & Hp & _).
  assert (a ∈ l ++ [a]) as Ha by (apply elem_of_app; right; left).
  split_and!; [| |by rewrite rd_insert_eq, nonnull_word_of|done].
  - eapply dlseg_frame, Hl. intros x (b & Hb & [->| ->]); apply rd_insert_ne.
    + intros Heq. apply next_field_inj in Heq. subst.
      pose proof (fo_nodup _ Hok) as Hnd. apply NoDup_app in Hnd as (_ & Hnd & _).
      apply (Hnd b Hb). left.
    + apply (fo_apart _ Hok); [done|apply elem_of_app; by left].
  - rewrite rd_insert_ne; [done|]. by apply (fo_apart _ Hok).
Qed.

Lemma node_of_ne all l b x :
  frames_ok all -> (forall c, c ∈ l -> c ∈ all) -> b ∈ all -> b ∉ l ->
  node_of l x -> next_field b <> x /\ prev_field b <> x.
Proof.
  intros Hok Hsub Hb Hnb (c & Hc & [->| ->]); split.
  - intros Heq%next_field_inj. congruence.
  - apply not_eq_sym, (fo_apart _ Hok); auto.
  - apply (fo_apart _ Hok); auto.
  - intros Heq%prev_field_inj. congruence.
Qed.

Lemma dlseg_write_other m all prev l next b v :
  frames_ok all -> (forall c, c ∈ l -> c ∈ all) -> b ∈ all -> b ∉ l ->
  dlseg m prev l next ->
  dlseg (<[next_field b := v]> m) prev l next /\
  dlseg (<[prev_field b := v]> m) prev l next.
Proof.
  intros Hok Hsub Hb Hnb Hl.
  split; (eapply dlseg_frame, Hl); intros x Hx; apply rd_insert_ne;
    by apply (node_of_ne all l b x).
Qed.

Lemma mem_frame_next l m a v : a ∈ l -> mem_frame (node_of l) m (<[next_field a := v]> m).
Proof. intros. apply mem_frame_insert. exists a. auto. Qed.
Lemma mem_frame_prev l m a v : a ∈ l -> mem_frame (node_of l) m (<[prev_field a := v]> m).
Proof. intros. apply mem_frame_insert. exists a. auto. Qed.
#[export] Hint Resolve mem_frame_next mem_frame_prev : kmem.

(** ** The link-editing routines of the allocator *)

Definition set_list (k : nat) (h : option Z) (s : BuddyAllocator) : BuddyAllocator :=
  mkBuddy (<[k := h]> (free_lists s)) (bitmap s) (offset s).

Lemma run_set_free_list k h s m :
  (k < length (free_lists s))%nat ->
  set_free_list k h (s, m) = Ret ((), (set_list k h s, m)).
Proof.
  intros Hk. unfold set_free_list. run (run_get_self s m).
  by run (run_lift _ (s, m) _ (index_set_ok _ _ h Hk)).
Qed.

Lemma push_free_spec s m k l a :
  free_lists s !! k = Some (head_or l None) -> dlist m l -> frames_ok (a :: l) ->
  exists m', push_free a k (s, m) = Ret ((), (set_list k (Some a) s, m')) /\
    dlist m' (a :: l) /\ mem_frame (node_of (a :: l)) m m'.
Proof.
  intros Hk Hl Hok. unfold push_free.
  assert (a ∈ a :: l) as Ha by left.
  assert (a ∉ l) as Hal by (apply NoDup_cons_1_1, Hok).
  pose proof (fo_next _ Hok a Ha) as Hva. rewrite (valid_ptr_nonnull a Hva).
  run (run_store_ptr _ _ _ _ (fo_prev _ Hok a Ha)). run (run_get_self s _).
  run (run_lift _ (s, _) _ (index_ok _ _ _ Hk)).
  run (run_store_ptr _ _ _ _ Hva).
  assert (k < length (free_lists s))%nat as Hlen by (by eapply lookup_lt_Some).
  set (m2 := <[next_field a := _]> _).
  assert (dlist m2 l) as Hl2.
  { apply (dlseg_write_other _ (a :: l)); [done|by right|done..|].
    apply (dlseg_write_other _ (a :: l)); [done|by right|done..]. }
  assert (next_field a <> prev_field a) as Hnp by (by apply (fo_apart _ Hok)).
  assert (mem_frame (node_of (a :: l)) m m2) as Hf by (unfold m2; eauto with kmem).
  destruct l as [|h l']; simpl.
  - run (run_ret () (s, m2)). rewrite run_set_free_list by done.
    eexists. split_and!; [done| |done]. unfold dlist, m2. simpl.
    rewrite rd_insert_ne, !rd_insert_eq by done. done.
  - assert (h ∈ a :: h :: l') as Hh by (right; left).
    run (run_store_ptr (prev_field h) (Some a) s m2 (fo_prev _ Hok h Hh)).
    rewrite run_set_free_list by done. eexists. split_and!; [done| |].
    + assert (a <> h) as Hah by (intros ->; apply Hal; left).
      assert (rd m2 (prev_field a) = 0) as Hp2
        by (unfold m2; by rewrite rd_insert_ne, rd_insert_eq by done).
      assert (rd m2 (next_field a) = h) as Hn2 by apply rd_insert_eq.
      split_and!.
      * rewrite rd_insert_ne, Hp2; [done|]. intros Heq%prev_field_inj. congruence.
      * rewrite rd_insert_ne, Hn2; [|apply not_eq_sym; by apply (fo_apart _ Hok)].
        simpl. apply (valid_ptr_nonnull h), (fo_next _ Hok h Hh).
      * apply dlseg_set_prev with (prev := None); [| |done].
        -- eapply frames_ok_sub, Hok; [by right|]. eapply NoDup_cons_1_2, Hok.
        -- destruct Hva as [? _]. unfold next_field in *. intros [=]. lia.
    + eauto with kmem.
Qed.

Lemma dlist_middle m l1 a l2 :
  dlist m (l1 ++ a :: l2) <->
  dlseg m None l1 (Some a) /\
  nonnull (rd m (prev_field a)) = last_or None l1 /\
  nonnull (rd m (next_field a)) = head_or l2 None /\
  dlseg m (Some a) l2 None.
Proof. unfold dlist. rewrite dlseg_app. simpl. tauto. Qed.

Lemma dlist_glue m l1 l2 :
  dlist m (l1 ++ l2) <->
  dlseg m None l1 (head_or l2 None) /\ dlseg m (last_or None l1) l2 None.
Proof. apply dlseg_app. Qed.

Lemma head_or_valid l : frames_ok l -> head_or l None <> Some 0.
Proof.
  intros Hok. destruct l as [|a l]; simpl; [done|]. intros [= ->].
  destruct (fo_next _ Hok 0 ltac:(left)) as [? _]. unfold next_field in *. lia.
Qed.
Lemma last_or_valid l : frames_ok l -> last_or None l <> Some 0.
Proof.
  destruct l as [|b l _] using rev_ind; [done|]. intros Hok.
  rewrite last_or_snoc. intros [= ->].
  destruct (fo_next _ Hok 0 ltac:(apply elem_of_app; right; left)) as [? _].
  unfold next_field in *. lia.
Qed.

Section unlink.
Context (l1 : list Z) (a : Z) (l2 : list Z) (Hok : frames_ok (l1 ++ a :: l2)).

Lemma unlink_elem c : c ∈ l1 \/ c = a \/ c ∈ l2 -> c ∈ l1 ++ a :: l2.
Proof. rewrite elem_of_app, elem_of_cons. tauto. Qed.
Lemma unlink_notin : (a ∉ l1) /\ (a ∉ l2) /\ (forall c, c ∈ l1 -> c ∉ l2).
Proof.
  pose proof (fo_nodup _ Hok) as H. apply NoDup_app in H as (_ & Hd & H2).
  apply NoDup_cons in H2 as [? _]. split_and!; [|done|].
  - intros Hin. apply (Hd a Hin). left.
  - intros c Hc Hc2. apply (Hd c Hc). by right.
Qed.
Lemma unlink_ok1 : frames_ok l1.
Proof.
  eapply frames_ok_sub, Hok; [intros; apply unlink_elem; auto|].
  pose proof (fo_nodup _ Hok) as H. by apply NoDup_app in H as [? _].
Qed.
Lemma unlink_ok2 : frames_ok l2.
Proof.
  eapply frames_ok_sub, Hok; [intros; apply unlink_elem; auto|].
  pose proof (fo_nodup _ Hok) as H. apply NoDup_app in H as (_ & _ & H).
  by apply NoDup_cons in H as [_ ?].
Qed.

End unlink.

(** First half of [remove_frame]: the predecessor, or the list head, skips
    the removed frame. *)
Lemma unlink_prev_spec l1 a l2 s m k :
  frames_ok (l1 ++ a :: l2) ->
  free_lists s !! k = Some (head_or (l1 ++ a :: l2) None) ->
  dlist m (l1 ++ a :: l2) ->
  exists m1,
    (match last_or None l1 with
     | Some p => next ← load_ptr (next_field a); store_ptr (next_field p) next
     | None => next ← load_ptr (next_field a); set_free_list k next
     end) (s, m) = Ret ((), (set_list k (head_or (l1 ++ l2) None) s, m1)) /\
    dlseg m1 None l1 (head_or l2 None) /\ dlseg m1 (Some a) l2 None /\
    rd m1 (prev_field a) = rd m (prev_field a) /\
    rd m1 (next_field a) = rd m (next_field a) /\
    mem_frame (node_of (l1 ++ a :: l2)) m m1.
Proof.
  intros Hok Hk (H1 & Hp & Hn & H2)%dlist_middle.
  destruct (unlink_notin _ _ _ Hok) as (Hn1 & Hn2 & Hd).
  assert (valid_ptr (next_field a)) as Hva by (apply (fo_next _ Hok), unlink_elem; auto).
  assert (k < length (free_lists s))%nat as Hlen by (by eapply lookup_lt_Some).
  pose proof (run_load_ptr (next_field a) s m Hva) as Hload. rewrite Hn in Hload.
  destruct l1 as [|b l1' _] eqn:El1 using rev_ind.
  - simpl. run Hload. rewrite run_set_free_list by done.
    exists m. split_and!; [done..|apply mem_frame_refl].
  - rewrite last_or_snoc. run Hload.
    assert (b ∈ (l1' ++ [b]) ++ a :: l2) as Hb
      by (apply elem_of_app; left; apply elem_of_app; right; left).
    rewrite run_store_ptr by (by apply Hok).
    assert (set_list k (head_or ((l1' ++ [b]) ++ l2) None) s = s) as ->.
    { destruct s as [fl bm o]. unfold set_list. simpl in *. f_equal.
      apply list_insert_id. rewrite Hk. by destruct l1'. }
    assert (b <> a) as Hba by (intros ->; apply Hn1, elem_of_app; right; left).
    eexists. split_and!; [done| | | | |by apply mem_frame_next].
    + apply dlseg_set_next with (next := Some a); [eapply unlink_ok1, Hok| |done].
      eapply head_or_valid, unlink_ok2, Hok.
    + apply (dlseg_write_other _ ((l1' ++ [b]) ++ a :: l2)); [done| |done| |done].
      * intros c Hc. apply elem_of_app. right. by right.
      * apply Hd, elem_of_app. right. left.
    + apply rd_insert_ne. apply (fo_apart _ Hok); [done|].
      apply elem_of_app. right. left.
    + apply rd_insert_ne. intros Heq%next_field_inj. congruence.
Qed.

(** Second half: the successor points back past the removed frame. *)
Lemma unlink_next_spec l1 a l2 (s : BuddyAllocator) m :
  frames_ok (l1 ++ a :: l2) ->
  dlseg m None l1 (head_or l2 None) -> dlseg m (Some a) l2 None ->
  nonnull (rd m (prev_field a)) = last_or None l1 ->
  exists m2,
    (match head_or l2 None with
     | Some n => prev ← load_ptr (prev_field a); store_ptr (prev_field n) prev
     | None => mret ()
     end) (s, m) = Ret ((), (s, m2)) /\
    dlseg m2 None l1 (head_or l2 None) /\ dlseg m2 (last_or None l1) l2 None /\
    mem_frame (node_of (l1 ++ a :: l2)) m m2.
Proof.
  intros Hok H1 H2 Hp. destruct (unlink_notin _ _ _ Hok) as (Hn1 & Hn2 & Hd).
  assert (valid_ptr (prev_field a)) as Hva by (apply (fo_prev _ Hok), unlink_elem; auto).
  pose proof (run_load_ptr (prev_field a) s m Hva) as Hload. rewrite Hp in Hload.
  destruct l2 as [|n l2'] eqn:El2; simpl.
  - exists m. split_and!; [done..|apply mem_frame_refl].
  - run Hload. assert (n ∈ l1 ++ a :: n :: l2') as Hn
      by (apply elem_of_app; right; right; left).
    rewrite run_store_ptr by (by apply (fo_prev _ Hok)).
    eexists. split; [done|split; [|split; [|by apply mem_frame_prev]]].
    + apply (dlseg_write_other _ (l1 ++ a :: n :: l2')); [done| |done| |done].
      * intros c Hc. apply elem_of_app. by left.
      * intros Hin. apply (Hd n Hin). left.
    + apply dlseg_set_prev with (prev := Some a); [eapply unlink_ok2, Hok| |done].
      eapply last_or_valid, unlink_ok1, Hok.
Qed.

Lemma remove_frame_spec s m k l1 a l2 :
  frames_ok (l1 ++ a :: l2) ->
  free_lists s !! k = Some (head_or (l1 ++ a :: l2) None) ->
  dlist m (l1 ++ a :: l2) ->
  exists m', remove_frame a k (s, m) =
      Ret ((), (set_list k (head_or (l1 ++ l2) None) s, m')) /\
    dlist m' (l1 ++ l2) /\ mem_frame (node_of (l1 ++ a :: l2)) m m'.
Proof.
  intros Hok Hk Hl. destruct (unlink_notin _ _ _ Hok) as (Hn1 & Hn2 & _).
  assert (a ∈ l1 ++ a :: l2) as Ha by (apply unlink_elem; auto).
  pose proof (fo_next _ Hok a Ha) as Hvn. pose proof (fo_prev _ Hok a Ha) as Hvp.
  destruct (unlink_prev_spec l1 a l2 s m k Hok Hk Hl)
    as (m1 & Hrun1 & H1 & H2 & Hrp & Hrn & Hf1).
  apply dlist_middle in Hl as (_ & Hp & Hn & _).
  set (s' := set_list k _ s) in *.
  destruct (unlink_next_spec l1 a l2 s' m1 Hok H1 H2) as (m2 & Hrun2 & H1' & H2' & Hf2).
  { by rewrite Hrp. }
  unfold remove_frame. run (run_load_ptr (prev_field a) s m Hvp). rewrite Hp.
  run Hrun1. run (run_load_ptr (next_field a) s' m1 Hvn). rewrite Hrn, Hn.
  run Hrun2. run (run_store_ptr (next_field a) None s' m2 Hvn).
  rewrite run_store_ptr by done. eexists. split_and!; [done| |eauto 6 with kmem].
  assert (forall c, c ∈ l1 -> c ∈ l1 ++ a :: l2) by (intros; apply unlink_elem; auto).
  assert (forall c, c ∈ l2 -> c ∈ l1 ++ a :: l2) by (intros; apply unlink_elem; auto).
  apply dlist_glue. split;
    apply (dlseg_write_other _ (l1 ++ a :: l2)); try done;
    by apply (dlseg_write_other _ (l1 ++ a :: l2)).
Qed.
