(* ===== verification/BuddyBits.v ===== *)
(** * The bitmap of buddy pairs

    One bit per pair of buddies: [get_bit_index] is injective on pairs and
    stays inside the bitmap, so [toggle_bit] flips the bit of one pair and of
    no other.  [bits_ok] is the meaning the code gives the bits: a bit is set
    when exactly one block of its pair is in a free list. *)
From S2P Require Import Prelude Machine Buddy BuddySpec.

Definition bit_index (k : nat) (p : Z) : Z :=
  MAX_PAGES - 2 ^ (18 - Z.of_nat k) + p / bsz (S k).

Definition getbit (bm : list Z) (i : Z) : bool :=
  Z.testbit (default 0 (bm !! Z.to_nat (i / 8))) (i mod 8).

Definition flipbit (bm : list Z) (i : Z) : list Z :=
  <[Z.to_nat (i / 8) :=
      Z.lxor (default 0 (bm !! Z.to_nat (i / 8))) (Z.shiftl 1 (i mod 8))]> bm.

Definition bits_ok (bm : list Z) (L : flists) : Prop :=
  length bm = Z.to_nat BITMAP_SIZE /\
  forall k p, (k < MAX_ORDER - 1)%nat -> (bsz k | p) -> 0 <= p < MAX_PAGES ->
    getbit bm (bit_index k p) =
      xorb (bool_decide (p ∈ L !!! k)) (bool_decide (buddy p k ∈ L !!! k)).

(** ** Indices *)

Lemma BITMAP_SIZE_eq : BITMAP_SIZE = 32768.
Proof. reflexivity. Qed.

Lemma pair_range k p :
  (k < MAX_ORDER - 1)%nat -> 0 <= p < MAX_PAGES ->
  0 <= p / bsz (S k) < 2 ^ (17 - Z.of_nat k) /\
  2 ^ (18 - Z.of_nat k) = 2 * 2 ^ (17 - Z.of_nat k).
Proof.
  unfold MAX_ORDER, MAX_PAGES, bsz. intros Hk Hp.
  assert (2 ^ (18 - Z.of_nat k) = 2 * 2 ^ (17 - Z.of_nat k)) as ->.
  { rewrite <- Z.pow_succ_r by lia. f_equal. lia. }
  split; [|done]. split; [apply Z.div_pos; [lia|]; apply Z.pow_pos_nonneg; lia|].
  apply Z.div_lt_upper_bound; [apply Z.pow_pos_nonneg; lia|].
  rewrite <- Z.pow_add_r by lia. replace (_ + _) with 18 by lia. lia.
Qed.

Lemma bit_index_range k p :
  (k < MAX_ORDER - 1)%nat -> 0 <= p < MAX_PAGES -> 0 <= bit_index k p < MAX_PAGES.
Proof.
  intros Hk Hp. destruct (pair_range k p Hk Hp) as [H1 H2].
  assert (0 < 2 ^ (17 - Z.of_nat k) <= 2 ^ 17).
  { unfold MAX_ORDER in Hk. split; [apply Z.pow_pos_nonneg; lia|].
    apply Z.pow_le_mono_r; lia. }
  unfold bit_index, MAX_PAGES in *. lia.
Qed.

Lemma bit_index_order k1 k2 p1 p2 :
  (k1 < k2)%nat -> (k2 < MAX_ORDER - 1)%nat ->
  0 <= p1 < MAX_PAGES -> 0 <= p2 < MAX_PAGES -> bit_index k1 p1 < bit_index k2 p2.
Proof.
  intros Hk Hk2 Hp1 Hp2.
  destruct (pair_range k1 p1) as [H1 H1']; [lia|done|].
  destruct (pair_range k2 p2) as [H2 _]; [lia|done|].
  assert (2 ^ (18 - Z.of_nat k2) <= 2 ^ (17 - Z.of_nat k1)).
  { apply Z.pow_le_mono_r; lia. }
  unfold bit_index. lia.
Qed.

Lemma bit_index_inj k1 k2 p1 p2 :
  (k1 < MAX_ORDER - 1)%nat -> (k2 < MAX_ORDER - 1)%nat ->
  0 <= p1 < MAX_PAGES -> 0 <= p2 < MAX_PAGES ->
  bit_index k1 p1 = bit_index k2 p2 -> k1 = k2 /\ p1 / bsz (S k1) = p2 / bsz (S k2).
Proof.
  intros Hk1 Hk2 Hp1 Hp2 Heq.
  destruct (decide (k1 = k2)) as [->|Hne]; [unfold bit_index in Heq; split; lia|].
  destruct (decide (k1 < k2)%nat).
  - pose proof (bit_index_order k1 k2 p1 p2). lia.
  - pose proof (bit_index_order k2 k1 p2 p1). lia.
Qed.

(** Two aligned pages of the same pair are equal or buddies. *)
Lemma same_pair k p q :
  (bsz k | p) -> (bsz k | q) ->
  p / bsz (S k) = q / bsz (S k) <-> q = p \/ q = buddy p k.
Proof.
  intros Hp Hq. pose proof (bsz_pos k). rewrite bsz_S.
  destruct Hp as [a ->], Hq as [b ->]. unfold buddy. rewrite Z.div_mul by lia.
  rewrite !Z.div_mul_cancel_r by lia.
  pose proof (Z.div_mod a 2) as Ha. pose proof (Z.div_mod b 2) as Hb.
  rewrite Zmod_odd in Ha, Hb. rewrite <- !Z.negb_even in Ha, Hb.
  destruct (Z.even a), (Z.even b); simpl in *; nia.
Qed.

Lemma bit_index_buddy k p : (bsz k | p) -> bit_index k (buddy p k) = bit_index k p.
Proof.
  intros Hp. unfold bit_index. f_equal. apply same_pair.
  - by apply buddy_align.
  - done.
  - right. by rewrite buddy_invol.
Qed.

Lemma get_bit_index_ok {ck : OverflowChecks} k p :
  (k < MAX_ORDER - 1)%nat -> 0 <= p < MAX_PAGES ->
  get_bit_index p k = Ret (bit_index k p).
Proof.
  intros Hk Hp. pose proof (bit_index_range k p Hk Hp) as Hr.
  unfold get_bit_index. assert (order_offset k = Ret (MAX_PAGES - 2 ^ (18 - Z.of_nat k))) as ->.
  { do 11 (destruct k as [|k]; [reflexivity|]). unfold MAX_ORDER in Hk. lia. }
  simpl. rewrite shr64_ok by (unfold MAX_ORDER in Hk; lia). simpl.
  replace (Z.of_nat k + 1) with (Z.of_nat (S k)) by lia. fold (bsz (S k)).
  unfold bit_index, MAX_PAGES in *. by rewrite add64_ok by lia.
Qed.

(** ** Flipping one bit *)

Lemma testbit_one o i : 0 <= o -> 0 <= i -> Z.testbit (Z.shiftl 1 o) i = bool_decide (i = o).
Proof.
  intros Ho Hi. rewrite Z.shiftl_spec by lia. case_bool_decide as H.
  - subst. by rewrite Z.sub_diag.
  - destruct (decide (i < o)); [by apply Z.testbit_neg_r; lia|].
    apply Z.bits_above_log2; [lia|]. simpl. lia.
Qed.

Lemma land_one_testbit b o :
  0 <= o -> negb (Z.land b (Z.shiftl 1 o) =? 0) = Z.testbit b o.
Proof.
  intros Ho. destruct (Z.testbit b o) eqn:Hb.
  - apply negb_true_iff, Z.eqb_neq. intros H0.
    assert (Z.testbit (Z.land b (Z.shiftl 1 o)) o = true) as H1.
    { by rewrite Z.land_spec, Hb, testbit_one, bool_decide_true by lia. }
    rewrite H0, Z.testbit_0_l in H1. done.
  - apply negb_false_iff, Z.eqb_eq. apply Z.bits_inj'. intros i Hi.
    rewrite Z.land_spec, Z.testbit_0_l, testbit_one by lia.
    case_bool_decide; subst; [by rewrite Hb|apply andb_false_r].
Qed.

Lemma length_flipbit bm i : length (flipbit bm i) = length bm.
Proof. unfold flipbit. apply length_insert. Qed.

Lemma getbit_flipbit bm i j :
  0 <= i < 8 * Z.of_nat (length bm) -> 0 <= j ->
  getbit (flipbit bm i) j = xorb (getbit bm j) (bool_decide (j = i)).
Proof.
  intros Hi Hj. unfold getbit, flipbit.
  pose proof (Z.div_mod i 8). pose proof (Z.div_mod j 8).
  pose proof (Z.mod_pos_bound i 8). pose proof (Z.mod_pos_bound j 8).
  destruct (decide (Z.to_nat (i / 8) = Z.to_nat (j / 8))) as [Heq|Hne].
  - assert (i / 8 = j / 8) as Hd by lia. rewrite <- Hd.
    rewrite list_lookup_insert_eq by lia. simpl.
    rewrite Z.lxor_spec, testbit_one by lia. f_equal.
    apply bool_decide_ext. lia.
  - rewrite list_lookup_insert_ne by done.
    rewrite bool_decide_false by (intros ->; done). by rewrite xorb_false_r.
Qed.

Definition set_bitmap (bm : list Z) (s : BuddyAllocator) : BuddyAllocator :=
  mkBuddy (free_lists s) bm (offset s).

Lemma toggle_bit_ok {ck : OverflowChecks} s m k p :
  (k < MAX_ORDER - 1)%nat -> 0 <= p < MAX_PAGES ->
  length (bitmap s) = Z.to_nat BITMAP_SIZE ->
  toggle_bit p k (s, m) =
    Ret (negb (getbit (bitmap s) (bit_index k p)),
         (set_bitmap (flipbit (bitmap s) (bit_index k p)) s, m)).
Proof.
  intros Hk Hp Hlen. pose proof (bit_index_range k p Hk Hp) as Hr.
  set (i := bit_index k p) in *. unfold toggle_bit.
  run (run_lift _ (s, m) _ (get_bit_index_ok k p Hk Hp)). fold i.
  assert (0 <= i / 8 < BITMAP_SIZE) as Hb.
  { rewrite BITMAP_SIZE_eq. unfold MAX_PAGES in Hr. split; [apply Z.div_pos; lia|].
    apply Z.div_lt_upper_bound; lia. }
  assert (Z.to_nat (i / 8) < length (bitmap s))%nat as Hlt by lia.
  run (run_get_self s m).
  destruct (lookup_lt_is_Some_2 (bitmap s) _ Hlt) as [byte Hbyte].
  run (run_lift _ (s, m) _ (index_ok _ _ _ Hbyte)).
  run (run_lift _ (s, m) _ (index_set_ok _ _ (Z.lxor byte (Z.shiftl 1 (i mod 8))) Hlt)).
  run (run_put_self s _ m).
  run (run_lift _ (_, m) _ (index_ok _ _ _ (list_lookup_insert_eq _ _ _ Hlt))).
  assert (0 <= i mod 8 < 8) by (apply Z.mod_pos_bound; lia).
  rewrite run_ret, land_one_testbit by lia.
  rewrite Z.lxor_spec, testbit_one, bool_decide_true by lia.
  unfold getbit, set_bitmap, flipbit. rewrite Hbyte. simpl. by rewrite xorb_true_r.
Qed.

(** Flipping the bit of a pair matches one block of the pair entering or
    leaving its free list. *)
Lemma bits_ok_flip bm L L' k p :
  bits_ok bm L -> (k < MAX_ORDER - 1)%nat -> (bsz k | p) -> 0 <= p < MAX_PAGES ->
  (forall j, j <> k -> L' !!! j = L !!! j) ->
  (forall q, bool_decide (q ∈ L' !!! k) =
             xorb (bool_decide (q ∈ L !!! k)) (bool_decide (q = p))) ->
  bits_ok (flipbit bm (bit_index k p)) L'.
Proof.
  intros [Hlen Hbits] Hk Hp Hr Hother Hflip. split; [by rewrite length_flipbit|].
  intros j q Hj Hq Hqr.
  pose proof (bit_index_range k p Hk Hr). pose proof (bit_index_range j q Hj Hqr).
  rewrite getbit_flipbit; [|rewrite Hlen, BITMAP_SIZE_eq; unfold MAX_PAGES in *; lia|lia].
  rewrite Hbits by done. destruct (decide (j = k)) as [->|Hne].
  - rewrite !Hflip.
    assert (bool_decide (bit_index k q = bit_index k p) =
            xorb (bool_decide (q = p)) (bool_decide (buddy q k = p))) as ->.
    { assert (bit_index k q = bit_index k p <-> p = q \/ p = buddy q k) as Hiff.
      { rewrite <- same_pair by done. split; [|unfold bit_index; intros ->; done].
        by intros [_ ?]%bit_index_inj. }
      pose proof (buddy_ne k q Hq). repeat case_bool_decide; simpl; try done; exfalso; naive_solver. }
    destruct (bool_decide (q ∈ L !!! k)), (bool_decide (buddy q k ∈ L !!! k)),
      (bool_decide (q = p)), (bool_decide (buddy q k = p)); done.
  - rewrite (bool_decide_false (bit_index j q = _)) by (by intros [? _]%bit_index_inj).
    by rewrite (Hother j Hne), xorb_false_r.
Qed.
