(* ===== verification/BuddyProofs.v ===== *)
(** * The buddy allocator implements its abstract specification

    [buddy_rep s m L]: the allocator [s] with memory [m] represents the free
    lists [L] of the reference allocator.  [alloc] and [dealloc] compute what
    the reference computes, in every state that represents something, without
    panicking or touching memory that is not free. *)
From S2P Require Import Prelude Machine X86Api Buddy BuddySpec FreeList BuddyBits.

(** The virtual address of page [p]. *)
Definition addr (off p : Z) : Z := off + PAGE_SIZE * p.

(** The bytes of the pages that satisfy [P]. *)
Definition bytes_of (off : Z) (P : Z -> Prop) (x : Z) : Prop :=
  exists pg, P pg /\ addr off pg <= x < addr off pg + PAGE_SIZE.

Record buddy_core (s : BuddyAllocator) (m : mem) (L : flists) : Prop := {
  bc_wf : free_wf (offset s) L;
  bc_low : 0 <= offset s;
  bc_align : offset s mod 8 = 0;
  bc_high : offset s + MAX_PAGES * PAGE_SIZE < U64_LIM;
  bc_heads : forall k, (k < MAX_ORDER)%nat ->
    free_lists s !! k = Some (head_or (addr (offset s) <$> L !!! k) None);
  bc_dlist : forall k, dlist m (addr (offset s) <$> L !!! k);
}.

Definition buddy_rep (s : BuddyAllocator) (m : mem) (L : flists) : Prop :=
  buddy_core s m L /\ bits_ok (bitmap s) L.

(** ** Addresses *)

Lemma addr_inj off p q : addr off p = addr off q -> p = q.
Proof. unfold addr, PAGE_SIZE. lia. Qed.
#[global] Instance addr_inj_inst off : Inj (=) (=) (addr off).
Proof. intros p q. apply addr_inj. Qed.

Lemma lxor_one q : Z.lxor q 1 = if Z.even q then q + 1 else q - 1.
Proof.
  assert (forall r, Z.lxor (2 * r) 1 = 2 * r + 1) as Heven.
  { intros r. symmetry. apply Z.add_nocarry_lxor.
    change 1 with (Z.ones 1). rewrite Z.land_ones, Z.mul_comm by lia.
    by apply Z.mod_mul. }
  destruct (Z.even q) eqn:He.
  - apply Z.even_spec in He as [r ->]. apply Heven.
  - assert (Z.odd q = true) as Ho by (by rewrite <- Z.negb_even, He).
    apply Z.odd_spec in Ho as [r ->]. rewrite <- Heven, Z.lxor_assoc, Z.lxor_nilpotent.
    rewrite Z.lxor_0_r, Heven. lia.
Qed.

Lemma lxor_buddy k p :
  (bsz k | p) -> Z.lxor (PAGE_SIZE * p) (bsz k * PAGE_SIZE) = PAGE_SIZE * buddy p k.
Proof.
  intros [q ->]. pose proof (bsz_pos k). unfold buddy. rewrite Z.div_mul by lia.
  assert (bsz k * PAGE_SIZE = 2 ^ (Z.of_nat k + 12)) as Hpow.
  { unfold bsz, PAGE_SIZE. by rewrite Z.pow_add_r by lia. }
  replace (PAGE_SIZE * (q * bsz k)) with (q * 2 ^ (Z.of_nat k + 12)) by lia.
  replace (bsz k * PAGE_SIZE) with (1 * 2 ^ (Z.of_nat k + 12)) by lia.
  rewrite <- !Z.shiftl_mul_pow2, <- Z.shiftl_lxor, Z.shiftl_mul_pow2 by lia.
  rewrite lxor_one, <- Hpow. destruct (Z.even q); lia.
Qed.

Section proofs.
Context {ck : OverflowChecks}.

Lemma page_index_ok s m L p :
  buddy_core s m L -> 0 <= p < MAX_PAGES ->
  page_index (addr (offset s) p) (s, m) = Ret (p, (s, m)).
Proof.
  intros [_ ? _ ? _ _] Hp. unfold page_index. run (run_get_self s m).
  unfold addr, MAX_PAGES, PAGE_SIZE in *. rewrite sub64_ok by lia.
  replace (offset s + 4096 * p - offset s) with (p * 4096) by lia.
  run (run_lift (p * 4096) (s, m) _ eq_refl). by rewrite Z.div_mul.
Qed.

Lemma buddy_address_ok s m L k p :
  buddy_core s m L -> (k < MAX_ORDER - 1)%nat -> (bsz k | p) -> 0 <= p < MAX_PAGES ->
  calculate_buddy_address (addr (offset s) p) k (s, m) =
    Ret (addr (offset s) (buddy p k), (s, m)).
Proof.
  intros [_ ? _ Hh _ _] Hk Hp Hr. pose proof (buddy_range k p Hk Hp Hr) as Hb.
  pose proof (bsz_pos k). unfold calculate_buddy_address. run (run_get_self s m).
  assert (bsz k <= 2 ^ 11) as Hsz.
  { apply Z.pow_le_mono_r; unfold MAX_ORDER in Hk; lia. }
  rewrite shl64_ok; [|unfold MAX_ORDER in Hk; lia|fold (bsz k); lia].
  fold (bsz k). rewrite Z.mul_1_l. run (run_lift (bsz k) (s, m) _ eq_refl).
  unfold addr, MAX_PAGES, PAGE_SIZE in *. rewrite sub64_ok by lia.
  replace (offset s + 4096 * p - offset s) with (4096 * p) by lia.
  run (run_lift (4096 * p) (s, m) _ eq_refl). rewrite mul64_ok by lia.
  run (run_lift (bsz k * 4096) (s, m) _ eq_refl).
  pose proof (lxor_buddy k p Hp) as Hx. unfold PAGE_SIZE in Hx. rewrite Hx.
  rewrite add64_ok by lia. by rewrite Z.add_comm.
Qed.

Lemma run_out_of_range s m L a :
  buddy_core s m L ->
  out_of_range a (s, m) =
    Ret ((a <? offset s) || (offset s + MAX_PAGES * PAGE_SIZE <=? a), (s, m)).
Proof.
  intros [_ ? _ ? _ _]. unfold out_of_range. run (run_get_self s m).
  destruct (a <? offset s); [done|]. unfold MAX_PAGES, PAGE_SIZE in *.
  rewrite mul64_ok by lia. run (run_lift (262144 * 4096) (s, m) _ eq_refl).
  rewrite add64_ok by lia. by run (run_lift (offset s + 262144 * 4096) (s, m) _ eq_refl).
Qed.

Lemma out_of_range_ok s m L p :
  buddy_core s m L -> 0 <= p < MAX_PAGES ->
  out_of_range (addr (offset s) p) (s, m) = Ret (false, (s, m)).
Proof.
  intros Hc Hp. rewrite (run_out_of_range s m L _ Hc). unfold addr, PAGE_SIZE.
  by rewrite (proj2 (Z.ltb_ge _ _)), (proj2 (Z.leb_gt _ _)) by lia.
Qed.
End proofs.

(** ** The nodes of the free blocks *)

Lemma frames_ok_blocks s m L k l :
  buddy_core s m L -> NoDup l -> (forall p, p ∈ l -> block_wf (offset s) k p) ->
  frames_ok (addr (offset s) <$> l).
Proof.
  intros [_ ? Hal ? _ _] Hnd Hl. pose proof (bsz_pos k) as Hb.
  assert (forall a, a ∈ addr (offset s) <$> l ->
    0 < a /\ a + PAGE_SIZE <= offset s + MAX_PAGES * PAGE_SIZE /\
    (a - offset s) mod 4096 = 0 /\ a mod 8 = 0) as Ha.
  { intros a (p & -> & Hp)%list_elem_of_fmap. destruct (Hl p Hp) as [_ _ ? ? ?].
    unfold addr, MAX_PAGES, PAGE_SIZE in *. split_and!; [lia..| |].
    - replace (offset s + 4096 * p - offset s) with (p * 4096) by lia. by apply Z.mod_mul.
    - replace (4096 * p) with (512 * p * 8) by lia. by rewrite Z.mod_add. }
  unfold MAX_PAGES, PAGE_SIZE in *.
  constructor; [| | |by apply NoDup_fmap_2, Hnd; apply _];
    unfold next_field, prev_field, valid_ptr.
  - intros a (? & ? & ? & ?)%Ha. lia.
  - intros a (? & ? & ? & Hm)%Ha. split; [lia|].
    replace (a + 8) with (a + 1 * 8) by lia. by rewrite Z.mod_add.
  - intros a b (? & ? & Ha' & ?)%Ha (? & ? & Hb' & ?)%Ha Heq. subst a.
    replace (b + 8 - offset s) with (b - offset s + 8) in Ha' by lia.
    rewrite Z.add_mod, Hb' in Ha' by lia. done.
Qed.

Lemma node_bytes off l (P : Z -> Prop) x :
  (forall p, p ∈ l -> P p) -> node_of (addr off <$> l) x -> bytes_of off P x.
Proof.
  intros HP (a & (p & -> & Hp)%list_elem_of_fmap & Hx).
  exists p. split; [auto|]. unfold addr, next_field, prev_field, PAGE_SIZE in *. lia.
Qed.

(** Nodes of different pages do not share words. *)
Lemma nodes_disjoint off l1 l2 x :
  (forall p, p ∈ l1 -> p ∉ l2) ->
  node_of (addr off <$> l1) x -> ~ node_of (addr off <$> l2) x.
Proof.
  intros Hd (a & (p & -> & Hp)%list_elem_of_fmap & Hx)
    (b & (q & -> & Hq)%list_elem_of_fmap & Hy).
  assert (p = q) as -> by (unfold addr, next_field, prev_field, PAGE_SIZE in *; lia).
  by apply (Hd q).
Qed.

(** Editing the nodes of list [k] keeps the links of the other lists. *)
Lemma dlist_other off m m' l l' :
  (forall p, p ∈ l' -> p ∉ l) -> mem_frame (node_of (addr off <$> l)) m m' ->
  dlist m (addr off <$> l') -> dlist m' (addr off <$> l').
Proof.
  intros Hd Hf. apply dlseg_frame. intros x Hx.
  apply (mem_frame_rd _ _ _ _ Hf). by eapply nodes_disjoint.
Qed.

Lemma bytes_of_mono off (P Q : Z -> Prop) x :
  (forall p, P p -> Q p) -> bytes_of off P x -> bytes_of off Q x.
Proof. intros H (p & Hp & Hx). exists p. auto. Qed.

Lemma free_page_elem (L : flists) k p : p ∈ L !!! k -> free_page L p.
Proof. intros. exists k, p. split; [done|apply in_block_self]. Qed.

Lemma free_elem_unique off (L : flists) j k p :
  free_wf off L -> p ∈ L !!! j -> p ∈ L !!! k -> j = k.
Proof.
  intros HL Hj Hk.
  by destruct (fw_disjoint _ _ HL j p k p p Hj Hk (in_block_self _ _) (in_block_self _ _)).
Qed.

(** ** Pushing and dropping a block *)

Definition fresh_block (L : flists) (k : nat) (p : Z) : Prop :=
  forall x, in_block k p x -> ~ free_page L x.

Lemma fresh_not_elem L k p j : fresh_block L k p -> p ∉ L !!! j.
Proof. intros Hf Hin. apply (Hf p (in_block_self _ _)). by eapply free_page_elem. Qed.

Lemma core_push s m L k p :
  buddy_core s m L -> block_wf (offset s) k p -> fresh_block L k p ->
  ((k < MAX_ORDER - 1)%nat -> buddy p k ∉ L !!! k) ->
  exists m',
    push_free (addr (offset s) p) k (s, m) =
      Ret ((), (set_list k (Some (addr (offset s) p)) s, m')) /\
    buddy_core (set_list k (Some (addr (offset s) p)) s) m' (push_block k p L) /\
    mem_frame (bytes_of (offset s) (fun x => in_block k p x \/ free_page L x)) m m'.
Proof.
  intros Hc Hp Hfresh Hb. pose proof Hc as [HL ? ? ? Hheads Hdl].
  pose proof (bw_order _ _ _ Hp) as Hk. pose proof (fw_length _ _ HL) as Hlen.
  assert (frames_ok (addr (offset s) <$> p :: L !!! k)) as Hok.
  { eapply (frames_ok_blocks s m L k); [done| |].
    - apply NoDup_cons. split; [by eapply fresh_not_elem|apply (fw_nodup _ _ HL)].
    - intros q [->|Hq]%elem_of_cons; [done|by apply (fw_block _ _ HL)]. }
  destruct (push_free_spec s m k _ _ (Hheads k Hk) (Hdl k) Hok) as (m' & Hrun & Hd' & Hf).
  change (addr (offset s) p :: (addr (offset s) <$> L !!! k))
    with (addr (offset s) <$> p :: L !!! k) in Hf.
  assert (forall j, push_block k p L !!! j =
    if decide (j = k) then p :: L !!! k else L !!! j) as Hlook.
  { intros j. unfold push_block. by rewrite flists_insert by done. }
  exists m'. split_and!; [done| |].
  - constructor; try done; simpl.
    + by apply free_wf_push.
    + intros j Hj. rewrite Hlook. case_decide as Hjk.
      * subst. rewrite list_lookup_insert_eq; [done|].
        eapply lookup_lt_Some, (Hheads k Hk).
      * rewrite list_lookup_insert_ne by done. by apply Hheads.
    + intros j. rewrite Hlook. case_decide as Hjk; [done|].
      eapply dlist_other; [|exact Hf|apply Hdl].
      intros q Hq [->|Hq']%elem_of_cons; [by eapply fresh_not_elem|].
      apply Hjk. by eapply (free_elem_unique _ L j k q).
  - eapply mem_frame_mono, Hf. intros x. apply (node_bytes _ (p :: L !!! k)).
    intros q [->|Hq]%elem_of_cons; [left; apply in_block_self|right].
    by eapply free_page_elem.
Qed.

Lemma core_drop s m L k p :
  buddy_core s m L -> p ∈ L !!! k ->
  exists s' m',
    remove_frame (addr (offset s) p) k (s, m) = Ret ((), (s', m')) /\
    offset s' = offset s /\ bitmap s' = bitmap s /\
    buddy_core s' m' (drop_block k p L) /\
    mem_frame (bytes_of (offset s) (free_page L)) m m'.
Proof.
  intros Hc Hp. pose proof Hc as [HL ? ? ? Hheads Hdl].
  pose proof (free_wf_elem_order _ _ _ _ HL Hp) as Hk.
  pose proof (fw_length _ _ HL) as Hlen. pose proof (fw_nodup _ _ HL k) as Hnd.
  assert (frames_ok (addr (offset s) <$> L !!! k)) as Hok.
  { eapply (frames_ok_blocks s m L k); [done..|]. intros q. apply (fw_block _ _ HL). }
  assert (forall j, drop_block k p L !!! j =
    if decide (j = k) then filter (fun q => q <> p) (L !!! k) else L !!! j) as Hlook.
  { intros j. unfold drop_block. by rewrite flists_insert by done. }
  destruct (list_elem_of_split _ _ Hp) as (l1 & l2 & Hsplit).
  assert (filter (fun q => q <> p) (L !!! k) = l1 ++ l2) as Hfilter.
  { rewrite Hsplit in Hnd |- *. by apply filter_ne_middle. }
  destruct (remove_frame_spec s m k (addr (offset s) <$> l1) (addr (offset s) p)
    (addr (offset s) <$> l2)) as (m' & Hrun & Hd' & Hf).
  { by rewrite Hsplit, fmap_app in Hok. }
  { by rewrite (Hheads k Hk), Hsplit, fmap_app. }
  { specialize (Hdl k). by rewrite Hsplit, fmap_app in Hdl. }
  rewrite <- !fmap_app in *.
  change (addr (offset s) p :: (addr (offset s) <$> l2))
    with (addr (offset s) <$> p :: l2) in Hf.
  rewrite <- fmap_app, <- Hsplit in Hf.
  eexists _, m'. split_and!; [exact Hrun|done|done| |].
  - constructor; try done; simpl.
    + by apply free_wf_drop.
    + intros j Hj. rewrite Hlook. case_decide as Hjk.
      * subst. rewrite list_lookup_insert_eq, Hfilter; [done|].
        eapply lookup_lt_Some, (Hheads k Hk).
      * rewrite list_lookup_insert_ne by done. by apply Hheads.
    + intros j. rewrite Hlook. case_decide as Hjk; [by rewrite Hfilter|].
      eapply dlist_other; [|exact Hf|apply Hdl].
      intros q Hq Hq'. apply Hjk. by eapply (free_elem_unique _ L j k q).
  - eapply mem_frame_mono, Hf. intros x. apply node_bytes.
    intros q Hq. by eapply free_page_elem.
Qed.

(** ** The bitmap along a push or a drop *)

Definition toggled (k : nat) (p : Z) (s : BuddyAllocator) : BuddyAllocator :=
  if (k <? MAX_ORDER - 1)%nat
  then set_bitmap (flipbit (bitmap s) (bit_index k p)) s else s.

Lemma toggled_offset k p s : offset (toggled k p s) = offset s.
Proof. unfold toggled. by destruct (_ <? _)%nat. Qed.

Lemma toggled_core k p s m L : buddy_core s m L -> buddy_core (toggled k p s) m L.
Proof. unfold toggled. destruct (_ <? _)%nat; [|done]. by intros []. Qed.

Lemma run_toggle {ck : OverflowChecks} s m L k p :
  buddy_core s m L -> length (bitmap s) = Z.to_nat BITMAP_SIZE -> 0 <= p < MAX_PAGES ->
  when (k <? MAX_ORDER - 1)%nat
    (page_idx ← page_index (addr (offset s) p); toggle_bit page_idx k;; mret ()) (s, m)
  = Ret ((), (toggled k p s, m)).
Proof.
  intros Hc Hlen Hp. unfold when, toggled.
  destruct (Nat.ltb_spec k (MAX_ORDER - 1)); [|done].
  run (page_index_ok s m L p Hc Hp). by run (toggle_bit_ok s m k p H Hp Hlen).
Qed.

Lemma bits_ok_ext bm (L L' : flists) :
  bits_ok bm L -> (forall j, (j < MAX_ORDER - 1)%nat -> L' !!! j = L !!! j) -> bits_ok bm L'.
Proof.
  intros [Hlen Hb] Heq. split; [done|]. intros j q Hj Hq Hr.
  rewrite (Heq j Hj). by apply Hb.
Qed.

Lemma bits_push s k p q (L : flists) :
  bits_ok (bitmap s) L -> length L = MAX_ORDER -> (k < MAX_ORDER)%nat ->
  (bsz k | p) -> 0 <= p < MAX_PAGES -> p ∉ L !!! k -> bit_index k q = bit_index k p ->
  bits_ok (bitmap (toggled k q s)) (push_block k p L).
Proof.
  intros Hb Hlen Hk Hp Hr Hn Hq. unfold toggled.
  destruct (Nat.ltb_spec k (MAX_ORDER - 1)) as [Hlt|Hge]; simpl.
  - rewrite Hq. eapply bits_ok_flip; [done..| |].
    + intros j Hj. unfold push_block. rewrite flists_insert by done. by case_decide.
    + intros r. assert (r ∈ push_block k p L !!! k <-> r = p \/ r ∈ L !!! k) as Hiff.
      { rewrite elem_push by done. tauto. }
      rewrite (bool_decide_ext _ _ Hiff). repeat case_bool_decide; naive_solver.
  - eapply bits_ok_ext; [done|]. intros j Hj. unfold push_block.
    rewrite flists_insert by done. case_decide; [lia|done].
Qed.

Lemma bits_drop s k p q (L : flists) :
  bits_ok (bitmap s) L -> length L = MAX_ORDER -> (k < MAX_ORDER)%nat ->
  (bsz k | p) -> 0 <= p < MAX_PAGES -> p ∈ L !!! k -> bit_index k q = bit_index k p ->
  bits_ok (bitmap (toggled k q s)) (drop_block k p L).
Proof.
  intros Hb Hlen Hk Hp Hr Hn Hq. unfold toggled.
  destruct (Nat.ltb_spec k (MAX_ORDER - 1)) as [Hlt|Hge]; simpl.
  - rewrite Hq. eapply bits_ok_flip; [done..| |].
    + intros j Hj. unfold drop_block. rewrite flists_insert by done. by case_decide.
    + intros r. assert (r ∈ drop_block k p L !!! k <-> r ∈ L !!! k /\ r <> p) as Hiff.
      { rewrite elem_drop by done. tauto. }
      rewrite (bool_decide_ext _ _ Hiff). repeat case_bool_decide; naive_solver.
  - eapply bits_ok_ext; [done|]. intros j Hj. unfold drop_block.
    rewrite flists_insert by done. case_decide; [lia|done].
Qed.

(** ** Refinement of [alloc] *)

Section alloc.
Context {ck : OverflowChecks}.

Definition spec_result (r : option (Z * flists)) (L : flists) : flists :=
  match r with Some (_, L') => L' | None => L end.

(** The step of [alloc] that takes the head of a list. *)
Lemma alloc_take s m L k p :
  buddy_rep s m L -> p ∈ L !!! k ->
  exists s' m',
    (remove_frame (addr (offset s) p) k;;
     when (k <? MAX_ORDER - 1)%nat
       (page_idx ← page_index (addr (offset s) p); toggle_bit page_idx k;; mret ());;
     mret (Some (addr (offset s) p))) (s, m) = Ret (Some (addr (offset s) p), (s', m')) /\
    offset s' = offset s /\ buddy_rep s' m' (drop_block k p L) /\
    mem_frame (bytes_of (offset s) (free_page L)) m m'.
Proof.
  intros [Hc Hbits] Hp. pose proof (bc_wf _ _ _ Hc) as HL.
  destruct (fw_block _ _ HL k p Hp) as [Hk Ha Hlo Hhi _]. pose proof (bsz_pos k).
  destruct (core_drop s m L k p Hc Hp) as (s1 & m1 & Hrun & Ho & Hbm & Hc1 & Hf).
  exists (toggled k p s1), m1. rewrite toggled_offset. split_and!; [|done| |done].
  - run Hrun. rewrite <- Ho.
    run (run_toggle s1 m1 _ k p Hc1 ltac:(rewrite Hbm; apply Hbits) ltac:(lia)). done.
  - split; [by apply toggled_core|]. apply bits_drop; try done; [|apply HL|lia].
    by rewrite Hbm.
Qed.

(** The step that splits a larger block: the upper half becomes free. *)
Lemma alloc_split s m L k p :
  buddy_rep s m L -> block_wf (offset s) (S k) p -> fresh_block L (S k) p ->
  exists s' m',
    (buddy_addr ← calculate_buddy_address (addr (offset s) p) k;
     when (k <? MAX_ORDER - 1)%nat
       (page_idx ← page_index (addr (offset s) p); toggle_bit page_idx k;; mret ());;
     push_free buddy_addr k;;
     mret (Some (addr (offset s) p))) (s, m) = Ret (Some (addr (offset s) p), (s', m')) /\
    offset s' = offset s /\ buddy_rep s' m' (push_block k (buddy p k) L) /\
    mem_frame (bytes_of (offset s) (fun x => in_block (S k) p x \/ free_page L x)) m m'.
Proof.
  intros [Hc Hbits] Hp Hfresh. pose proof (bc_wf _ _ _ Hc) as HL.
  destruct (block_wf_split _ k p (bc_low _ _ _ Hc) Hp) as (Hwp & Hwb & Hb).
  assert (k < MAX_ORDER - 1)%nat as Hk by (pose proof (bw_order _ _ _ Hp); lia).
  assert (0 <= p < MAX_PAGES) as Hr
    by (destruct Hwp; pose proof (bsz_pos k); lia).
  assert (forall x, in_block k (buddy p k) x -> in_block (S k) p x) as Hsub.
  { intros x. unfold in_block. rewrite Hb, bsz_S. lia. }
  pose proof (toggled_core k p _ _ _ Hc) as Hct.
  destruct (core_push (toggled k p s) m L k (buddy p k)) as (m' & Hrun & Hc' & Hf).
  { done. }
  { by rewrite toggled_offset. }
  { intros x Hx. apply Hfresh. auto. }
  { intros _. rewrite buddy_invol by apply Hwp. intros Hin.
    apply (Hfresh p (in_block_self _ _)). by eapply free_page_elem. }
  rewrite toggled_offset in *. eexists _, m'. split_and!.
  - run (buddy_address_ok s m L k p Hc Hk (bw_align _ _ _ Hwp) Hr).
    run (run_toggle s m L k p Hc (proj1 Hbits) Hr). run Hrun. done.
  - apply toggled_offset.
  - split; [done|]. simpl. destruct Hwb. pose proof (bsz_pos k).
    apply bits_push; [done|apply HL|done|done|lia| |].
    + intros Hin. apply (Hfresh (buddy p k)); [apply Hsub, in_block_self|].
      by eapply free_page_elem.
    + symmetry. apply bit_index_buddy, Hwp.
  - eapply mem_frame_mono, Hf. intros x. apply bytes_of_mono. naive_solver.
Qed.

Lemma alloc_rec_refines n k fuel s m L :
  buddy_rep s m L -> (n + k = MAX_ORDER)%nat -> (n < fuel)%nat ->
  exists s' m',
    alloc_rec fuel k (s, m) =
      Ret (addr (offset s) ∘ fst <$> spec_alloc_rec n k L, (s', m')) /\
    offset s' = offset s /\ buddy_rep s' m' (spec_result (spec_alloc_rec n k L) L) /\
    mem_frame (bytes_of (offset s) (free_page L)) m m'.
Proof.
  revert k fuel. induction n as [|n IH]; intros k fuel Hrep Hn Hfuel;
    destruct fuel as [|fuel]; try lia; cbn [alloc_rec spec_alloc_rec].
  { rewrite (proj2 (Nat.leb_le _ _)) by lia. exists s, m.
    split_and!; [done..|apply mem_frame_refl]. }
  rewrite (proj2 (Nat.leb_gt _ _)) by lia. run (run_get_self s m).
  pose proof Hrep as [Hc Hbits]. pose proof (bc_wf _ _ _ Hc) as HL.
  run (run_lift _ (s, m) _ (index_ok _ _ _ (bc_heads _ _ _ Hc k ltac:(lia)))).
  destruct (L !!! k) as [|p l] eqn:HLk; simpl.
  - rewrite Nat.add_1_r.
    destruct (IH (S k) fuel Hrep ltac:(lia) ltac:(lia)) as (s1 & m1 & Hrun & Ho & Hrep1 & Hf).
    run Hrun. destruct (spec_alloc_rec n (S k) L) as [[p L1]|] eqn:Hspec; simpl in *.
    + destruct (spec_alloc_rec_sound (offset s) (bc_low _ _ _ Hc) n (S k) L p L1)
        as (_ & Hwp & Hfresh & Hpages); [done|lia|done|].
      destruct (alloc_split s1 m1 L1 k p Hrep1) as (s2 & m2 & Hrun2 & Ho2 & Hrep2 & Hf2);
        [by rewrite Ho|done|].
      rewrite Ho in *. exists s2, m2. split_and!; [done|congruence|done|].
      eapply mem_frame_trans; [done|]. eapply mem_frame_mono, Hf2.
      intros x. apply bytes_of_mono. intros y. apply Hpages.
    + eauto 6.
  - apply alloc_take; [done|]. rewrite HLk. left.
Qed.

Lemma alloc_refines k s m L :
  buddy_rep s m L ->
  exists s' m',
    alloc k (s, m) = Ret (addr (offset s) ∘ fst <$> spec_alloc k L, (s', m')) /\
    offset s' = offset s /\ buddy_rep s' m' (spec_result (spec_alloc k L) L) /\
    mem_frame (bytes_of (offset s) (free_page L)) m m'.
Proof.
  intros Hrep. unfold alloc, spec_alloc.
  destruct (decide (k <= MAX_ORDER)%nat).
  - apply alloc_rec_refines; [done|lia..].
  - replace (MAX_ORDER - k)%nat with 0%nat by lia. cbn [alloc_rec spec_alloc_rec].
    rewrite (proj2 (Nat.leb_le _ _)) by lia. exists s, m.
    split_and!; [done..|apply mem_frame_refl].
Qed.
End alloc.

(** ** Refinement of [dealloc] *)

Section dealloc.
Context {ck : OverflowChecks}.

Definition freed_bytes (off : Z) (k : nat) (p : Z) (L : flists) : Z -> Prop :=
  bytes_of off (fun x => in_block k p x \/ free_page L x).

(** Pushing a block after its pair's bit was flipped. *)
Lemma toggled_push s m L k p :
  buddy_rep s m L -> block_wf (offset s) k p -> fresh_block L k p ->
  ((k < MAX_ORDER - 1)%nat -> buddy p k ∉ L !!! k) ->
  exists s' m',
    push_free (addr (offset s) p) k (toggled k p s, m) = Ret ((), (s', m')) /\
    offset s' = offset s /\ buddy_rep s' m' (push_block k p L) /\
    mem_frame (freed_bytes (offset s) k p L) m m'.
Proof.
  intros [Hc Hbits] Hp Hfresh Hb. pose proof (bc_wf _ _ _ Hc) as HL.
  destruct (core_push (toggled k p s) m L k p) as (m' & Hrun & Hc' & Hf);
    [by apply toggled_core|by rewrite toggled_offset|done..|].
  rewrite toggled_offset in *. eexists _, m'.
  split_and!; [done|apply toggled_offset| |done].
  split; [done|]. simpl. destruct Hp. pose proof (bsz_pos k).
  apply bits_push; try done; [apply HL|lia|]. by eapply fresh_not_elem.
Qed.

(** Merging: the buddy leaves its list. *)
Lemma toggled_drop s m L k p :
  buddy_rep s m L -> block_wf (offset s) k p -> buddy p k ∈ L !!! k ->
  exists s' m',
    remove_frame (addr (offset s) (buddy p k)) k (toggled k p s, m) = Ret ((), (s', m')) /\
    offset s' = offset s /\ buddy_rep s' m' (drop_block k (buddy p k) L) /\
    mem_frame (freed_bytes (offset s) k p L) m m'.
Proof.
  intros [Hc Hbits] Hp Hb. pose proof (bc_wf _ _ _ Hc) as HL.
  destruct (fw_block _ _ HL _ _ Hb) as [Hk Hba Hlo Hhi _]. pose proof (bsz_pos k).
  destruct (core_drop (toggled k p s) m L k (buddy p k))
    as (s' & m' & Hrun & Ho & Hbm & Hc' & Hf); [by apply toggled_core|done|].
  rewrite toggled_offset in *. exists s', m'. split_and!; [done..| |].
  - split; [done|]. rewrite Hbm. apply bits_drop; try done; [apply HL|lia|].
    symmetry. apply bit_index_buddy, Hp.
  - eapply mem_frame_mono, Hf. intros x. apply bytes_of_mono. auto.
Qed.

(** The bit of the pair of a block that is not free tells whether its buddy is. *)
Lemma pair_bit s m L k p :
  buddy_rep s m L -> block_wf (offset s) k p -> fresh_block L k p ->
  (k < MAX_ORDER - 1)%nat ->
  getbit (bitmap s) (bit_index k p) = bool_decide (buddy p k ∈ L !!! k).
Proof.
  intros [Hc [_ Hbits]] [_ Ha Hlo Hhi _] Hfresh Hk. pose proof (bsz_pos k).
  rewrite Hbits by (done || lia).
  by rewrite (bool_decide_false (p ∈ _)) by (by eapply fresh_not_elem).
Qed.

Lemma addr_min off p q :
  (if addr off p <? addr off q then addr off p else addr off q) = addr off (Z.min p q).
Proof. unfold addr, PAGE_SIZE. destruct (Z.ltb_spec (off + 4096 * p) (off + 4096 * q)); lia. Qed.

Lemma dealloc_rec_refines n p k fuel s m L :
  buddy_rep s m L -> block_wf (offset s) k p -> fresh_block L k p ->
  (n + k = MAX_ORDER - 1)%nat -> (n < fuel)%nat ->
  exists s' m',
    dealloc_rec fuel (addr (offset s) p) k (s, m) = Ret ((), (s', m')) /\
    offset s' = offset s /\ buddy_rep s' m' (spec_dealloc_rec n p k L) /\
    mem_frame (freed_bytes (offset s) k p L) m m'.
Proof.
  revert p k fuel s m L. induction n as [|n IH];
    intros p k fuel s m L Hrep Hp Hfresh Hn Hfuel;
    destruct fuel as [|fuel]; try lia; cbn [dealloc_rec spec_dealloc_rec];
    pose proof Hrep as [Hc Hbits]; pose proof (bsz_pos k);
    assert (0 <= p < MAX_PAGES) as Hr by (destruct Hp; lia);
    run (out_of_range_ok s m L p Hc Hr).
  { rewrite (proj2 (Nat.leb_le _ _)) by lia.
    destruct (toggled_push s m L k p Hrep Hp Hfresh ltac:(lia)) as (s' & m' & Hrun & ?).
    unfold toggled in Hrun. rewrite (proj2 (Nat.ltb_ge _ _)) in Hrun by lia. eauto. }
  rewrite (proj2 (Nat.leb_gt _ _)) by lia.
  assert (k < MAX_ORDER - 1)%nat as Hk by lia.
  run (page_index_ok s m L p Hc Hr).
  run (toggle_bit_ok s m k p Hk Hr (proj1 Hbits)).
  rewrite (pair_bit s m L k p Hrep Hp Hfresh Hk).
  assert (set_bitmap (flipbit (bitmap s) (bit_index k p)) s = toggled k p s) as ->.
  { unfold toggled. by rewrite (proj2 (Nat.ltb_lt _ _)). }
  case_decide as Hb; [rewrite bool_decide_true by done|rewrite bool_decide_false by done];
    simpl; [|by apply toggled_push].
  pose proof (buddy_address_ok (toggled k p s) m L k p (toggled_core _ _ _ _ _ Hc) Hk
    (bw_align _ _ _ Hp) Hr) as Hba. rewrite toggled_offset in Hba. run Hba.
  destruct (toggled_drop s m L k p Hrep Hp Hb) as (s1 & m1 & Hrun & Ho & Hrep1 & Hf1).
  run Hrun. rewrite addr_min, Nat.add_1_r.
  pose proof (fw_block _ _ (bc_wf _ _ _ Hc) _ _ Hb) as Hwb.
  assert (forall x, in_block (S k) (Z.min p (buddy p k)) x ->
            in_block k p x \/ free_page L x) as Hsub.
  { intros x [Hx|Hx]%in_block_S; [by left| |apply Hp]. right. by exists k, (buddy p k). }
  destruct (IH (Z.min p (buddy p k)) (S k) fuel s1 m1 (drop_block k (buddy p k) L))
    as (s2 & m2 & Hrun2 & Ho2 & Hrep2 & Hf2); [done| | |lia..|].
  { rewrite Ho. by apply block_wf_merge. }
  { intros x [Hx|Hx]%in_block_S Hfree; [| |apply Hp].
    - apply (Hfresh x Hx). eapply (free_page_drop (offset s) L k (buddy p k)); eauto.
      apply (bc_wf _ _ _ Hc).
    - eapply (drop_block_fresh (offset s) L k (buddy p k) x); eauto. apply (bc_wf _ _ _ Hc). }
  rewrite Ho in *. exists s2, m2. split_and!; [done..|].
  eapply mem_frame_trans; [done|]. eapply mem_frame_mono, Hf2.
  intros x. apply bytes_of_mono. intros y [Hy|Hy]; [by apply Hsub|right].
  eapply (free_page_drop (offset s) L k (buddy p k)); eauto. apply (bc_wf _ _ _ Hc).
Qed.

Lemma dealloc_refines p k s m L :
  buddy_rep s m L -> block_wf (offset s) k p -> fresh_block L k p ->
  exists s' m',
    dealloc (addr (offset s) p) k (s, m) = Ret ((), (s', m')) /\
    offset s' = offset s /\ buddy_rep s' m' (spec_dealloc p k L) /\
    mem_frame (freed_bytes (offset s) k p L) m m'.
Proof.
  intros Hrep Hp Hfresh. pose proof (bw_order _ _ _ Hp).
  apply dealloc_rec_refines; [done..|unfold MAX_ORDER in *; lia|unfold MAX_ORDER in *; lia].
Qed.
End dealloc.
