(* ===== verification/BuddySystem.v ===== *)
(** * The buddy allocator and its clients

    The allocator as a transition system: frames are handed to it, blocks are
    allocated and freed, and clients write to the blocks they hold.  Every
    reachable state is safe: no operation panics or is undefined, live blocks
    do not overlap each other or the free memory, and no page is lost. *)
From S2P Require Import Prelude Machine X86Api Buddy BuddySpec FreeList BuddyBits BuddyProofs.

(** The pages of a list of blocks (order, first page). *)
Definition live_page (live : list (nat * Z)) (x : Z) : Prop :=
  exists k p, (k, p) ∈ live /\ in_block k p x.

Inductive blocks_disjoint : list (nat * Z) -> Prop :=
  | blocks_disjoint_nil : blocks_disjoint []
  | blocks_disjoint_cons k p live :
      (forall x, in_block k p x -> ~ live_page live x) ->
      blocks_disjoint live -> blocks_disjoint ((k, p) :: live).

#[global] Instance live_page_proper : Proper ((≡ₚ) ==> (=) ==> iff) live_page.
Proof. intros l l' Hl x ? <-. unfold live_page. by setoid_rewrite Hl. Qed.

Lemma live_page_cons k p live x :
  live_page ((k, p) :: live) x <-> in_block k p x \/ live_page live x.
Proof. unfold live_page. setoid_rewrite elem_of_cons. naive_solver. Qed.

#[global] Instance blocks_disjoint_proper : Proper ((≡ₚ) ==> iff) blocks_disjoint.
Proof.
  assert (forall l l', l ≡ₚ l' -> blocks_disjoint l -> blocks_disjoint l') as H.
  { induction 1 as [|[k p] l l' Hl IH|[k1 p1] [k2 p2] l|l1 l2 l3 _ IH1 _ IH2]; auto.
    - inversion_clear 1. constructor; [|auto]. intros x Hx. rewrite <- Hl. auto.
    - inversion_clear 1 as [|? ? ? H2 H1]. inversion_clear H1 as [|? ? ? H1' Hl].
      setoid_rewrite live_page_cons in H2. constructor; [|constructor; [|done]].
      + intros x Hx. rewrite live_page_cons. naive_solver.
      + intros x Hx. naive_solver. }
  intros l l' Hl. split; apply H; [done|by symmetry].
Qed.

Record sys := mkSys {
  sys_buddy : BuddyAllocator;
  sys_mem : mem;
  sys_live : list (nat * Z);
  sys_fed : list Z;
}.

Section system.
Context {ck : OverflowChecks}.

(** A page frame the boot code may hand over: in the managed range, not at the
    null address. *)
Definition good_frame (off p : Z) : Prop := block_wf off 0 p.

Inductive sys_step : sys -> sys -> Prop :=
  | step_feed s m live fed p s' m' :
      good_frame (offset s) p -> p ∉ fed ->
      add_frame (addr (offset s) p) (s, m) = Ret ((), (s', m')) ->
      sys_step (mkSys s m live fed) (mkSys s' m' live (p :: fed))
  | step_alloc s m live fed k p s' m' :
      alloc k (s, m) = Ret (Some (addr (offset s) p), (s', m')) ->
      sys_step (mkSys s m live fed) (mkSys s' m' ((k, p) :: live) fed)
  | step_alloc_none s m live fed k s' m' :
      alloc k (s, m) = Ret (None, (s', m')) ->
      sys_step (mkSys s m live fed) (mkSys s' m' live fed)
  | step_dealloc s m live1 k p live2 fed s' m' :
      dealloc (addr (offset s) p) k (s, m) = Ret ((), (s', m')) ->
      sys_step (mkSys s m (live1 ++ (k, p) :: live2) fed)
               (mkSys s' m' (live1 ++ live2) fed)
  | step_write s m live fed a v :
      bytes_of (offset s) (live_page live) a ->
      sys_step (mkSys s m live fed) (mkSys s (<[a := v]> m) live fed).

(** The allocator after [init_heap(off)], before any frame is added, over a
    memory with arbitrary contents. *)
Definition sys_init (off : Z) (m : mem) : sys :=
  mkSys (set_offset off (new BITMAP_STORAGE)) m [] [].

Inductive reachable (off : Z) (m : mem) : sys -> Prop :=
  | reach_init : reachable off m (sys_init off m)
  | reach_step x y : reachable off m x -> sys_step x y -> reachable off m y.

Record sys_inv (off : Z) (x : sys) (L : flists) : Prop := {
  si_offset : offset (sys_buddy x) = off;
  si_rep : buddy_rep (sys_buddy x) (sys_mem x) L;
  si_live_wf : forall k p, (k, p) ∈ sys_live x -> block_wf off k p;
  si_live_disjoint : blocks_disjoint (sys_live x);
  si_live_fresh : forall p, live_page (sys_live x) p -> ~ free_page L p;
  si_conserved : forall p, p ∈ sys_fed x <-> live_page (sys_live x) p \/ free_page L p;
}.

(** A client's write keeps the free lists: their nodes are in free pages. *)
Lemma buddy_rep_write s m L (P : Z -> Prop) a v :
  buddy_rep s m L -> (forall p, P p -> ~ free_page L p) -> bytes_of (offset s) P a ->
  buddy_rep s (<[a := v]> m) L.
Proof.
  intros [[HL ? ? ? ? Hdl] Hbits] HP Ha. split; [|done]. constructor; try done.
  intros k. eapply dlseg_frame, Hdl. intros x Hx. apply rd_insert_ne. intros ->.
  apply (node_bytes _ _ (fun p => p ∈ L !!! k)) in Hx; [|done].
  destruct Hx as (q & Hq & Hx), Ha as (p & Hp & Ha).
  assert (p = q) as -> by (unfold addr, PAGE_SIZE in *; lia).
  apply (HP q Hp). by eapply free_page_elem.
Qed.

Lemma add_frame_refines p s m L :
  buddy_rep s m L -> block_wf (offset s) 0 p -> fresh_block L 0 p ->
  exists s' m',
    add_frame (addr (offset s) p) (s, m) = Ret ((), (s', m')) /\
    offset s' = offset s /\ buddy_rep s' m' (spec_dealloc p 0 L) /\
    mem_frame (freed_bytes (offset s) 0 p L) m m'.
Proof.
  intros Hrep Hp Hfresh.
  assert (0 <= p < MAX_PAGES) as Hr by (destruct Hp; unfold bsz in *; simpl in *; lia).
  unfold add_frame. run (out_of_range_ok s m L p (proj1 Hrep) Hr).
  by apply dealloc_refines.
Qed.

Lemma in_block_0 p x : in_block 0 p x <-> x = p.
Proof. unfold in_block, bsz. simpl. lia. Qed.

Lemma buddy_rep_init off m :
  0 <= off -> off mod 8 = 0 -> off + MAX_PAGES * PAGE_SIZE < U64_LIM ->
  buddy_rep (set_offset off (new BITMAP_STORAGE)) m no_blocks.
Proof.
  intros Hlo Hal Hhi. split; [constructor; try done|].
  - apply no_blocks_wf.
  - intros k Hk. rewrite no_blocks_lookup. by apply lookup_replicate_2.
  - intros k. by rewrite no_blocks_lookup.
  - split; [apply length_replicate|]. intros k p Hk Hp Hr. rewrite no_blocks_lookup.
    unfold getbit, set_offset, new, BITMAP_STORAGE.
    cbn [bitmap]. rewrite lookup_replicate_2.
    + apply Z.testbit_0_l.
    + pose proof (bit_index_range k p Hk Hr) as Hi. rewrite BITMAP_SIZE_eq.
      unfold MAX_PAGES in Hi.
      assert (bit_index k p / 8 < 32768) by (apply Z.div_lt_upper_bound; lia).
      assert (0 <= bit_index k p / 8) by (apply Z.div_pos; lia). lia.
Qed.

Lemma live_page_elem (live : list (nat * Z)) k p x :
  (k, p) ∈ live -> in_block k p x -> live_page live x.
Proof. intros. by exists k, p. Qed.

Lemma feed_inv off s m live fed p s' m' L :
  sys_inv off (mkSys s m live fed) L -> good_frame (offset s) p -> p ∉ fed ->
  add_frame (addr (offset s) p) (s, m) = Ret ((), (s', m')) ->
  exists L', sys_inv off (mkSys s' m' live (p :: fed)) L'.
Proof.
  intros [Ho Hrep Hwf Hdj Hfresh Hcons] Hp Hfed Hrun. simpl in *.
  assert (fresh_block L 0 p) as Hf.
  { intros x ->%in_block_0 Hx. apply Hfed, Hcons. by right. }
  destruct (add_frame_refines p s m L Hrep Hp Hf) as (s1 & m1 & Hrun1 & Ho1 & Hrep1 & _).
  rewrite Hrun1 in Hrun. simplify_eq.
  destruct (spec_dealloc_sound (offset s) p 0 L (bc_wf _ _ _ (proj1 Hrep)) Hp Hf)
    as [_ Hpages]. setoid_rewrite in_block_0 in Hpages.
  eexists. constructor; simpl; [done..| |].
  - intros x Hx. rewrite Hpages. intros [->|Hx']; [|by apply (Hfresh x)].
    apply Hfed, Hcons. by left.
  - intros x. rewrite elem_of_cons, Hpages, Hcons. tauto.
Qed.

Lemma alloc_inv off s m live fed k p s' m' L :
  sys_inv off (mkSys s m live fed) L ->
  alloc k (s, m) = Ret (Some (addr (offset s) p), (s', m')) ->
  exists L', sys_inv off (mkSys s' m' ((k, p) :: live) fed) L'.
Proof.
  intros [Ho Hrep Hwf Hdj Hfresh Hcons] Hrun. simpl in *.
  destruct (alloc_refines k s m L Hrep) as (s1 & m1 & Hrun1 & Ho1 & Hrep1 & _).
  rewrite Hrun1 in Hrun.
  destruct (spec_alloc k L) as [[q L1]|] eqn:Hspec; simpl in *; simplify_eq.
  destruct (spec_alloc_sound (offset s) (bc_low _ _ _ (proj1 Hrep)) k L p L1)
    as (_ & Hp & Hfresh1 & Hpages); [apply (proj1 Hrep)|done|].
  exists L1. constructor; simpl; [done|done| | | |].
  - intros k' p' [[= -> ->]|Hin]%elem_of_cons; auto.
  - constructor; [|done]. intros x Hx Hl. apply (Hfresh x Hl), Hpages. by left.
  - intros x [Hx|Hx]%live_page_cons; [by apply Hfresh1|].
    intros Hx'. apply (Hfresh x Hx), Hpages. by right.
  - intros x. rewrite live_page_cons, Hcons, Hpages. tauto.
Qed.

Lemma alloc_none_inv off s m live fed k s' m' L :
  sys_inv off (mkSys s m live fed) L -> alloc k (s, m) = Ret (None, (s', m')) ->
  sys_inv off (mkSys s' m' live fed) L.
Proof.
  intros [Ho Hrep Hwf Hdj Hfresh Hcons] Hrun. simpl in *.
  destruct (alloc_refines k s m L Hrep) as (s1 & m1 & Hrun1 & Ho1 & Hrep1 & _).
  rewrite Hrun1 in Hrun. destruct (spec_alloc k L) as [[q L1]|]; simpl in *; simplify_eq.
  by constructor.
Qed.

Lemma dealloc_inv off s m live1 k p live2 fed s' m' L :
  sys_inv off (mkSys s m (live1 ++ (k, p) :: live2) fed) L ->
  dealloc (addr (offset s) p) k (s, m) = Ret ((), (s', m')) ->
  exists L', sys_inv off (mkSys s' m' (live1 ++ live2) fed) L'.
Proof.
  intros [Ho Hrep Hwf Hdj Hfresh Hcons] Hrun. simpl in *.
  setoid_rewrite <- Permutation_middle in Hfresh.
  setoid_rewrite <- Permutation_middle in Hcons.
  setoid_rewrite <- Permutation_middle in Hwf.
  rewrite <- Permutation_middle in Hdj. inversion_clear Hdj as [|? ? ? Hd1 Hd2].
  setoid_rewrite live_page_cons in Hfresh. setoid_rewrite live_page_cons in Hcons.
  assert (block_wf (offset s) k p) as Hp by (rewrite Ho; apply Hwf; left).
  assert (fresh_block L k p) as Hf by (intros x Hx; apply Hfresh; by left).
  destruct (dealloc_refines p k s m L Hrep Hp Hf) as (s1 & m1 & Hrun1 & Ho1 & Hrep1 & _).
  rewrite Hrun1 in Hrun. simplify_eq.
  destruct (spec_dealloc_sound (offset s) p k L (bc_wf _ _ _ (proj1 Hrep)) Hp Hf)
    as [_ Hpages].
  eexists. constructor; simpl; [done|done| |done| |].
  - intros k' p' Hin. apply Hwf. by right.
  - intros x Hx. rewrite Hpages. intros [Hx'|Hx'].
    + by apply (Hd1 x).
    + apply (Hfresh x); [by right|done].
  - intros x. rewrite Hpages, Hcons. tauto.
Qed.

Lemma sys_step_inv off x y L :
  sys_inv off x L -> sys_step x y -> exists L', sys_inv off y L'.
Proof.
  intros Hinv Hstep. destruct Hstep.
  - by eapply feed_inv.
  - by eapply alloc_inv.
  - eexists. by eapply alloc_none_inv.
  - by eapply dealloc_inv.
  - exists L. destruct Hinv as [Ho Hrep Hwf Hdj Hfresh Hcons]. constructor; try done.
    simpl in *. by eapply buddy_rep_write.
Qed.

Lemma reachable_inv off m x :
  0 <= off -> off mod 8 = 0 -> off + MAX_PAGES * PAGE_SIZE < U64_LIM ->
  reachable off m x -> exists L, sys_inv off x L.
Proof.
  intros Hlo Hal Hhi. induction 1 as [|x y _ [L IH] Hstep].
  - exists no_blocks. constructor; simpl; [done|by apply buddy_rep_init| | | |].
    + intros k p []%elem_of_nil.
    + constructor.
    + intros p (k & q & []%elem_of_nil & _).
    + intros p. split; [intros []%elem_of_nil|].
      intros [(k & q & []%elem_of_nil & _)|(k & q & Hin & _)].
      rewrite no_blocks_lookup in Hin. by apply elem_of_nil in Hin.
  - by eapply sys_step_inv.
Qed.
End system.
