(* ===== verification/BuddyTheorems.v ===== *)
(** * What the buddy allocator guarantees

    The properties of [kernel/src/mm/buddy.rs]: functional correctness of
    [alloc], [dealloc], [add_frame] and [allocate_frame] against the set of
    free pages, the bitmap as an exact summary of the free lists, completeness
    (an allocation fails only when no aligned run of free pages is left), full
    coalescing, and the safety of every reachable state. *)
From S2P Require Import Prelude Machine X86Api Buddy BuddySpec FreeList BuddyBits.
From S2P Require Import BuddyProofs BuddySystem.

(** ** Full coalescing *)

Lemma bsz_multiple i j : (i <= j)%nat -> exists c, 0 < c /\ bsz j = c * bsz i.
Proof.
  intros Hij. exists (2 ^ Z.of_nat (j - i)). split; [apply Z.pow_pos_nonneg; lia|].
  unfold bsz. rewrite <- Z.pow_add_r by lia. f_equal. lia.
Qed.

(** Aligned blocks are nested or disjoint. *)
Lemma block_nested i j p q x :
  (i <= j)%nat -> (bsz j | p) -> (bsz i | q) -> in_block j p q -> in_block i q x ->
  in_block j p x.
Proof.
  intros Hij [a ->] [b ->]. destruct (bsz_multiple i j Hij) as (c & Hc & Hm).
  pose proof (bsz_pos i). unfold in_block. rewrite Hm. intros Hq Hx.
  assert (b < (a + 1) * c) by nia. nia.
Qed.

Lemma block_self_cover i p q : (bsz i | p) -> (bsz i | q) -> in_block i p q -> p = q.
Proof.
  intros [a ->] [b ->]. pose proof (bsz_pos i). unfold in_block. intros. f_equal. nia.
Qed.

(** An aligned run of free pages lies in a free block at least as large. *)
Lemma free_run_covered off L j q :
  free_wf off L -> (j < MAX_ORDER)%nat -> (bsz j | q) ->
  (forall x, in_block j q x -> free_page L x) ->
  exists i p, (j <= i)%nat /\ p ∈ L !!! i /\ in_block i p q.
Proof.
  intros HL. revert q. induction j as [|j IH]; intros q Hj Hq Hfree.
  - destruct (Hfree q (in_block_self _ _)) as (i & p & Hp & Hx). exists i, p.
    split_and!; [lia|done..].
  - pose proof (bsz_divide_S _ _ Hq) as Hq'. pose proof (bsz_pos j).
    assert (forall x, in_block (S j) q x <-> in_block j q x \/ in_block j (q + bsz j) x)
      as HS by (intros x; unfold in_block; rewrite bsz_S; lia).
    destruct (IH q) as (i1 & p1 & Hi1 & Hp1 & Hc1); [lia|done|intros x Hx; apply Hfree, HS; by left|].
    destruct (IH (q + bsz j)) as (i2 & p2 & Hi2 & Hp2 & Hc2); [lia| |intros x Hx; apply Hfree, HS; by right|].
    { apply Z.divide_add_r; [done|apply Z.divide_refl]. }
    destruct (decide (S j <= i1)%nat); [by exists i1, p1|].
    assert (i1 = j) as -> by lia.
    pose proof (fw_block _ _ HL _ _ Hp1) as [_ Ha1 _ _ _].
    apply block_self_cover in Hc1 as ->; [|done..].
    pose proof (fw_block _ _ HL _ _ Hp2) as [_ Ha2 _ _ _].
    assert (in_block i2 p2 q -> exists i p, (S j <= i)%nat /\ p ∈ L !!! i /\ in_block i p q)
      as Hcase.
    { intros Hin. destruct (fw_disjoint _ _ HL j q i2 p2 q) as [-> ->]; [done..|
        apply in_block_self|done|]. unfold in_block in *. lia. }
    destruct (decide (S j <= i2)%nat) as [Hbig|].
    + apply Hcase. destruct (bsz_multiple (S j) i2 Hbig) as (c & Hc & Hm).
      destruct Ha2 as [a ->], Hq as [b ->]. unfold in_block in *.
      rewrite bsz_S in *. rewrite Hm in *. assert (a * c <= b < (a + 1) * c) by nia. nia.
    + assert (i2 = j) as -> by lia.
      apply block_self_cover in Hc2 as ->; [|done|apply Z.divide_add_r; [done|apply Z.divide_refl]].
      exfalso. apply (fw_merged _ _ HL j q); [lia|done|]. by rewrite (buddy_even j q Hq).
Qed.

Lemma free_wf_canonical off L1 L2 k p :
  free_wf off L1 -> free_wf off L2 ->
  (forall x, free_page L1 x <-> free_page L2 x) -> p ∈ L1 !!! k -> p ∈ L2 !!! k.
Proof.
  intros H1 H2 Heq Hp. pose proof (fw_block _ _ H1 _ _ Hp) as [Hk Ha _ _ _].
  destruct (free_run_covered off L2 k p H2 Hk Ha) as (i & q & Hi & Hq & Hc).
  { intros x Hx. apply Heq. by exists k, p. }
  pose proof (fw_block _ _ H2 _ _ Hq) as [Hi' Hqa _ _ _].
  destruct (free_run_covered off L1 i q H1 Hi' Hqa) as (j & r & Hj & Hr & Hcr).
  { intros x Hx. apply Heq. by exists i, q. }
  pose proof (fw_block _ _ H1 _ _ Hr) as [_ Hra _ _ _].
  destruct (fw_disjoint _ _ H1 j r k p p Hr Hp) as [-> ->].
  - by apply (block_nested i j r q p).
  - apply in_block_self.
  - assert (i = k) as -> by lia. by apply block_self_cover in Hc as ->.
Qed.

(** ** Operations *)

Section theorems.
Context {ck : OverflowChecks}.

(** C6: [alloc] never panics and never has undefined behaviour on a state
    that represents free lists [L].  When it returns a block, the block is aligned
    to its size, lies in the managed range and was entirely free; the new free
    memory is the old one minus the block; only free memory was written.  When it
    returns nothing, no block of that order or a larger one was free and the free
    lists are unchanged. *)
Theorem alloc_correct k s m L :
  buddy_rep s m L ->
  match alloc k (s, m) with
  | Ret (Some a, (s', m')) =>
      exists p L', a = addr (offset s) p /\ block_wf (offset s) k p /\
        offset s' = offset s /\ buddy_rep s' m' L' /\
        (forall x, in_block k p x -> free_page L x /\ ~ free_page L' x) /\
        (forall x, ~ in_block k p x -> free_page L' x <-> free_page L x) /\
        mem_frame (bytes_of (offset s) (free_page L)) m m'
  | Ret (None, (s', m')) =>
      offset s' = offset s /\ buddy_rep s' m' L /\
      (forall j, (k <= j < MAX_ORDER)%nat -> L !!! j = []) /\
      mem_frame (bytes_of (offset s) (free_page L)) m m'
  | _ => False
  end.
Proof.
  intros Hrep. destruct (alloc_refines k s m L Hrep) as (s' & m' & -> & Ho & Hrep' & Hf).
  pose proof (bc_wf _ _ _ (proj1 Hrep)) as HL.
  destruct (spec_alloc k L) as [[p L']|] eqn:Hs; simpl in *.
  - destruct (spec_alloc_sound _ (bc_low _ _ _ (proj1 Hrep)) _ _ _ _ HL Hs)
      as (_ & Hp & Hfresh & Hpages).
    exists p, L'. split_and!; try done.
    + intros x Hx. rewrite Hpages. auto.
    + intros x Hx. rewrite Hpages. tauto.
  - split_and!; [done..| |done]. intros j Hj.
    unfold spec_alloc in Hs. rewrite spec_alloc_rec_none in Hs by lia. by apply Hs.
Qed.

(** C7: [dealloc] of a block that is not free never panics, puts exactly the
    pages of the block back into the free memory and writes only to free memory
    and to the block itself. *)
Theorem dealloc_correct p k s m L :
  buddy_rep s m L -> block_wf (offset s) k p -> fresh_block L k p ->
  exists s' m' L',
    dealloc (addr (offset s) p) k (s, m) = Ret ((), (s', m')) /\
    offset s' = offset s /\ buddy_rep s' m' L' /\
    (forall x, free_page L' x <-> in_block k p x \/ free_page L x) /\
    mem_frame (freed_bytes (offset s) k p L) m m'.
Proof.
  intros Hrep Hp Hf. destruct (dealloc_refines p k s m L Hrep Hp Hf)
    as (s' & m' & ? & ? & ? & ?). exists s', m', (spec_dealloc p k L).
  split_and!; [done..| |done].
  by apply (spec_dealloc_sound (offset s) p k L (bc_wf _ _ _ (proj1 Hrep)) Hp Hf).
Qed.

(** C1: the allocator with its linked lists and its bitmap computes the same
    result, and reaches the same free lists, as the reference allocator that keeps
    plain lists and decides about merging by looking the buddy up in its list. *)
Theorem code_refines_reference s m L :
  buddy_rep s m L ->
  (forall k, exists s' m',
    alloc k (s, m) = Ret (addr (offset s) ∘ fst <$> spec_alloc k L, (s', m')) /\
    buddy_rep s' m' (spec_result (spec_alloc k L) L)) /\
  (forall p k, block_wf (offset s) k p -> fresh_block L k p ->
    exists s' m',
      dealloc (addr (offset s) p) k (s, m) = Ret ((), (s', m')) /\
      buddy_rep s' m' (spec_dealloc p k L)).
Proof.
  intros Hrep. split.
  - intros k. destruct (alloc_refines k s m L Hrep) as (s' & m' & ? & _ & ? & _). eauto.
  - intros p k Hp Hf.
    destruct (dealloc_refines p k s m L Hrep Hp Hf) as (s' & m' & ? & _ & ? & _). eauto.
Qed.

(** C22: [alloc] is complete: for an order with a free list it returns a block
    exactly when some aligned run of [2^order] free pages exists. *)
Theorem alloc_complete k s m L :
  buddy_rep s m L -> (k < MAX_ORDER)%nat ->
  (exists a s' m', alloc k (s, m) = Ret (Some a, (s', m'))) <->
  (exists q, (bsz k | q) /\ forall x, in_block k q x -> free_page L x).
Proof.
  intros Hrep Hk. destruct (alloc_refines k s m L Hrep) as (s' & m' & Hrun & _).
  rewrite Hrun. pose proof (bc_wf _ _ _ (proj1 Hrep)) as HL.
  destruct (spec_alloc k L) as [[p L']|] eqn:Hs; simpl; split; intros H; try by eauto.
  - destruct (spec_alloc_sound _ (bc_low _ _ _ (proj1 Hrep)) _ _ _ _ HL Hs)
      as (_ & Hp & _ & Hpages). exists p. split; [apply Hp|]. intros x Hx.
    apply Hpages. by left.
  - naive_solver.
  - exfalso. destruct H as (q & Hq & Hfree).
    destruct (free_run_covered _ L k q HL Hk Hq Hfree) as (i & p & Hi & Hp & _).
    unfold spec_alloc in Hs. rewrite spec_alloc_rec_none in Hs by lia.
    rewrite (Hs i) in Hp by (pose proof (free_wf_elem_order _ _ _ _ HL Hp); lia).
    by apply elem_of_nil in Hp.
Qed.

(** The free blocks of every order are determined by the set of free pages. *)
Lemma free_lists_determined s1 m1 L1 s2 m2 L2 k :
  buddy_rep s1 m1 L1 -> buddy_rep s2 m2 L2 -> offset s1 = offset s2 ->
  (forall x, free_page L1 x <-> free_page L2 x) -> L1 !!! k ≡ₚ L2 !!! k.
Proof.
  intros Hr1 Hr2 Ho Heq.
  pose proof (bc_wf _ _ _ (proj1 Hr1)) as H1. pose proof (bc_wf _ _ _ (proj1 Hr2)) as H2. rewrite <- Ho in H2.
  apply NoDup_Permutation; [apply H1|apply H2|]. intros p. split; by apply (free_wf_canonical (offset s1)).
Qed.
Lemma spec_alloc_perm k (L1 L2 : flists) :
  (forall j, L1 !!! j ≡ₚ L2 !!! j) -> spec_alloc k L1 = None -> spec_alloc k L2 = None.
Proof.
  intros HL. unfold spec_alloc. destruct (decide (k <= MAX_ORDER)%nat).
  - rewrite !spec_alloc_rec_none by lia. intros Hn j Hj. apply Permutation_nil_r. by rewrite <- (Hn j Hj), HL.
  - by replace (MAX_ORDER - k)%nat with 0%nat by lia.
Qed.

(** C34: freeing a block right after allocating it restores the free blocks of
    every order. *)
Theorem alloc_dealloc_roundtrip k s m L a s1 m1 :
  buddy_rep s m L -> alloc k (s, m) = Ret (Some a, (s1, m1)) ->
  exists s2 m2 L2, dealloc a k (s1, m1) = Ret ((), (s2, m2)) /\
    buddy_rep s2 m2 L2 /\ forall j, L2 !!! j ≡ₚ L !!! j.
Proof.
  intros Hrep Hrun. destruct (alloc_refines k s m L Hrep) as (s' & m' & Hrun' & Ho & Hrep1 & _).
  rewrite Hrun' in Hrun. pose proof (bc_wf _ _ _ (proj1 Hrep)) as HL.
  destruct (spec_alloc k L) as [[p L1]|] eqn:Hs; simpl in *; simplify_eq.
  destruct (spec_alloc_sound _ (bc_low _ _ _ (proj1 Hrep)) _ _ _ _ HL Hs)
    as (_ & Hp & Hfresh & Hpages).
  rewrite <- Ho in Hp |- *.
  destruct (dealloc_refines p k s1 m1 L1 Hrep1 Hp Hfresh) as (s2 & m2 & Hd & Ho2 & Hrep2 & _).
  destruct (spec_dealloc_sound _ p k L1 (bc_wf _ _ _ (proj1 Hrep1)) Hp Hfresh) as [Hwf2 Hpages2].
  exists s2, m2, (spec_dealloc p k L1). split_and!; [done..|].
  intros j. rewrite Ho in Hwf2. apply NoDup_Permutation; [apply Hwf2|apply HL|].
  intros q. split; apply (free_wf_canonical (offset s)); try done; intros x;
    rewrite Hpages, Hpages2; tauto.
Qed.

(** C38: [get_bit_index] stays inside the bitmap and gives two blocks the same
    bit exactly when they are of the same order and in the same buddy pair. *)
Theorem bit_index_exact k1 k2 p1 p2 :
  (k1 < MAX_ORDER - 1)%nat -> (k2 < MAX_ORDER - 1)%nat ->
  0 <= p1 < MAX_PAGES -> 0 <= p2 < MAX_PAGES ->
  exists i1 i2, get_bit_index p1 k1 = Ret i1 /\ get_bit_index p2 k2 = Ret i2 /\
    0 <= i1 < 8 * BITMAP_SIZE /\
    (i1 = i2 <-> k1 = k2 /\ p1 / 2 ^ (Z.of_nat k1 + 1) = p2 / 2 ^ (Z.of_nat k2 + 1)).
Proof.
  intros Hk1 Hk2 Hp1 Hp2. exists (bit_index k1 p1), (bit_index k2 p2).
  rewrite !get_bit_index_ok by done. split_and!; [done|done| | |].
  1, 2: rewrite ?BITMAP_SIZE_eq; pose proof (bit_index_range k1 p1 Hk1 Hp1);
    unfold MAX_PAGES in *; lia.
  replace (Z.of_nat k1 + 1) with (Z.of_nat (S k1)) by lia.
  replace (Z.of_nat k2 + 1) with (Z.of_nat (S k2)) by lia.
  split; [by apply bit_index_inj|]. unfold bit_index, bsz. by intros [-> ->].
Qed.

(** The error paths of [dealloc]: an address outside the managed gigabyte
    is ignored, and an order without a free list panics at the slice index. *)
Theorem dealloc_errors a k s m L :
  buddy_rep s m L ->
  (a < offset s \/ offset s + MAX_PAGES * PAGE_SIZE <= a ->
    dealloc a k (s, m) = Ret ((), (s, m)) /\ add_frame a (s, m) = Ret ((), (s, m))) /\
  (offset s <= a < offset s + MAX_PAGES * PAGE_SIZE -> valid_ptr a -> valid_ptr (a + 8) ->
    (MAX_ORDER <= k)%nat -> length (free_lists s) = MAX_ORDER ->
    dealloc a k (s, m) = Panic).
Proof.
  intros [Hc _]. pose proof (run_out_of_range s m L a Hc) as Hout. split.
  - intros Ha. rewrite (proj2 (orb_true_iff _ _)) in Hout
      by (rewrite Z.ltb_lt, Z.leb_le; lia).
    split; unfold dealloc, add_frame; cbn [dealloc_rec]; by run Hout.
  - intros Ha Hv1 Hv2 Hk Hlen. unfold dealloc. cbn [dealloc_rec]. run Hout.
    rewrite (proj2 (Z.ltb_ge _ _)), (proj2 (Z.leb_gt _ _)) by lia. rewrite orb_false_l.
    rewrite (proj2 (Nat.leb_le _ _)) by lia. cbv iota. unfold push_free.
    run (run_store_ptr (prev_field a) None s m Hv2). run (run_get_self s _).
    unfold mbind, M_bind, lift, index. by rewrite lookup_ge_None_2 by lia.
Qed.
End theorems.

(** ** Reachable states *)

Section reachable.
Context {ck : OverflowChecks}.

(** C8: in every state reached by handing frames over, allocating, freeing
    live blocks and writing to live blocks, the live blocks are aligned, in range,
    pairwise disjoint and disjoint from the free memory, and every page handed over
    is live or free: none is lost and none is invented. *)
Theorem reachable_safe off m x :
  0 <= off -> off mod 8 = 0 -> off + MAX_PAGES * PAGE_SIZE < U64_LIM ->
  reachable off m x ->
  (forall k p, (k, p) ∈ sys_live x -> block_wf off k p) /\
  blocks_disjoint (sys_live x) /\
  exists L, buddy_rep (sys_buddy x) (sys_mem x) L /\
    (forall p, ~ (live_page (sys_live x) p /\ free_page L p)) /\
    (forall p, p ∈ sys_fed x <-> live_page (sys_live x) p \/ free_page L p).
Proof.
  intros Hlo Hal Hhi Hr. destruct (reachable_inv off m x Hlo Hal Hhi Hr) as [L Hinv].
  split_and!; [apply Hinv..|]. exists L. split_and!; [apply Hinv| |apply Hinv].
  intros p [Hl Hf]. by apply (si_live_fresh _ _ _ Hinv p).
Qed.

(** C23: the allocator forgets its history.  Take any two states reached by
    handing frames over, allocating, freeing and writing, in whatever order and
    number: when the same pages are free in both (handed over and not live), their
    free lists hold the same blocks of every order, no two of which are buddies
    that could still be merged, and a request of any order succeeds in the one
    exactly when it succeeds in the other.  So freeing never leaves memory more
    fragmented than the live blocks make it. *)
Theorem history_independent off m1 x1 m2 x2 :
  0 <= off -> off mod 8 = 0 -> off + MAX_PAGES * PAGE_SIZE < U64_LIM ->
  reachable off m1 x1 -> reachable off m2 x2 ->
  (forall p, p ∈ sys_fed x1 /\ ~ live_page (sys_live x1) p <-> p ∈ sys_fed x2 /\ ~ live_page (sys_live x2) p) ->
  (exists L1 L2, buddy_rep (sys_buddy x1) (sys_mem x1) L1 /\ buddy_rep (sys_buddy x2) (sys_mem x2) L2 /\
    forall k, L1 !!! k ≡ₚ L2 !!! k /\
      forall p, (k < MAX_ORDER - 1)%nat -> p ∈ L1 !!! k -> buddy p k ∉ L1 !!! k) /\
  (forall k, (exists a st, alloc k (sys_buddy x1, sys_mem x1) = Ret (Some a, st)) <->
    (exists a st, alloc k (sys_buddy x2, sys_mem x2) = Ret (Some a, st))).
Proof.
  intros Hlo Hal Hhi Hr1 Hr2 Hsame.
  destruct (reachable_inv off m1 x1 Hlo Hal Hhi Hr1) as [L1 [Ho1 Hrep1 _ _ Hf1 Hc1]].
  destruct (reachable_inv off m2 x2 Hlo Hal Hhi Hr2) as [L2 [Ho2 Hrep2 _ _ Hf2 Hc2]].
  assert (forall x, free_page L1 x <-> free_page L2 x) as Hfree.
  { intros x. specialize (Hsame x). specialize (Hc1 x). specialize (Hc2 x). specialize (Hf1 x). specialize (Hf2 x). tauto. }
  assert (forall k, L1 !!! k ≡ₚ L2 !!! k) as HL.
  { intros k. apply (free_lists_determined _ _ _ _ _ _ k Hrep1 Hrep2); [congruence|done]. }
  split.
  - exists L1, L2. split_and!; [done..|]. intros k. split; [done|]. intros p.
    apply (fw_merged _ _ (bc_wf _ _ _ (proj1 Hrep1))).
  - intros k. destruct (alloc_refines k _ _ _ Hrep1) as (? & ? & -> & _).
    destruct (alloc_refines k _ _ _ Hrep2) as (? & ? & -> & _).
    pose proof (spec_alloc_perm k L1 L2 HL) as H12. pose proof (spec_alloc_perm k L2 L1 (fun j => symmetry (HL j))) as H21.
    destruct (spec_alloc k L1) as [[]|], (spec_alloc k L2) as [[]|]; simpl; naive_solver.
Qed.

(** C28: no operation gets stuck in a reachable state: [alloc] of any order,
    [dealloc] of any live block and [add_frame] of any new frame return, with no
    panic, no undefined behaviour and no exhausted recursion bound. *)
Theorem reachable_progress off m x :
  0 <= off -> off mod 8 = 0 -> off + MAX_PAGES * PAGE_SIZE < U64_LIM ->
  reachable off m x ->
  (forall k, exists r st', alloc k (sys_buddy x, sys_mem x) = Ret (r, st')) /\
  (forall k p, (k, p) ∈ sys_live x ->
    exists st', dealloc (addr off p) k (sys_buddy x, sys_mem x) = Ret ((), st')) /\
  (forall p, good_frame off p -> p ∉ sys_fed x ->
    exists st', add_frame (addr off p) (sys_buddy x, sys_mem x) = Ret ((), st')).
Proof.
  intros Hlo Hal Hhi Hr. destruct (reachable_inv off m x Hlo Hal Hhi Hr)
    as [L [Ho Hrep Hwf _ Hfresh Hcons]]. rewrite <- Ho in *. split_and!.
  - intros k. destruct (alloc_refines k _ _ _ Hrep) as (? & ? & -> & _). eauto.
  - intros k p Hin. destruct (dealloc_refines p k _ _ _ Hrep) as (? & ? & -> & _); eauto.
    intros y Hy. apply Hfresh. by exists k, p.
  - intros p Hp Hn. destruct (add_frame_refines p _ _ _ Hrep Hp) as (? & ? & -> & _); eauto.
    intros y ->%in_block_0 Hy. apply Hn, Hcons. by right.
Qed.

(** [allocate_frame], the page source of the page-table code, hands out a
    frame-aligned physical address below 1 GiB whose page was free and is free no
    more, or nothing when no page is free. *)
Theorem allocate_frame_correct `{PhysFrameLaws} s m L :
  buddy_rep s m L ->
  match allocate_frame (s, m) with
  | Ret (Some f, (s', m')) =>
      exists p L', f = PAGE_SIZE * p /\ 0 <= p < MAX_PAGES /\ buddy_rep s' m' L' /\
        free_page L p /\ (forall x, free_page L' x <-> free_page L x /\ x <> p)
  | Ret (None, (s', m')) => buddy_rep s' m' L /\ (forall x, ~ free_page L x)
  | _ => False
  end.
Proof.
  intros Hrep. unfold allocate_frame.
  destruct (alloc_refines 0 s m L Hrep) as (s' & m' & Hrun & Ho & Hrep' & _).
  run Hrun. pose proof (bc_wf _ _ _ (proj1 Hrep)) as HL.
  destruct (spec_alloc 0 L) as [[p L']|] eqn:Hs; simpl.
  - destruct (spec_alloc_sound _ (bc_low _ _ _ (proj1 Hrep)) _ _ _ _ HL Hs)
      as (_ & [_ _ Hplo Hphi _] & Hfresh & Hpages).
    setoid_rewrite in_block_0 in Hpages. setoid_rewrite in_block_0 in Hfresh.
    unfold bsz in Hphi. simpl in Hphi. run (run_get_self s' m').
    rewrite Ho. unfold addr, MAX_PAGES, PAGE_SIZE in *. rewrite sub64_ok by lia.
    replace (offset s + 4096 * p - offset s) with (p * 4096) by lia.
    run (run_lift (p * 4096) (s', m') _ eq_refl). rewrite containing_address_ok by lia.
    rewrite Z.div_mul by lia. run (run_lift (p * 4096) (s', m') _ eq_refl).
    exists p, L'. split_and!; [lia..|done| |].
    + apply Hpages. by left.
    + intros x. rewrite Hpages. split; [|tauto]. intros Hx. split; [by right|].
      intros ->. by apply (Hfresh p).
  - split; [done|]. intros x (j & q & Hq & _). unfold spec_alloc in Hs.
    rewrite spec_alloc_rec_none in Hs by lia.
    rewrite (Hs j) in Hq by (pose proof (free_wf_elem_order _ _ _ _ HL Hq); lia).
    by apply elem_of_nil in Hq.
Qed.
End reachable.

(** ** Witnesses: a heap at 1 TiB with one free block of four pages *)

Definition demo_off : Z := 1099511627776.
Definition demo_empty : BuddyAllocator := set_offset demo_off (new BITMAP_STORAGE).
Definition final_state {A S} (o : outcome (A * S)) (d : S) : S :=
  match o with Ret (_, st) => st | _ => d end.
Definition demo : BuddyAllocator * mem :=
  final_state (dealloc (ck := true) (addr demo_off 8) 2 (demo_empty, ∅)) (demo_empty, ∅).
Definition demo_lists : flists := spec_dealloc 8 2 no_blocks.

Lemma demo_empty_rep : buddy_rep demo_empty ∅ no_blocks.
Proof. by apply buddy_rep_init. Qed.

Lemma demo_block : block_wf demo_off 2 8.
Proof.
  constructor; [unfold MAX_ORDER; lia|by exists 2|lia|..];
    unfold MAX_PAGES, PAGE_SIZE, demo_off; [change (bsz 2) with 4|]; lia.
Qed.

Lemma demo_frame : good_frame demo_off 8.
Proof.
  constructor; [unfold MAX_ORDER; lia|by exists 8|lia|..];
    unfold MAX_PAGES, PAGE_SIZE, demo_off; [change (bsz 0) with 1|]; lia.
Qed.

Lemma demo_fresh k p : fresh_block no_blocks k p.
Proof. intros x _ (j & q & Hq & _). rewrite no_blocks_lookup in Hq. by apply elem_of_nil in Hq. Qed.

Lemma demo_spec : buddy_rep demo.1 demo.2 demo_lists /\ offset demo.1 = demo_off.
Proof.
  destruct (dealloc_refines (ck := true) 8 2 demo_empty ∅ no_blocks demo_empty_rep
    demo_block (demo_fresh 2 8)) as (s & m & Hrun & Ho & Hrep & _).
  unfold demo. change (offset demo_empty) with demo_off in Hrun, Ho. rewrite Hrun.
  exact (conj Hrep Ho).
Qed.
Lemma demo_empty_offset : offset demo_empty = demo_off.
Proof. reflexivity. Qed.
#[local] Opaque demo demo_empty.

Lemma alloc_correct_witness :
  buddy_rep demo.1 demo.2 demo_lists /\
  exists r s' m', alloc (ck := true) 1 demo = Ret (r, (s', m')) /\ offset s' = offset demo.1.
Proof.
  destruct demo_spec as [Hrep _]. split; [done|].
  pose proof (alloc_correct (ck := true) 1 demo.1 demo.2 demo_lists Hrep) as H.
  destruct demo as [s m]. simpl in *. destruct (alloc 1 (s, m)) as [[[a|] [s' m']]| | | |]; try done.
  - destruct H as (p & L' & _ & _ & Ho & _). eauto.
  - destruct H as [Ho _]. eauto.
Defined.

Lemma dealloc_correct_witness :
  exists s' m' L',
    dealloc (ck := true) (addr demo_off 8) 2 (demo_empty, ∅) = Ret ((), (s', m')) /\
    buddy_rep s' m' L' /\ forall x, free_page L' x <-> in_block 2 8 x \/ free_page no_blocks x.
Proof.
  destruct (dealloc_correct (ck := true) 8 2 demo_empty ∅ no_blocks demo_empty_rep
    demo_block (demo_fresh 2 8)) as (s' & m' & L' & Hrun & _ & Hrep & Hp & _). eauto 6.
Defined.

Lemma code_refines_reference_witness :
  exists s' m', alloc (ck := true) 1 (demo.1, demo.2) = Ret (Some (addr demo_off 8), (s', m')).
Proof.
  destruct demo_spec as [Hrep Ho].
  destruct (code_refines_reference (ck := true) _ _ _ Hrep) as [Ha _].
  destruct (Ha 1%nat) as (s' & m' & Hrun & _). exists s', m'. rewrite Hrun, Ho. reflexivity.
Defined.

Lemma alloc_complete_witness :
  exists a s' m', alloc (ck := true) 2 (demo.1, demo.2) = Ret (Some a, (s', m')).
Proof.
  destruct demo_spec as [Hrep Ho].
  apply (alloc_complete (ck := true) 2 demo.1 demo.2 demo_lists Hrep); [unfold MAX_ORDER; lia|].
  exists 8. split; [by exists 2|]. intros x Hx. exists 2%nat, 8. split; [|done].
  assert (demo_lists !!! 2%nat = [8]) as -> by reflexivity. left.
Defined.

Lemma alloc_dealloc_roundtrip_witness :
  exists a s1 m1 s2 m2, alloc (ck := true) 1 (demo.1, demo.2) = Ret (Some a, (s1, m1)) /\
    dealloc (ck := true) a 1 (s1, m1) = Ret ((), (s2, m2)).
Proof.
  destruct demo_spec as [Hrep Ho].
  destruct (alloc_refines (ck := true) 1 _ _ _ Hrep) as (s1 & m1 & Hrun & _).
  destruct (alloc_dealloc_roundtrip (ck := true) 1 demo.1 demo.2 demo_lists
    (addr (offset demo.1) 8) s1 m1 Hrep) as (s2 & m2 & L2 & Hd & _); [by rewrite Hrun|].
  exists (addr (offset demo.1) 8), s1, m1, s2, m2. split; [by rewrite Hrun|done].
Defined.

Lemma bit_index_exact_witness :
  exists i1 i2, get_bit_index (ck := true) 6 1 = Ret i1 /\
    get_bit_index (ck := true) 4 1 = Ret i2 /\ i1 = i2.
Proof.
  destruct (bit_index_exact (ck := true) 1 1 6 4) as (i1 & i2 & H1 & H2 & _ & Heq);
    [unfold MAX_ORDER; lia..|unfold MAX_PAGES; lia|unfold MAX_PAGES; lia|].
  exists i1, i2. split_and!; [done..|]. apply Heq. done.
Defined.

Lemma dealloc_errors_witness :
  dealloc (ck := true) 4096 0 (demo_empty, ∅) = Ret ((), (demo_empty, ∅)).
Proof.
  apply (dealloc_errors (ck := true) 4096 0 demo_empty ∅ no_blocks demo_empty_rep).
  left. rewrite demo_empty_offset. unfold demo_off. lia.
Defined.

(** Pages 8 and 9 handed over: one block of order 1. *)
Definition demo_two : flists := spec_dealloc 9 0 (spec_dealloc 8 0 no_blocks).
Lemma demo_frame9 : good_frame demo_off 9.
Proof.
  constructor; [unfold MAX_ORDER; lia|by exists 9|lia|..];
    unfold MAX_PAGES, PAGE_SIZE, demo_off; [change (bsz 0) with 1|]; lia.
Qed.
Lemma demo_fresh9 : fresh_block (spec_dealloc 8 0 no_blocks) 0 9.
Proof.
  intros x ->%in_block_0 Hx.
  destruct (spec_dealloc_sound demo_off 8 0 no_blocks (no_blocks_wf _) demo_frame (demo_fresh 0 8)) as [_ Hp].
  apply Hp in Hx as [Hx%in_block_0|(j & q & Hq & _)]; [done|]. rewrite no_blocks_lookup in Hq. by apply elem_of_nil in Hq.
Qed.

Lemma demo_fed : exists s m, reachable (ck := true) demo_off ∅ (mkSys s m [] [9; 8]) /\
  offset s = demo_off /\ buddy_rep s m demo_two.
Proof.
  destruct (add_frame_refines (ck := true) 8 demo_empty ∅ no_blocks demo_empty_rep demo_frame (demo_fresh 0 8))
    as (s1 & m1 & E1 & Ho1 & Hrep1 & _). rewrite demo_empty_offset in E1, Ho1.
  destruct (add_frame_refines (ck := true) 9 s1 m1 _ Hrep1) as (s2 & m2 & E2 & Ho2 & Hrep2 & _);
    [by rewrite Ho1; apply demo_frame9|apply demo_fresh9|]. rewrite Ho1 in Ho2.
  exists s2, m2. split_and!; [|done|done]. eapply reach_step; [eapply reach_step; [apply reach_init|]|].
  - apply (step_feed demo_empty ∅ [] [] 8 s1 m1); [apply demo_frame|apply not_elem_of_nil|].
    by rewrite demo_empty_offset.
  - apply step_feed; [rewrite Ho1; apply demo_frame9|set_solver|done].
Qed.

(** One page of them in use. *)
Lemma demo_live : exists s m L, reachable (ck := true) demo_off ∅ (mkSys s m [(0%nat, 8)] [9; 8]) /\
  sys_inv demo_off (mkSys s m [(0%nat, 8)] [9; 8]) L.
Proof.
  destruct demo_fed as (s & m & Hr & Ho & Hrep).
  destruct (alloc_refines (ck := true) 0 s m demo_two Hrep) as (s' & m' & E & _).
  assert (spec_alloc 0 demo_two = Some (8, spec_result (spec_alloc 0 demo_two) demo_two)) as Es by reflexivity.
  rewrite Es in E. simpl in E.
  assert (reachable (ck := true) demo_off ∅ (mkSys s' m' [(0%nat, 8)] [9; 8])) as Hr'
    by (eapply reach_step; [exact Hr|by apply step_alloc]).
  destruct (reachable_inv (ck := true) demo_off ∅ _ ltac:(unfold demo_off; lia) ltac:(done) ltac:(done) Hr') as [L HL].
  by exists s', m', L.
Qed.

Lemma reachable_safe_witness :
  exists s m, reachable (ck := true) demo_off ∅ (mkSys s m [(0%nat, 8)] [9; 8]) /\ block_wf demo_off 0 8 /\
    exists L, buddy_rep s m L /\ ~ free_page L 8.
Proof.
  destruct demo_live as (s & m & _ & Hr & _). exists s, m. split; [exact Hr|].
  destruct (reachable_safe (ck := true) demo_off ∅ (mkSys s m [(0%nat, 8)] [9; 8]))
    as (Hwf & _ & L & HL & Hno & _); [unfold demo_off; lia|done|done|exact Hr|].
  split; [apply Hwf; left|]. exists L. split; [exact HL|]. intros Hf. apply (Hno 8). split; [|exact Hf].
  exists 0%nat, 8. split; [left|by apply in_block_0].
Defined.

(** The two pages as they were handed over, and after one of them was allocated
    and freed. *)
Lemma history_independent_witness :
  exists s1 m1 sa ma s2 m2, alloc (ck := true) 0 (s1, m1) = Ret (Some (addr demo_off 8), (sa, ma)) /\
    dealloc (ck := true) (addr demo_off 8) 0 (sa, ma) = Ret ((), (s2, m2)) /\
    exists a st, alloc (ck := true) 1 (s2, m2) = Ret (Some a, st).
Proof.
  destruct demo_fed as (s1 & m1 & Hr1 & Ho1 & Hrep1).
  destruct (alloc_refines (ck := true) 0 s1 m1 demo_two Hrep1) as (sa & ma & Ea & Hoa & _).
  assert (addr (offset s1) ∘ fst <$> spec_alloc 0 demo_two = Some (addr demo_off 8)) as Es by (by rewrite Ho1).
  rewrite Es in Ea. rewrite Ho1 in Hoa. exists s1, m1, sa, ma.
  assert (reachable (ck := true) demo_off ∅ (mkSys sa ma [(0%nat, 8)] [9; 8])) as Hra
    by (eapply reach_step; [exact Hr1|apply step_alloc; by rewrite Ho1]).
  destruct (reachable_inv (ck := true) demo_off ∅ _ ltac:(unfold demo_off; lia) ltac:(done) ltac:(done) Hra)
    as [L [_ HL Hwf _ Hfr _]].
  destruct (dealloc_refines (ck := true) 8 0 sa ma L HL) as (s2 & m2 & E2 & _);
    [rewrite Hoa; apply Hwf; left|intros y Hy; apply Hfr; exists 0%nat, 8; split; [left|done]|].
  rewrite Hoa in E2. exists s2, m2. split_and!; [exact Ea|exact E2|].
  assert (reachable (ck := true) demo_off ∅ (mkSys s2 m2 [] [9; 8])) as Hr2.
  { eapply reach_step; [exact Hra|]. apply (step_dealloc sa ma [] 0 8 []). by rewrite Hoa. }
  apply (proj2 (history_independent (ck := true) demo_off ∅ (mkSys s1 m1 [] [9; 8]) ∅ (mkSys s2 m2 [] [9; 8])
    ltac:(unfold demo_off; lia) ltac:(done) ltac:(done) Hr1 Hr2 ltac:(done))).
  destruct (alloc_refines (ck := true) 1 s1 m1 demo_two Hrep1) as (sb & mb & Eb & _).
  cbn [sys_buddy sys_mem]. rewrite Eb. eexists _, _. reflexivity.
Defined.

Lemma reachable_progress_witness :
  exists st', add_frame (ck := true) (addr demo_off 8)
    (sys_buddy (sys_init demo_off ∅), ∅) = Ret ((), st').
Proof.
  destruct (reachable_progress (ck := true) demo_off ∅ (sys_init demo_off ∅))
    as (_ & _ & H); [unfold demo_off; lia|done|done|constructor|].
  apply H; [apply demo_frame|apply not_elem_of_nil].
Defined.

Lemma allocate_frame_correct_witness :
  exists r s' m', allocate_frame (ck := true) (H := ReferenceApi.phys_frame_api)
    (demo.1, demo.2) = Ret (r, (s', m')).
Proof.
  destruct demo_spec as [Hrep _].
  pose proof (allocate_frame_correct (ck := true) (H := ReferenceApi.phys_frame_api)
    (H0 := ReferenceApi.phys_frame_laws) demo.1 demo.2 demo_lists Hrep) as H.
  destruct (allocate_frame (demo.1, demo.2)) as [[r [s' m']]| | | |]; [eauto|by destruct H..].
Defined.
