(* ===== verification/BootFrames.v ===== *)
(** * The boot-time frame allocator: [kernel/src/mm/memory.rs]

    [BootInfoFrameAllocator] keeps the free physical memory as a fixed array of
    ranges sorted by start address, of which the first [range_count] are
    active.  This file is the code; [BootFramesProofs] proves it against plain
    lists of ranges and the set of free bytes. *)
From S2P Require Import Prelude X86Api.

Definition PAGE_SIZE : Z := 4096.
Definition HUGE_PAGE_SIZE : Z := 2 * 1024 * 1024.
Definition MAX_RANGES : nat := 256.

Record PhysRange := mkRange { start : Z; end_ : Z }.
Definition empty_range : PhysRange := mkRange 0 0.

Record BootInfoFrameAllocator := mkBoot {
  free_ranges : list PhysRange;
  range_count : nat;
  allocated_bytes : Z;
  total_bytes : Z;
}.

(** A region of the bootloader's memory map; [usable] is the test
    [region.kind == MemoryRegionKind::Usable]. *)
Record MemoryRegion := mkRegion { region_start : Z; region_end : Z; usable : bool }.

Abbreviation F := (M BootInfoFrameAllocator).

Definition set_ranges (fr : list PhysRange) (n : nat) : F () :=
  self ← get;
  put (mkBoot fr n (allocated_bytes self) (total_bytes self)).
Definition set_allocated (b : Z) : F () :=
  self ← get;
  put (mkBoot (free_ranges self) (range_count self) b (total_bytes self)).

Section code.
Context {ck : OverflowChecks}.

(** ** Initialisation *)

(** The body of the loop over the memory map. *)
Definition init_region (acc : list PhysRange * nat * Z) (region : MemoryRegion)
    : outcome (list PhysRange * nat * Z) :=
  let '(fr, count, total) := acc in
  if usable region then
    up ← add64 (region_start region) PAGE_SIZE;
    up ← sub64 up 1;
    let lo := Z.land up (not64 (PAGE_SIZE - 1)) in
    let hi := Z.land (region_end region) (not64 (PAGE_SIZE - 1)) in
    if (lo <? hi) && (count <? MAX_RANGES)%nat then
      fr ← index_set fr count (mkRange lo hi);
      size ← sub64 hi lo;
      total ← add64 total size;
      Ret (fr, S count, total)
    else Ret acc
  else Ret acc.

Fixpoint init_regions (acc : list PhysRange * nat * Z) (map : list MemoryRegion)
    : outcome (list PhysRange * nat * Z) :=
  match map with
  | [] => Ret acc
  | region :: map => acc ← init_region acc region; init_regions acc map
  end.

(** [while j > 0 && free_ranges[j - 1].start > key.start]: the shifted array and
    the final [j]. *)
Fixpoint sort_shift (key : PhysRange) (fr : list PhysRange) (j : nat)
    : outcome (list PhysRange * nat) :=
  match j with
  | O => Ret (fr, O)
  | S j' =>
      prev ← index fr j';
      if start key <? start prev then
        fr ← index_set fr j prev;
        sort_shift key fr j'
      else Ret (fr, j)
  end.

(** [n] rounds of [for i in 1..count], starting at [i]. *)
Fixpoint sort_rounds (fr : list PhysRange) (i n : nat) : outcome (list PhysRange) :=
  match n with
  | O => Ret fr
  | S n =>
      key ← index fr i;
      '(fr, j) ← sort_shift key fr i;
      fr ← index_set fr j key;
      sort_rounds fr (S i) n
  end.

Definition init (memory_map : list MemoryRegion) : outcome BootInfoFrameAllocator :=
  '(fr, count, total) ← init_regions (replicate MAX_RANGES empty_range, O, 0) memory_map;
  fr ← sort_rounds fr 1 (count - 1);
  Ret (mkBoot fr count 0 total).

Definition free_memory (self : BootInfoFrameAllocator) : outcome Z :=
  sub64 (total_bytes self) (allocated_bytes self).
Definition allocated_memory (self : BootInfoFrameAllocator) : Z := allocated_bytes self.

(** ** Editing the array of ranges *)

(** [for j in index..range_count - 1 { free_ranges[j] = free_ranges[j + 1] }],
    as [n] rounds from [j]. *)
Fixpoint shift_left (fr : list PhysRange) (j n : nat) : outcome (list PhysRange) :=
  match n with
  | O => Ret fr
  | S n =>
      next ← index fr (j + 1);
      fr ← index_set fr j next;
      shift_left fr (S j) n
  end.

(** With no active range [range_count - 1] overflows: a panic at the
    subtraction or, in a build that wraps, at the first index past the array. *)
Definition remove_range (i : nat) : F () :=
  self ← get;
  match range_count self with
  | O => panic
  | S last =>
      fr ← lift (shift_left (free_ranges self) i (last - i));
      fr ← lift (index_set fr last empty_range);
      set_ranges fr last
  end.

(** The first [i] in [from .. from + n] whose range starts after [range];
    [from + n] when the loop runs to its end. *)
Fixpoint find_pos (range : PhysRange) (fr : list PhysRange) (from n : nat) : outcome nat :=
  match n with
  | O => Ret from
  | S n =>
      r ← index fr from;
      if start range <? start r then Ret from else find_pos range fr (S from) n
  end.

(** [for j in (pos..range_count).rev() { free_ranges[j + 1] = free_ranges[j] }],
    with [range_count = pos + n]. *)
Fixpoint shift_right (fr : list PhysRange) (pos n : nat) : outcome (list PhysRange) :=
  match n with
  | O => Ret fr
  | S n =>
      r ← index fr (pos + n);
      fr ← index_set fr (pos + n + 1) r;
      shift_right fr pos n
  end.

Definition insert_range_sorted (range : PhysRange) : F () :=
  self ← get;
  if (MAX_RANGES <=? range_count self)%nat then panic
  else
    pos ← lift (find_pos range (free_ranges self) 0 (range_count self));
    fr ← lift (shift_right (free_ranges self) pos (range_count self - pos));
    fr ← lift (index_set fr pos range);
    set_ranges fr (S (range_count self)).

(** [while i < range_count - 1]: each round either advances [i] or drops a
    range, so [range_count] rounds are enough. *)
Fixpoint coalesce_from (fuel i : nat) : F () :=
  match fuel with
  | O => out_of_fuel
  | S fuel =>
      self ← get;
      if (i <? range_count self - 1)%nat then
        cur ← lift (index (free_ranges self) i);
        next ← lift (index (free_ranges self) (i + 1));
        if end_ cur =? start next then
          fr ← lift (index_set (free_ranges self) i (mkRange (start cur) (end_ next)));
          set_ranges fr (range_count self);;
          remove_range (i + 1);;
          coalesce_from fuel i
        else coalesce_from fuel (i + 1)
      else mret ()
  end.
Definition coalesce_ranges : F () :=
  self ← get;
  if (range_count self <? 2)%nat then mret ()
  else coalesce_from (range_count self) 0.

(** ** Allocation *)

Context `{PhysFrameApi}.

(** The loop over the ranges from index [i], [n] of them left. *)
Fixpoint allocate_from (required_size alignment : Z) (i n : nat) : F (option Z) :=
  match n with
  | O => mret None
  | S n =>
      self ← get;
      range ← lift (index (free_ranges self) i);
      up ← lift (add64 (start range) alignment);
      up ← lift (sub64 up 1);
      mask ← lift (sub64 alignment 1);
      let aligned_start := Z.land up (not64 mask) in
      fits ← (if start range <=? aligned_start then
                top ← lift (add64 aligned_start required_size);
                mret (top <=? end_ range)
              else mret false);
      if fits : bool then
        alloc_end ← lift (add64 aligned_start required_size);
        let has_before := start range <? aligned_start in
        let has_after := alloc_end <? end_ range in
        let new_ranges_needed := (Nat.b2n has_before + Nat.b2n has_after)%nat in
        if (1 <? new_ranges_needed)%nat && (MAX_RANGES <=? range_count self)%nat
        then allocate_from required_size alignment (S i) n
        else
          remove_range i;;
          when has_before (insert_range_sorted (mkRange (start range) aligned_start));;
          when has_after (insert_range_sorted (mkRange alloc_end (end_ range)));;
          self ← get;
          allocated ← lift (add64 (allocated_bytes self) required_size);
          set_allocated allocated;;
          frame ← lift (containing_address aligned_start);
          mret (Some frame)
      else allocate_from required_size alignment (S i) n
  end.

Definition allocate_contiguous_aligned (count alignment : Z) : F (option Z) :=
  if count =? 0 then mret None
  else
    required_size ← lift (mul64 count PAGE_SIZE);
    self ← get;
    allocate_from required_size alignment 0 (range_count self).

Definition allocate_contiguous (count : Z) : F (option Z) :=
  allocate_contiguous_aligned count PAGE_SIZE.

Definition allocate_huge_page `{HugeFrameApi} : F (option Z) :=
  frame_4k ← allocate_contiguous_aligned 512 HUGE_PAGE_SIZE;
  match frame_4k with
  | Some f => frame ← lift (containing_address_2m f); mret (Some frame)
  | None => mret None
  end.

(** [FrameAllocator::allocate_frame] *)
Definition allocate_frame : F (option Z) := allocate_contiguous 1.

(** ** Deallocation; [frame] is the frame's start address *)

Definition saturating_sub (a b : Z) : Z := Z.max 0 (a - b).

Definition free_contiguous (frame count : Z) : F () :=
  if count =? 0 then mret ()
  else
    bytes ← lift (mul64 count PAGE_SIZE);
    end_addr ← lift (add64 frame bytes);
    self ← get;
    set_allocated (saturating_sub (allocated_bytes self) bytes);;
    insert_range_sorted (mkRange frame end_addr);;
    coalesce_ranges.

Definition free_frame (frame : Z) : F () := free_contiguous frame 1.

(** ** The frames of the free ranges *)

(** [(start..end).step_by(PAGE_SIZE)] *)
Definition range_addrs (r : PhysRange) : list Z :=
  (fun i => start r + PAGE_SIZE * i) <$> seqZ 0 ((end_ r - start r + PAGE_SIZE - 1) / PAGE_SIZE).

Fixpoint frames_at (addrs : list Z) : outcome (list Z) :=
  match addrs with
  | [] => Ret []
  | a :: addrs => f ← containing_address a; fs ← frames_at addrs; Ret (f :: fs)
  end.

Definition usable_frames (self : BootInfoFrameAllocator) : outcome (list Z) :=
  frames_at (concat (range_addrs <$> take (range_count self) (free_ranges self))).
End code.
