(* ===== verification/BootFramesProofs.v ===== *)
(** * The boot frame allocator on plain lists of ranges

    The array routines of [BootFrames] as list operations on the active
    ranges: removing and inserting an element, sorting, coalescing. *)
From stdpp Require Import sorting.
From S2P Require Import Prelude X86Api BootFrames.

#[global] Arguments MAX_RANGES : simpl never.
#[global] Arguments PAGE_SIZE : simpl never.

(** The active ranges. *)
Definition active (s : BootInfoFrameAllocator) : list PhysRange :=
  take (range_count s) (free_ranges s).

(** The array has its fixed size and no more active ranges than that. *)
Record array_ok (s : BootInfoFrameAllocator) : Prop := {
  ao_length : length (free_ranges s) = MAX_RANGES;
  ao_count : (range_count s <= MAX_RANGES)%nat;
}.

Lemma length_active s : array_ok s -> length (active s) = range_count s.
Proof. intros []. unfold active. rewrite length_take. lia. Qed.

Lemma active_lookup s i r :
  active s !! i = Some r -> free_ranges s !! i = Some r /\ (i < range_count s)%nat.
Proof. unfold active. intros [? ?]%lookup_take_Some. done. Qed.

Lemma index_lookup {A} (l : list A) i :
  (i < length l)%nat -> exists a, l !! i = Some a /\ index l i = Ret a.
Proof.
  intros [a Ha]%lookup_lt_is_Some_2. exists a. split; [done|by apply index_ok].
Qed.

(** ** Loops over the array *)

Lemma shift_left_spec fr j n :
  (j + n < length fr)%nat ->
  exists fr', shift_left fr j n = Ret fr' /\ length fr' = length fr /\
    forall i, fr' !! i = if decide (j <= i < j + n)%nat then fr !! S i else fr !! i.
Proof.
  revert fr j. induction n as [|n IH]; intros fr j Hlen; simpl.
  - exists fr. split_and!; [done..|]. intros i. by rewrite decide_False by lia.
  - destruct (index_lookup fr (j + 1)) as (r & Hr & ->); [lia|]. simpl.
    rewrite index_set_ok by lia. simpl.
    destruct (IH (<[j := r]> fr) (S j)) as (fr' & -> & Hl & Hlook);
      [rewrite length_insert; lia|].
    exists fr'. split_and!; [done|by rewrite Hl, length_insert|].
    intros i. rewrite Hlook. destruct (decide (i = j)) as [->|Hne].
    + rewrite list_lookup_insert_eq by lia. rewrite <- Hr, Nat.add_1_r.
      repeat case_decide; try done; lia.
    + repeat case_decide; rewrite ?list_lookup_insert_ne by lia; try done; lia.
Qed.

Lemma shift_right_spec fr pos n :
  (pos + n < length fr)%nat ->
  exists fr', shift_right fr pos n = Ret fr' /\ length fr' = length fr /\
    forall i, fr' !! i = if decide (pos < i <= pos + n)%nat then fr !! (i - 1)%nat else fr !! i.
Proof.
  revert fr. induction n as [|n IH]; intros fr Hlen; simpl.
  - exists fr. split_and!; [done..|]. intros i. by rewrite decide_False by lia.
  - destruct (index_lookup fr (pos + n)) as (r & Hr & ->); [lia|]. simpl.
    rewrite index_set_ok by lia. simpl.
    destruct (IH (<[(pos + n + 1)%nat := r]> fr)) as (fr' & -> & Hl & Hlook);
      [rewrite length_insert; lia|].
    exists fr'. split_and!; [done|by rewrite Hl, length_insert|].
    intros i. rewrite Hlook. destruct (decide (i = pos + n + 1)%nat) as [->|Hne].
    + rewrite list_lookup_insert_eq by lia.
      replace (pos + n + 1 - 1)%nat with (pos + n)%nat by lia.
      repeat case_decide; try done; lia.
    + repeat case_decide; rewrite ?list_lookup_insert_ne by lia; try done; lia.
Qed.

Lemma find_pos_spec r fr from n :
  (from + n <= length fr)%nat ->
  exists pos, find_pos r fr from n = Ret pos /\ (from <= pos <= from + n)%nat /\
    (forall i q, (from <= i < pos)%nat -> fr !! i = Some q -> start q <= start r) /\
    (forall q, (pos < from + n)%nat -> fr !! pos = Some q -> start r < start q).
Proof.
  revert from. induction n as [|n IH]; intros from Hlen; simpl.
  - exists from. split_and!; [done|lia..| |]; lia.
  - destruct (index_lookup fr from) as (q & Hq & ->); [lia|]. simpl.
    destruct (Z.ltb_spec (start r) (start q)).
    + exists from. split_and!; [done|lia..| |]; [lia|]. intros. by simplify_eq.
    + destruct (IH (S from)) as (pos & -> & Hp & Hb & Ha); [lia|].
      exists pos. split_and!; [done|lia..| |].
      * intros i q' Hi Hq'. destruct (decide (i = from)) as [->|]; [by simplify_eq|].
        apply (Hb i); [lia|done].
      * intros q' ?. apply Ha. lia.
Qed.

(** ** Removing and inserting *)

Section ops.
Context {ck : OverflowChecks}.

Definition with_ranges (fr : list PhysRange) (n : nat) (s : BootInfoFrameAllocator)
    : BootInfoFrameAllocator :=
  mkBoot fr n (allocated_bytes s) (total_bytes s).

Lemma remove_range_spec s i :
  array_ok s -> (i < range_count s)%nat ->
  exists s', remove_range i s = Ret ((), s') /\ array_ok s' /\
    active s' = delete i (active s) /\ range_count s' = (range_count s - 1)%nat /\
    allocated_bytes s' = allocated_bytes s /\ total_bytes s' = total_bytes s.
Proof.
  intros Hok Hi. pose proof (length_active s Hok) as Hla. destruct Hok as [Hlen Hcnt].
  unfold remove_range. run (run_get s).
  destruct (range_count s) as [|last] eqn:Hc; [lia|].
  destruct (shift_left_spec (free_ranges s) i (last - i)) as (fr & Hrun & Hl & Hlook); [lia|].
  run (run_lift _ s _ Hrun). run (run_lift _ s _ (index_set_ok fr last empty_range ltac:(lia))).
  exists (with_ranges (<[last := empty_range]> fr) last s).
  assert (active (with_ranges (<[last := empty_range]> fr) last s) = delete i (active s)) as Ha.
  { unfold active. simpl. rewrite Hc, take_insert_ge by lia. apply list_eq. intros j.
    destruct (decide (j < i)%nat).
    - rewrite list_lookup_delete_lt, !lookup_take_lt, Hlook by lia. by rewrite decide_False by lia.
    - rewrite list_lookup_delete_ge by lia. destruct (decide (j < last)%nat).
      + rewrite !lookup_take_lt, Hlook by lia. by rewrite decide_True by lia.
      + by rewrite !lookup_take_ge by lia. }
  split_and!; try done; simpl; [|lia].
  constructor; simpl; [rewrite length_insert; lia|lia].
Qed.

(** Where [insert_range_sorted] puts a range: before the first that starts later. *)
Definition insert_at (pos : nat) (r : PhysRange) (l : list PhysRange) : list PhysRange :=
  take pos l ++ r :: drop pos l.

Definition insertion_point (pos : nat) (r : PhysRange) (l : list PhysRange) : Prop :=
  (pos <= length l)%nat /\ Forall (fun q => start q <= start r) (take pos l) /\
  (forall q, l !! pos = Some q -> start r < start q).

Lemma insert_range_spec s r :
  array_ok s -> (range_count s < MAX_RANGES)%nat ->
  exists pos s', insert_range_sorted r s = Ret ((), s') /\ array_ok s' /\
    insertion_point pos r (active s) /\ active s' = insert_at pos r (active s) /\
    range_count s' = S (range_count s) /\
    allocated_bytes s' = allocated_bytes s /\ total_bytes s' = total_bytes s.
Proof.
  intros Hok Hc. pose proof (length_active s Hok) as Hla. destruct Hok as [Hlen Hcnt].
  unfold insert_range_sorted. run (run_get s).
  rewrite (proj2 (Nat.leb_gt _ _)) by lia.
  destruct (find_pos_spec r (free_ranges s) 0 (range_count s))
    as (pos & Hrun & Hp & Hbefore & Hafter); [lia|].
  run (run_lift _ s _ Hrun).
  destruct (shift_right_spec (free_ranges s) pos (range_count s - pos))
    as (fr & Hrun2 & Hl & Hlook); [lia|].
  run (run_lift _ s _ Hrun2). run (run_lift _ s _ (index_set_ok fr pos r ltac:(lia))).
  exists pos, (with_ranges (<[pos := r]> fr) (S (range_count s)) s).
  split_and!; try done; [|split_and!|].
  - constructor; simpl; [rewrite length_insert; lia|lia].
  - lia.
  - apply Forall_lookup. intros i q [Hq Hi]%lookup_take_Some.
    apply active_lookup in Hq as [Hq _]. apply (Hbefore i q); [lia|done].
  - intros q [Hq Hi]%active_lookup. apply Hafter; [lia|done].
  - unfold active, insert_at. simpl. apply list_eq. intros j.
    assert (length (take pos (take (range_count s) (free_ranges s))) = pos) as Htl
      by (rewrite !length_take; lia).
    destruct (decide (j < pos)%nat).
    + rewrite lookup_app_l by lia. rewrite !lookup_take_lt by lia.
      rewrite list_lookup_insert_ne, Hlook by lia. by rewrite decide_False by lia.
    + rewrite lookup_app_r, Htl by lia. destruct (decide (j = pos)) as [->|].
      * rewrite Nat.sub_diag. simpl. rewrite lookup_take_lt by lia.
        by apply list_lookup_insert_eq; lia.
      * destruct (j - pos)%nat as [|d] eqn:Hd; [lia|]. simpl. rewrite lookup_drop.
        destruct (decide (j <= range_count s)%nat).
        -- rewrite !lookup_take_lt by lia. rewrite list_lookup_insert_ne, Hlook by lia.
           rewrite decide_True by lia. f_equal. lia.
        -- by rewrite !lookup_take_ge by lia.
Qed.

Lemma insert_range_full s r :
  range_count s = MAX_RANGES -> insert_range_sorted r s = Panic.
Proof.
  intros Hc. unfold insert_range_sorted. run (run_get s). rewrite Hc. done.
Qed.
End ops.

(** ** Meaning of a list of ranges *)

Definition PHYS_LIM : Z := 4503599627370496. (* 2^52, the physical address space *)

Definition in_range (r : PhysRange) (x : Z) : Prop := start r <= x < end_ r.
Definition free_byte (R : list PhysRange) (x : Z) : Prop := exists r, r ∈ R /\ in_range r x.

Record range_wf (r : PhysRange) : Prop := {
  rw_low : 0 <= start r;
  rw_nonempty : start r < end_ r;
  rw_high : end_ r <= PHYS_LIM;
  rw_start : (PAGE_SIZE | start r);
  rw_end : (PAGE_SIZE | end_ r);
}.

Definition before (a b : PhysRange) : Prop := end_ a <= start b.

Record ranges_wf (R : list PhysRange) : Prop := {
  rs_sorted : StronglySorted before R;
  rs_wf : Forall range_wf R;
}.

Fixpoint bytes (R : list PhysRange) : Z :=
  match R with [] => 0 | r :: R => (end_ r - start r) + bytes R end.

Record boot_inv (s : BootInfoFrameAllocator) : Prop := {
  bi_array : array_ok s;
  bi_ranges : ranges_wf (active s);
  bi_allocated : 0 <= allocated_bytes s;
  bi_total : total_bytes s = allocated_bytes s + bytes (active s);
  bi_bound : total_bytes s < U64_LIM;
}.

Lemma bytes_app R1 R2 : bytes (R1 ++ R2) = bytes R1 + bytes R2.
Proof. induction R1; simpl; lia. Qed.

Lemma bytes_nonneg R : Forall range_wf R -> 0 <= bytes R.
Proof. induction 1 as [|r R [] _ IH]; simpl; lia. Qed.

Lemma free_byte_app R1 R2 x : free_byte (R1 ++ R2) x <-> free_byte R1 x \/ free_byte R2 x.
Proof. unfold free_byte. setoid_rewrite elem_of_app. naive_solver. Qed.
Lemma free_byte_cons r R x : free_byte (r :: R) x <-> in_range r x \/ free_byte R x.
Proof. unfold free_byte. setoid_rewrite elem_of_cons. naive_solver. Qed.
Lemma free_byte_nil x : free_byte [] x <-> False.
Proof. unfold free_byte. setoid_rewrite elem_of_nil. naive_solver. Qed.
Create Rewrite HintDb boot.
#[export] Hint Rewrite free_byte_app free_byte_cons free_byte_nil bytes_app : boot.

Lemma sorted_middle R1 r R2 :
  StronglySorted before (R1 ++ r :: R2) <->
  StronglySorted before (R1 ++ R2) /\
  Forall (fun a => before a r) R1 /\ Forall (before r) R2.
Proof.
  rewrite !StronglySorted_app, !Forall_forall. split.
  - intros (H1 & H2 & H3). apply StronglySorted_inv in H3 as [H3 Hr].
    rewrite Forall_forall in Hr. split_and!; try done.
    + intros a b Ha Hb. apply H1; [done|by right].
    + intros a Ha. apply H1; [done|left].
  - intros ((H1 & H2 & H3) & H4 & H5). split_and!; try done.
    + intros a b Ha [->|Hb]%elem_of_cons; auto.
    + constructor; [done|]. by apply Forall_forall.
Qed.

Lemma ranges_wf_middle R1 r R2 :
  ranges_wf (R1 ++ r :: R2) <->
  ranges_wf (R1 ++ R2) /\ range_wf r /\
  Forall (fun a => before a r) R1 /\ Forall (before r) R2.
Proof.
  split.
  - intros [Hs Hw]. apply sorted_middle in Hs as (? & ? & ?).
    apply Forall_app in Hw as [? [? ?]%Forall_cons]. split_and!; try done.
    constructor; [done|by apply Forall_app].
  - intros ([Hs Hw] & ? & ? & ?). apply Forall_app in Hw as [? ?]. constructor.
    + by apply sorted_middle.
    + by apply Forall_app; split; [|constructor].
Qed.

(** In a well-formed list the insertion point of a range splits the list where
    the range belongs. *)
Lemma insert_at_split pos r R1 R2 :
  insertion_point pos r (R1 ++ R2) ->
  Forall (fun a => start a <= start r) R1 -> Forall (fun b => start r < start b) R2 ->
  insert_at pos r (R1 ++ R2) = R1 ++ r :: R2.
Proof.
  intros (Hp & Hle & Hgt) H1 H2.
  assert (pos = length R1) as ->.
  { destruct (decide (pos < length R1)%nat) as [Hlt|].
    { destruct (lookup_lt_is_Some_2 R1 pos Hlt) as [q Hq].
      rewrite Forall_lookup in H1. specialize (H1 pos q Hq).
      specialize (Hgt q). rewrite lookup_app_l in Hgt by done. specialize (Hgt Hq). lia. }
    destruct R2 as [|q R2]; [rewrite app_nil_r in Hp; lia|].
    destruct (decide (pos = length R1)); [done|].
    rewrite Forall_lookup in Hle. rewrite Forall_cons in H2.
    specialize (Hle (length R1) q). rewrite lookup_take_lt in Hle by lia.
    rewrite list_lookup_middle in Hle by done. destruct H2. specialize (Hle eq_refl). lia. }
  unfold insert_at. by rewrite take_app_length, drop_app_length.
Qed.

(** Everything left of a range starts before it, everything right of it after
    its end. *)
Lemma starts_left R1 R2 r x :
  ranges_wf (R1 ++ r :: R2) -> start r <= x -> Forall (fun a => start a <= x) R1.
Proof.
  intros Hwf Hx. pose proof Hwf as ([_ Hall] & Hr & H1 & _)%ranges_wf_middle.
  apply Forall_app in Hall as [Hall _]. rewrite Forall_forall in *.
  intros a Ha. specialize (H1 a Ha). destruct (Hall a Ha). unfold before in H1. lia.
Qed.
Lemma starts_right R1 R2 r x :
  ranges_wf (R1 ++ r :: R2) -> x < end_ r -> Forall (fun b => x < start b) R2.
Proof.
  intros (_ & _ & _ & H2)%ranges_wf_middle Hx. eapply Forall_impl; [exact H2|].
  unfold before. intros. simpl in *. lia.
Qed.

(** Replacing a range by a list of ranges inside it. *)
Lemma ranges_wf_replace R1 r R2 Q :
  ranges_wf (R1 ++ r :: R2) -> ranges_wf Q ->
  Forall (fun q => start r <= start q /\ end_ q <= end_ r) Q ->
  ranges_wf (R1 ++ Q ++ R2).
Proof.
  intros Hwf HQ Hin. revert R1 Hwf. induction Q as [|q Q IH]; intros R1 Hwf; simpl.
  { by apply ranges_wf_middle in Hwf as [? _]. }
  destruct HQ as [HsQ HwQ]. apply StronglySorted_inv in HsQ as [HsQ Hq].
  apply Forall_cons in HwQ as [Hwq HwQ]. apply Forall_cons in Hin as [Hqin Hin].
  apply ranges_wf_middle. split_and!; [by apply IH|done| |].
  - apply ranges_wf_middle in Hwf as (_ & _ & H1 & _).
    eapply Forall_impl; [exact H1|]. unfold before. intros a Ha. simpl in *. lia.
  - apply Forall_app. split; [done|]. apply ranges_wf_middle in Hwf as (_ & _ & _ & H2).
    eapply Forall_impl; [exact H2|]. unfold before. intros a Ha. simpl in *. lia.
Qed.

(** ** Allocation carves a run out of one range *)

Definition opt_range (b : bool) (r : PhysRange) : list PhysRange := if b then [r] else [].

(** What is left of [r] after the run from [lo] to [hi] is taken. *)
Definition carve (r : PhysRange) (lo hi : Z) : list PhysRange :=
  opt_range (start r <? lo) (mkRange (start r) lo) ++
  opt_range (hi <? end_ r) (mkRange hi (end_ r)).

Section carve.
Context {ck : OverflowChecks}.

Lemma when_insert s (b : bool) q A C :
  array_ok s -> active s = A ++ C ->
  (b = true -> (range_count s < MAX_RANGES)%nat /\
    Forall (fun a => start a <= start q) A /\ Forall (fun c => start q < start c) C) ->
  exists s', when b (insert_range_sorted q) s = Ret ((), s') /\ array_ok s' /\
    active s' = A ++ opt_range b q ++ C /\
    range_count s' = (range_count s + Nat.b2n b)%nat /\
    allocated_bytes s' = allocated_bytes s /\ total_bytes s' = total_bytes s.
Proof.
  intros Hok Ha Hb. destruct b; simpl.
  - destruct (Hb eq_refl) as (Hc & H1 & H2).
    destruct (insert_range_spec s q Hok Hc) as (pos & s' & Hrun & Hok' & Hp & Hact & Hn & Hal & Ht).
    exists s'. split_and!; try done; [|lia]. rewrite Hact, Ha. apply insert_at_split; [|done..].
    by rewrite <- Ha.
  - exists s. split_and!; done || lia.
Qed.

Lemma carve_run s i r R1 R2 lo hi :
  array_ok s -> ranges_wf (active s) -> active s = R1 ++ r :: R2 -> i = length R1 ->
  start r <= lo -> lo < hi -> hi <= end_ r ->
  (start r < lo -> hi < end_ r -> (range_count s < MAX_RANGES)%nat) ->
  exists s',
    (forall B (rest : F B),
      (remove_range i;;
       when (start r <? lo) (insert_range_sorted (mkRange (start r) lo));;
       when (hi <? end_ r) (insert_range_sorted (mkRange hi (end_ r)));; rest) s = rest s') /\
    array_ok s' /\ active s' = R1 ++ carve r lo hi ++ R2 /\
    allocated_bytes s' = allocated_bytes s /\ total_bytes s' = total_bytes s.
Proof.
  intros Hok Hwf Ha -> Hlo Hlt Hhi Hcap.
  pose proof (length_active s Hok) as Hla. rewrite Ha, length_app in Hla. simpl in Hla.
  rewrite Ha in Hwf.
  destruct (remove_range_spec s (length R1) Hok) as (s1 & Hrun1 & Hok1 & Ha1 & Hn1 & Hal1 & Ht1);
    [lia|]. rewrite Ha, delete_middle in Ha1.
  pose proof (ao_count _ Hok) as Hc.
  destruct (when_insert s1 (start r <? lo) (mkRange (start r) lo) R1 R2)
    as (s2 & Hrun2 & Hok2 & Ha2 & Hn2 & Hal2 & Ht2); [done..| |].
  { intros Hb%Z.ltb_lt. simpl. split_and!; [lia| |].
    - by apply (starts_left R1 R2 r).
    - apply (starts_right R1 R2 r); [done|lia]. }
  destruct (when_insert s2 (hi <? end_ r) (mkRange hi (end_ r))
    (R1 ++ opt_range (start r <? lo) (mkRange (start r) lo)) R2)
    as (s3 & Hrun3 & Hok3 & Ha3 & Hn3 & Hal3 & Ht3); [done|by rewrite <- app_assoc| |].
  { intros Hb%Z.ltb_lt. simpl. split_and!.
    - destruct (Z.ltb_spec (start r) lo); simpl in *; [|lia]. specialize (Hcap ltac:(lia) ltac:(lia)). lia.
    - apply Forall_app. split; [apply (starts_left R1 R2 r); [done|lia]|].
      destruct (Z.ltb_spec (start r) lo); simpl; [|done]. constructor; [simpl; lia|done].
    - by apply (starts_right R1 R2 r). }
  exists s3. split_and!; [|done| |congruence|congruence].
  { intros B rest. run Hrun1. run Hrun2. by run Hrun3. }
  rewrite Ha3. unfold carve. by rewrite <- !app_assoc.
Qed.
End carve.

Lemma ranges_wf_nil : ranges_wf [].
Proof. repeat constructor. Qed.
Lemma ranges_wf_cons r R :
  range_wf r -> Forall (before r) R -> ranges_wf R -> ranges_wf (r :: R).
Proof. intros ? ? [? ?]. by constructor; constructor. Qed.

Lemma carve_spec r lo hi :
  range_wf r -> start r <= lo -> lo < hi -> hi <= end_ r ->
  (PAGE_SIZE | lo) -> (PAGE_SIZE | hi) ->
  ranges_wf (carve r lo hi) /\
  Forall (fun q => start r <= start q /\ end_ q <= end_ r) (carve r lo hi) /\
  bytes (carve r lo hi) = end_ r - start r - (hi - lo) /\
  forall x, free_byte (carve r lo hi) x <-> in_range r x /\ ~ (lo <= x < hi).
Proof.
  intros [] Hlo Hlt Hhi Hdl Hdh. unfold carve.
  destruct (Z.ltb_spec (start r) lo), (Z.ltb_spec hi (end_ r)); simpl;
    (split_and!; [repeat (apply ranges_wf_nil || apply ranges_wf_cons)| |lia
                 |intros x; autorewrite with boot; unfold in_range; simpl; lia]);
    repeat (apply Forall_nil_2 || apply Forall_cons_2);
    unfold before; simpl; try lia; by constructor; simpl; (done || lia).
Qed.

(** ** The search loop of [allocate_contiguous_aligned] *)

Definition round_up (a x : Z) : Z := (x + a - 1) / a * a.

Lemma round_up_spec a x : 0 < a -> x <= round_up a x < x + a /\ (a | round_up a x).
Proof.
  intros Ha. unfold round_up. split; [|apply Z.divide_factor_r].
  pose proof (Z.div_mod (x + a - 1) a). pose proof (Z.mod_pos_bound (x + a - 1) a). lia.
Qed.

(** The least multiple of [a] above [x]. *)
Lemma round_up_least a x y : 0 < a -> (a | y) -> x <= y -> round_up a x <= y.
Proof.
  intros Ha [c ->] Hx. unfold round_up. apply Z.mul_le_mono_nonneg_r; [lia|].
  assert ((x + a - 1) / a < c + 1); [|lia]. apply Z.div_lt_upper_bound; lia.
Qed.

(** The run [[f, f + size)] moves from free to allocated. *)
Record taken (s : BootInfoFrameAllocator) (f size : Z) (s' : BootInfoFrameAllocator) : Prop := {
  tk_inv : boot_inv s';
  tk_free : forall x, f <= x < f + size -> free_byte (active s) x;
  tk_rest : forall x, free_byte (active s') x <->
              free_byte (active s) x /\ ~ (f <= x < f + size);
  tk_allocated : allocated_bytes s' = allocated_bytes s + size;
  tk_total : total_bytes s' = total_bytes s;
}.

Definition fits (alignment size : Z) (r : PhysRange) : Prop :=
  round_up alignment (start r) + size <= end_ r.

(** A range whose middle would be taken while the array is full is skipped. *)
Definition skipped (s : BootInfoFrameAllocator) (alignment size : Z) (r : PhysRange) : Prop :=
  range_count s = MAX_RANGES /\ start r < round_up alignment (start r) /\
  round_up alignment (start r) + size < end_ r.

Lemma free_byte_disjoint R1 r R2 x :
  ranges_wf (R1 ++ r :: R2) -> in_range r x -> ~ free_byte (R1 ++ R2) x.
Proof.
  intros (_ & _ & H1 & H2)%ranges_wf_middle Hx (q & [Hq|Hq]%elem_of_app & Hqx).
  - rewrite Forall_forall in H1. specialize (H1 q Hq). unfold before, in_range in *. lia.
  - rewrite Forall_forall in H2. specialize (H2 q Hq). unfold before, in_range in *. lia.
Qed.

Lemma bytes_bound s r : boot_inv s -> r ∈ active s -> end_ r - start r <= bytes (active s).
Proof.
  intros Hinv [R1 [R2 HR]]%list_elem_of_split.
  pose proof (rs_wf _ (bi_ranges _ Hinv)) as Hw. rewrite HR in *. apply Forall_app in Hw as [H1 Hw].
  apply Forall_cons in Hw as [_ H2]. rewrite bytes_app. simpl.
  pose proof (bytes_nonneg _ H1). pose proof (bytes_nonneg _ H2). lia.
Qed.

(** Taking the run out of the range that holds it keeps the invariant. *)
Lemma carve_taken s s' r R1 R2 lo size :
  boot_inv s -> active s = R1 ++ r :: R2 -> array_ok s' ->
  start r <= lo -> 0 < size -> lo + size <= end_ r -> (PAGE_SIZE | lo) -> (PAGE_SIZE | size) ->
  active s' = R1 ++ carve r lo (lo + size) ++ R2 ->
  allocated_bytes s' = allocated_bytes s + size -> total_bytes s' = total_bytes s ->
  taken s lo size s'.
Proof.
  intros Hinv Ha Hok Hlo Hs Hhi Hdl Hds Ha' Hal Ht.
  pose proof (bi_ranges _ Hinv) as Hwf. rewrite Ha in Hwf.
  pose proof Hwf as (_ & Hr & _ & _)%ranges_wf_middle.
  destruct (carve_spec r lo (lo + size)) as (Hcw & Hcin & Hcb & Hcf);
    [done|lia..|done|by apply Z.divide_add_r|].
  destruct Hinv as [_ _ Hal0 Ht0 Hb0]. rewrite Ha in Ht0. autorewrite with boot in Ht0. simpl in Ht0.
  constructor.
  - constructor; [done| |lia| |lia].
    + rewrite Ha'. by eapply ranges_wf_replace.
    + rewrite Ha'. autorewrite with boot. rewrite Hcb. lia.
  - intros x Hx. rewrite Ha. autorewrite with boot. right. left. unfold in_range. lia.
  - intros x. pose proof (free_byte_disjoint R1 r R2 x Hwf) as Hd.
    rewrite Ha, Ha'. autorewrite with boot in *. rewrite Hcf. unfold in_range in *.
    split; [|tauto]. intros Hx. split; [tauto|]. intros Hin.
    destruct Hd; [lia|]. tauto.
  - done.
  - done.
Qed.

Section search.
Context {ck : OverflowChecks} `{PhysFrameLaws}.

#[global] Instance fits_dec a z r : Decision (fits a z r).
Proof. unfold fits. apply _. Defined.
#[global] Instance skipped_dec s a z r : Decision (skipped s a z r).
Proof. unfold skipped. apply _. Defined.

Lemma run_fits (s : BootInfoFrameAllocator) lo size e :
  add64 lo size = Ret (lo + size) ->
  (top ← lift (add64 lo size); mret (top <=? e) : F bool) s = Ret (lo + size <=? e, s).
Proof. intros Htop. by run (run_lift _ s _ Htop). Qed.

Lemma aligned_start_ok x k :
  0 <= x <= PHYS_LIM -> 0 <= k <= 52 ->
  add64 x (2 ^ k) = Ret (x + 2 ^ k) /\ sub64 (x + 2 ^ k) 1 = Ret (x + 2 ^ k - 1) /\
  sub64 (2 ^ k) 1 = Ret (2 ^ k - 1) /\
  Z.land (x + 2 ^ k - 1) (not64 (2 ^ k - 1)) = round_up (2 ^ k) x.
Proof.
  unfold PHYS_LIM. intros Hx Hk.
  assert (0 < 2 ^ k <= 2 ^ 52) by (split; [apply Z.pow_pos_nonneg|apply Z.pow_le_mono_r]; lia).
  rewrite add64_ok, !sub64_ok by lia. split_and!; [done..|].
  rewrite land_not_ones; [done|lia|unfold is_u64; lia].
Qed.

Lemma page_divides_pow k : 12 <= k -> (PAGE_SIZE | 2 ^ k).
Proof.
  intros. exists (2 ^ (k - 12)). change PAGE_SIZE with (2 ^ 12).
  rewrite <- Z.pow_add_r by lia. f_equal. lia.
Qed.

Lemma round_up_page k x :
  12 <= k <= 52 ->
  x <= round_up (2 ^ k) x /\ round_up (2 ^ k) x < x + 2 ^ 52 /\ (PAGE_SIZE | round_up (2 ^ k) x).
Proof.
  intros Hk. assert (0 < 2 ^ k <= 2 ^ 52)
    by (split; [apply Z.pow_pos_nonneg|apply Z.pow_le_mono_r]; lia).
  destruct (round_up_spec (2 ^ k) x) as [Hlo Hdiv]; [lia|]. split_and!; [lia..|].
  eapply Z.divide_trans; [apply page_divides_pow|exact Hdiv]; lia.
Qed.

(** The body of the loop at a range: skip it or take the run. *)
Lemma allocate_from_found s size k i n r :
  boot_inv s -> 12 <= k <= 52 -> 0 < size < 2 ^ 63 -> (PAGE_SIZE | size) ->
  active s !! i = Some r -> fits (2 ^ k) size r -> ~ skipped s (2 ^ k) size r ->
  let lo := round_up (2 ^ k) (start r) in
  exists s', allocate_from size (2 ^ k) i (S n) s = Ret (Some lo, s') /\ taken s lo size s'.
Proof.
  intros Hinv Hk Hsize Hpg Hr Hfit Hcap. unfold fits, skipped in *.
  pose proof (proj1 (active_lookup _ _ _ Hr)) as Hfr.
  pose proof (list_elem_of_lookup_2 _ _ _ Hr) as Hel.
  pose proof (proj1 (Forall_forall _ _) (rs_wf _ (bi_ranges _ Hinv)) r Hel) as [].
  destruct (aligned_start_ok (start r) k) as (E1 & E2 & E3 & E4); [lia|lia|].
  destruct (round_up_page k (start r)) as (Hlo & Hlo' & Hpl); [lia|].
  set (lo := round_up (2 ^ k) (start r)) in *. cbn [allocate_from]. unfold PHYS_LIM in *.
  assert (add64 lo size = Ret (lo + size)) as Htop by (apply add64_ok; lia).
  run (run_get s). run (run_lift _ s _ (index_ok _ _ _ Hfr)).
  run (run_lift _ s _ E1). run (run_lift _ s _ E2). run (run_lift _ s _ E3). rewrite E4.
  fold lo. rewrite (proj2 (Z.leb_le (start r) lo)) by lia.
  run (run_fits s lo size (end_ r) Htop). rewrite (proj2 (Z.leb_le _ _) Hfit).
  run (run_lift _ s _ Htop).
  pose proof (ao_count _ (bi_array _ Hinv)) as Hcount.
  match goal with |- context [if ?c then _ else _] => assert (c = false) as -> end.
  { apply not_true_iff_false. intros [Hb%Nat.ltb_lt Hc%Nat.leb_le]%andb_true_iff. apply Hcap.
    destruct (Z.ltb_spec (start r) lo), (Z.ltb_spec (lo + size) (end_ r)); simpl in Hb; lia. }
  destruct (list_elem_of_split_length _ _ _ Hr) as (R1 & R2 & HR & Hi).
  destruct (carve_run s i r R1 R2 lo (lo + size)) as (s1 & Hrun & Hok1 & Ha1 & Hal1 & Ht1);
    [apply Hinv..|done|done|lia|lia|lia| |].
  { intros Hb Ha. destruct (decide (range_count s = MAX_RANGES)); [|lia]. destruct Hcap. lia. }
  rewrite Hrun. run (run_get s1).
  pose proof (bytes_bound s r Hinv Hel). pose proof (bi_total _ Hinv). pose proof (bi_bound _ Hinv).
  pose proof (bi_allocated _ Hinv).
  assert (add64 (allocated_bytes s1) size = Ret (allocated_bytes s + size)) as Hadd
    by (rewrite Hal1; apply add64_ok; lia).
  run (run_lift _ s1 _ Hadd).
  set (s2 := mkBoot (free_ranges s1) (range_count s1) (allocated_bytes s + size) (total_bytes s1)).
  assert (set_allocated (allocated_bytes s + size) s1 = Ret ((), s2)) as Hset by done. run Hset.
  assert (containing_address lo = Ret lo) as Hf.
  { rewrite containing_address_ok by lia. destruct Hpl as [c ->]. change PAGE_SIZE with 4096.
    by rewrite Z.div_mul. }
  run (run_lift _ s2 _ Hf). exists s2. split; [done|].
  apply (carve_taken s s2 r R1 R2); try done; try lia; simpl.
  destruct Hok1. by constructor.
Qed.

Lemma allocate_from_skip s size k i n r :
  boot_inv s -> 12 <= k <= 52 -> 0 < size < 2 ^ 63 ->
  active s !! i = Some r -> ~ fits (2 ^ k) size r \/ skipped s (2 ^ k) size r ->
  allocate_from size (2 ^ k) i (S n) s = allocate_from size (2 ^ k) (S i) n s.
Proof.
  intros Hinv Hk Hsize Hr Hno. unfold fits, skipped in *.
  pose proof (proj1 (active_lookup _ _ _ Hr)) as Hfr.
  pose proof (list_elem_of_lookup_2 _ _ _ Hr) as Hel.
  pose proof (proj1 (Forall_forall _ _) (rs_wf _ (bi_ranges _ Hinv)) r Hel) as [].
  destruct (aligned_start_ok (start r) k) as (E1 & E2 & E3 & E4); [lia|lia|].
  destruct (round_up_page k (start r)) as (Hlo & Hlo' & Hpl); [lia|].
  set (lo := round_up (2 ^ k) (start r)) in *. cbn [allocate_from]. unfold PHYS_LIM in *.
  assert (add64 lo size = Ret (lo + size)) as Htop by (apply add64_ok; lia).
  run (run_get s). run (run_lift _ s _ (index_ok _ _ _ Hfr)).
  run (run_lift _ s _ E1). run (run_lift _ s _ E2). run (run_lift _ s _ E3). rewrite E4.
  fold lo. rewrite (proj2 (Z.leb_le (start r) lo)) by lia.
  run (run_fits s lo size (end_ r) Htop).
  destruct (Z.leb_spec (lo + size) (end_ r)); [|done].
  run (run_lift _ s _ Htop). destruct Hno as [|(Hc & Hb & Ha)]; [lia|].
  rewrite (proj2 (Z.ltb_lt _ _) Hb), (proj2 (Z.ltb_lt _ _) Ha), Hc, Nat.leb_refl. done.
Qed.

Lemma allocate_from_spec s size k i n :
  boot_inv s -> 12 <= k <= 52 -> 0 < size < 2 ^ 63 -> (PAGE_SIZE | size) ->
  (i + n = range_count s)%nat ->
  exists res s', allocate_from size (2 ^ k) i n s = Ret (res, s') /\
    match res with
    | Some f => exists r, r ∈ active s /\ f = round_up (2 ^ k) (start r) /\
                  fits (2 ^ k) size r /\ taken s f size s'
    | None => s' = s /\ forall j r, (i <= j)%nat -> active s !! j = Some r ->
                ~ fits (2 ^ k) size r \/ skipped s (2 ^ k) size r
    end.
Proof.
  intros Hinv Hk Hsize Hpg. revert i. induction n as [|n IH]; intros i Hin.
  { exists None, s. split_and!; [done..|]. intros j r Hj [_ ?]%active_lookup. lia. }
  pose proof (length_active s (bi_array _ Hinv)) as Hla.
  destruct (lookup_lt_is_Some_2 (active s) i) as [r Hr]; [lia|].
  destruct (decide (fits (2 ^ k) size r /\ ~ skipped s (2 ^ k) size r)) as [[Hfit Hcap]|Hno].
  - destruct (allocate_from_found s size k i n r) as (s' & Hrun & Ht); [done..|].
    eexists _, s'. split; [exact Hrun|]. exists r. split_and!; try done.
    by eapply list_elem_of_lookup_2.
  - assert (~ fits (2 ^ k) size r \/ skipped s (2 ^ k) size r) as Hno'
      by (destruct (decide (fits (2 ^ k) size r)), (decide (skipped s (2 ^ k) size r)); tauto).
    rewrite (allocate_from_skip s size k i n r) by done.
    destruct (IH (S i)) as (res & s' & Hrun & Hres); [lia|]. exists res, s'. split; [done|].
    destruct res; [done|]. destruct Hres as [-> Hall]. split; [done|]. intros j q Hj Hq.
    destruct (decide (j = i)) as [->|]; [by simplify_eq|]. apply (Hall j); [lia|done].
Qed.
(** When every range is skipped the search comes back with nothing. *)
Lemma allocate_from_none s size k i n :
  boot_inv s -> 12 <= k <= 52 -> 0 < size < 2 ^ 63 -> (i + n = range_count s)%nat ->
  (forall r, r ∈ active s -> ~ fits (2 ^ k) size r \/ skipped s (2 ^ k) size r) ->
  allocate_from size (2 ^ k) i n s = Ret (None, s).
Proof.
  intros Hinv Hk Hsize Hin Hno. revert i Hin. induction n as [|n IH]; intros i Hin; [done|].
  destruct (lookup_lt_is_Some_2 (active s) i) as [r Hr]; [rewrite (length_active s (bi_array _ Hinv)); lia|].
  rewrite (allocate_from_skip s size k i n r) by (done || by eapply Hno, list_elem_of_lookup_2). apply IH. lia.
Qed.
End search.
