(* ===== verification/BootCoalesce.v ===== *)
(** * Returning frames: merging adjacent ranges

    [coalesce_ranges] of [kernel/src/mm/memory.rs] as a list function, the
    ranges it leaves (a gap between any two), and the effect of
    [free_contiguous] on the set of free bytes. *)
From stdpp Require Import sorting.
From S2P Require Import Prelude X86Api BootFrames BootFramesProofs.

(** [cur], grown over the ranges that follow it without a gap. *)
Fixpoint merge_from (cur : PhysRange) (R : list PhysRange) : list PhysRange :=
  match R with
  | [] => [cur]
  | next :: R =>
      if end_ cur =? start next then merge_from (mkRange (start cur) (end_ next)) R
      else cur :: merge_from next R
  end.

Definition gap (a b : PhysRange) : Prop := end_ a < start b.

(** No two ranges touch. *)
Definition coalesced (R : list PhysRange) : Prop := StronglySorted gap R.

Lemma StronglySorted_weaken {A} (P Q : A -> A -> Prop) l :
  (forall a b, P a b -> Q a b) -> StronglySorted P l -> StronglySorted Q l.
Proof.
  intros HPQ. induction 1 as [|a l _ IH Ha]; constructor; [done|].
  eapply Forall_impl; [exact Ha|]. auto.
Qed.

Lemma ranges_wf_inv r R :
  ranges_wf (r :: R) -> range_wf r /\ Forall (before r) R /\ ranges_wf R.
Proof.
  intros (? & ? & _ & ?)%(ranges_wf_middle []). done.
Qed.

Lemma merge_from_spec cur R :
  ranges_wf (cur :: R) ->
  ranges_wf (merge_from cur R) /\ coalesced (merge_from cur R) /\
  bytes (merge_from cur R) = bytes (cur :: R) /\
  (forall x, free_byte (merge_from cur R) x <-> free_byte (cur :: R) x) /\
  Forall (fun q => start cur <= start q) (merge_from cur R).
Proof.
  revert cur. induction R as [|next R IH]; intros cur Hwf; simpl.
  { split_and!; try done; by repeat constructor. }
  apply ranges_wf_inv in Hwf as (Hc & [Hcn HcR]%Forall_cons & Hwf).
  pose proof Hwf as (Hn & HnR & HwR)%ranges_wf_inv.
  destruct (Z.eqb_spec (end_ cur) (start next)) as [Heq|Hne].
  - destruct (IH (mkRange (start cur) (end_ next))) as (I1 & I2 & I3 & I4 & I5).
    { apply ranges_wf_cons; [|done..]. destruct Hc, Hn. constructor; simpl; done || lia. }
    split_and!; try done.
    + rewrite I3. simpl. lia.
    + intros x. rewrite I4. autorewrite with boot. unfold in_range. simpl.
      destruct Hc, Hn. split; [|intuition lia]. intros [?|?]; [|tauto].
      destruct (decide (x < end_ cur)); [left|right; left]; lia.
  - destruct (IH next Hwf) as (I1 & I2 & I3 & I4 & I5). unfold before in Hcn.
    assert (Forall (gap cur) (merge_from next R)) as Hg.
    { eapply Forall_impl; [exact I5|]. unfold gap. simpl. intros. lia. }
    split_and!.
    + apply ranges_wf_cons; [done| |done]. eapply Forall_impl; [exact Hg|].
      unfold gap, before. lia.
    + by constructor.
    + simpl. simpl in I3. lia.
    + intros x. rewrite !free_byte_cons, I4, free_byte_cons. done.
    + constructor; [lia|]. eapply Forall_impl; [exact I5|]. destruct Hc. simpl. intros. lia.
Qed.

(** A coalesced list is determined by the bytes it holds. *)
Lemma coalesced_canonical R1 R2 :
  ranges_wf R1 -> ranges_wf R2 -> coalesced R1 -> coalesced R2 ->
  (forall x, free_byte R1 x <-> free_byte R2 x) -> R1 = R2.
Proof.
  revert R2. induction R1 as [|a R1 IH]; intros R2 W1 W2 C1 C2 Heq.
  { destruct R2 as [|b R2]; [done|]. apply ranges_wf_inv in W2 as ([] & _ & _).
    destruct (proj2 (Heq (start b))) as (q & Hq & _); [|by apply elem_of_nil in Hq].
    autorewrite with boot. left. unfold in_range. lia. }
  destruct R2 as [|b R2].
  { apply ranges_wf_inv in W1 as ([] & _ & _).
    destruct (proj1 (Heq (start a))) as (q & Hq & _); [|by apply elem_of_nil in Hq].
    autorewrite with boot. left. unfold in_range. lia. }
  apply ranges_wf_inv in W1 as ([] & B1 & W1). apply ranges_wf_inv in W2 as ([] & B2 & W2).
  apply StronglySorted_inv in C1 as [C1 G1]. apply StronglySorted_inv in C2 as [C2 G2].
  setoid_rewrite free_byte_cons in Heq. rewrite Forall_forall in *.
  assert (forall x, x <= end_ a -> ~ free_byte R1 x) as N1.
  { intros x Hx (q & Hq & Hqx). specialize (G1 q Hq). unfold gap, in_range in *. lia. }
  assert (forall x, x <= end_ b -> ~ free_byte R2 x) as N2.
  { intros x Hx (q & Hq & Hqx). specialize (G2 q Hq). unfold gap, in_range in *. lia. }
  unfold in_range in *.
  assert (start a = start b) as Hs.
  { destruct (decide (start a < start b)), (decide (start b < start a)); [lia|..|lia].
    - destruct (proj1 (Heq (start a))) as [?|?]; [lia..|]. destruct (N2 (start a)); [lia|done].
    - destruct (proj2 (Heq (start b))) as [?|?]; [lia..|]. destruct (N1 (start b)); [lia|done]. }
  assert (end_ a = end_ b) as He.
  { destruct (decide (end_ a < end_ b)), (decide (end_ b < end_ a)); [lia|..|lia].
    - destruct (proj2 (Heq (end_ a))) as [?|?]; [lia..|]. destruct (N1 (end_ a)); [lia|done].
    - destruct (proj1 (Heq (end_ b))) as [?|?]; [lia..|]. destruct (N2 (end_ b)); [lia|done]. }
  assert (a = b) as -> by (destruct a, b; simpl in *; congruence). f_equal.
  apply IH; try done. intros x. specialize (Heq x). specialize (N1 x). specialize (N2 x).
  split; intros Hx.
  - destruct (proj1 Heq) as [?|?]; [by right| |done]. destruct N1; [lia|done].
  - destruct (proj2 Heq) as [?|?]; [by right| |done]. destruct N2; [lia|done].
Qed.

Section coalesce.
Context {ck : OverflowChecks}.

Lemma set_ranges_run fr n s : set_ranges fr n s = Ret ((), with_ranges fr n s).
Proof. reflexivity. Qed.

Lemma coalesce_from_spec fuel s A cur C :
  array_ok s -> active s = A ++ cur :: C -> (length C < fuel)%nat ->
  exists s', coalesce_from fuel (length A) s = Ret ((), s') /\ array_ok s' /\
    active s' = A ++ merge_from cur C /\
    allocated_bytes s' = allocated_bytes s /\ total_bytes s' = total_bytes s.
Proof.
  revert s A cur C. induction fuel as [|fuel IH]; intros s A cur C Hok Ha Hf; [lia|].
  cbn [coalesce_from]. run (run_get s).
  pose proof (length_active s Hok) as Hla. rewrite Ha, length_app in Hla. simpl in Hla.
  destruct C as [|next C].
  { rewrite (proj2 (Nat.ltb_ge _ _)) by (simpl in Hla; lia). by exists s. }
  simpl in Hla, Hf. rewrite (proj2 (Nat.ltb_lt _ _)) by lia.
  assert (active s !! length A = Some cur) as Hcur by (rewrite Ha; by apply list_lookup_middle).
  assert (active s !! (length A + 1)%nat = Some next) as Hnext.
  { rewrite Ha, lookup_app_r by lia. by replace (length A + 1 - length A)%nat with 1%nat by lia. }
  run (run_lift _ s _ (index_ok _ _ _ (proj1 (active_lookup _ _ _ Hcur)))).
  run (run_lift _ s _ (index_ok _ _ _ (proj1 (active_lookup _ _ _ Hnext)))).
  simpl merge_from. destruct (end_ cur =? start next).
  - set (m := mkRange (start cur) (end_ next)).
    pose proof (ao_length _ Hok) as Hlen. pose proof (ao_count _ Hok) as Hcnt.
    run (run_lift _ s _ (index_set_ok (free_ranges s) (length A) m ltac:(lia))).
    run (set_ranges_run (<[length A := m]> (free_ranges s)) (range_count s) s).
    set (s1 := with_ranges _ _ s).
    assert (array_ok s1) as Hok1 by (constructor; simpl; rewrite ?length_insert; lia).
    assert (active s1 = A ++ m :: next :: C) as Ha1.
    { unfold active, s1. simpl. rewrite take_insert_lt by lia.
      change (take (range_count s) (free_ranges s)) with (active s). rewrite Ha.
      rewrite insert_app_r_alt by lia. by rewrite Nat.sub_diag. }
    destruct (remove_range_spec s1 (length A + 1) Hok1) as (s2 & Hrun & Hok2 & Ha2 & _ & Hal2 & Ht2);
      [simpl; lia|].
    run Hrun. rewrite Ha1 in Ha2.
    replace (A ++ m :: next :: C) with ((A ++ [m]) ++ next :: C) in Ha2 by (by rewrite <- app_assoc).
    replace (length A + 1)%nat with (length (A ++ [m])) in Ha2 by (rewrite length_app; done).
    rewrite delete_middle, <- app_assoc in Ha2.
    destruct (IH s2 A m C) as (s3 & Hrun3 & Hok3 & Ha3 & Hal3 & Ht3); [done..|lia|].
    exists s3. split_and!; try done; simpl in *; congruence.
  - destruct (IH s (A ++ [cur]) next C) as (s3 & Hrun3 & Hok3 & Ha3 & Hal3 & Ht3);
      [done|by rewrite <- app_assoc|lia|].
    rewrite length_app in Hrun3. exists s3. split_and!; try done. by rewrite Ha3, <- app_assoc.
Qed.

(** [coalesce_ranges] keeps the free bytes and leaves a gap between any two
    ranges. *)
Lemma coalesce_ranges_spec s :
  array_ok s -> ranges_wf (active s) ->
  exists s', coalesce_ranges s = Ret ((), s') /\ array_ok s' /\ ranges_wf (active s') /\
    coalesced (active s') /\ bytes (active s') = bytes (active s) /\
    (forall x, free_byte (active s') x <-> free_byte (active s) x) /\
    allocated_bytes s' = allocated_bytes s /\ total_bytes s' = total_bytes s.
Proof.
  intros Hok Hwf. unfold coalesce_ranges. run (run_get s).
  pose proof (length_active s Hok) as Hla. destruct (active s) as [|cur C] eqn:Ha.
  { simpl in Hla. rewrite <- Hla. exists s. rewrite Ha. split_and!; try done. constructor. }
  destruct (Nat.ltb_spec (range_count s) 2).
  { destruct C; [|simpl in Hla; lia]. exists s. rewrite Ha. split_and!; try done. by repeat constructor. }
  destruct (coalesce_from_spec (range_count s) s [] cur C Hok Ha) as (s' & Hrun & Hok' & Ha' & Hal & Ht);
    [simpl in Hla; lia|]. simpl in Ha'.
  destruct (merge_from_spec cur C Hwf) as (I1 & I2 & I3 & I4 & _).
  exists s'. rewrite Ha'. by split_and!.
Qed.
End coalesce.

(** ** Inserting a range that overlaps no other *)

Definition disjoint_from (R : list PhysRange) (r : PhysRange) : Prop :=
  forall x, in_range r x -> ~ free_byte R x.

Lemma insert_at_wf pos r R :
  ranges_wf R -> range_wf r -> insertion_point pos r R -> disjoint_from R r ->
  ranges_wf (insert_at pos r R).
Proof.
  intros HR Hr (Hp & Hle & Hgt) Hd. unfold insert_at. apply ranges_wf_middle.
  rewrite take_drop. split_and!; [done..| |].
  - rewrite !Forall_forall in *. intros q Hq. specialize (Hle q Hq). simpl in Hle.
    assert (q ∈ R) as HqR by (rewrite <- (take_drop pos R); apply elem_of_app; by left).
    pose proof (proj1 (Forall_forall _ _) (rs_wf _ HR) q HqR) as []. destruct Hr.
    unfold before. destruct (decide (end_ q <= start r)); [done|].
    destruct (Hd (start r)); [unfold in_range; lia|]. exists q. unfold in_range. split; [done|lia].
  - destruct (drop pos R) as [|q D] eqn:HD; [done|].
    assert (R !! pos = Some q) as Hq.
    { rewrite <- (Nat.add_0_r pos), <- lookup_drop, HD. done. }
    specialize (Hgt q Hq). pose proof (list_elem_of_lookup_2 _ _ _ Hq) as HqR.
    pose proof (proj1 (Forall_forall _ _) (rs_wf _ HR) q HqR) as [].
    assert (before r q) as Hrq.
    { unfold before. destruct (decide (end_ r <= start q)); [done|].
      destruct (Hd (start q)); [unfold in_range; lia|]. exists q. unfold in_range. split; [done|lia]. }
    constructor; [done|]. destruct HR as [Hs _]. rewrite <- (take_drop pos R), HD in Hs.
    apply StronglySorted_app in Hs as (_ & _ & Hs). apply StronglySorted_inv in Hs as [_ Hs].
    eapply Forall_impl; [exact Hs|]. unfold before in *. intros. simpl in *. lia.
Qed.

Lemma insert_at_free pos r R x : free_byte (insert_at pos r R) x <-> in_range r x \/ free_byte R x.
Proof.
  rewrite <- (take_drop pos R) at 2. unfold insert_at. autorewrite with boot. tauto.
Qed.
Lemma insert_at_bytes pos r R : bytes (insert_at pos r R) = end_ r - start r + bytes R.
Proof.
  rewrite <- (take_drop pos R) at 2. unfold insert_at. autorewrite with boot. simpl. lia.
Qed.

(** The run [[f, f + size)] moves from allocated to free. *)
Record returned (s : BootInfoFrameAllocator) (f size : Z) (s' : BootInfoFrameAllocator) : Prop := {
  rt_inv : boot_inv s';
  rt_coalesced : coalesced (active s');
  rt_free : forall x, free_byte (active s') x <-> free_byte (active s) x \/ f <= x < f + size;
  rt_allocated : allocated_bytes s' = allocated_bytes s - size;
  rt_total : total_bytes s' = total_bytes s;
}.

Section free.
Context {ck : OverflowChecks}.

Lemma free_contiguous_run s f count :
  boot_inv s -> (range_count s < MAX_RANGES)%nat -> (PAGE_SIZE | f) -> 0 <= f ->
  0 < count -> f + count * PAGE_SIZE <= PHYS_LIM -> count * PAGE_SIZE <= allocated_bytes s ->
  (forall x, f <= x < f + count * PAGE_SIZE -> ~ free_byte (active s) x) ->
  exists s', free_contiguous f count s = Ret ((), s') /\ returned s f (count * PAGE_SIZE) s'.
Proof.
  intros Hinv Hcap Hpf Hf0 Hc Hlim Hal Hno. unfold free_contiguous.
  rewrite (proj2 (Z.eqb_neq count 0)) by lia.
  change PAGE_SIZE with 4096 in Hlim, Hal, Hno. unfold PHYS_LIM in Hlim.
  assert (mul64 count PAGE_SIZE = Ret (count * PAGE_SIZE)) as E1
    by (apply mul64_ok; change PAGE_SIZE with 4096; lia).
  assert (add64 f (count * PAGE_SIZE) = Ret (f + count * PAGE_SIZE)) as E2
    by (apply add64_ok; change PAGE_SIZE with 4096; lia).
  run (run_lift _ s _ E1). run (run_lift _ s _ E2). run (run_get s).
  set (r := mkRange f (f + count * PAGE_SIZE)).
  set (b := saturating_sub (allocated_bytes s) (count * PAGE_SIZE)).
  assert (b = allocated_bytes s - count * PAGE_SIZE) as Hb
    by (unfold b, saturating_sub; change PAGE_SIZE with 4096; lia).
  set (s1 := mkBoot (free_ranges s) (range_count s) b (total_bytes s)).
  assert (set_allocated b s = Ret ((), s1)) as E3 by done. run E3.
  pose proof Hinv as [[Hlen Hcnt] Hwf Ha0 Ht0 Hb0].
  destruct (insert_range_spec s1 r) as (pos & s2 & E4 & Hok2 & Hpos & Ha2 & _ & Hal2 & Ht2);
    [by constructor|done|]. run E4.
  change (active s1) with (active s) in *. simpl in Hal2, Ht2.
  assert (ranges_wf (active s2)) as Hwf2.
  { rewrite Ha2. apply insert_at_wf; [done| |done|].
    - constructor; simpl; [lia| | |done|].
      + change PAGE_SIZE with 4096. lia.
      + unfold PHYS_LIM. change PAGE_SIZE with 4096. lia.
      + apply Z.divide_add_r; [done|apply Z.divide_factor_r].
    - intros x Hx. apply Hno. exact Hx. }
  destruct (coalesce_ranges_spec s2 Hok2 Hwf2) as (s3 & E5 & Hok3 & Hwf3 & Hco & Hby & Hfr & Hal3 & Ht3).
  exists s3. split; [done|]. constructor; [|done| |congruence|congruence].
  - constructor; [done|done| |rewrite Hby, Ha2, insert_at_bytes; simpl|congruence];
      change PAGE_SIZE with 4096 in *; lia.
  - intros x. rewrite Hfr, Ha2, insert_at_free. unfold in_range. simpl. tauto.
Qed.

(** A full array has no slot for the freed range, before any merging. *)
Lemma free_full_panic s f count :
  range_count s = MAX_RANGES -> 0 < count -> 0 <= f -> f + count * PAGE_SIZE < U64_LIM ->
  free_contiguous f count s = Panic.
Proof.
  intros Hfull Hc Hf Hb. unfold free_contiguous. rewrite (proj2 (Z.eqb_neq count 0)) by lia.
  assert (mul64 count PAGE_SIZE = Ret (count * PAGE_SIZE)) as E1
    by (apply mul64_ok; change PAGE_SIZE with 4096 in *; lia).
  assert (add64 f (count * PAGE_SIZE) = Ret (f + count * PAGE_SIZE)) as E2
    by (apply add64_ok; change PAGE_SIZE with 4096 in *; lia).
  run (run_lift _ s _ E1). run (run_lift _ s _ E2). run (run_get s).
  set (b := saturating_sub _ _).
  assert (set_allocated b s = Ret ((), mkBoot (free_ranges s) (range_count s) b (total_bytes s)))
    as E3 by done. run E3.
  unfold mbind, M_bind. by rewrite insert_range_full.
Qed.
End free.
