(* ===== verification/BootInit.v ===== *)
(** * Building the boot frame allocator from the memory map

    [BootInfoFrameAllocator::init] of [kernel/src/mm/memory.rs]: the loop over
    the bootloader's regions, the in-place insertion sort, and the frames that
    [usable_frames] enumerates. *)
From stdpp Require Import sorting.
From S2P Require Import Prelude X86Api BootFrames BootFramesProofs BootCoalesce.

(** The whole pages of a usable region. *)
Definition region_range (m : MemoryRegion) : option PhysRange :=
  let lo := round_up PAGE_SIZE (region_start m) in
  let hi := region_end m / PAGE_SIZE * PAGE_SIZE in
  if usable m && (lo <? hi) then Some (mkRange lo hi) else None.

Definition collected (map : list MemoryRegion) : list PhysRange :=
  take MAX_RANGES (omap region_range map).

Definition region_ok (m : MemoryRegion) : Prop :=
  0 <= region_start m <= region_end m /\ region_end m <= PHYS_LIM.

Definition regions_disjoint (a b : MemoryRegion) : Prop :=
  usable a = true -> usable b = true ->
  region_end a <= region_start b \/ region_end b <= region_start a.

Record memory_map_ok (map : list MemoryRegion) : Prop := {
  mm_regions : Forall region_ok map;
  mm_disjoint : ForallOrdPairs regions_disjoint map;
}.

Lemma page_mask x : is_u64 x -> Z.land x (not64 (PAGE_SIZE - 1)) = x / PAGE_SIZE * PAGE_SIZE.
Proof. apply (land_not_ones x 12). lia. Qed.

Lemma region_range_wf m r : region_ok m -> region_range m = Some r ->
  range_wf r /\ region_start m <= start r /\ end_ r <= region_end m.
Proof.
  unfold region_ok, region_range. intros Hm.
  destruct (usable m); simpl; [|done]. destruct (Z.ltb_spec (round_up PAGE_SIZE (region_start m))
    (region_end m / PAGE_SIZE * PAGE_SIZE)) as [Hlt|]; [|done]. intros [= <-].
  destruct (round_up_spec PAGE_SIZE (region_start m)) as [? ?]; [done|].
  pose proof (div_mul_mod (region_end m) PAGE_SIZE).
  pose proof (Z.mod_pos_bound (region_end m) PAGE_SIZE ltac:(done)).
  change (0 < PAGE_SIZE) with (0 < 4096) in *.
  split_and!; simpl; [constructor; simpl; [lia..|done|apply Z.divide_factor_r]|lia..].
Qed.

(** A byte lies in the whole pages of a region when its page lies in the region. *)
Lemma region_range_byte m x : region_ok m ->
  (exists r, region_range m = Some r /\ in_range r x) <->
  usable m = true /\ region_start m <= x / PAGE_SIZE * PAGE_SIZE /\
  x / PAGE_SIZE * PAGE_SIZE + PAGE_SIZE <= region_end m.
Proof.
  intros Hm. unfold region_range, in_range.
  destruct (round_up_spec PAGE_SIZE (region_start m)) as [Hru Hd]; [done|].
  pose proof (round_up_least PAGE_SIZE (region_start m) (x / PAGE_SIZE * PAGE_SIZE)) as Hleast.
  pose proof (Z.div_mod x PAGE_SIZE ltac:(done)). pose proof (Z.mod_pos_bound x PAGE_SIZE ltac:(done)).
  pose proof (Z.div_mod (region_end m) PAGE_SIZE ltac:(done)).
  pose proof (Z.mod_pos_bound (region_end m) PAGE_SIZE ltac:(done)).
  destruct Hd as [c Hc]. rewrite Hc in *. change PAGE_SIZE with 4096 in *.
  destruct (usable m); simpl; [|naive_solver]. split.
  - intros (r & Hr & Hx). case_match eqn:Hlt; [|done]. simplify_eq. simpl in Hx. lia.
  - intros (_ & Hlo & Hhi). specialize (Hleast ltac:(lia) ltac:(apply Z.divide_factor_r) Hlo).
    rewrite (proj2 (Z.ltb_lt _ _)) by lia. eexists. split; [done|]. simpl. lia.
Qed.

Lemma omap_cons_eq {A B} (f : A -> option B) x l :
  omap f (x :: l) = match f x with Some y => y :: omap f l | None => omap f l end.
Proof. reflexivity. Qed.

Lemma StronglySorted_lookup {A} (P : A -> A -> Prop) l i j a b :
  StronglySorted P l -> l !! i = Some a -> l !! j = Some b -> (i < j)%nat -> P a b.
Proof.
  intros Hs. revert i j. induction Hs as [|c l _ IH Hc]; intros i j Ha Hb Hij; [done|].
  destruct j as [|j]; [lia|]. destruct i as [|i]; simpl in *; [simplify_eq|by apply (IH i j); lia || done].
  by eapply Forall_lookup_1 in Hc.
Qed.

Section init.
Context {ck : OverflowChecks}.

Lemma bytes_take_le n R : Forall range_wf R -> 0 <= bytes (take n R) <= bytes R.
Proof.
  intros HR. rewrite <- (take_drop n R) at 3. rewrite <- (take_drop n R) in HR.
  apply Forall_app in HR as [H1 H2]. rewrite bytes_app.
  pose proof (bytes_nonneg _ H1). pose proof (bytes_nonneg _ H2). lia.
Qed.

Lemma init_region_ok fr count total m :
  length fr = MAX_RANGES -> (count <= MAX_RANGES)%nat -> region_ok m ->
  0 <= total -> total + PHYS_LIM < U64_LIM ->
  init_region (fr, count, total) m = Ret
    match region_range m with
    | Some r => if decide (count < MAX_RANGES)%nat
                then (<[count := r]> fr, S count, total + (end_ r - start r))
                else (fr, count, total)
    | None => (fr, count, total)
    end.
Proof.
  intros Hlen Hcnt Hm Ht Hb. pose proof (region_range_wf m) as Hwf. unfold init_region.
  unfold region_range in *. unfold region_ok, PHYS_LIM in *.
  destruct (usable m); simpl; [|done].
  rewrite add64_ok by (change PAGE_SIZE with 4096; lia). simpl.
  rewrite sub64_ok by (change PAGE_SIZE with 4096; lia). simpl.
  rewrite !page_mask by (unfold is_u64; change PAGE_SIZE with 4096; lia).
  fold (round_up PAGE_SIZE (region_start m)).
  destruct (Z.ltb_spec (round_up PAGE_SIZE (region_start m)) (region_end m / PAGE_SIZE * PAGE_SIZE))
    as [Hlt|]; [|done].
  destruct (Hwf _ ltac:(lia) eq_refl) as ([] & _ & _). simpl in *. unfold PHYS_LIM in *.
  destruct (Nat.ltb_spec count MAX_RANGES); simpl; [|by rewrite decide_False by lia].
  rewrite decide_True, index_set_ok by lia. simpl. rewrite sub64_ok by lia. simpl.
  by rewrite add64_ok by lia.
Qed.

(** The regions are collected in order until the array is full. *)
Lemma init_regions_spec fr count total map :
  length fr = MAX_RANGES -> (count <= MAX_RANGES)%nat -> Forall region_ok map ->
  0 <= total <= Z.of_nat count * PHYS_LIM ->
  let R := take (MAX_RANGES - count) (omap region_range map) in
  exists fr', init_regions (fr, count, total) map =
                Ret (fr', (count + length R)%nat, total + bytes R) /\
    length fr' = MAX_RANGES /\ take (count + length R)%nat fr' = take count fr ++ R.
Proof.
  revert fr count total. induction map as [|m map IH]; intros fr count total Hlen Hcnt Hall Ht.
  { simpl. rewrite take_nil. simpl. exists fr. rewrite Nat.add_0_r, Z.add_0_r, app_nil_r. done. }
  apply Forall_cons in Hall as [Hm Hall]. cbn [init_regions]. rewrite omap_cons_eq.
  rewrite init_region_ok; [|done|done|done|lia|unfold MAX_RANGES, PHYS_LIM in *; lia].
  cbn [mbind outcome_bind]. destruct (region_range m) as [r|] eqn:Hr; [|by apply IH].
  destruct (region_range_wf _ _ Hm Hr) as ([] & _ & _). case_decide as Hlt.
  - replace (MAX_RANGES - count)%nat with (S (MAX_RANGES - S count)) by lia.
    destruct (IH (<[count := r]> fr) (S count) (total + (end_ r - start r))) as (fr' & Hrun & Hl & Htk);
      [by rewrite length_insert|lia|done|unfold PHYS_LIM in *; lia|].
    generalize dependent (MAX_RANGES - S count)%nat. intros k Hrun Htk.
    cbn [take length bytes].
    exists fr'. rewrite Hrun. split_and!; [|done|].
    + by rewrite Nat.add_succ_r, Z.add_assoc.
    + rewrite Nat.add_succ_r. cbn [Nat.add] in Htk. rewrite Htk, (take_S_r _ _ r), <- app_assoc.
      * by rewrite take_insert_ge by lia.
      * apply list_lookup_insert_eq. lia.
  - destruct (IH fr count total) as (fr' & Hrun & Hl & Htk); [done..|].
    replace (MAX_RANGES - count)%nat with O in * by lia. by exists fr'.
Qed.

(** ** The insertion sort *)

Definition starts_le (a b : PhysRange) : Prop := start a <= start b.

Lemma sort_shift_spec key fr j :
  (j < length fr)%nat ->
  exists fr' j', sort_shift key fr j = Ret (fr', j') /\ (j' <= j)%nat /\
    length fr' = length fr /\
    (forall i, fr' !! i = if decide (j' < i <= j)%nat then fr !! (i - 1)%nat else fr !! i) /\
    (forall i q, (j' <= i < j)%nat -> fr !! i = Some q -> start key < start q) /\
    (forall q, (0 < j')%nat -> fr !! (j' - 1)%nat = Some q -> start q <= start key).
Proof.
  revert fr. induction j as [|j IH]; intros fr Hlen; simpl.
  { exists fr, O. split_and!; [done..| | |]; [|lia..]. intros i. by rewrite decide_False by lia. }
  destruct (index_lookup fr j) as (p & Hp & ->); [lia|]. simpl.
  destruct (Z.ltb_spec (start key) (start p)).
  - rewrite index_set_ok by lia. simpl.
    destruct (IH (<[S j := p]> fr)) as (fr' & j' & -> & Hj' & Hl & Hlook & Hgt & Hle);
      [rewrite length_insert; lia|].
    exists fr', j'. rewrite length_insert in Hl. split_and!; [done|lia|done|..].
    + intros i. rewrite Hlook. destruct (decide (i = S j)) as [->|].
      * rewrite decide_False, decide_True, list_lookup_insert_eq by lia. simpl.
        by rewrite Nat.sub_0_r.
      * repeat case_decide; rewrite ?list_lookup_insert_ne by lia; done || lia.
    + intros i q Hi Hq. destruct (decide (i = j)) as [->|]; [by simplify_eq|].
      apply (Hgt i); [lia|]. by rewrite list_lookup_insert_ne by lia.
    + intros q Hpos Hq. apply Hle; [done|]. by rewrite list_lookup_insert_ne by lia.
  - exists fr, (S j). split_and!; [done..| | |].
    + intros i. by rewrite decide_False by lia.
    + lia.
    + intros q _. simpl. rewrite Nat.sub_0_r. intros. by simplify_eq.
Qed.

(** One round moves the range at [i] to its place among the first [i]. *)
Lemma sort_round_spec fr i key fr' j :
  sort_shift key fr i = Ret (fr', j) -> fr !! i = Some key ->
  StronglySorted starts_le (take i fr) ->
  (j < length fr')%nat /\
  StronglySorted starts_le (take (S i) (<[j := key]> fr')) /\
  take (S i) (<[j := key]> fr') ≡ₚ take (S i) fr /\
  drop (S i) (<[j := key]> fr') = drop (S i) fr.
Proof.
  intros Hrun Hkey Hs. pose proof (lookup_lt_Some _ _ _ Hkey) as Hi.
  destruct (sort_shift_spec key fr i Hi) as (fr2 & j2 & Hrun2 & Hj & Hl & Hlook & Hgt & Hle).
  rewrite Hrun in Hrun2. simplify_eq.
  assert (take (S i) (<[j2 := key]> fr2) = take j2 (take i fr) ++ key :: drop j2 (take i fr)) as Htk.
  { assert (length (take j2 (take i fr)) = j2) as Htl by (rewrite !length_take; lia).
    apply list_eq. intros x. destruct (decide (x < j2)%nat).
    - rewrite lookup_app_l by lia. rewrite !lookup_take_lt by lia.
      rewrite list_lookup_insert_ne, Hlook by lia. by rewrite decide_False by lia.
    - rewrite lookup_app_r, Htl by lia. destruct (decide (x = j2)) as [->|].
      + rewrite Nat.sub_diag, lookup_take_lt by lia. apply list_lookup_insert_eq. lia.
      + destruct (x - j2)%nat as [|d] eqn:Hd; [lia|]. simpl. rewrite lookup_drop.
        destruct (decide (x <= i)%nat).
        * rewrite !lookup_take_lt, list_lookup_insert_ne, Hlook by lia.
          rewrite decide_True by lia. f_equal. lia.
        * by rewrite !lookup_take_ge by lia. }
  split_and!; [lia| | |].
  - rewrite Htk. rewrite <- (take_drop j2 (take i fr)) in Hs.
    apply StronglySorted_app in Hs as (Hx & H1 & H2). apply StronglySorted_app.
    assert (Forall (fun q => starts_le q key) (take j2 (take i fr))) as Hbefore.
    { apply Forall_lookup. intros x q Hq. destruct (decide (0 < j2)%nat) as [Hpos|].
      2: { apply lookup_take_Some in Hq as [_ ?]. lia. }
      destruct (lookup_lt_is_Some_2 fr (j2 - 1)) as [p Hp]; [lia|].
      specialize (Hle p Hpos Hp). unfold starts_le.
      destruct (decide (x = j2 - 1)%nat) as [->|].
      - apply lookup_take_Some in Hq as [[Hq _]%lookup_take_Some _]. by simplify_eq.
      - assert (take j2 (take i fr) !! (j2 - 1)%nat = Some p) as Hp'.
        { by rewrite !lookup_take_lt by lia. }
        pose proof (proj1 (lookup_take_Some _ _ _ _) Hq) as [_ ?].
        pose proof (StronglySorted_lookup starts_le _ x (j2 - 1) q p H1 Hq Hp' ltac:(lia)) as Hqp.
        unfold starts_le in Hqp. lia. }
    rewrite Forall_forall in Hbefore. split_and!.
    + intros a b Ha [->|Hb]%elem_of_cons; [by apply Hbefore|by apply Hx].
    + done.
    + constructor; [done|]. apply Forall_lookup. intros x q Hq.
      rewrite lookup_drop in Hq. apply lookup_take_Some in Hq as [Hq ?].
      unfold starts_le. specialize (Hgt (j2 + x)%nat q ltac:(lia) Hq). lia.
  - rewrite Htk, <- Permutation_middle, take_drop, (take_S_r _ _ _ Hkey).
    by rewrite Permutation_app_comm.
  - apply list_eq. intros x. rewrite !lookup_drop, list_lookup_insert_ne, Hlook by lia.
    by rewrite decide_False by lia.
Qed.

Lemma sort_rounds_spec fr i n :
  (i + n <= length fr)%nat -> StronglySorted starts_le (take i fr) ->
  exists fr', sort_rounds fr i n = Ret fr' /\ length fr' = length fr /\
    StronglySorted starts_le (take (i + n) fr') /\ take (i + n) fr' ≡ₚ take (i + n) fr.
Proof.
  revert fr i. induction n as [|n IH]; intros fr i Hlen Hs; simpl.
  { rewrite Nat.add_0_r. by exists fr. }
  destruct (index_lookup fr i) as (key & Hkey & ->); [lia|]. simpl.
  destruct (sort_shift_spec key fr i) as (fr1 & j & Hrun & Hj & Hl & _); [lia|].
  rewrite Hrun. simpl.
  destruct (sort_round_spec fr i key fr1 j Hrun Hkey Hs) as (Hj' & Hs' & Hp & Hd).
  rewrite index_set_ok by lia. simpl.
  destruct (IH (<[j := key]> fr1) (S i)) as (fr2 & -> & Hl2 & Hs2 & Hp2);
    [rewrite length_insert; lia|done|].
  exists fr2. rewrite length_insert in Hl2. replace (i + S n)%nat with (S i + n)%nat by lia.
  split_and!; [done|lia|done|]. rewrite Hp2.
  rewrite <- (take_drop (S i) (<[j := key]> fr1)), <- (take_drop (S i) fr), Hd.
  rewrite !take_app_add'; [by rewrite Hp|rewrite length_take; lia|rewrite length_take, length_insert; lia].
Qed.
End init.

(** ** From disjoint regions to well-formed ranges *)

Definition ranges_disjoint (a b : PhysRange) : Prop := before a b \/ before b a.

Lemma ForallOrdPairs_perm {A} (P : A -> A -> Prop) l1 l2 :
  (forall a b, P a b -> P b a) -> l1 ≡ₚ l2 -> ForallOrdPairs P l1 -> ForallOrdPairs P l2.
Proof.
  intros Hsym. induction 1 as [|a l1 l2 Hp IH|a b l|]; intros HF; [done|..|by auto].
  - inversion_clear HF as [|? ? Ha HF']. constructor; [by rewrite <- Hp|by apply IH].
  - inversion_clear HF as [|? ? Hb HF']. inversion_clear HF' as [|? ? Ha HF].
    apply Forall_cons in Hb as [Hba Hb]. repeat constructor; auto.
Qed.

Lemma ForallOrdPairs_take {A} (P : A -> A -> Prop) n l :
  ForallOrdPairs P l -> ForallOrdPairs P (take n l).
Proof.
  intros HF. revert n. induction HF as [|a l Ha _ IH]; intros [|n]; simpl; constructor; [|done].
  by apply Forall_take.
Qed.

Lemma collected_wf map :
  memory_map_ok map ->
  Forall range_wf (collected map) /\ ForallOrdPairs ranges_disjoint (collected map).
Proof.
  intros [Hall Hd]. unfold collected.
  assert (Forall range_wf (omap region_range map) /\
          ForallOrdPairs ranges_disjoint (omap region_range map)) as [H1 H2];
    [|split; [by apply Forall_take|by apply ForallOrdPairs_take]].
  induction Hd as [|m map Hm Hd IH]; [by repeat constructor|].
  apply Forall_cons in Hall as [Hok Hall]. destruct (IH Hall) as [I1 I2].
  rewrite omap_cons_eq. destruct (region_range m) as [r|] eqn:Hr; [|done].
  destruct (region_range_wf _ _ Hok Hr) as (Hw & Hlo & Hhi).
  split; constructor; try done. apply Forall_forall.
  intros q (m' & Hm' & Hq)%list_elem_of_omap. rewrite Forall_forall in Hm, Hall.
  destruct (region_range_wf _ _ (Hall _ Hm') Hq) as (_ & Hlo' & Hhi').
  assert (usable m = true /\ usable m' = true) as [U U'].
  { unfold region_range in Hr, Hq. by destruct (usable m), (usable m'). }
  destruct (Hm m' Hm' U U'); unfold ranges_disjoint, before; lia.
Qed.

Lemma sorted_disjoint R :
  Forall range_wf R -> ForallOrdPairs ranges_disjoint R -> StronglySorted starts_le R ->
  ranges_wf R.
Proof.
  intros Hw Hd Hs. constructor; [|done]. induction Hd as [|r R Hr Hd IH]; [constructor|].
  apply Forall_cons in Hw as [Hwr Hw]. apply StronglySorted_inv in Hs as [Hs Hle].
  constructor; [by apply IH|]. rewrite Forall_forall in *. intros q Hq.
  specialize (Hr q Hq). specialize (Hle q Hq). destruct (Hw q Hq).
  destruct Hwr. unfold ranges_disjoint, before, starts_le in *. lia.
Qed.

Lemma bytes_perm R1 R2 : R1 ≡ₚ R2 -> bytes R1 = bytes R2.
Proof. induction 1; simpl; lia. Qed.
Lemma free_byte_perm R1 R2 x : R1 ≡ₚ R2 -> free_byte R1 x <-> free_byte R2 x.
Proof. intros Hp. unfold free_byte. by setoid_rewrite Hp. Qed.

Lemma bytes_bound_wf R : Forall range_wf R -> bytes R <= Z.of_nat (length R) * PHYS_LIM.
Proof. induction 1 as [|r R [] _ IH]; unfold PHYS_LIM in *; simpl in *; lia. Qed.

Lemma init_spec {ck : OverflowChecks} map :
  memory_map_ok map ->
  exists s, init map = Ret s /\ boot_inv s /\ allocated_bytes s = 0 /\
    active s ≡ₚ collected map.
Proof.
  intros Hm. destruct (collected_wf map Hm) as [Hw Hd]. unfold init.
  assert (length (collected map) <= MAX_RANGES)%nat as Hlen by (unfold collected; rewrite length_take; lia).
  destruct (init_regions_spec (replicate MAX_RANGES empty_range) 0 0 map) as (fr & Hrun & Hl & Htk);
    [by rewrite length_replicate|lia|by apply mm_regions|unfold PHYS_LIM; lia|].
  rewrite Nat.sub_0_r in *. fold (collected map) in *. rewrite Hrun. simpl in Htk |- *.
  set (n := length (collected map)) in *.
  assert (exists fr', sort_rounds fr 1 (n - 1) = Ret fr' /\ length fr' = length fr /\
    StronglySorted starts_le (take n fr') /\ take n fr' ≡ₚ take n fr) as (fr' & Hsort & Hl' & Hs & Hp).
  { destruct (decide (n = 0)%nat) as [->|].
    { exists fr. simpl. split_and!; try done. constructor. }
    destruct (sort_rounds_spec fr 1 (n - 1)) as (fr' & Hs); [lia| |].
    2: { exists fr'. by replace (1 + (n - 1))%nat with n in Hs by lia. }
    destruct fr; [simpl in *; lia|]. simpl. rewrite take_0. by repeat constructor. }
  rewrite Hsort. simpl. eexists. split; [done|].
  assert (active (mkBoot fr' n 0 (bytes (collected map))) ≡ₚ collected map) as Hact
    by (unfold active; simpl; rewrite Hp, Htk; done).
  split_and!; [|done|done]. pose proof (bytes_nonneg _ Hw). constructor; simpl.
  - constructor; simpl; lia.
  - apply sorted_disjoint; [by rewrite Hact| |done].
    eapply ForallOrdPairs_perm; [|symmetry; exact Hact|done].
    unfold ranges_disjoint. tauto.
  - done.
  - symmetry. exact (bytes_perm _ _ Hact).
  - pose proof (bytes_bound_wf _ Hw). unfold PHYS_LIM, MAX_RANGES in *. lia.
Qed.

(** ** Enumerating the free frames *)

Section frames.
Context `{PhysFrameLaws}.

Lemma range_addrs_elem r a : range_wf r ->
  a ∈ range_addrs r <-> (PAGE_SIZE | a) /\ in_range r a.
Proof.
  intros [Hlo Hne Hhi [b Hb] [c Hc]]. unfold range_addrs, in_range. rewrite list_elem_of_fmap.
  change PAGE_SIZE with 4096 in *. setoid_rewrite elem_of_seqZ.
  rewrite Hb, Hc. replace (c * 4096 - b * 4096 + 4096 - 1) with (4095 + (c - b) * 4096) by lia.
  rewrite Z.div_add by lia. change (4095 / 4096) with 0. split.
  - intros (i & -> & Hi). split; [exists (b + i); lia|lia].
  - intros [[d ->] Hd]. exists (d - b). lia.
Qed.

Lemma frames_at_spec l :
  Forall (fun a => (PAGE_SIZE | a) /\ 0 <= a < PHYS_LIM) l -> frames_at l = Ret l.
Proof.
  induction 1 as [|a l [[c ->] Ha] _ IH]; simpl; [done|].
  rewrite containing_address_ok by (unfold PHYS_LIM in Ha; lia). simpl. rewrite IH. simpl.
  change PAGE_SIZE with 4096. by rewrite Z.div_mul.
Qed.

Lemma range_addrs_sorted r : StronglySorted Z.lt (range_addrs r).
Proof.
  unfold range_addrs. generalize 0 at 1. intros i. generalize ((end_ r - start r + PAGE_SIZE - 1) / PAGE_SIZE).
  intros n. destruct (decide (n <= 0)) as [|Hn]; [rewrite seqZ_nil by lia; constructor|].
  apply (StronglySorted_fmap _ Z.lt Z.lt); [intros; change PAGE_SIZE with 4096; lia|].
  rewrite <- (Z2Nat.id n) by lia. generalize (Z.to_nat n). clear. intros n. revert i.
  induction n as [|n IH]; intros i; [constructor|].
  rewrite Nat2Z.inj_succ, seqZ_cons by lia. constructor.
  - rewrite Z.pred_succ. apply IH.
  - apply Forall_forall. intros j Hj%elem_of_seqZ. lia.
Qed.

Lemma elem_of_concat {A} (a : A) ls : a ∈ concat ls <-> exists l, a ∈ l /\ l ∈ ls.
Proof.
  induction ls as [|l ls IH]; simpl; [set_solver|]. rewrite elem_of_app, IH. set_solver.
Qed.

Lemma concat_sorted R :
  ranges_wf R -> StronglySorted Z.lt (concat (range_addrs <$> R)).
Proof.
  induction R as [|r R IH]; intros Hwf; simpl; [constructor|].
  apply ranges_wf_inv in Hwf as (Hr & Hb & Hwf). apply StronglySorted_app.
  split_and!; [|apply range_addrs_sorted|by apply IH].
  intros a b [_ Ha]%range_addrs_elem (l & Hl & (q & -> & Hq)%list_elem_of_fmap)%elem_of_concat; [|done].
  destruct Hwf as [_ Hw]. rewrite Forall_forall in *.
  apply range_addrs_elem in Hl as [_ Hl]; [|by apply Hw].
  specialize (Hb q Hq). unfold in_range, before in *. lia.
Qed.

Lemma usable_frames_run s : boot_inv s ->
  exists l, usable_frames s = Ret l /\ StronglySorted Z.lt l /\
    forall f, f ∈ l <-> (PAGE_SIZE | f) /\ free_byte (active s) f.
Proof.
  intros [_ Hwf _ _ _]. unfold usable_frames. fold (active s).
  assert (forall f, f ∈ concat (range_addrs <$> active s) <->
    (PAGE_SIZE | f) /\ free_byte (active s) f) as Hel.
  { intros f. rewrite elem_of_concat. setoid_rewrite list_elem_of_fmap.
    destruct Hwf as [_ Hw]. rewrite Forall_forall in Hw. unfold free_byte. split.
    - intros (l & Hf & r & -> & Hr). apply range_addrs_elem in Hf as [? ?]; [|by apply Hw]. eauto.
    - intros [Hp (r & Hr & Hin)]. exists (range_addrs r). split; [|by eauto].
      apply range_addrs_elem; [by apply Hw|done]. }
  exists (concat (range_addrs <$> active s)). split_and!; [|by apply concat_sorted|done].
  apply frames_at_spec, Forall_forall. intros f [Hp (r & Hr & Hin)]%Hel. split; [done|].
  destruct Hwf as [_ Hw]. rewrite Forall_forall in Hw. destruct (Hw r Hr). unfold in_range in Hin. lia.
Qed.
End frames.
