(* ===== verification/BootSystem.v ===== *)
(** * The boot frame allocator in use

    The allocator together with the runs its clients hold: a step relation for
    any interleaving of [allocate_contiguous_aligned] and [free_contiguous] of
    [kernel/src/mm/memory.rs], and the invariant of every reachable state. *)
From stdpp Require Import sorting.
From S2P Require Import Prelude X86Api BootFrames BootFramesProofs BootCoalesce BootInit.

(** A run handed out: its first address and its number of frames. *)
Definition run_range (fc : Z * Z) : PhysRange := mkRange fc.1 (fc.1 + fc.2 * PAGE_SIZE).
Definition runs (O : list (Z * Z)) : list PhysRange := run_range <$> O.

Section system.
Context {ck : OverflowChecks} `{PhysFrameLaws}.

(** A request the callers make: at least one frame, an alignment that is a
    power of two from the page size up, a size that does not wrap. *)
Definition request_ok (count k : Z) : Prop :=
  0 < count /\ count * PAGE_SIZE < 2 ^ 63 /\ 12 <= k <= 52.

Inductive boot_step : BootInfoFrameAllocator * list (Z * Z) ->
                      BootInfoFrameAllocator * list (Z * Z) -> Prop :=
  | step_alloc s s' O count k f :
      request_ok count k ->
      allocate_contiguous_aligned count (2 ^ k) s = Ret (Some f, s') ->
      boot_step (s, O) (s', (f, count) :: O)
  | step_alloc_none s s' O count k :
      request_ok count k ->
      allocate_contiguous_aligned count (2 ^ k) s = Ret (None, s') ->
      boot_step (s, O) (s', O)
  | step_free s s' O1 O2 f count :
      free_contiguous f count s = Ret ((), s') ->
      boot_step (s, O1 ++ (f, count) :: O2) (s', O1 ++ O2).

Inductive boot_reachable (map : list MemoryRegion) :
    BootInfoFrameAllocator * list (Z * Z) -> Prop :=
  | reach_init s : init map = Ret s -> boot_reachable map (s, [])
  | reach_step c c' : boot_reachable map c -> boot_step c c' -> boot_reachable map c'.

(** The result of an allocation, on every outcome. *)
Lemma allocate_aligned_run s count k :
  boot_inv s -> request_ok count k ->
  exists res s', allocate_contiguous_aligned count (2 ^ k) s = Ret (res, s') /\
    match res with
    | Some f => exists r, r ∈ active s /\ f = round_up (2 ^ k) (start r) /\
                  fits (2 ^ k) (count * PAGE_SIZE) r /\ taken s f (count * PAGE_SIZE) s'
    | None => s' = s /\ forall r, r ∈ active s ->
                ~ fits (2 ^ k) (count * PAGE_SIZE) r \/ skipped s (2 ^ k) (count * PAGE_SIZE) r
    end.
Proof.
  intros Hinv (Hc & Hb & Hk). unfold allocate_contiguous_aligned.
  rewrite (proj2 (Z.eqb_neq count 0)) by lia.
  assert (mul64 count PAGE_SIZE = Ret (count * PAGE_SIZE)) as E1
    by (apply mul64_ok; change PAGE_SIZE with 4096 in *; lia).
  run (run_lift _ s _ E1). run (run_get s).
  destruct (allocate_from_spec s (count * PAGE_SIZE) k 0 (range_count s)) as (res & s' & Hrun & Hres);
    [done|done|change PAGE_SIZE with 4096 in *; lia|apply Z.divide_factor_r|done|].
  exists res, s'. split; [done|]. destruct res; [done|]. destruct Hres as [-> Hall].
  split; [done|]. intros r [j Hj]%list_elem_of_lookup. apply (Hall j); [lia|done].
Qed.

Lemma allocate_aligned_none s count k :
  boot_inv s -> request_ok count k ->
  (forall r, r ∈ active s -> ~ fits (2 ^ k) (count * PAGE_SIZE) r \/ skipped s (2 ^ k) (count * PAGE_SIZE) r) ->
  allocate_contiguous_aligned count (2 ^ k) s = Ret (None, s).
Proof.
  intros Hinv (Hc & Hb & Hk) Hno. unfold allocate_contiguous_aligned. rewrite (proj2 (Z.eqb_neq count 0)) by lia.
  assert (mul64 count PAGE_SIZE = Ret (count * PAGE_SIZE)) as E1
    by (apply mul64_ok; change PAGE_SIZE with 4096 in *; lia).
  run (run_lift _ s _ E1). run (run_get s). apply allocate_from_none; try done.
  change PAGE_SIZE with 4096 in *. lia.
Qed.

(** The runs held are disjoint from each other and from the free memory, and
    their sizes add up to [allocated_bytes]. *)
Record own_inv (s : BootInfoFrameAllocator) (O : list (Z * Z)) : Prop := {
  ow_boot : boot_inv s;
  ow_wf : Forall range_wf (runs O);
  ow_apart : ForallOrdPairs ranges_disjoint (runs O);
  ow_used : forall x, free_byte (runs O) x -> ~ free_byte (active s) x;
  ow_bytes : bytes (runs O) = allocated_bytes s;
}.

(** What never changes: free and held bytes together. *)
Definition managed (s : BootInfoFrameAllocator) (O : list (Z * Z)) (x : Z) : Prop :=
  free_byte (active s) x \/ free_byte (runs O) x.

Lemma runs_app O1 O2 : runs (O1 ++ O2) = runs O1 ++ runs O2.
Proof. apply fmap_app. Qed.

Lemma ranges_disjoint_sym a b : ranges_disjoint a b -> ranges_disjoint b a.
Proof. unfold ranges_disjoint. tauto. Qed.

(** Ranges without a common byte are disjoint. *)
Lemma ranges_disjoint_bytes a b :
  range_wf a -> range_wf b -> (forall x, in_range a x -> ~ in_range b x) -> ranges_disjoint a b.
Proof.
  intros [] [] Hno. unfold ranges_disjoint, before, in_range in *.
  destruct (decide (end_ a <= start b)), (decide (end_ b <= start a)); try lia.
  destruct (Hno (Z.max (start a) (start b))); lia.
Qed.

Lemma alloc_own s O count k f s' :
  own_inv s O -> request_ok count k ->
  allocate_contiguous_aligned count (2 ^ k) s = Ret (Some f, s') ->
  own_inv s' ((f, count) :: O) /\
  forall x, managed s' ((f, count) :: O) x <-> managed s O x.
Proof.
  intros [Hinv Hw Hd Hu Hby] Hreq Hrun.
  destruct (allocate_aligned_run s count k Hinv Hreq) as (res & s1 & Hrun1 & Hres).
  rewrite Hrun in Hrun1. simplify_eq. destruct Hres as (r & Hr & Hf & Hfit & []).
  pose proof (proj1 (Forall_forall _ _) (rs_wf _ (bi_ranges _ Hinv)) r Hr) as [].
  destruct Hreq as (Hc & Hb & Hk). unfold fits in Hfit. rewrite <- Hf in Hfit.
  destruct (round_up_page k (start r)) as (Hlo & _ & Hpl); [done|]. rewrite <- Hf in *.
  assert (range_wf (run_range (f, count))) as Hwf.
  { constructor; simpl; [lia|change PAGE_SIZE with 4096; lia|lia|done|].
    apply Z.divide_add_r; [done|apply Z.divide_factor_r]. }
  split; [constructor|].
  - done.
  - by constructor.
  - constructor; [|done]. apply Forall_forall. intros q Hq.
    apply ranges_disjoint_bytes; [done|by rewrite Forall_forall in Hw; auto|].
    intros x Hx Hqx. apply (Hu x); [by exists q|]. apply tk_free. exact Hx.
  - intros x. unfold runs. simpl. fold (runs O). rewrite free_byte_cons, tk_rest.
    unfold in_range. simpl. specialize (Hu x). tauto.
  - simpl. fold (runs O). lia.
  - intros x. unfold managed, runs. simpl. fold (runs O). rewrite free_byte_cons, tk_rest.
    unfold in_range. simpl. specialize (tk_free x).
    destruct (decide (f <= x < f + count * PAGE_SIZE)); tauto.
Qed.

Lemma alloc_none_own s O count k s' :
  own_inv s O -> request_ok count k ->
  allocate_contiguous_aligned count (2 ^ k) s = Ret (None, s') -> s' = s.
Proof.
  intros [Hinv _ _ _ _] Hreq Hrun.
  destruct (allocate_aligned_run s count k Hinv Hreq) as (res & s1 & Hrun1 & Hres).
  rewrite Hrun in Hrun1. simplify_eq. by destruct Hres.
Qed.

Lemma free_own_run s O1 O2 f count :
  own_inv s (O1 ++ (f, count) :: O2) -> (range_count s < MAX_RANGES)%nat ->
  exists s', free_contiguous f count s = Ret ((), s') /\ returned s f (count * PAGE_SIZE) s'.
Proof.
  intros [Hinv Hw Hd Hu Hby] Hcap. rewrite runs_app in *. simpl in *. fold (runs O2) in *.
  apply Forall_app in Hw as [Hw1 [[] Hw2]%Forall_cons]. simpl in *.
  rewrite bytes_app in Hby. simpl in Hby.
  pose proof (bytes_nonneg _ Hw1). pose proof (bytes_nonneg _ Hw2).
  apply free_contiguous_run; try done; [change PAGE_SIZE with 4096 in *; lia..|].
  intros x Hx. apply Hu. autorewrite with boot. right. left. exact Hx.
Qed.

(** A run the clients hold: freeing it needs a free slot in the array. *)
Lemma free_own s O1 O2 f count s' :
  own_inv s (O1 ++ (f, count) :: O2) -> free_contiguous f count s = Ret ((), s') ->
  own_inv s' (O1 ++ O2) /\
  forall x, managed s' (O1 ++ O2) x <-> managed s (O1 ++ (f, count) :: O2) x.
Proof.
  intros Hown Hrun. destruct (decide (range_count s = MAX_RANGES)) as [Hfull|Hcap].
  { exfalso. pose proof (ow_wf _ _ Hown) as Hw. rewrite runs_app in Hw.
    apply Forall_app in Hw as [_ [[] _]%Forall_cons]. simpl in *.
    rewrite free_full_panic in Hrun; done || change PAGE_SIZE with 4096 in *; unfold PHYS_LIM in *; lia. }
  pose proof (ao_count _ (bi_array _ (ow_boot _ _ Hown))).
  destruct (free_own_run s O1 O2 f count Hown ltac:(lia)) as (s1 & Hrun1 & []).
  rewrite Hrun in Hrun1. simplify_eq. destruct Hown as [Hinv Hw Hd Hu Hby].
  rewrite runs_app in *. simpl in *. fold (runs O2) in *.
  apply Forall_app in Hw as [Hw1 [Hwr Hw2]%Forall_cons].
  eapply ForallOrdPairs_perm in Hd; [|apply ranges_disjoint_sym|symmetry; apply Permutation_middle].
  inversion_clear Hd as [|? ? Hr Hd'].
  assert (forall x, f <= x < f + count * PAGE_SIZE -> ~ free_byte (runs O1 ++ runs O2) x) as Hno.
  { intros x Hx (q & Hq & Hqx). rewrite Forall_forall in Hr. specialize (Hr q Hq).
    unfold ranges_disjoint, before, in_range in *. simpl in *. lia. }
  split; [constructor|]; rewrite ?runs_app; simpl; fold (runs O2).
  - done.
  - by apply Forall_app.
  - done.
  - intros x Hx. specialize (Hno x). specialize (Hu x). rewrite rt_free.
    autorewrite with boot in *. tauto.
  - autorewrite with boot in *. simpl in *. lia.
  - intros x. unfold managed. rewrite !runs_app. simpl. fold (runs O2). rewrite rt_free.
    autorewrite with boot. unfold in_range. simpl. tauto.
Qed.

Lemma boot_reachable_inv map s O :
  memory_map_ok map -> boot_reachable map (s, O) ->
  own_inv s O /\ forall x, managed s O x <-> free_byte (collected map) x.
Proof.
  intros Hm Hreach. remember (s, O) as c eqn:Hc. revert s O Hc.
  induction Hreach as [s0 Hinit|c c' Hreach IH Hstep]; intros s O Hc; simplify_eq.
  - destruct (init_spec map Hm) as (s1 & Hrun & Hinv & Hal & Hp).
    rewrite Hinit in Hrun. simplify_eq. split.
    + constructor; simpl; [done|constructor|constructor| |done]. intros x ?%free_byte_nil. done.
    + intros x. unfold managed. simpl. rewrite free_byte_nil, (free_byte_perm _ _ x Hp). tauto.
  - inversion Hstep; subst; destruct (IH _ _ eq_refl) as [Hown Hman].
    + edestruct alloc_own as [? Hm']; [done..|]. split; [done|]. intros x. by rewrite Hm'.
    + by erewrite (alloc_none_own _ _ _ _ s) by done.
    + edestruct free_own as [? Hm']; [done..|]. split; [done|]. intros x. by rewrite Hm'.
Qed.
End system.
