(* ===== verification/BootTheorems.v ===== *)
(** * What the boot frame allocator guarantees

    The properties of [BootInfoFrameAllocator] in [kernel/src/mm/memory.rs]:
    construction from the memory map, allocation, deallocation, their round
    trip, the enumeration of the free frames, and safety of any use. *)
From stdpp Require Import sorting.
From S2P Require Import Prelude X86Api BootFrames BootFramesProofs BootCoalesce BootInit BootSystem.

(** In a coalesced list a run of free bytes lies in one range. *)
Lemma free_run_in_range R lo hi :
  ranges_wf R -> coalesced R -> lo < hi -> (forall x, lo <= x < hi -> free_byte R x) ->
  exists r, r ∈ R /\ start r <= lo /\ hi <= end_ r.
Proof.
  intros Hwf Hco Hlt Hrun. destruct (Hrun lo ltac:(lia)) as (r & Hr & Hin).
  exists r. unfold in_range in Hin. split_and!; [done|lia|].
  destruct (decide (hi <= end_ r)); [done|].
  destruct (Hrun (end_ r) ltac:(lia)) as (q & Hq & Hqin). unfold in_range in Hqin.
  apply list_elem_of_lookup in Hr as [i Hi]. apply list_elem_of_lookup in Hq as [j Hj].
  destruct (Nat.lt_trichotomy i j) as [?|[->|?]].
  - pose proof (StronglySorted_lookup gap R i j r q Hco Hi Hj ltac:(done)) as Hg. unfold gap in Hg. lia.
  - simplify_eq. lia.
  - pose proof (StronglySorted_lookup gap R j i q r Hco Hj Hi ltac:(done)) as Hg. unfold gap in Hg. lia.
Qed.

(** A range that cannot give a run of [size] bytes: none of its aligned
    addresses leaves room for it, or taking it at the first one would need
    a second slot and all are in use. *)
Definition gives_no_run (s : BootInfoFrameAllocator) (alignment size : Z) (r : PhysRange) : Prop :=
  (forall f, (alignment | f) -> start r <= f -> f + size <= end_ r ->
    range_count s = MAX_RANGES /\
    exists f0, (alignment | f0) /\ start r < f0 <= f /\ f0 + size < end_ r /\
      forall g, (alignment | g) -> start r <= g -> f0 <= g).

Lemma gives_no_run_spec s k size r : 0 < 2 ^ k ->
  gives_no_run s (2 ^ k) size r <-> (~ fits (2 ^ k) size r \/ skipped s (2 ^ k) size r).
Proof.
  intros Hpos. destruct (round_up_spec (2 ^ k) (start r) Hpos) as [[Hlo _] Hdiv].
  unfold gives_no_run, fits, skipped. set (f0 := round_up (2 ^ k) (start r)) in *. split.
  - intros Hg. destruct (decide (f0 + size <= end_ r)) as [Hfit|]; [right|by left].
    destruct (Hg f0 Hdiv Hlo Hfit) as (Hc & f1 & Hd1 & Hr1 & He1 & Hleast).
    pose proof (round_up_least (2 ^ k) (start r) f1 Hpos Hd1 ltac:(lia)) as Hle. fold f0 in Hle.
    assert (f1 = f0) as -> by lia. lia.
  - intros Hs f Hdf Hfl Hfe. pose proof (round_up_least (2 ^ k) (start r) f Hpos Hdf Hfl) as Hle. fold f0 in Hle.
    destruct Hs as [Hn|(Hc & Hb & Ha)]; [lia|]. split; [done|]. exists f0. split_and!; [done|lia|lia|lia|].
    intros g Hg Hgl. by apply round_up_least.
Qed.

Section theorems.
Context {ck : OverflowChecks} `{PhysFrameLaws}.

(** C18: [init] never panics on a memory map whose usable regions are disjoint
    and below 2^52; the allocator it builds satisfies the invariant, and (while
    the map has no more usable regions than the array holds) a byte is free in
    it exactly when the whole page around it lies inside a usable region. *)
Theorem boot_init_correct map :
  memory_map_ok map -> (length (omap region_range map) <= MAX_RANGES)%nat ->
  exists s, init map = Ret s /\ boot_inv s /\ allocated_bytes s = 0 /\
    forall x, free_byte (active s) x <->
      exists m, m ∈ map /\ usable m = true /\ region_start m <= x / PAGE_SIZE * PAGE_SIZE /\
        x / PAGE_SIZE * PAGE_SIZE + PAGE_SIZE <= region_end m.
Proof.
  intros Hm Hlen. destruct (init_spec map Hm) as (s & Hrun & Hinv & Hal & Hp).
  exists s. split_and!; [done..|]. intros x. rewrite (free_byte_perm _ _ x Hp).
  unfold collected. rewrite take_ge by done. destruct Hm as [Hok _]. rewrite Forall_forall in Hok.
  unfold free_byte. split.
  - intros (r & (m & Hin & Hr)%list_elem_of_omap & Hx). exists m. split; [done|].
    apply region_range_byte; [by apply Hok|]. by exists r.
  - intros (m & Hin & Hx). apply region_range_byte in Hx as (r & Hr & Hx); [|by apply Hok].
    exists r. split; [|done]. apply list_elem_of_omap. by exists m.
Qed.

(** C17: [allocate_contiguous_aligned] returns on every request of the kernel (an
    alignment that is a power of two from the page size up, a size that does not
    wrap).  A frame it returns is aligned, the whole run was free, and afterwards
    exactly that run is no longer free.  It returns [None], changing nothing,
    exactly for no frames at all or when no single range of the list can give
    the run: none has an aligned run of that size inside, except, when all 256
    slots are in use, ranges that its first such run would split in two.  Only when the ranges
    are merged and a slot is left does [None] mean that no aligned run of that
    size is free. *)
Theorem boot_alloc_correct s count k :
  boot_inv s -> (count = 0 \/ request_ok count k) ->
  exists res s', allocate_contiguous_aligned count (2 ^ k) s = Ret (res, s') /\
    match res with
    | Some f => (2 ^ k | f) /\ 0 <= f /\ f + count * PAGE_SIZE <= PHYS_LIM /\
                taken s f (count * PAGE_SIZE) s'
    | None => s' = s
    end /\
    (res = None <-> count = 0 \/ forall r, r ∈ active s -> gives_no_run s (2 ^ k) (count * PAGE_SIZE) r) /\
    (res = None -> 0 < count -> coalesced (active s) -> (range_count s < MAX_RANGES)%nat ->
      forall f, (2 ^ k | f) -> ~ (forall x, f <= x < f + count * PAGE_SIZE -> free_byte (active s) x)).
Proof.
  intros Hinv [->|Hreq].
  { exists None, s. split; [done|]. split; [done|]. split; [|lia]. split; [by left|done]. }
  destruct (allocate_aligned_run s count k Hinv Hreq) as (res & s' & Hrun & Hres).
  exists res, s'. split; [done|]. destruct Hreq as (Hc & Hb & Hk).
  assert (0 < 2 ^ k) by (apply Z.pow_pos_nonneg; lia). set (size := count * PAGE_SIZE) in *.
  assert (0 < size) by (unfold size; change PAGE_SIZE with 4096; lia).
  destruct res as [f|].
  - destruct Hres as (r & Hr & -> & Hfit & Htk). split; [|split; [split|]]; [|done| |done].
    + unfold fits in Hfit. pose proof (proj1 (Forall_forall _ _) (rs_wf _ (bi_ranges _ Hinv)) r Hr) as [].
      destruct (round_up_spec (2 ^ k) (start r)) as [? ?]; [done|]. split_and!; try done; lia.
    + intros [?|Hno]; [lia|]. rewrite allocate_aligned_none in Hrun; [done|done|done|].
      intros q Hq. by apply gives_no_run_spec, Hno.
  - destruct Hres as [-> Hno]. split; [done|]. split; [split|].
    + intros _. right. intros r Hr. by apply gives_no_run_spec, Hno.
    + done.
    + intros _ _ Hco Hcap f Hdiv Hall.
      destruct (free_run_in_range (active s) f (f + size)) as (r & Hr & Hlo & Hhi); [apply Hinv|done|lia|done|].
      pose proof (round_up_least (2 ^ k) (start r) f ltac:(done) Hdiv Hlo).
      destruct (Hno r Hr) as [Hf|[Hf _]]; [unfold fits in Hf; lia|lia].
Qed.

(** C19: [free_contiguous] of a run that is allocated and not free, in a state
    with a free slot, makes exactly that run free again, subtracts its size
    from the allocated bytes, and leaves the ranges fully merged. *)
Theorem boot_free_correct s f count :
  boot_inv s -> (range_count s < MAX_RANGES)%nat -> (PAGE_SIZE | f) -> 0 <= f -> 0 < count ->
  f + count * PAGE_SIZE <= PHYS_LIM -> count * PAGE_SIZE <= allocated_bytes s ->
  (forall x, f <= x < f + count * PAGE_SIZE -> ~ free_byte (active s) x) ->
  exists s', free_contiguous f count s = Ret ((), s') /\ returned s f (count * PAGE_SIZE) s'.
Proof. apply free_contiguous_run. Qed.

(** Freeing what was just allocated restores the free ranges of a coalesced
    state exactly, and both byte counters. *)
Theorem boot_roundtrip s count k f s1 :
  boot_inv s -> coalesced (active s) -> request_ok count k ->
  allocate_contiguous_aligned count (2 ^ k) s = Ret (Some f, s1) ->
  (range_count s1 < MAX_RANGES)%nat ->
  exists s2, free_contiguous f count s1 = Ret ((), s2) /\
    active s2 = active s /\ range_count s2 = range_count s /\
    allocated_bytes s2 = allocated_bytes s /\ total_bytes s2 = total_bytes s.
Proof.
  intros Hinv Hco Hreq Hrun Hcap.
  destruct (allocate_aligned_run s count k Hinv Hreq) as (res & s' & Hrun' & Hres).
  rewrite Hrun in Hrun'. simplify_eq. destruct Hres as (r & Hr & Hf & Hfit & []).
  pose proof (proj1 (Forall_forall _ _) (rs_wf _ (bi_ranges _ Hinv)) r Hr) as [].
  pose proof Hreq as (Hc & Hb & Hk). unfold fits in Hfit. rewrite <- Hf in Hfit.
  destruct (round_up_page k (start r)) as (Hlo & _ & Hpl); [done|]. rewrite <- Hf in *.
  pose proof (bi_allocated _ Hinv).
  destruct (free_contiguous_run s' f count) as (s2 & Hrun2 & []); try done; [lia..| |].
  { intros x Hx. rewrite tk_rest. tauto. }
  exists s2. assert (active s2 = active s) as Ha.
  { apply coalesced_canonical; try done; [apply rt_inv|apply Hinv|].
    intros x. rewrite rt_free, tk_rest. specialize (tk_free x).
    destruct (decide (f <= x < f + count * PAGE_SIZE)); tauto. }
  split_and!; [done..| |lia|lia].
  by rewrite <- (length_active s2 (bi_array _ rt_inv)), <- (length_active s (bi_array _ Hinv)), Ha.
Qed.

(** [usable_frames] enumerates the free frames: strictly ascending, each
    page-aligned and free, and no free page-aligned address is missing. *)
Theorem usable_frames_correct s :
  boot_inv s ->
  exists l, usable_frames s = Ret l /\ StronglySorted Z.lt l /\
    forall f, f ∈ l <-> (PAGE_SIZE | f) /\ free_byte (active s) f.
Proof. apply usable_frames_run. Qed.

(** C9: after any sequence of allocations and frees the runs held by the clients
    are pairwise disjoint and disjoint from the free memory, free and held
    bytes together are what [init] collected from the memory map, and
    [free_memory] never underflows: it is the size of the free ranges. *)
Theorem boot_reachable_safe map s O :
  memory_map_ok map -> boot_reachable map (s, O) ->
  boot_inv s /\ ForallOrdPairs ranges_disjoint (runs O) /\
  (forall x, free_byte (runs O) x -> ~ free_byte (active s) x) /\
  (forall x, free_byte (active s) x \/ free_byte (runs O) x <-> free_byte (collected map) x) /\
  allocated_memory s = bytes (runs O) /\ free_memory s = Ret (bytes (active s)).
Proof.
  intros Hm Hreach. destruct (boot_reachable_inv map s O Hm Hreach) as [[Hinv Hw Hd Hu Hby] Hman].
  split_and!; try done. destruct Hinv as [_ Hwf ? Ht ?]. unfold free_memory.
  pose proof (bytes_nonneg _ (rs_wf _ Hwf)). rewrite Ht, sub64_ok by lia. f_equal. lia.
Qed.

(** C30: in a reachable state every allocation request returns, and freeing a run
    that is held returns too unless all 256 range slots are taken: then it
    panics, whether or not the run would merge with a neighbour. *)
Theorem boot_reachable_progress map s O :
  memory_map_ok map -> boot_reachable map (s, O) ->
  (forall count k, request_ok count k ->
     exists r s', allocate_contiguous_aligned count (2 ^ k) s = Ret (r, s')) /\
  (forall f count, (f, count) ∈ O ->
     if decide (range_count s < MAX_RANGES)%nat
     then exists s', free_contiguous f count s = Ret ((), s')
     else free_contiguous f count s = Panic).
Proof.
  intros Hm Hreach. destruct (boot_reachable_inv map s O Hm Hreach) as [Hown _]. split.
  - intros count k Hreq. destruct (allocate_aligned_run s count k (ow_boot _ _ Hown) Hreq)
      as (r & s' & Hrun & _). by exists r, s'.
  - intros f count Hin. pose proof Hin as [O1 [O2 ->]]%list_elem_of_split. case_decide.
    + destruct (free_own_run s O1 O2 f count Hown) as (s' & Hrun & _); [done|]. by exists s'.
    + pose proof (ao_count _ (bi_array _ (ow_boot _ _ Hown))).
      pose proof (ow_wf _ _ Hown) as Hw. rewrite runs_app in Hw.
      apply Forall_app in Hw as [_ [[] _]%Forall_cons]. simpl in *. unfold PHYS_LIM in *.
      apply free_full_panic; change PAGE_SIZE with 4096 in *; lia.
Qed.

(** [allocate_huge_page] takes 512 free frames that make up one 2 MiB page,
    aligned to 2 MiB, or changes nothing. *)
Theorem allocate_huge_page_correct `{HugeFrameLaws} s :
  boot_inv s ->
  exists res s', allocate_huge_page s = Ret (res, s') /\
    match res with
    | Some f => (HUGE_PAGE_SIZE | f) /\ taken s f HUGE_PAGE_SIZE s'
    | None => s' = s
    end.
Proof.
  intros Hinv. unfold allocate_huge_page.
  assert (request_ok 512 21) as Hreq by (unfold request_ok; change PAGE_SIZE with 4096; lia).
  destruct (allocate_aligned_run s 512 21 Hinv Hreq) as (res & s' & Hrun & Hres).
  change (2 ^ 21) with HUGE_PAGE_SIZE in *. change (512 * PAGE_SIZE) with HUGE_PAGE_SIZE in *.
  run Hrun. destruct res as [f|]; [|by exists None, s'; destruct Hres].
  destruct Hres as (r & Hr & -> & Hfit & Htk). unfold fits in Hfit.
  pose proof (proj1 (Forall_forall _ _) (rs_wf _ (bi_ranges _ Hinv)) r Hr) as [].
  destruct (round_up_spec HUGE_PAGE_SIZE (start r)) as [? [c Hc]]; [done|]. rewrite Hc in *.
  unfold PHYS_LIM in *. change HUGE_PAGE_SIZE with 2097152 in *.
  assert (containing_address_2m (c * 2097152) = Ret (c * 2097152)) as Hf
    by (rewrite containing_address_2m_ok by lia; by rewrite Z.div_mul).
  run (run_lift _ s' _ Hf). eexists _, s'. split; [done|]. split; [apply Z.divide_factor_r|done].
Qed.
End theorems.

(** ** A concrete machine: 640 KiB and 127 MiB of usable memory around the
    legacy hole, listed out of order *)
Module Demo.
Import ReferenceApi.
#[local] Instance demo_checks : OverflowChecks := true.

Definition demo_map : list MemoryRegion :=
  [mkRegion 1048576 134086656 true; mkRegion 653312 1048576 false; mkRegion 4096 653312 true].

Lemma demo_map_ok : memory_map_ok demo_map.
Proof.
  constructor; repeat constructor; unfold region_ok, regions_disjoint, PHYS_LIM; simpl; lia || done.
Qed.

Definition demo_ranges : list PhysRange := [mkRange 4096 651264; mkRange 1048576 134086656].
Definition demo_state : BootInfoFrameAllocator :=
  mkBoot (demo_ranges ++ replicate 254 empty_range) 2 0 133685248.
Definition demo_after : BootInfoFrameAllocator :=
  mkBoot ([mkRange 4096 651264; mkRange 1048576 2097152; mkRange 4194304 134086656]
          ++ replicate 253 empty_range) 3 2097152 133685248.

Lemma demo_init : init demo_map = Ret demo_state.
Proof. vm_compute. reflexivity. Qed.

Lemma demo_inv : boot_inv demo_state.
Proof.
  destruct (init_spec demo_map demo_map_ok) as (s & Hs & Hinv & _).
  rewrite demo_init in Hs. by simplify_eq.
Qed.

Lemma demo_request : request_ok 512 21.
Proof. unfold request_ok. change PAGE_SIZE with 4096. lia. Qed.

Lemma demo_alloc : allocate_contiguous_aligned 512 (2 ^ 21) demo_state = Ret (Some 2097152, demo_after).
Proof. vm_compute. reflexivity. Qed.

Lemma demo_reach : boot_reachable demo_map (demo_after, [(2097152, 512)]).
Proof.
  eapply reach_step; [apply reach_init, demo_init|].
  eapply (step_alloc _ _ _ 512 21); [apply demo_request|apply demo_alloc].
Qed.

Lemma demo_own : own_inv demo_after [(2097152, 512)].
Proof. apply (boot_reachable_inv demo_map _ _ demo_map_ok demo_reach). Qed.

Lemma boot_init_correct_witness :
  memory_map_ok demo_map /\
  exists s, init demo_map = Ret s /\ boot_inv s /\ allocated_bytes s = 0 /\
    forall x, free_byte (active s) x <->
      exists m, m ∈ demo_map /\ usable m = true /\ region_start m <= x / PAGE_SIZE * PAGE_SIZE /\
        x / PAGE_SIZE * PAGE_SIZE + PAGE_SIZE <= region_end m.
Proof.
  split; [exact demo_map_ok|]. apply (boot_init_correct demo_map demo_map_ok).
  apply Nat.leb_le. vm_compute. reflexivity.
Defined.

Lemma boot_alloc_correct_witness :
  exists f s', allocate_contiguous_aligned 512 (2 ^ 21) demo_state = Ret (Some f, s') /\
    (2 ^ 21 | f) /\ taken demo_state f (512 * PAGE_SIZE) s'.
Proof.
  destruct (boot_alloc_correct demo_state 512 21 demo_inv (or_intror demo_request)) as (res & s' & E & Hres & _).
  pose proof E as E'. rewrite demo_alloc in E'. simplify_eq. exists 2097152, demo_after.
  destruct Hres as (Hd & _ & _ & Ht). split; [exact E|]. split; [exact Hd|exact Ht].
Defined.

(** [init] does not merge regions: two usable regions of one page each, one
    behind the other, and no run of two pages is found. *)
Definition split_map : list MemoryRegion := [mkRegion 4096 8192 true; mkRegion 8192 12288 true].
Lemma boot_alloc_misses_adjacent_regions :
  memory_map_ok split_map /\
  exists s, init split_map = Ret s /\ allocate_contiguous_aligned 2 (2 ^ 12) s = Ret (None, s) /\
    forall x, 4096 <= x < 4096 + 2 * PAGE_SIZE -> free_byte (active s) x.
Proof.
  split; [constructor; repeat constructor; unfold region_ok, regions_disjoint, PHYS_LIM; simpl; lia || done|].
  exists (mkBoot ([mkRange 4096 8192; mkRange 8192 12288] ++ replicate 254 empty_range) 2 0 8192).
  split_and!; [vm_compute; reflexivity|vm_compute; reflexivity|].
  change PAGE_SIZE with 4096. intros x Hx. unfold free_byte, in_range.
  destruct (decide (x < 8192)); [exists (mkRange 4096 8192)|exists (mkRange 8192 12288)];
    (split; [|simpl; lia]); [left|right; left].
Qed.

Lemma demo_held x : 2097152 <= x < 2097152 + 512 * PAGE_SIZE -> ~ free_byte (active demo_after) x.
Proof. intros Hx. apply (ow_used _ _ demo_own). apply free_byte_cons. by left. Qed.

Lemma boot_free_correct_witness :
  exists s', free_contiguous 2097152 512 demo_after = Ret ((), s') /\
    returned demo_after 2097152 (512 * PAGE_SIZE) s'.
Proof.
  apply (boot_free_correct demo_after 2097152 512).
  - exact (ow_boot _ _ demo_own).
  - apply Nat.ltb_lt. vm_compute. reflexivity.
  - by exists 512.
  - lia.
  - lia.
  - by vm_compute.
  - by vm_compute.
  - exact demo_held.
Defined.

Lemma demo_coalesced : coalesced (active demo_state).
Proof. repeat constructor. Qed.

Lemma boot_roundtrip_witness :
  coalesced (active demo_state) /\
  exists s2, free_contiguous 2097152 512 demo_after = Ret ((), s2) /\
    active s2 = active demo_state /\ range_count s2 = range_count demo_state /\
    allocated_bytes s2 = allocated_bytes demo_state /\ total_bytes s2 = total_bytes demo_state.
Proof.
  split; [exact demo_coalesced|].
  apply (boot_roundtrip demo_state 512 21 2097152 demo_after demo_inv demo_coalesced
           demo_request demo_alloc).
  apply Nat.ltb_lt. vm_compute. reflexivity.
Defined.

Lemma usable_frames_correct_witness :
  exists l, usable_frames demo_state = Ret l /\ StronglySorted Z.lt l /\
    forall f, f ∈ l <-> (PAGE_SIZE | f) /\ free_byte (active demo_state) f.
Proof. exact (usable_frames_correct demo_state demo_inv). Defined.

Lemma boot_reachable_safe_witness :
  boot_reachable demo_map (demo_after, [(2097152, 512)]) /\
  allocated_memory demo_after = bytes (runs [(2097152, 512)]) /\
  free_memory demo_after = Ret (bytes (active demo_after)).
Proof.
  split; [exact demo_reach|].
  exact (proj2 (proj2 (proj2 (proj2
    (boot_reachable_safe demo_map demo_after _ demo_map_ok demo_reach))))).
Defined.

Lemma boot_reachable_progress_witness :
  exists s', free_contiguous 2097152 512 demo_after = Ret ((), s').
Proof.
  pose proof (proj2 (boot_reachable_progress demo_map demo_after _ demo_map_ok demo_reach)
    2097152 512 ltac:(by left)) as Hfree.
  rewrite decide_True in Hfree; [exact Hfree|]. apply Nat.ltb_lt. vm_compute. reflexivity.
Defined.

Lemma allocate_huge_page_correct_witness :
  boot_inv demo_state /\
  exists res s', allocate_huge_page demo_state = Ret (res, s') /\
    match res with
    | Some f => (HUGE_PAGE_SIZE | f) /\ taken demo_state f HUGE_PAGE_SIZE s'
    | None => s' = demo_state
    end.
Proof. split; [exact demo_inv|]. exact (allocate_huge_page_correct demo_state demo_inv). Defined.
End Demo.
