(* ===== verification/Cpu.v ===== *)
(** * The processor: the x86-64 instructions of the kernel's assembly

    [tasks/switch.rs] and [tasks/syscall.rs] contain naked assembly functions.
    This file gives a meaning to the instructions they use, to interrupt
    delivery and to [syscall], on a register file and the word memory of
    [Machine].  Rust functions called from assembly follow the System V ABI:
    the values they leave in caller-saved registers and below the stack
    pointer belong to the compiler and are parameters ([CalleeFrame]). *)
From S2P Require Import Prelude Machine.

Inductive reg :=
  | RAX | RBX | RCX | RDX | RSI | RDI | RBP | RSP
  | R8 | R9 | R10 | R11 | R12 | R13 | R14 | R15
  | RIP | CS | RFLAGS | SS | DS | ES | FS | GS
  | MSR_STAR | MSR_LSTAR | MSR_SFMASK.

#[global] Instance reg_eq_dec : EqDecision reg.
Proof. solve_decision. Defined.

Abbreviation regfile := (reg -> Z).
Definition wr (r : reg) (v : Z) (c : regfile) : regfile :=
  fun q => if decide (q = r) then v else c q.

Lemma wr_eq r v c : wr r v c r = v.
Proof. unfold wr. by rewrite decide_True. Qed.
Lemma wr_ne r q v c : q <> r -> wr r v c q = c q.
Proof. intros. unfold wr. by rewrite decide_False. Qed.

(** ** Flags *)

Definition IF : Z := 512.

(** The bits of RFLAGS that [iretq] and [sysretq] load; bit 1 always reads as
    one. *)
Definition iret_flags (v : Z) : Z := Z.lor (Z.land v 0x3D7FD5) 2.
Definition sysret_flags (v : Z) : Z := Z.lor (Z.land v 0x3C7FD5) 2.

(** A flags value the processor can hold in user mode. *)
Definition flags_ok (v : Z) : Prop := sysret_flags v = v.

Lemma flags_ok_iret v : flags_ok v -> iret_flags v = v.
Proof.
  unfold flags_ok, sysret_flags, iret_flags. intros Hv. rewrite <- Hv at 1.
  rewrite Z.land_lor_distr_l, <- Z.land_assoc.
  change (Z.land 0x3C7FD5 0x3D7FD5) with 0x3C7FD5. change (Z.land 2 0x3D7FD5) with 0.
  by rewrite Z.lor_0_r.
Qed.

(** ** Instructions *)

Section cpu.
Context {K : Type}.

Abbreviation Asm := (M ((regfile * K) * mem)).

(** A Rust [extern "C"] function: its integer arguments, its effect on the
    kernel's state and memory, and its result. *)
Abbreviation cfun := (list Z -> M (K * mem) Z).

Inductive instr :=
  | push (r : reg) | pop (r : reg) | mov (d s : reg)
  | mov_from (d b : reg) (off : Z)      (* mov d, [b + off] *)
  | mov_to (b : reg) (off : Z) (s : reg) (* mov [b + off], s *)
  | mov_from_sym (d : reg) (a : Z)      (* mov d, [rip + sym] *)
  | mov_to_sym (a : Z) (s : reg)        (* mov [rip + sym], s *)
  | lea_sym (d : reg) (a : Z)           (* lea d, [rip + sym] *)
  | add_imm (d : reg) (n : Z)
  | push_val (v : Z)                    (* push of an [in(reg)] operand *)
  | mov_val (d : reg) (v : Z)           (* mov from an [in(reg)] operand *)
  | sti | cli
  | call (f : cfun)
  | iretq | sysretq.

(** What a compiled function leaves in the caller-saved registers and in the
    stack area below the stack pointer at the call. *)
Class CalleeFrame := {
  frame_size : Z;
  scratch_regs : regfile -> regfile;
  scratch_mem : Z -> mem -> mem;
}.
Class CalleeFrameLaws `{CalleeFrame} : Prop := {
  frame_size_pos : 0 < frame_size;
  scratch_mem_frame rsp m :
    mem_frame (fun a => rsp - frame_size <= a < rsp) m (scratch_mem rsp m);
}.

Definition caller_saved (r : reg) : bool :=
  match r with
  | RAX | RCX | RDX | RSI | RDI | R8 | R9 | R10 | R11 => true
  | _ => false
  end.

Definition get_regs : Asm regfile := fun '((c, k), m) => Ret (c, ((c, k), m)).
Definition put_regs (c : regfile) : Asm () := fun '((_, k), m) => Ret ((), ((c, k), m)).

Definition wrap64 (z : Z) : Z := z mod U64_LIM.

Definition exec_push (v : Z) : Asm () :=
  c ← get_regs;
  let sp := wrap64 (c RSP - 8) in
  store sp v;;
  put_regs (wr RSP sp c).
Definition exec_pop : Asm Z :=
  c ← get_regs;
  v ← load (c RSP);
  put_regs (wr RSP (wrap64 (c RSP + 8)) c);;
  mret v.
Definition set_reg (r : reg) (v : Z) : Asm () :=
  c ← get_regs; put_regs (wr r v c).

Context `{CalleeFrame}.

(** The body of a called function, entered with registers [c]. *)
Definition exec_body (f : cfun) (c : regfile) : Asm () := fun '((_, k), m) =>
  match f [c RDI; c RSI; c RDX; c RCX; c R8; c R9] (k, m) with
  | Ret (v, (k', m')) =>
      let c' := fun r => if caller_saved r then scratch_regs c r else c r in
      Ret ((), ((wr RAX v c', k'), scratch_mem (c RSP) m'))
  | Panic => Panic
  | Undef => Undef
  | Hang => Hang
  | OutOfFuel => OutOfFuel
  end.

(** [call f]: push the return address, run [f] on the argument registers of the
    ABI, return with the result in RAX and the stack pointer restored.  The ABI
    requires a stack aligned to 16 bytes at the call; compiled code may fault
    without it. *)
Definition exec_call (f : cfun) : Asm () :=
  c0 ← get_regs;
  if decide (c0 RSP mod 16 = 0) then
    exec_push (c0 RIP);;
    c ← get_regs;
    exec_body f c;;
    set_reg RSP (c0 RSP)
  else undef.

Definition exec (i : instr) : Asm () :=
  match i with
  | push r => c ← get_regs; exec_push (c r)
  | pop r => v ← exec_pop; set_reg r v
  | mov d s => c ← get_regs; set_reg d (c s)
  | mov_from d b off => c ← get_regs; v ← load (wrap64 (c b + off)); set_reg d v
  | mov_to b off s => c ← get_regs; store (wrap64 (c b + off)) (c s)
  | mov_from_sym d a => v ← load a; set_reg d v
  | mov_to_sym a s => c ← get_regs; store a (c s)
  | lea_sym d a => set_reg d a
  | add_imm d n => c ← get_regs; set_reg d (wrap64 (c d + n))
  | push_val v => exec_push v
  | mov_val d v => set_reg d v
  | sti => c ← get_regs; set_reg RFLAGS (Z.lor (c RFLAGS) IF)
  | cli => c ← get_regs; set_reg RFLAGS (Z.ldiff (c RFLAGS) IF)
  | call f => exec_call f
  | iretq =>
      rip ← exec_pop; cs ← exec_pop; flags ← exec_pop; sp ← exec_pop; ss ← exec_pop;
      c ← get_regs;
      put_regs (wr RIP rip (wr CS cs (wr RFLAGS (iret_flags flags) (wr RSP sp (wr SS ss c)))))
  | sysretq =>
      c ← get_regs;
      let base := Z.shiftr (c MSR_STAR) 48 in
      put_regs (wr RIP (c RCX) (wr RFLAGS (sysret_flags (c R11))
        (wr CS (Z.lor (base + 16) 3) (wr SS (Z.lor (base + 8) 3) c))))
  end.

Fixpoint exec_all (p : list instr) : Asm () :=
  match p with
  | [] => mret ()
  | i :: p => exec i;; exec_all p
  end.

(** An interrupt through an interrupt gate: the stack of the TSS when it comes
    from user mode, aligned to 16 bytes; SS, RSP, RFLAGS, CS and RIP pushed; IF,
    TF, NT and RF cleared. *)
Definition deliver (rsp0 kernel_cs handler : Z) : Asm () :=
  c ← get_regs;
  let user := Z.land (c CS) 3 =? 3 in
  let sp := Z.land (if user then rsp0 else c RSP) (not64 15) in
  put_regs (wr RSP sp c);;
  exec_all (push_val <$> [c SS; c RSP; c RFLAGS; c CS; c RIP]);;
  c' ← get_regs;
  put_regs (wr RIP handler (wr CS kernel_cs
    (wr SS (if user then 0 else c SS)
      (wr RFLAGS (Z.ldiff (c RFLAGS) 0x14300) c')))).

(** The [syscall] instruction; [next] is the address after it. *)
Definition exec_syscall (next : Z) : Asm () :=
  c ← get_regs;
  let cs := Z.land (Z.shiftr (c MSR_STAR) 32) 0xFFFC in
  put_regs (wr RCX next (wr R11 (c RFLAGS)
    (wr RFLAGS (Z.lor (Z.ldiff (c RFLAGS) (c MSR_SFMASK)) 2)
      (wr RIP (c MSR_LSTAR) (wr CS cs (wr SS (cs + 8) c)))))).
End cpu.
Arguments instr K : clear implicits.

(** ** Runs of pushes, pops and calls *)

(** The words at [p], [p + 8], ... are [ws]. *)
Fixpoint words_at (m : mem) (p : Z) (ws : list Z) : Prop :=
  match ws with
  | [] => True
  | w :: ws => rd m p = w /\ words_at m (p + 8) ws
  end.

Lemma words_at_app m p ws1 ws2 :
  words_at m p (ws1 ++ ws2) <-> words_at m p ws1 /\ words_at m (p + 8 * Z.of_nat (length ws1)) ws2.
Proof.
  revert p. induction ws1 as [|w ws1 IH]; intros p; cbn [app words_at length].
  - replace (p + 8 * Z.of_nat 0) with p by lia. tauto.
  - rewrite IH. replace (p + 8 + 8 * Z.of_nat (length ws1)) with (p + 8 * Z.of_nat (S (length ws1))) by lia. tauto.
Qed.

Lemma words_at_frame P m m' p ws :
  mem_frame P m m' -> (forall a, p <= a < p + 8 * Z.of_nat (length ws) -> ~ P a) ->
  words_at m p ws -> words_at m' p ws.
Proof.
  intros Hf. revert p. induction ws as [|w ws IH]; intros p HP; simpl in *; [done|].
  intros [Hw Hws]. split.
  - rewrite (mem_frame_rd P m) by (done || apply HP; lia). done.
  - apply IH; [|done]. intros a Ha. apply HP. lia.
Qed.

(** A stack area of [n] words below [hi]. *)
Definition stack_room (hi n : Z) : Prop := 0 < hi - 8 * n /\ hi < U64_LIM /\ hi mod 8 = 0.

Lemma stack_room_ptr hi n i : stack_room hi n -> 0 < i <= n -> valid_ptr (hi - 8 * i).
Proof.
  intros (H1 & H2 & H3) Hi. split; [lia|].
  replace (hi - 8 * i) with (hi + (- i) * 8) by lia. by rewrite Z.mod_add.
Qed.

(** Registers that agree except for the stack pointer. *)
Definition but_rsp (c c' : regfile) : Prop := forall r, r <> RSP -> c' r = c r.

Section lemmas.
Context {K : Type} `{CalleeFrame}.
Implicit Types (c : regfile) (k : K) (m : mem).

Lemma run_get_regs c k m : get_regs ((c, k), m) = Ret (c, ((c, k), m)).
Proof. reflexivity. Qed.
Lemma run_put_regs c c' k m : put_regs c' ((c, k), m) = Ret ((), ((c', k), m)).
Proof. reflexivity. Qed.
Lemma run_set_reg r v c k m : set_reg r v ((c, k), m) = Ret ((), ((wr r v c, k), m)).
Proof. reflexivity. Qed.

Lemma exec_all_app p q s s' :
  exec_all (K:=K) p s = Ret ((), s') -> exec_all (p ++ q) s = exec_all q s'.
Proof.
  revert s. induction p as [|i p IH]; intros s; simpl.
  - intros [= ->]. done.
  - intros ([] & s1 & H1 & H2)%run_bind_inv. run H1. by apply IH.
Qed.

Lemma exec_push_run v c k m :
  stack_room (c RSP) 1 ->
  exec_push v ((c, k), m) = Ret ((), ((wr RSP (c RSP - 8) c, k), <[c RSP - 8 := v]> m)).
Proof.
  intros Hr. pose proof (stack_room_ptr _ _ 1 Hr ltac:(lia)) as Hp.
  replace (c RSP - 8 * 1) with (c RSP - 8) in Hp by lia. destruct Hr as (H1 & H2 & _).
  unfold exec_push. run (run_get_regs c k m). unfold wrap64. rewrite Z.mod_small by lia.
  by run (run_store _ v (c, k) m Hp).
Qed.

Lemma exec_pop_run c k m :
  valid_ptr (c RSP) -> c RSP + 8 < U64_LIM ->
  exec_pop ((c, k), m) = Ret (rd m (c RSP), ((wr RSP (c RSP + 8) c, k), m)).
Proof.
  intros Hp Hlt. unfold exec_pop. run (run_get_regs c k m).
  run (run_load _ (c, k) m Hp). destruct Hp. unfold wrap64. rewrite Z.mod_small by lia.
  by run (run_put_regs c (wr RSP (c RSP + 8) c) k m).
Qed.

(** Pushing values that do not depend on the registers. *)
Lemma exec_push_vals vs c k m :
  stack_room (c RSP) (Z.of_nat (length vs)) ->
  exists c' m', exec_all (push_val <$> vs) ((c, k), m) = Ret ((), ((c', k), m')) /\
    c' RSP = c RSP - 8 * Z.of_nat (length vs) /\ but_rsp c c' /\
    words_at m' (c' RSP) (reverse vs) /\ mem_frame (fun a => c' RSP <= a < c RSP) m m'.
Proof.
  revert c m. induction vs as [|v vs IH]; intros c m Hroom.
  { exists c, m. split_and!; try done. simpl. lia. }
  cbn [length] in Hroom.
  set (c1 := wr RSP (c RSP - 8) c). set (m1 := <[c RSP - 8 := v]> m).
  assert (c1 RSP = c RSP - 8) as Hsp by apply wr_eq.
  destruct (IH c1 m1) as (c' & m' & Hrun & Hc' & Hbut & Hw & Hf).
  { rewrite Hsp. destruct Hroom as (H1 & H2 & H3). split_and!; [lia..|].
    replace (c RSP - 8) with (c RSP + (-1) * 8) by lia. by rewrite Z.mod_add. }
  exists c', m'. rewrite Hsp in *. split_and!.
  - cbn [fmap list_fmap exec_all exec].
    assert (stack_room (c RSP) 1) as Hr1 by (destruct Hroom as (? & ? & ?); split_and!; [lia..|done]).
    by run (exec_push_run v c k m Hr1).
  - simpl. lia.
  - intros q Hq. rewrite Hbut by done. by apply wr_ne.
  - rewrite reverse_cons. apply words_at_app. rewrite length_reverse. split; [done|].
    simpl. split; [|done]. rewrite (mem_frame_rd _ _ _ _ Hf) by lia.
    replace (c' RSP + 8 * Z.of_nat (length vs)) with (c RSP - 8) by lia. apply rd_insert_eq.
  - eapply mem_frame_trans; [|eapply mem_frame_mono; [|exact Hf]]; simpl.
    + apply mem_frame_insert. simpl in *. lia.
    + simpl. intros a. lia.
Qed.
Lemma pushes_as_vals c0 rs c k m :
  RSP ∉ rs -> but_rsp c0 c ->
  exec_all (push <$> rs) ((c, k), m) = exec_all (push_val <$> (c0 <$> rs)) ((c, k), m).
Proof.
  revert c m. induction rs as [|r rs IH]; intros c m Hni Hbut; [done|].
  apply not_elem_of_cons in Hni as [Hne Hni].
  cbn [fmap list_fmap exec_all exec]. unfold mbind at 1 3, M_bind.
  run (run_get_regs c k m). rewrite (Hbut r) by done.
  destruct (decide (valid_ptr (wrap64 (c RSP - 8)))) as [Hp|Hp].
  - unfold exec_push. run (run_get_regs c k m). run (run_store _ (c0 r) (c, k) m Hp). simpl.
    apply IH; [done|]. intros q Hq. rewrite wr_ne by done. by apply Hbut.
  - unfold exec_push. run (run_get_regs c k m). unfold mbind, M_bind, store.
    by rewrite decide_False.
Qed.

(** Pushing registers leaves them on the stack, the last one lowest. *)
Lemma exec_pushes rs c k m :
  RSP ∉ rs -> stack_room (c RSP) (Z.of_nat (length rs)) ->
  exists c' m', exec_all (push <$> rs) ((c, k), m) = Ret ((), ((c', k), m')) /\
    c' RSP = c RSP - 8 * Z.of_nat (length rs) /\ but_rsp c c' /\
    words_at m' (c' RSP) (reverse (c <$> rs)) /\
    mem_frame (fun a => c' RSP <= a < c RSP) m m'.
Proof.
  intros Hni Hroom. rewrite (pushes_as_vals c) by done.
  rewrite <- (length_fmap c rs) in *. by apply exec_push_vals.
Qed.

(** Popping loads the registers from the words on the stack. *)
Lemma exec_pops rs ws c k m :
  RSP ∉ rs -> NoDup rs -> length ws = length rs -> words_at m (c RSP) ws ->
  0 < c RSP -> c RSP + 8 * Z.of_nat (length rs) < U64_LIM -> c RSP mod 8 = 0 ->
  exists c', exec_all (pop <$> rs) ((c, k), m) = Ret ((), ((c', k), m)) /\
    c' RSP = c RSP + 8 * Z.of_nat (length rs) /\ c' <$> rs = ws /\
    forall r, r <> RSP -> r ∉ rs -> c' r = c r.
Proof.
  revert ws c. induction rs as [|r rs IH]; intros ws c Hni Hnd Hlen Hw Hlo Hhi Hal.
  { destruct ws; [|done]. exists c. split_and!; try done. simpl. lia. }
  destruct ws as [|w ws]; [done|]. simpl in Hlen, Hw, Hhi. destruct Hw as [Hw Hws].
  apply not_elem_of_cons in Hni as [Hne Hni]. apply NoDup_cons in Hnd as [Hr Hnd].
  set (c1 := wr r w (wr RSP (c RSP + 8) c)).
  assert (c1 RSP = c RSP + 8) as Hsp by (unfold c1; rewrite wr_ne by done; apply wr_eq).
  destruct (IH ws c1) as (c' & Hrun & Hc' & Hm & Hkeep); [done|done|lia|by rewrite Hsp|lia|lia| |].
  { rewrite Hsp. replace (c RSP + 8) with (c RSP + 1 * 8) by lia. by rewrite Z.mod_add. }
  assert (exec (pop r) ((c, k), m) = Ret ((), ((c1, k), m))) as Hpop.
  { cbn [exec]. run (exec_pop_run c k m ltac:(by split; [lia|]) ltac:(lia)).
    by rewrite run_set_reg, Hw. }
  exists c'. split_and!.
  - cbn [fmap list_fmap exec_all]. by run Hpop.
  - simpl. lia.
  - rewrite fmap_cons, Hm. f_equal. rewrite Hkeep by (done || congruence). apply wr_eq.
  - intros q Hq [Hqr Hqs]%not_elem_of_cons. rewrite Hkeep by done.
    unfold c1. by rewrite !wr_ne by done.
Qed.

(** A call returns with the callee-saved registers and the stack above it. *)
Lemma exec_call_run `{!CalleeFrameLaws} f c k m v k' m' :
  stack_room (c RSP) 1 -> c RSP mod 16 = 0 ->
  f [c RDI; c RSI; c RDX; c RCX; c R8; c R9] (k, <[c RSP - 8 := c RIP]> m) = Ret (v, (k', m')) ->
  exists c' m'', exec (call f) ((c, k), m) = Ret ((), ((c', k'), m'')) /\
    c' RAX = v /\ (forall r, caller_saved r = false -> c' r = c r) /\
    mem_frame (fun a => c RSP - 8 - frame_size <= a < c RSP - 8) m' m''.
Proof.
  intros Hroom Hal Hf. set (c1 := wr RSP (c RSP - 8) c).
  set (c2 := wr RAX v (fun r => if caller_saved r then scratch_regs c1 r else c1 r)).
  exists (wr RSP (c RSP) c2), (scratch_mem (c RSP - 8) m'). split_and!.
  - cbn [exec]. unfold exec_call. run (run_get_regs c k m). rewrite decide_True by done.
    run (exec_push_run (c RIP) c k m Hroom). run (run_get_regs c1 k (<[c RSP - 8 := c RIP]> m)).
    assert (exec_body f c1 ((c1, k), <[c RSP - 8 := c RIP]> m) =
            Ret ((), ((c2, k'), scratch_mem (c RSP - 8) m'))) as Hb.
    { unfold exec_body. unfold c1 at 1 2 3 4 5 6. rewrite !wr_ne by done. rewrite Hf. done. }
    run Hb. done.
  - rewrite wr_ne by done. apply wr_eq.
  - intros r Hr. destruct (decide (r = RSP)) as [->|]; [apply wr_eq|].
    unfold c2. rewrite !wr_ne by (done || by intros ->). rewrite Hr. unfold c1. by rewrite wr_ne.
  - apply scratch_mem_frame.
Qed.
(** [iretq] loads the five words of an interrupt frame. *)
Lemma exec_iretq ip cs fl sp ss c k m :
  words_at m (c RSP) [ip; cs; fl; sp; ss] ->
  0 < c RSP -> c RSP + 40 < U64_LIM -> c RSP mod 8 = 0 ->
  exists c', exec iretq ((c, k), m) = Ret ((), ((c', k), m)) /\
    c' RIP = ip /\ c' CS = cs /\ c' RFLAGS = iret_flags fl /\ c' RSP = sp /\ c' SS = ss /\
    forall r, r ∉ [RIP; CS; RFLAGS; RSP; SS] -> c' r = c r.
Proof.
  intros Hw Hlo Hhi Hal.
  assert (forall i, 0 <= i <= 4 -> valid_ptr (c RSP + 8 * i)) as Hv.
  { intros i Hi. split; [lia|]. replace (c RSP + 8 * i) with (c RSP + i * 8) by lia.
    by rewrite Z.mod_add. }
  assert (forall i c1, 0 <= i <= 4 -> c1 RSP = c RSP + 8 * i ->
    exec_pop ((c1, k), m) = Ret (rd m (c RSP + 8 * i), ((wr RSP (c RSP + 8 * (i + 1)) c1, k), m))) as Hpop.
  { intros i c1 Hi Hc1. rewrite exec_pop_run, Hc1; [|rewrite Hc1; by apply Hv|lia].
    do 4 f_equal. f_equal. lia. }
  simpl in Hw. destruct Hw as (W0 & W1 & W2 & W3 & W4 & _).
  cbn [exec]. run (Hpop 0 c ltac:(lia) ltac:(lia)).
  do 4 (match goal with |- context [(wr RSP (c RSP + 8 * (?i + 1)) ?c1, k)] =>
    run (Hpop (i + 1) (wr RSP (c RSP + 8 * (i + 1)) c1) ltac:(lia) (wr_eq _ _ _)) end).
  match goal with |- context [(?c1, k)] => run (run_get_regs c1 k m) end.
  eexists. split; [done|].
  assert (forall a b w, rd m a = w -> a = b -> rd m b = w) as Hrd by (by intros; subst).
  rewrite (Hrd _ (c RSP + 8 * 0) _ W0), (Hrd _ (c RSP + 8 * (0 + 1)) _ W1),
    (Hrd _ (c RSP + 8 * (0 + 1 + 1)) _ W2), (Hrd _ (c RSP + 8 * (0 + 1 + 1 + 1)) _ W3),
    (Hrd _ (c RSP + 8 * (0 + 1 + 1 + 1 + 1)) _ W4) by lia.
  split_and!; try done.
  intros r Hr. unfold wr. repeat case_decide; subst; try done; set_solver.
Qed.
End lemmas.

(** A compiler that uses no stack of its own and leaves zeros behind. *)
Module ReferenceFrame.
#[export] Instance callee_frame : CalleeFrame := {|
  frame_size := 8;
  scratch_regs := fun _ _ => 0;
  scratch_mem := fun rsp m => <[rsp - 8 := 0]> m;
|}.
#[export] Instance callee_frame_laws : CalleeFrameLaws.
Proof. constructor; [done|]. intros rsp m. apply mem_frame_insert. simpl. lia. Qed.
End ReferenceFrame.
