(* ===== verification/Drivers.v ===== *)
(** * Devices: [kernel/src/drivers/serial.rs] and [kernel/src/drivers/apic.rs]

    The serial console is the sequence of fragments printed to it, the APICs
    the sequence of 32-bit writes to their registers.  What a register reads
    back belongs to the hardware and is a parameter. *)
From stdpp Require Import strings.
From S2P Require Import Prelude.

(** ** State *)

(** A fragment of formatted output: text, an integer in decimal or hexadecimal,
    bytes converted by [String::from_utf8_lossy]. *)
Inductive output :=
  | Text (s : string)
  | Dec (n : Z)
  | Hex (n : Z)
  | Lossy (bytes : list Z).

Record devices := mkDev {
  serial_ready : bool;          (* SERIAL1 is [Some] *)
  console : list output;
  lapic_address : Z;            (* LAPIC_ADDR *)
  mmio : list (Z * Z);          (* 32-bit volatile writes: address, value *)
}.
Definition devices_new : devices := mkDev false [] 0 [].

Abbreviation D := (M devices).

(** ** The serial console *)

Definition init_serial : D () :=
  d ← get; put (mkDev true (console d) (lapic_address d) (mmio d)).

(** [_print]: panics ([expect]) before [init_serial]. *)
Definition serial_print (frags : list output) : D () :=
  d ← get;
  if serial_ready d then put (mkDev true (console d ++ frags) (lapic_address d) (mmio d))
  else panic.
Definition newline : string := String (Ascii.ascii_of_nat 10) EmptyString.
Definition serial_println (frags : list output) : D () := serial_print (frags ++ [Text newline]).

(** ** The local APIC *)

Inductive APICOffset :=
  | R0x00 | R0x10 | Ir | Vr | R0x40 | R0x50 | R0x60 | R0x70 | Tpr | Apr | Ppr | Eoi | Rrd | Ldr
  | Dfr | Svr | Isr1 | Isr2 | Isr3 | Isr4 | Isr5 | Isr6 | Isr7 | Isr8 | Tmr1 | Tmr2 | Tmr3 | Tmr4
  | Tmr5 | Tmr6 | Tmr7 | Tmr8 | Irr1 | Irr2 | Irr3 | Irr4 | Irr5 | Irr6 | Irr7 | Irr8 | Esr
  | R0x290 | R0x2A0 | R0x2B0 | R0x2C0 | R0x2D0 | R0x2E0 | LvtCmci | Icr1 | Icr2 | LvtT | LvtTsr
  | LvtPmcr | LvtLint0 | LvtLint1 | LvtE | Ticr | Tccr | R0x3A0 | R0x3B0 | R0x3C0 | R0x3D0 | Tdcr
  | R0x3F0.

Definition offset_of (r : APICOffset) : Z :=
  match r with
  | R0x00 => 0x0 | R0x10 => 0x10 | Ir => 0x20 | Vr => 0x30 | R0x40 => 0x40 | R0x50 => 0x50
  | R0x60 => 0x60 | R0x70 => 0x70 | Tpr => 0x80 | Apr => 0x90 | Ppr => 0xA0 | Eoi => 0xB0
  | Rrd => 0xC0 | Ldr => 0xD0 | Dfr => 0xE0 | Svr => 0xF0 | Isr1 => 0x100 | Isr2 => 0x110
  | Isr3 => 0x120 | Isr4 => 0x130 | Isr5 => 0x140 | Isr6 => 0x150 | Isr7 => 0x160 | Isr8 => 0x170
  | Tmr1 => 0x180 | Tmr2 => 0x190 | Tmr3 => 0x1A0 | Tmr4 => 0x1B0 | Tmr5 => 0x1C0 | Tmr6 => 0x1D0
  | Tmr7 => 0x1E0 | Tmr8 => 0x1F0 | Irr1 => 0x200 | Irr2 => 0x210 | Irr3 => 0x220 | Irr4 => 0x230
  | Irr5 => 0x240 | Irr6 => 0x250 | Irr7 => 0x260 | Irr8 => 0x270 | Esr => 0x280 | R0x290 => 0x290
  | R0x2A0 => 0x2A0 | R0x2B0 => 0x2B0 | R0x2C0 => 0x2C0 | R0x2D0 => 0x2D0 | R0x2E0 => 0x2E0
  | LvtCmci => 0x2F0 | Icr1 => 0x300 | Icr2 => 0x310 | LvtT => 0x320 | LvtTsr => 0x330
  | LvtPmcr => 0x340 | LvtLint0 => 0x350 | LvtLint1 => 0x360 | LvtE => 0x370 | Ticr => 0x380
  | Tccr => 0x390 | R0x3A0 => 0x3A0 | R0x3B0 => 0x3B0 | R0x3C0 => 0x3C0 | R0x3D0 => 0x3D0
  | Tdcr => 0x3E0 | R0x3F0 => 0x3F0
  end.

(** The vectors of [InterruptIndex] in [interrupts.rs]. *)
Inductive InterruptIndex := Keyboard | Timer | Mouse.
Definition vector (i : InterruptIndex) : Z :=
  match i with Keyboard => 33 | Timer => 32 | Mouse => 44 end.

(** [p.offset(n)] of a pointer to [u32], and a volatile write through it. *)
Definition u32_at (p n : Z) : Z := p + 4 * n.
Definition write_volatile (a v : Z) : D () :=
  d ← get; put (mkDev (serial_ready d) (console d) (lapic_address d) (mmio d ++ [(a, v)])).

(** What a device register reads, given the writes so far. *)
Class MmioRead := mmio_read : list (Z * Z) -> Z -> Z.
Definition read_volatile `{MmioRead} (a : Z) : D Z := d ← get; mret (mmio_read (mmio d) a).

Definition lapic_reg (p : Z) (r : APICOffset) : Z := u32_at p (offset_of r / 4).

Definition init_timer `{MmioRead} (lapic_pointer : Z) : D () :=
  let svr := lapic_reg lapic_pointer Svr in
  v ← read_volatile svr;
  write_volatile svr (Z.lor v 0x100);;
  write_volatile (lapic_reg lapic_pointer LvtT) (Z.lor 0x20 (Z.shiftl 1 17));;
  write_volatile (lapic_reg lapic_pointer Tdcr) 0x3;;
  write_volatile (lapic_reg lapic_pointer Ticr) 2500000;;
  serial_println [Text "Local APIC timer initialized"].

Definition init_keyboard (lapic_pointer : Z) : D () :=
  write_volatile (lapic_reg lapic_pointer LvtLint1) (vector Keyboard).
Definition init_mouse (lapic_pointer : Z) : D () :=
  write_volatile (lapic_reg lapic_pointer LvtLint0) (vector Mouse).

Definition end_interrupt : D () :=
  d ← get; write_volatile (lapic_reg (lapic_address d) Eoi) 0.

Lemma run_serial_print frags d : serial_ready d = true ->
  serial_print frags d =
    Ret ((), mkDev true (console d ++ frags) (lapic_address d) (mmio d)).
Proof. unfold serial_print. intros Hs. run (run_get d). by rewrite Hs. Qed.
Lemma run_end_interrupt d :
  end_interrupt d = Ret ((), mkDev (serial_ready d) (console d) (lapic_address d)
    (mmio d ++ [(lapic_address d + 0xB0, 0)])).
Proof. reflexivity. Qed.
