(* ===== verification/Gdt.v ===== *)
(** * Segment selectors: [kernel/src/gdt.rs]

    The order in which the segments are appended fixes the selectors that
    [TaskContext::new_user] and the STAR register use. *)
From S2P Require Import Prelude.

Inductive Descriptor :=
  | kernel_code_segment
  | kernel_data_segment
  | user_data_segment
  | user_code_segment
  | tss_segment (tss : Z).

(** [GlobalDescriptorTable] of the [x86_64] crate. *)
Class GdtApi := {
  gdt : Type;
  gdt_new : gdt;
  append : gdt -> Descriptor -> gdt * Z;
}.

Definition slots (d : Descriptor) : Z := match d with tss_segment _ => 2 | _ => 1 end.
Definition dpl (d : Descriptor) : Z :=
  match d with user_data_segment | user_code_segment => 3 | _ => 0 end.

(** The table starts with the null descriptor; a descriptor goes to the next
    free slots of eight, and its selector is that index with its privilege
    level. *)
Class GdtLaws `{GdtApi} (len : gdt -> Z) : Prop := {
  gdt_new_len : len gdt_new = 1;
  append_ok g d : len g + slots d <= 8 ->
    exists g', append g d = (g', 8 * len g + dpl d) /\ len g' = len g + slots d;
}.

Record Selectors := mkSelectors {
  code : Z;
  data : Z;
  user_code : Z;
  user_data : Z;
  tss : Z;
}.

(** The initialiser of [GDT]; [tss_addr] is the address of [TSS]. *)
Definition GDT `{GdtApi} (tss_addr : Z) : gdt * Selectors :=
  let '(g, code) := append gdt_new kernel_code_segment in
  let '(g, data) := append g kernel_data_segment in
  let '(g, user_data) := append g user_data_segment in
  let '(g, user_code) := append g user_code_segment in
  let '(g, tss) := append g (tss_segment tss_addr) in
  (g, mkSelectors code data user_code user_data tss).

(** The selectors the comments of [syscall.rs] list. *)
Lemma gdt_selectors `{GdtLaws} a :
  (GDT a).2 = mkSelectors 0x08 0x10 0x23 0x1B 0x28.
Proof.
  unfold GDT. pose proof gdt_new_len as L0.
  destruct (append_ok gdt_new kernel_code_segment) as (g1 & -> & L1); [simpl; lia|]. simpl in L1.
  destruct (append_ok g1 kernel_data_segment) as (g2 & -> & L2); [simpl; lia|]. simpl in L2.
  destruct (append_ok g2 user_data_segment) as (g3 & -> & L3); [simpl; lia|]. simpl in L3.
  destruct (append_ok g3 user_code_segment) as (g4 & -> & L4); [simpl; lia|]. simpl in L4.
  destruct (append_ok g4 (tss_segment a)) as (g5 & -> & L5); [simpl; lia|]. simpl.
  f_equal; lia.
Qed.

(** A table that is its number of used slots. *)
Module ReferenceGdt.
#[export] Instance gdt_api : GdtApi := {|
  gdt := Z;
  gdt_new := 1;
  append := fun g d => (g + slots d, 8 * g + dpl d);
|}.
#[export] Instance gdt_laws : GdtLaws (fun g => g).
Proof. constructor; [done|]. intros g d _. by eexists. Qed.
End ReferenceGdt.
