(* ===== verification/Tasks.v ===== *)
(** * Tasks, the scheduler and the context switch

    [kernel/src/tasks/task.rs], [scheduler.rs] and [switch.rs].  A pointer to
    the context of a task in the scheduler's vector is the index of the task;
    the context of the interrupted code is the block of words the interrupt
    entry pushed on the stack, at the address it passes to [timer_tick]. *)
From stdpp Require Import strings.
From S2P Require Import Prelude Machine Cpu Drivers Gdt.

(** ** [task.rs] *)

Record TaskContext := mkCtx {
  r15 : Z; r14 : Z; r13 : Z; r12 : Z; r11 : Z; r10 : Z; r9 : Z; r8 : Z;
  rbp : Z; rdi : Z; rsi : Z; rdx : Z; rcx : Z; rbx : Z; rax : Z;
  rip : Z; cs : Z; rflags : Z; rsp : Z; ss : Z;
}.

Definition new_user (sel : Selectors) (entry_point user_stack_top : Z) : TaskContext :=
  {| r15 := 0; r14 := 0; r13 := 0; r12 := 0; r11 := 0; r10 := 0; r9 := 0; r8 := 0;
     rbp := 0; rdi := 0; rsi := 0; rdx := 0; rcx := 0; rbx := 0; rax := 0;
     rip := entry_point;
     cs := Z.lor (user_code sel) 3;
     rflags := 0x200;
     rsp := user_stack_top;
     ss := Z.lor (user_data sel) 3 |}.

Inductive TaskState := Ready | Running | Blocked.
#[global] Instance TaskState_eq_dec : EqDecision TaskState.
Proof. solve_decision. Defined.

(** [kernel_stack] is the address of the boxed array. *)
Record Task := mkTask {
  id : Z;
  state : TaskState;
  context : TaskContext;
  kernel_stack : Z;
}.

Definition KERNEL_STACK_SIZE : Z := 4096.

Definition with_state (st : TaskState) (t : Task) : Task :=
  mkTask (id t) st (context t) (kernel_stack t).
Definition with_context (c : TaskContext) (t : Task) : Task :=
  mkTask (id t) (state t) c (kernel_stack t).

(** The fields of a [#[repr(C)]] context in memory order. *)
Definition ctx_words (c : TaskContext) : list Z :=
  [r15 c; r14 c; r13 c; r12 c; r11 c; r10 c; r9 c; r8 c; rbp c; rdi c; rsi c; rdx c; rcx c;
   rbx c; rax c; rip c; cs c; rflags c; rsp c; ss c].
Definition words_ctx (w : list Z) : TaskContext :=
  let f i := default 0 (w !! i) in
  {| r15 := f 0%nat; r14 := f 1%nat; r13 := f 2%nat; r12 := f 3%nat; r11 := f 4%nat;
     r10 := f 5%nat; r9 := f 6%nat; r8 := f 7%nat; rbp := f 8%nat; rdi := f 9%nat;
     rsi := f 10%nat; rdx := f 11%nat; rcx := f 12%nat; rbx := f 13%nat; rax := f 14%nat;
     rip := f 15%nat; cs := f 16%nat; rflags := f 17%nat; rsp := f 18%nat; ss := f 19%nat |}.

Section words.
Context {St : Type}.
Fixpoint load_words (p : Z) (n : nat) : M (St * mem) (list Z) :=
  match n with
  | O => mret []
  | S n => w ← load p; ws ← load_words (p + 8) n; mret (w :: ws)
  end.
Fixpoint store_words (p : Z) (ws : list Z) : M (St * mem) () :=
  match ws with
  | [] => mret ()
  | w :: ws => store p w;; store_words (p + 8) ws
  end.
Definition load_ctx (p : Z) : M (St * mem) TaskContext :=
  ws ← load_words p 20; mret (words_ctx ws).
Definition store_ctx (p : Z) (c : TaskContext) : M (St * mem) () := store_words p (ctx_words c).
Definition CS_OFFSET : Z := 8 * 16.
End words.

(** ** [scheduler.rs] *)

(** The heap behind [Box] and [Vec]: [GlobalAlloc::alloc] and [dealloc] for a
    size and an alignment. *)
Class GlobalBox (Hs : Type) := {
  box_alloc : Z -> Z -> M Hs Z;
  box_dealloc : Z -> Z -> Z -> M Hs ();
}.

(** The size of a [Task]: a counter, the state, twenty words of context and a
    pointer, in whole words. *)
Definition TASK_SIZE : Z := 184.

(** The buffer of [Vec<Task>]: its address and how many tasks it can hold. *)
Record RawVec := mkRaw { raw_ptr : Z; raw_cap : Z }.

(** The tasks of the vector and its buffer. *)
Record Scheduler := mkSched {
  tasks : list Task;
  current : nat;
  initialized : bool;
  buffer : RawVec;
}.

Definition Scheduler_new : Scheduler := mkSched [] 0 false (mkRaw 8 0).

Section scheduler.
Context {ck : OverflowChecks}.

Definition kernel_stack_top (t : Task) : outcome Z := add64 (kernel_stack t) KERNEL_STACK_SIZE.

Definition set_tasks (ts : list Task) : M Scheduler () :=
  s ← get; put (mkSched ts (current s) (initialized s) (buffer s)).
Definition set_current (i : nat) : M Scheduler () :=
  s ← get; put (mkSched (tasks s) i (initialized s) (buffer s)).

(** [self.tasks[i].field = ...] *)
Definition update_task (i : nat) (f : Task -> Task) : M Scheduler () :=
  s ← get;
  t ← lift (index (tasks s) i);
  ts ← lift (index_set (tasks s) i (f t));
  set_tasks ts.

(** [RawVec::grow_one]: the first buffer holds four tasks, then it doubles,
    through the default [GlobalAlloc::realloc]; the tasks move with it.  A failed
    allocation panics. *)
Definition grow_tasks {Hs} `{GlobalBox Hs} (v : RawVec) : M Hs RawVec :=
  let cap := Z.max 4 (Z.max (raw_cap v * 2) (raw_cap v + 1)) in
  if 2 ^ 63 - 1 <? TASK_SIZE * cap then panic
  else
    ptr ← (if raw_cap v =? 0 then box_alloc (TASK_SIZE * cap) 8
           else
             new_ptr ← box_alloc (TASK_SIZE * cap) 8;
             if new_ptr =? 0 then mret 0
             else box_dealloc (raw_ptr v) (TASK_SIZE * raw_cap v) 8;; mret new_ptr);
    if ptr =? 0 then panic else mret (mkRaw ptr cap).

(** [self.tasks.push(task)] *)
Definition add_task {Hs} `{GlobalBox Hs} (t : Task) : M (Scheduler * Hs) () := fun '(s, h) =>
  match (if Z.of_nat (length (tasks s)) =? raw_cap (buffer s) then grow_tasks (buffer s) else mret (buffer s)) h with
  | Ret (v, h') => Ret ((), (mkSched (tasks s ++ [t]) (current s) (initialized s) v, h'))
  | Panic => Panic | Undef => Undef | Hang => Hang | OutOfFuel => OutOfFuel
  end.
Definition task_count (s : Scheduler) : nat := length (tasks s).
Definition is_initialized (s : Scheduler) : bool := initialized s.

Definition start : M Scheduler () :=
  s ← get;
  match tasks s with
  | [] => mret ()
  | _ =>
      update_task 0 (with_state Running);;
      s ← get;
      put (mkSched (tasks s) (current s) true (buffer s))
  end.

Definition of_current {A} (s : Scheduler) (f : Task -> outcome A) : outcome (option A) :=
  match tasks s with
  | [] => Ret None
  | _ => t ← index (tasks s) (current s); a ← f t; Ret (Some a)
  end.
Definition current_context (s : Scheduler) : outcome (option TaskContext) :=
  of_current s (fun t => Ret (context t)).
Definition current_kernel_stack_top (s : Scheduler) : outcome (option Z) :=
  of_current s kernel_stack_top.
Definition current_task_id (s : Scheduler) : outcome (option Z) :=
  of_current s (fun t => Ret (id t)).

(** The old and the new context, as indices, and the new kernel stack. *)
Definition schedule : M Scheduler (option (nat * nat * Z)) :=
  s ← get;
  if (length (tasks s) <? 2)%nat then mret None
  else
    update_task (current s) (with_state Ready);;
    let old_context := current s in
    set_current ((current s + 1) mod length (tasks s));;
    s ← get;
    update_task (current s) (with_state Running);;
    let new_context := current s in
    s ← get;
    t ← lift (index (tasks s) (current s));
    new_kernel_stack ← lift (kernel_stack_top t);
    mret (Some (old_context, new_context, new_kernel_stack)).

(** ** [switch.rs] *)

(** The kernel state these functions share: [SCHEDULER] and its lock,
    [TSS_RSP0_PTR], and the devices. *)
Record kernel := mkKernel {
  scheduler : Scheduler;
  sched_locked : bool;
  tss_rsp0_ptr : Z;
  dev : devices;
}.

Abbreviation R := (M (kernel * mem)).

Definition on_dev {A} (c : M devices A) : R A := fun '(k, m) =>
  match c (dev k) with
  | Ret (a, d) => Ret (a, (mkKernel (scheduler k) (sched_locked k) (tss_rsp0_ptr k) d, m))
  | Panic => Panic | Undef => Undef | Hang => Hang | OutOfFuel => OutOfFuel
  end.
Definition on_sched {A} (c : M Scheduler A) : R A := fun '(k, m) =>
  match c (scheduler k) with
  | Ret (a, s) => Ret (a, (mkKernel s (sched_locked k) (tss_rsp0_ptr k) (dev k), m))
  | Panic => Panic | Undef => Undef | Hang => Hang | OutOfFuel => OutOfFuel
  end.

(** [SCHEDULER.lock()]: spins for ever when the interrupted code holds it. *)
Definition lock : R () :=
  k ← get_self;
  if sched_locked k then hang
  else put_self (mkKernel (scheduler k) true (tss_rsp0_ptr k) (dev k)).
Definition unlock : R () :=
  k ← get_self; put_self (mkKernel (scheduler k) false (tss_rsp0_ptr k) (dev k)).

(** [if !TSS_RSP0_PTR.is_null() { *TSS_RSP0_PTR = top }] *)
Definition set_rsp0 (top : Z) : R () :=
  k ← get_self;
  when (negb (tss_rsp0_ptr k =? 0)) (store (tss_rsp0_ptr k) top).

Definition timer_tick (context_ptr : Z) : R () :=
  cs ← load (context_ptr + CS_OFFSET);
  let from_usermode := Z.land cs 3 =? 3 in
  lock;;
  k ← get_self;
  if negb (is_initialized (scheduler k)) then
    on_dev (serial_print [Text (if from_usermode then "u" else ".")]);;
    unlock;;
    on_dev end_interrupt
  else
    task_id ← lift (current_task_id (scheduler k));
    (match task_id with Some n => on_dev (serial_print [Dec n]) | None => mret () end);;
    next ← on_sched schedule;
    (match next with
     | Some (old_ctx, new_ctx, new_kernel_stack) =>
         ctx ← load_ctx context_ptr;
         on_sched (update_task old_ctx (with_context ctx));;
         k ← get_self;
         t ← lift (index (tasks (scheduler k)) new_ctx);
         store_ctx context_ptr (context t);;
         set_rsp0 new_kernel_stack
     | None => mret ()
     end);;
    unlock;;
    on_dev end_interrupt.

Definition timer_tick_c (args : list Z) : R Z :=
  timer_tick (default 0 (args !! 0%nat));; mret 0.

(** The registers in the order [timer_interrupt_entry] pushes them. *)
Definition PUSHED : list reg :=
  [RAX; RBX; RCX; RDX; RSI; RDI; RBP; R8; R9; R10; R11; R12; R13; R14; R15].

Definition timer_interrupt_entry : list (instr kernel) :=
  [push RAX; push RBX; push RCX; push RDX; push RSI; push RDI; push RBP; push R8; push R9;
   push R10; push R11; push R12; push R13; push R14; push R15;
   mov RDI RSP;
   call timer_tick_c;
   pop R15; pop R14; pop R13; pop R12; pop R11; pop R10; pop R9; pop R8; pop RBP; pop RDI;
   pop RSI; pop RDX; pop RCX; pop RBX; pop RAX;
   iretq].

(** [switch_to_first_task]: the Rust part, and the assembly it ends in. *)
Definition first_task_context : R TaskContext :=
  lock;;
  k ← get_self;
  ctx ← lift (current_context (scheduler k));
  match ctx with
  | None => panic
  | Some ctx =>
      top ← lift (current_kernel_stack_top (scheduler k));
      match top with
      | None => panic
      | Some top => set_rsp0 top;; unlock;; mret ctx
      end
  end.

Definition first_task_asm (c : TaskContext) : list (instr kernel) :=
  [mov_val DS (ss c); mov_val ES (ss c); mov_val FS (ss c); mov_val GS (ss c);
   push_val (ss c); push_val (rsp c); push_val (rflags c); push_val (cs c); push_val (rip c);
   iretq].

Definition switch_to_first_task `{CalleeFrame} : M ((regfile * kernel) * mem) () :=
  fun '((c, k), m) =>
    match first_task_context (k, m) with
    | Ret (ctx, (k', m')) => exec_all (first_task_asm ctx) ((c, k'), m')
    | Panic => Panic | Undef => Undef | Hang => Hang | OutOfFuel => OutOfFuel
    end.
End scheduler.
