(* ===== verification/TasksProofs.v ===== *)
(** * The context switch, step by step

    The effect of [schedule], [timer_tick] and [timer_interrupt_entry] of
    [kernel/src/tasks/] on the scheduler and the registers, against the
    abstract tick: save the running context, advance round robin, load the
    next context. *)
From stdpp Require Import strings.
From S2P Require Import Prelude Machine Cpu Drivers Gdt Tasks.

(** ** The abstract scheduler *)

Definition next_index (s : Scheduler) : nat := ((current s + 1) mod length (tasks s))%nat.

(** One timer tick with the running task at context [c]: the context to resume
    and the new scheduler. *)
Definition tick (c : TaskContext) (s : Scheduler) : TaskContext * Scheduler :=
  if decide (2 <= length (tasks s))%nat then
    let ts := alter (with_context c) (current s) (tasks s) in
    let ts := alter (with_state Ready) (current s) ts in
    let ts := alter (with_state Running) (next_index s) ts in
    (default c (context <$> ts !! next_index s), mkSched ts (next_index s) (initialized s) (buffer s))
  else (c, s).

(** A stack whose top is a machine address. *)
Definition task_ok (t : Task) : Prop :=
  0 <= kernel_stack t /\ kernel_stack t + KERNEL_STACK_SIZE < U64_LIM.

Record sched_wf (s : Scheduler) : Prop := {
  sw_current : (current s < length (tasks s))%nat;
  sw_tasks : Forall task_ok (tasks s);
}.

Lemma next_index_lt s : (current s < length (tasks s))%nat -> (next_index s < length (tasks s))%nat.
Proof. intros. apply Nat.mod_upper_bound. lia. Qed.

Lemma next_index_ne s :
  (current s < length (tasks s))%nat -> (2 <= length (tasks s))%nat -> next_index s <> current s.
Proof.
  intros H1 H2. unfold next_index. destruct (decide (current s + 1 = length (tasks s))%nat) as [E|E].
  - rewrite E, Nat.Div0.mod_same. lia.
  - rewrite Nat.mod_small by lia. lia.
Qed.

Lemma tick_current c s :
  (2 <= length (tasks s))%nat -> current (tick c s).2 = next_index s.
Proof. intros. unfold tick. by rewrite decide_True. Qed.

Lemma tick_length c s : length (tasks (tick c s).2) = length (tasks s).
Proof. unfold tick. case_decide; simpl; [by rewrite !length_alter|done]. Qed.

Lemma context_alter_state st (l : list Task) i j :
  context <$> alter (with_state st) i l !! j = context <$> l !! j.
Proof. rewrite list_lookup_alter. case_decide; [subst|done]. by destruct (l !! j). Qed.

(** Only the preempted task's context changes. *)
Lemma tick_context c s i :
  (2 <= length (tasks s))%nat ->
  context <$> tasks (tick c s).2 !! i =
    if decide (i = current s) then (fun _ => c) <$> tasks s !! i else context <$> tasks s !! i.
Proof.
  intros Hn. unfold tick. rewrite decide_True by done. simpl.
  rewrite !context_alter_state, list_lookup_alter.
  repeat case_decide; subst; try done. by destruct (tasks s !! _).
Qed.

Lemma tick_resume c s :
  sched_wf s -> (2 <= length (tasks s))%nat ->
  exists t, tasks s !! next_index s = Some t /\ (tick c s).1 = context t.
Proof.
  intros [Hc _] Hn. destruct (lookup_lt_is_Some_2 (tasks s) (next_index s)) as [t Ht];
    [by apply next_index_lt|]. exists t. split; [done|]. unfold tick. rewrite decide_True by done. simpl.
  rewrite list_lookup_alter_eq, list_lookup_alter_ne, list_lookup_alter_ne, Ht
    by (by apply not_eq_sym, next_index_ne). done.
Qed.

Lemma tick_wf c s : sched_wf s -> sched_wf (tick c s).2.
Proof.
  intros [Hc Ht]. unfold tick. case_decide; [|done]. constructor; simpl.
  - rewrite !length_alter. by apply next_index_lt.
  - repeat apply Forall_alter; try done; intros; by unfold task_ok in *.
Qed.

(** ** Blocks of words *)

Lemma words_ctx_words c : words_ctx (ctx_words c) = c.
Proof. by destruct c. Qed.

Section code.
Context {ck : OverflowChecks}.

Lemma run_load_words {St} ws p (s : St) m :
  words_at m p ws -> 0 < p -> p + 8 * Z.of_nat (length ws) < U64_LIM -> p mod 8 = 0 ->
  load_words p (length ws) (s, m) = Ret (ws, (s, m)).
Proof.
  revert p. induction ws as [|w ws IH]; intros p Hw Hp Hl Ha; [done|].
  cbn [length load_words words_at] in *. destruct Hw as [Hw Hws].
  run (run_load p s m ltac:(by split; [lia|])).
  assert (load_words (p + 8) (length ws) (s, m) = Ret (ws, (s, m))) as E.
  { apply IH; [done|lia|lia|]. replace (p + 8) with (p + 1 * 8) by lia. by rewrite Z.mod_add. }
  run E. by rewrite Hw.
Qed.

Lemma run_store_words {St} ws p (s : St) m :
  0 < p -> p + 8 * Z.of_nat (length ws) < U64_LIM -> p mod 8 = 0 ->
  exists m', store_words p ws (s, m) = Ret ((), (s, m')) /\ words_at m' p ws /\
    mem_frame (fun a => p <= a < p + 8 * Z.of_nat (length ws)) m m'.
Proof.
  revert p m. induction ws as [|w ws IH]; intros p m Hp Hl Ha; [by exists m|].
  cbn [length store_words words_at] in *.
  destruct (IH (p + 8) (<[p := w]> m)) as (m' & E & Hw & Hf); [lia|lia| |].
  { replace (p + 8) with (p + 1 * 8) by lia. by rewrite Z.mod_add. }
  exists m'. run (run_store p w s m ltac:(by split; [lia|])). split_and!; [done| |done|].
  - rewrite (mem_frame_rd _ _ _ _ Hf) by lia. apply rd_insert_eq.
  - eapply mem_frame_trans; [|eapply mem_frame_mono; [|exact Hf]].
    + apply mem_frame_insert. lia.
    + simpl. intros a. lia.
Qed.

(** ** [schedule] *)

Lemma run_update_task i f s t :
  tasks s !! i = Some t ->
  update_task i f s = Ret ((), mkSched (alter f i (tasks s)) (current s) (initialized s) (buffer s)).
Proof.
  intros Ht. unfold update_task. run (run_get s). run (run_lift _ s _ (index_ok _ _ _ Ht)).
  run (run_lift _ s _ (index_set_ok _ i (f t) (lookup_lt_Some _ _ _ Ht))).
  replace (alter f i (tasks s)) with (<[i := f t]> (tasks s)); [done|].
  rewrite list_insert_alter. apply list_alter_ext; [|done]. intros. by simplify_eq.
Qed.

Lemma schedule_none s : (length (tasks s) < 2)%nat -> schedule s = Ret (None, s).
Proof.
  intros Hn. unfold schedule. run (run_get s). by rewrite (proj2 (Nat.ltb_lt _ _)) by lia.
Qed.

(** The state changes of [schedule]; the contexts are exchanged by its caller. *)
Definition switched (s : Scheduler) : Scheduler :=
  mkSched (alter (with_state Running) (next_index s) (alter (with_state Ready) (current s) (tasks s)))
    (next_index s) (initialized s) (buffer s).

Lemma schedule_some s t :
  sched_wf s -> (2 <= length (tasks s))%nat -> tasks s !! next_index s = Some t ->
  schedule s = Ret (Some (current s, next_index s, kernel_stack t + KERNEL_STACK_SIZE), switched s).
Proof.
  intros [Hc Hall] Hn Ht. unfold schedule. run (run_get s).
  rewrite (proj2 (Nat.ltb_ge _ _)) by lia.
  destruct (lookup_lt_is_Some_2 (tasks s) (current s) Hc) as [t0 Ht0].
  run (run_update_task (current s) (with_state Ready) s t0 Ht0). cbv zeta.
  set (ts1 := alter (with_state Ready) (current s) (tasks s)).
  assert (set_current ((current s + 1) mod length (tasks s)) (mkSched ts1 (current s) (initialized s) (buffer s))
    = Ret ((), mkSched ts1 (next_index s) (initialized s) (buffer s))) as E by done. run E.
  run (run_get (mkSched ts1 (next_index s) (initialized s) (buffer s))). simpl.
  assert (ts1 !! next_index s = Some t) as Ht1.
  { unfold ts1. rewrite list_lookup_alter_ne by (by apply not_eq_sym, next_index_ne). done. }
  run (run_update_task (next_index s) (with_state Running)
         (mkSched ts1 (next_index s) (initialized s) (buffer s)) t Ht1). simpl. fold (switched s).
  run (run_get (switched s)). unfold switched at 1 2. simpl.
  assert (alter (with_state Running) (next_index s) ts1 !! next_index s
          = Some (with_state Running t)) as Ht2 by (by rewrite list_lookup_alter_eq, Ht1).
  run (run_lift _ (switched s) _ (index_ok _ _ _ Ht2)).
  assert (kernel_stack_top (with_state Running t) = Ret (kernel_stack t + KERNEL_STACK_SIZE)) as Hk.
  { apply add64_ok. simpl. destruct (proj1 (Forall_lookup _ _) Hall _ _ Ht). unfold KERNEL_STACK_SIZE in *. lia. }
  by run (run_lift _ (switched s) _ Hk).
Qed.

(** ** [timer_tick] *)

Definition with_sched (s : Scheduler) (k : kernel) : kernel :=
  mkKernel s (sched_locked k) (tss_rsp0_ptr k) (dev k).

Lemma run_on_sched {A} (c : M Scheduler A) k m a s' :
  c (scheduler k) = Ret (a, s') -> on_sched c (k, m) = Ret (a, (with_sched s' k, m)).
Proof. intros Hc. unfold on_sched. by rewrite Hc. Qed.
Lemma run_on_dev {A} (c : M devices A) k m a d' :
  c (dev k) = Ret (a, d') ->
  on_dev c (k, m) = Ret (a, (mkKernel (scheduler k) (sched_locked k) (tss_rsp0_ptr k) d', m)).
Proof. intros Hc. unfold on_dev. by rewrite Hc. Qed.

Lemma run_lock k m : sched_locked k = false ->
  lock (k, m) = Ret ((), (mkKernel (scheduler k) true (tss_rsp0_ptr k) (dev k), m)).
Proof. intros Hl. unfold lock. run (run_get_self k m). by rewrite Hl. Qed.
Lemma lock_held k m : sched_locked k = true -> lock (k, m) = Hang.
Proof. intros Hl. unfold lock. run (run_get_self k m). by rewrite Hl. Qed.

(** Saving the context after [schedule] gives the abstract tick. *)
Lemma tick_switched c s :
  sched_wf s -> (2 <= length (tasks s))%nat ->
  (tick c s).2 = mkSched (alter (with_context c) (current s) (tasks (switched s)))
                   (next_index s) (initialized s) (buffer s).
Proof.
  intros [Hc _] Hn. unfold tick. rewrite decide_True by done. simpl. f_equal.
  rewrite (list_alter_alter_ne (with_context c)) by (by apply not_eq_sym, next_index_ne).
  f_equal. rewrite !list_alter_alter_eq. by apply list_alter_ext.
Qed.

(** The state in which a tick can run: nobody holds the scheduler's lock, the
    console is up, the scheduler is started. *)
Record tick_ready (k : kernel) : Prop := {
  tr_unlocked : sched_locked k = false;
  tr_serial : serial_ready (dev k) = true;
  tr_started : initialized (scheduler k) = true;
  tr_sched : sched_wf (scheduler k);
}.

(** [TSS_RSP0_PTR] is null or points to a word outside the area [A]. *)
Definition rsp0_ok (k : kernel) (A : Z -> Prop) : Prop :=
  tss_rsp0_ptr k = 0 \/ (valid_ptr (tss_rsp0_ptr k) /\ ~ A (tss_rsp0_ptr k)).

(** The devices after a tick: the task's id printed, the interrupt acknowledged. *)
Definition ticked_dev (k : kernel) (t : Task) : devices :=
  mkDev true (console (dev k) ++ [Dec (id t)]) (lapic_address (dev k))
    (mmio (dev k) ++ [(lapic_address (dev k) + 0xB0, 0)]).

(** The kernel after a tick that preempted context [c]. *)
Definition ticked (c : TaskContext) (t : Task) (k : kernel) : kernel :=
  mkKernel (tick c (scheduler k)).2 false (tss_rsp0_ptr k) (ticked_dev k t).

Lemma run_set_rsp0 k m top A :
  rsp0_ok k A ->
  exists m', set_rsp0 top (k, m) = Ret ((), (k, m')) /\
    mem_frame (fun a => a = tss_rsp0_ptr k /\ tss_rsp0_ptr k <> 0) m m' /\
    (tss_rsp0_ptr k <> 0 -> rd m' (tss_rsp0_ptr k) = top).
Proof.
  intros Hok. unfold set_rsp0. run (run_get_self k m).
  destruct (Z.eqb_spec (tss_rsp0_ptr k) 0) as [E|E]; simpl.
  - exists m. split_and!; [done..|]. by intros.
  - destruct Hok as [?|[Hp _]]; [done|]. exists (<[tss_rsp0_ptr k := top]> m). split_and!.
    + by apply run_store.
    + by apply mem_frame_insert.
    + intros _. apply rd_insert_eq.
Qed.

(** The block of 20 words of the context at [p]. *)
Definition ctx_area (p a : Z) : Prop := p <= a < p + 160.

Record ctx_at (m : mem) (p : Z) (c : TaskContext) : Prop := {
  ca_words : words_at m p (ctx_words c);
  ca_low : 0 < p;
  ca_high : p + 160 < U64_LIM;
  ca_align : p mod 8 = 0;
}.

Lemma run_load_ctx {St} m p c (s : St) : ctx_at m p c -> load_ctx p (s, m) = Ret (c, (s, m)).
Proof.
  intros []. unfold load_ctx. change 20%nat with (length (ctx_words c)).
  run (run_load_words (ctx_words c) p s m ltac:(done) ltac:(done) ltac:(done) ltac:(done)).
  by rewrite words_ctx_words.
Qed.

Lemma run_store_ctx {St} m p c c' (s : St) :
  ctx_at m p c ->
  exists m', store_ctx p c' (s, m) = Ret ((), (s, m')) /\ ctx_at m' p c' /\
    mem_frame (ctx_area p) m m'.
Proof.
  intros []. destruct (run_store_words (ctx_words c') p s m) as (m' & E & Hw & Hf); [done..|].
  exists m'. split_and!; [done|by constructor|]. eapply mem_frame_mono; [|exact Hf].
  simpl. unfold ctx_area. lia.
Qed.

Lemma ctx_at_frame P m m' p c :
  ctx_at m p c -> mem_frame P m m' -> (forall a, ctx_area p a -> ~ P a) -> ctx_at m' p c.
Proof.
  intros [] Hf HP. constructor; try done. eapply words_at_frame; [done| |done].
  simpl. intros a Ha. apply HP. unfold ctx_area. lia.
Qed.

Lemma ctx_at_cs m p c : ctx_at m p c -> valid_ptr (p + CS_OFFSET) /\ rd m (p + CS_OFFSET) = cs c.
Proof.
  intros [Hw ? ? Ha]. split.
  - split; [unfold CS_OFFSET; lia|]. unfold CS_OFFSET.
    replace (p + 8 * 16) with (p + 16 * 8) by lia. by rewrite Z.mod_add.
  - change (ctx_words c) with (take 16 (ctx_words c) ++ [cs c; rflags c; rsp c; ss c]) in Hw.
    apply words_at_app in Hw as [_ [Hw _]]. exact Hw.
Qed.

(** The part of [timer_tick] that exchanges the contexts. *)
Definition switch_contexts (p : Z) (next : option (nat * nat * Z)) : M (kernel * mem) () :=
  match next with
  | Some (old_ctx, new_ctx, new_kernel_stack) =>
      ctx ← load_ctx p;
      on_sched (update_task old_ctx (with_context ctx));;
      k ← get_self;
      t ← lift (index (tasks (scheduler k)) new_ctx);
      store_ctx p (context t);;
      set_rsp0 new_kernel_stack
  | None => mret ()
  end.

(** Memory a tick may write: the context block, and the RSP0 slot. *)
Definition tick_area (p : Z) (k : kernel) (a : Z) : Prop :=
  ctx_area p a \/ (a = tss_rsp0_ptr k /\ tss_rsp0_ptr k <> 0).

Lemma run_switch k m p c :
  sched_wf (scheduler k) -> ctx_at m p c -> rsp0_ok k (ctx_area p) ->
  exists m',
    (next ← on_sched schedule; switch_contexts p next) (k, m) =
      Ret ((), (with_sched (tick c (scheduler k)).2 k, m')) /\
    ctx_at m' p (tick c (scheduler k)).1 /\ mem_frame (tick_area p k) m m'.
Proof.
  intros Hwf Hctx Hrsp. set (s := scheduler k) in *.
  destruct (decide (2 <= length (tasks s))%nat) as [Hn|Hn].
  2: { exists m. run (run_on_sched schedule k m _ _ (schedule_none s ltac:(lia))).
       unfold tick. rewrite decide_False by done. destruct k. by split_and!. }
  destruct (tick_resume c s Hwf Hn) as (t & Ht & Hres).
  run (run_on_sched schedule k m _ _ (schedule_some s t Hwf Hn Ht)).
  cbn [switch_contexts]. set (k1 := with_sched (switched s) k).
  run (run_load_ctx m p c k1 Hctx).
  pose proof (sw_current _ Hwf) as Hc.
  destruct (lookup_lt_is_Some_2 (tasks (switched s)) (current s)) as [t0 Ht0];
    [simpl; by rewrite !length_alter|].
  run (run_on_sched _ k1 m _ _ (run_update_task (current s) (with_context c) (switched s) t0 Ht0)).
  simpl current. simpl initialized. simpl buffer. rewrite <- (tick_switched c s Hwf Hn).
  change (with_sched (tick c s).2 k1) with (with_sched (tick c s).2 k).
  set (k2 := with_sched (tick c s).2 k). run (run_get_self k2 m).
  assert (tasks (tick c s).2 !! next_index s = Some (with_state Running t)) as Ht2.
  { rewrite tick_switched by done. simpl.
    rewrite list_lookup_alter_ne by (by apply not_eq_sym, next_index_ne).
    rewrite list_lookup_alter_eq, list_lookup_alter_ne by (by apply not_eq_sym, next_index_ne).
    by rewrite Ht. }
  run (run_lift _ (k2, m) _ (index_ok (tasks (scheduler k2)) _ _ Ht2)). simpl context.
  destruct (run_store_ctx m p c (context t) k2 Hctx) as (m1 & E1 & Hctx1 & Hf1). run E1.
  destruct (run_set_rsp0 k2 m1 (kernel_stack t + KERNEL_STACK_SIZE) (ctx_area p) Hrsp)
    as (m2 & E2 & Hf2 & _).
  exists m2. split_and!; [done| |].
  - rewrite Hres. eapply ctx_at_frame; [done..|]. intros a Ha [-> Hne].
    destruct Hrsp as [|[_ Hno]]; done.
  - eapply mem_frame_trans; (eapply mem_frame_mono; [|eassumption]); unfold tick_area; simpl; tauto.
Qed.

(** [timer_tick] on a started scheduler is the abstract tick. *)
Lemma run_timer_tick k m p c t :
  tick_ready k -> tasks (scheduler k) !! current (scheduler k) = Some t ->
  ctx_at m p c -> rsp0_ok k (ctx_area p) ->
  exists m', timer_tick p (k, m) = Ret ((), (ticked c t k, m')) /\
    ctx_at m' p (tick c (scheduler k)).1 /\ mem_frame (tick_area p k) m m'.
Proof.
  intros [Hul Hser Hst Hwf] Ht Hctx Hrsp. destruct (ctx_at_cs _ _ _ Hctx) as [Hcs _].
  unfold timer_tick. run (run_load _ k m Hcs). cbv zeta.
  set (k1 := mkKernel (scheduler k) true (tss_rsp0_ptr k) (dev k)).
  run (run_lock k m Hul). run (run_get_self k1 m). simpl. unfold is_initialized. rewrite Hst. simpl.
  assert (current_task_id (scheduler k) = Ret (Some (id t))) as E2.
  { unfold current_task_id, of_current. destruct (tasks (scheduler k)); [done|].
    by rewrite (index_ok _ _ _ Ht). }
  run (run_lift _ (k1, m) _ E2). run (run_on_dev _ k1 m _ _ (run_serial_print [Dec (id t)] _ Hser)).
  set (k2 := mkKernel _ _ _ _).
  destruct (run_switch k2 m p c Hwf Hctx Hrsp) as (m' & E3 & Hctx' & Hf).
  apply run_bind_inv in E3 as (next & [k3 m3] & E4 & E5). run E4.
  change (match next with Some _ => _ | None => _ end) with (switch_contexts p next).
  run E5. exists m'. split_and!; done.
Qed.
End code.
