(* ===== verification/SwitchProofs.v ===== *)
(** * The timer interrupt, from delivery to return

    [timer_interrupt_entry] of [kernel/src/tasks/switch.rs]: what the pushes
    leave on the stack is a [TaskContext], and the pops and [iretq] load the
    context that [timer_tick] put there. *)
From stdpp Require Import strings.
From S2P Require Import Prelude Machine Cpu Drivers Gdt Tasks TasksProofs.

(** The registers of a processor as a context. *)
Definition ctx_of (c : regfile) : TaskContext :=
  {| r15 := c R15; r14 := c R14; r13 := c R13; r12 := c R12; r11 := c R11; r10 := c R10;
     r9 := c R9; r8 := c R8; rbp := c RBP; rdi := c RDI; rsi := c RSI; rdx := c RDX;
     rcx := c RCX; rbx := c RBX; rax := c RAX; rip := c RIP; cs := c CS; rflags := c RFLAGS;
     rsp := c RSP; ss := c SS |}.

(** A context as [iretq] loads it: the reserved flag bits are fixed. *)
Definition iret_ctx (x : TaskContext) : TaskContext :=
  {| r15 := r15 x; r14 := r14 x; r13 := r13 x; r12 := r12 x; r11 := r11 x; r10 := r10 x;
     r9 := r9 x; r8 := r8 x; rbp := rbp x; rdi := rdi x; rsi := rsi x; rdx := rdx x;
     rcx := rcx x; rbx := rbx x; rax := rax x; rip := rip x; cs := cs x;
     rflags := iret_flags (rflags x); rsp := rsp x; ss := ss x |}.

(** The registers a context switch does not touch. *)
Definition system_regs : list reg := [DS; ES; FS; GS; MSR_STAR; MSR_LSTAR; MSR_SFMASK].

(** The stack pointer at which an interrupt frame ends. *)
Definition entry_sp (rsp0 : Z) (c : regfile) : Z :=
  Z.land (if Z.land (c CS) 3 =? 3 then rsp0 else c RSP) (not64 15).

Lemma land_not15 x : is_u64 x -> Z.land x (not64 15) = x / 16 * 16.
Proof. apply (land_not_ones x 4). lia. Qed.

Lemma entry_sp_aligned rsp0 c : is_u64 rsp0 -> is_u64 (c RSP) -> entry_sp rsp0 c mod 16 = 0.
Proof.
  intros H1 H2. unfold entry_sp. case_match; rewrite land_not15 by done; apply Z.mod_mul; lia.
Qed.

Lemma mod16_mod8 x : x mod 16 = 0 -> x mod 8 = 0.
Proof. intros H%Z.mod_divide; [|lia]. destruct H as [q ->]. replace (q * 16) with (q * 2 * 8) by lia.
  apply Z.mod_mul. lia. Qed.

Lemma stack_room_sub hi n i :
  stack_room hi n -> 0 <= i < n -> stack_room (hi - 8 * i) (n - i).
Proof.
  intros (H1 & H2 & H3) Hi. split_and!; [lia|lia|].
  replace (hi - 8 * i) with (hi + (- i) * 8) by lia. by rewrite Z.mod_add.
Qed.

Section switch.
Context {ck : OverflowChecks} `{CalleeFrameLaws}.

(** Delivery pushes the interrupted RIP, CS, RFLAGS, RSP and SS. *)
Lemma deliver_run {K} rsp0 kcs h c (k : K) m :
  stack_room (entry_sp rsp0 c) 5 ->
  exists c' m', deliver rsp0 kcs h ((c, k), m) = Ret ((), ((c', k), m')) /\
    c' RSP = entry_sp rsp0 c - 40 /\
    words_at m' (c' RSP) [c RIP; c CS; c RFLAGS; c RSP; c SS] /\
    (forall r, r ∉ [RIP; CS; RFLAGS; RSP; SS] -> c' r = c r) /\
    mem_frame (fun a => c' RSP <= a < entry_sp rsp0 c) m m'.
Proof.
  intros Hroom. unfold deliver. run (run_get_regs c k m). cbv zeta. fold (entry_sp rsp0 c).
  set (sp := entry_sp rsp0 c) in *. set (c1 := wr RSP sp c). run (run_put_regs c c1 k m).
  assert (c1 RSP = sp) as Hsp by apply wr_eq.
  destruct (exec_push_vals [c SS; c RSP; c RFLAGS; c CS; c RIP] c1 k m)
    as (c2 & m2 & E & Hc2 & Hbut & Hw & Hf); [by rewrite Hsp|].
  run E. run (run_get_regs c2 k m2). rewrite Hsp in *.
  eexists _, m2. split; [apply run_put_regs|]. rewrite !(wr_ne _ RSP) by done.
  split_and!; [simpl in Hc2; lia|done| |done].
  intros r Hr. rewrite !wr_ne by set_solver. rewrite Hbut by set_solver.
  unfold c1. by rewrite wr_ne by set_solver.
Qed.

Lemma entry_code :
  timer_interrupt_entry =
    (push <$> PUSHED) ++ [mov RDI RSP; call timer_tick_c] ++ (pop <$> reverse PUSHED) ++ [iretq].
Proof. reflexivity. Qed.

(** The general-purpose registers of a context, in the order they are popped. *)
Definition popped_words (x : TaskContext) : list Z := take 15 (ctx_words x).

(** After the pops and [iretq] the processor runs the context on the stack. *)
Lemma resume_run c (k : kernel) m p x :
  ctx_at m p x -> c RSP = p ->
  exists c', exec_all ((pop <$> reverse PUSHED) ++ [iretq]) ((c, k), m) = Ret ((), ((c', k), m)) /\
    ctx_of c' = iret_ctx x /\ (forall r, r ∈ system_regs -> c' r = c r).
Proof.
  intros [Hw Hlo Hhi Hal] Hp.
  change (ctx_words x) with (popped_words x ++ [rip x; cs x; rflags x; rsp x; ss x]) in Hw.
  apply words_at_app in Hw as [Hw1 Hw2].
  destruct (exec_pops (reverse PUSHED) (popped_words x) c k m) as (c1 & E1 & Hsp1 & Hr1 & Hk1);
    [by_decide|by_decide
    |done|by rewrite Hp|lia|simpl; lia|by rewrite Hp|].
  rewrite (exec_all_app _ _ _ _ E1). rewrite Hp in Hsp1.
  change (8 * Z.of_nat (length (reverse PUSHED))) with 120 in Hsp1.
  change (8 * Z.of_nat (length (popped_words x))) with 120 in Hw2.
  destruct (exec_iretq (rip x) (cs x) (rflags x) (rsp x) (ss x) c1 k m)
    as (c2 & E2 & I1 & I2 & I3 & I4 & I5 & I6);
    [by rewrite Hsp1|lia|lia| |].
  { rewrite Hsp1. replace (p + 120) with (p + 15 * 8) by lia. by rewrite Z.mod_add. }
  cbn [exec_all]. run E2. exists c2. split_and!; [done| |].
  - unfold popped_words in Hr1. injection Hr1 as ? ? ? ? ? ? ? ? ? ? ? ? ? ? ?.
    unfold ctx_of, iret_ctx. rewrite I1, I2, I3, I4, I5, !I6 by set_solver. f_equal; done.
  - intros r Hr. rewrite I6 by set_solver. apply Hk1; set_solver.
Qed.

(** The area of the stack an interrupt may use. *)
Definition stack_area (sp a : Z) : Prop := sp - 168 - frame_size <= a < sp.

(** Delivery and the pushes save the interrupted registers as a context. *)
Lemma save_run rsp0 kcs h c (k : kernel) m :
  let sp := entry_sp rsp0 c in
  0 < sp - 160 -> sp < U64_LIM -> sp mod 8 = 0 ->
  exists c' m',
    (deliver rsp0 kcs h;; exec_all (push <$> PUSHED)) ((c, k), m) = Ret ((), ((c', k), m')) /\
    c' RSP = sp - 160 /\ ctx_at m' (sp - 160) (ctx_of c) /\
    (forall r, r ∈ system_regs -> c' r = c r) /\
    mem_frame (fun a => sp - 160 <= a < sp) m m'.
Proof.
  intros sp Hlo Hhi Hal.
  destruct (deliver_run rsp0 kcs h c k m) as (c1 & m1 & E1 & Hsp1 & Hw1 & Hk1 & Hf1);
    [split_and!; fold sp; lia|]. fold sp in Hsp1, Hf1. run E1.
  assert (stack_room (c1 RSP) 15) as Hroom.
  { rewrite Hsp1. replace (sp - 40) with (sp - 8 * 5) by lia. apply (stack_room_sub sp 20); [|lia].
    split_and!; lia. }
  destruct (exec_pushes PUSHED c1 k m1) as (c2 & m2 & E2 & Hsp2 & Hbut2 & Hw2 & Hf2);
    [by_decide|exact Hroom|].
  change (8 * Z.of_nat (length PUSHED)) with 120 in Hsp2.
  exists c2, m2. assert (c2 RSP = sp - 160) as Hp by lia. split_and!; [done|done| | |].
  - constructor; [|lia|lia|].
    2: { replace (sp - 160) with (sp + (-20) * 8) by lia. by rewrite Z.mod_add. }
    change (ctx_words (ctx_of c)) with
      (reverse (c <$> PUSHED) ++ [c RIP; c CS; c RFLAGS; c RSP; c SS]).
    apply words_at_app. split.
    + rewrite <- Hp. replace (c <$> PUSHED) with (c1 <$> PUSHED); [done|].
      apply list_fmap_ext. intros i r Hr%list_elem_of_lookup_2. apply Hk1. set_solver.
    + change (8 * Z.of_nat (length (reverse (c <$> PUSHED)))) with 120.
      replace (sp - 160 + 120) with (c1 RSP) by lia.
      eapply words_at_frame; [exact Hf2| |exact Hw1]. simpl. intros a. lia.
  - intros r Hr. rewrite Hbut2 by set_solver. apply Hk1. set_solver.
  - eapply mem_frame_trans; (eapply mem_frame_mono; [|eassumption]); simpl; lia.
Qed.

(** The call of [timer_tick] replaces the context on the stack by the next one. *)
Lemma tick_run c k m sp x t :
  c RSP = sp - 160 -> ctx_at m (sp - 160) x -> 0 < sp - 168 -> sp mod 16 = 0 ->
  tick_ready k -> tasks (scheduler k) !! current (scheduler k) = Some t ->
  rsp0_ok k (stack_area sp) ->
  exists c' m',
    exec_all [mov RDI RSP; call timer_tick_c] ((c, k), m) = Ret ((), ((c', ticked x t k), m')) /\
    c' RSP = sp - 160 /\ ctx_at m' (sp - 160) (tick x (scheduler k)).1 /\
    (forall r, r ∈ system_regs -> c' r = c r) /\
    mem_frame (fun a => stack_area sp a \/ (a = tss_rsp0_ptr k /\ tss_rsp0_ptr k <> 0)) m m'.
Proof.
  intros Hp Hctx Hlo Hal Hready Ht Hrsp. pose proof frame_size_pos as Hfs.
  pose proof (ca_high _ _ _ Hctx) as Hhi. cbn [exec_all].
  assert (exec (mov RDI RSP) ((c, k), m) = Ret ((), ((wr RDI (c RSP) c, k), m))) as E1 by done.
  run E1. set (c1 := wr RDI (c RSP) c).
  assert (c1 RSP = sp - 160) as Hp1 by (unfold c1; by rewrite wr_ne).
  set (m1 := <[c1 RSP - 8 := c1 RIP]> m).
  assert (mem_frame (fun a => a = sp - 168) m m1) as Hf1 by (apply mem_frame_insert; lia).
  destruct (run_timer_tick k m1 (sp - 160) x t) as (m2 & E2 & Hctx2 & Hf2); [done|done| | |].
  { eapply ctx_at_frame; [done..|]. unfold ctx_area. simpl. intros. lia. }
  { destruct Hrsp as [|[Hv Hno]]; [by left|right]. split; [done|]. intros Ha. apply Hno.
    unfold stack_area, ctx_area in *. lia. }
  destruct (exec_call_run timer_tick_c c1 k m 0 (ticked x t k) m2) as (c3 & m3 & E3 & _ & Hk3 & Hf3).
  { rewrite Hp1. split_and!; [lia..|]. apply mod16_mod8.
    replace (sp - 160) with (sp + (-10) * 16) by lia. by rewrite Z.mod_add. }
  { rewrite Hp1. replace (sp - 160) with (sp + (-10) * 16) by lia. by rewrite Z.mod_add. }
  { unfold timer_tick_c. simpl. replace (c1 RDI) with (sp - 160) by (by rewrite <- Hp; apply eq_sym, wr_eq).
    fold m1. by run E2. }
  run E3. rewrite Hp1 in Hf3. exists c3, m3. split_and!; [done|by rewrite Hk3| | |].
  - eapply ctx_at_frame; [done..|]. unfold ctx_area. simpl. intros. lia.
  - intros r Hr. rewrite Hk3 by (set_unfold in Hr; by destruct_or! Hr; subst).
    unfold c1. by rewrite wr_ne by set_solver.
  - unfold stack_area. eapply mem_frame_trans; [eapply mem_frame_mono; [|exact Hf1]|].
    { simpl. lia. }
    eapply mem_frame_trans; (eapply mem_frame_mono; [|eassumption]);
      unfold tick_area, ctx_area; simpl; intros a Ha; [|lia].
    destruct Ha as [?|?]; [left; lia|by right].
Qed.

(** The whole interrupt: delivery, entry code, [timer_tick], return. *)
Lemma timer_interrupt_run rsp0 kcs h c k m t :
  let sp := entry_sp rsp0 c in
  is_u64 rsp0 -> is_u64 (c RSP) -> 0 < sp - 168 -> sp < U64_LIM ->
  tick_ready k -> tasks (scheduler k) !! current (scheduler k) = Some t ->
  rsp0_ok k (stack_area sp) ->
  exists c' m',
    (deliver rsp0 kcs h;; exec_all timer_interrupt_entry) ((c, k), m) =
      Ret ((), ((c', ticked (ctx_of c) t k), m')) /\
    ctx_of c' = iret_ctx (tick (ctx_of c) (scheduler k)).1 /\
    (forall r, r ∈ system_regs -> c' r = c r) /\
    mem_frame (fun a => stack_area sp a \/ (a = tss_rsp0_ptr k /\ tss_rsp0_ptr k <> 0)) m m'.
Proof.
  intros sp Hu1 Hu2 Hlo Hhi Hready Ht Hrsp. pose proof frame_size_pos as Hfs.
  pose proof (entry_sp_aligned rsp0 c Hu1 Hu2) as Hal. fold sp in Hal.
  destruct (save_run rsp0 kcs h c k m) as (c1 & m1 & E1 & Hsp1 & Hctx1 & Hk1 & Hf1);
    [fold sp; lia|done|by apply mod16_mod8|]. fold sp in Hsp1, Hctx1, Hf1.
  apply run_bind_inv in E1 as ([] & s1 & Ed & Ep). run Ed.
  rewrite entry_code, (exec_all_app _ _ _ _ Ep).
  destruct (tick_run c1 k m1 sp (ctx_of c) t) as (c2 & m2 & E2 & Hsp2 & Hctx2 & Hk2 & Hf2); [done..|].
  rewrite (exec_all_app _ _ _ _ E2).
  destruct (resume_run c2 (ticked (ctx_of c) t k) m2 (sp - 160) _ Hctx2 Hsp2)
    as (c3 & E3 & Hctx3 & Hk3).
  exists c3, m2. split_and!; [done..| |].
  - intros r Hr. by rewrite Hk3, Hk2, Hk1.
  - eapply mem_frame_trans; [eapply mem_frame_mono; [|exact Hf1]|exact Hf2].
    unfold stack_area. simpl. lia.
Qed.
End switch.
