(* ===== verification/TasksTheorems.v ===== *)
(** * What multitasking guarantees

    The properties of [kernel/src/tasks/]: a timer interrupt saves the whole
    register file of the running task and resumes the next one, a task is
    resumed exactly where it was preempted after one round, exactly one task
    is running, and the first task enters user mode. *)
From stdpp Require Import strings.
From S2P Require Import Prelude Machine Cpu Drivers Gdt Tasks TasksProofs SwitchProofs.

(** ** Sequences of ticks on the abstract scheduler *)

Fixpoint ticks (cs : list TaskContext) (s : Scheduler) : list TaskContext * Scheduler :=
  match cs with
  | [] => ([], s)
  | c :: cs =>
      let '(x, s) := tick c s in
      let '(xs, s) := ticks cs s in
      (x :: xs, s)
  end.

Lemma ticks_cons c cs s :
  ticks (c :: cs) s = ((tick c s).1 :: (ticks cs (tick c s).2).1, (ticks cs (tick c s).2).2).
Proof. simpl. destruct (tick c s) as [x s1]. simpl. by destruct (ticks cs s1). Qed.

Lemma mod_succ a n : (0 < n)%nat -> ((a mod n + 1) mod n = (a + 1) mod n)%nat.
Proof. intros. by rewrite Nat.Div0.add_mod_idemp_l. Qed.

Lemma ticks_wf cs s : sched_wf s -> sched_wf (ticks cs s).2.
Proof.
  revert s. induction cs as [|c cs IH]; intros s Hwf; [done|].
  rewrite ticks_cons. simpl. apply IH, tick_wf, Hwf.
Qed.
Lemma ticks_length cs s : length (tasks (ticks cs s).2) = length (tasks s).
Proof.
  revert s. induction cs as [|c cs IH]; intros s; [done|].
  rewrite ticks_cons. simpl. by rewrite IH, tick_length.
Qed.
Lemma ticks_results cs s : length (ticks cs s).1 = length cs.
Proof.
  revert s. induction cs as [|c cs IH]; intros s; [done|].
  rewrite ticks_cons. simpl. by rewrite IH.
Qed.

(** Round robin: after [k] ticks the [k]-th next task runs. *)
Lemma ticks_current cs s :
  (current s < length (tasks s))%nat -> (2 <= length (tasks s))%nat ->
  current (ticks cs s).2 = ((current s + length cs) mod length (tasks s))%nat.
Proof.
  revert s. induction cs as [|c cs IH]; intros s Hc Hn.
  { simpl. rewrite Nat.add_0_r. by rewrite Nat.mod_small. }
  rewrite ticks_cons. cbn [snd]. rewrite IH; rewrite ?tick_length, ?tick_current by done; [|
    by apply next_index_lt|done].
  unfold next_index. rewrite Nat.Div0.add_mod_idemp_l. f_equal. simpl. lia.
Qed.

Lemma ticks_app cs1 cs2 s :
  (ticks (cs1 ++ cs2) s).1 = (ticks cs1 s).1 ++ (ticks cs2 (ticks cs1 s).2).1 /\
  (ticks (cs1 ++ cs2) s).2 = (ticks cs2 (ticks cs1 s).2).2.
Proof.
  revert s. induction cs1 as [|c cs1 IH]; intros s; [done|].
  rewrite <- app_comm_cons, !ticks_cons. simpl. destruct (IH (tick c s).2) as [-> ->]. done.
Qed.

(** A task that is not preempted meanwhile keeps its context. *)
Lemma ticks_keep cs s i :
  (current s < length (tasks s))%nat -> (2 <= length (tasks s))%nat ->
  (forall j, (j < length cs)%nat -> (current s + j) mod length (tasks s) <> i)%nat ->
  context <$> tasks (ticks cs s).2 !! i = context <$> tasks s !! i.
Proof.
  revert s. induction cs as [|c cs IH]; intros s Hc Hn Hno; [done|].
  rewrite ticks_cons. cbn [snd]. rewrite IH; rewrite ?tick_length, ?tick_current by done.
  - rewrite tick_context by done. rewrite decide_False; [done|]. intros ->.
    apply (Hno 0%nat); [simpl; lia|]. rewrite Nat.add_0_r. by apply Nat.mod_small.
  - by apply next_index_lt.
  - done.
  - intros j Hj. unfold next_index. rewrite Nat.Div0.add_mod_idemp_l.
    replace (current s + 1 + j)%nat with (current s + S j)%nat by lia. apply Hno. simpl. lia.
Qed.

Lemma mod_round a n j : (0 < j < n)%nat -> (a < n)%nat -> ((a + j) mod n <> a)%nat.
Proof.
  intros Hj Ha. destruct (decide (a + j < n)%nat).
  - rewrite Nat.mod_small by lia. lia.
  - replace (a + j)%nat with ((a + j - n) + 1 * n)%nat by lia.
    rewrite Nat.Div0.mod_add, Nat.mod_small by lia. lia.
Qed.

(** One full round after its preemption a task's context is resumed unchanged. *)
Lemma ticks_round c cs s :
  sched_wf s -> (2 <= length (tasks s))%nat -> length cs = (length (tasks s) - 1)%nat ->
  last (ticks (c :: cs) s).1 = Some c.
Proof.
  intros Hwf Hn Hlen. destruct cs as [|c' cs' _] using rev_ind; [simpl in Hlen; lia|].
  rewrite length_app in Hlen. simpl in Hlen. rewrite ticks_cons. cbn [fst].
  set (s1 := (tick c s).2). destruct (ticks_app cs' [c'] s1) as [-> _].
  rewrite ticks_cons. cbn [ticks fst]. rewrite app_comm_cons, last_snoc. f_equal.
  set (s2 := (ticks cs' s1).2).
  assert (sched_wf s1) as Hwf1 by (by apply tick_wf).
  assert (length (tasks s1) = length (tasks s)) as Hl1 by apply tick_length.
  assert (length (tasks s2) = length (tasks s)) as Hl2 by (unfold s2; by rewrite ticks_length).
  pose proof (sw_current _ Hwf) as Hc.
  assert (current s1 = next_index s) as Hc1 by (by apply tick_current).
  assert (current s2 = ((current s + 1 + length cs') mod length (tasks s))%nat) as Hc2.
  { unfold s2. rewrite ticks_current by (apply Hwf1 || lia). rewrite Hc1, Hl1. unfold next_index.
    by rewrite Nat.Div0.add_mod_idemp_l. }
  assert (next_index s2 = current s) as Hnext.
  { unfold next_index. rewrite Hc2, Hl2, Nat.Div0.add_mod_idemp_l.
    replace (current s + 1 + length cs' + 1)%nat with (current s + 1 * length (tasks s))%nat by lia.
    by rewrite Nat.Div0.mod_add, Nat.mod_small. }
  destruct (tick_resume c' s2) as (t & Ht & ->); [by apply ticks_wf|lia|].
  rewrite Hnext in Ht. assert (context <$> tasks s2 !! current s = Some c) as Hk.
  { unfold s2. rewrite ticks_keep; [|apply Hwf1|lia|].
    - unfold s1. rewrite tick_context, decide_True by done.
      by destruct (lookup_lt_is_Some_2 _ _ Hc) as [? ->].
    - intros j Hj. rewrite Hc1, Hl1. unfold next_index. rewrite Nat.Div0.add_mod_idemp_l.
      rewrite <- Nat.add_assoc. apply mod_round; lia. }
  rewrite Ht in Hk. by injection Hk.
Qed.

Section machine.
Context {ck : OverflowChecks} `{CalleeFrameLaws}.

(** A processor state in which an interrupt can be taken: the stack it switches
    to has room for the frame. *)
Definition interruptible (rsp0 : Z) (c : regfile) : Prop :=
  is_u64 (c RSP) /\ 168 < entry_sp rsp0 c < U64_LIM.

(** Timer interrupts with the registers and the memory of the machine at each of
    them: the contexts resumed, and the kernel afterwards. *)
Fixpoint timer_trace (rsp0 kcs h : Z) (l : list (regfile * mem)) (k : kernel)
    : outcome (list TaskContext * kernel) :=
  match l with
  | [] => Ret ([], k)
  | (c, m) :: l =>
      '((), ((c', k'), _)) ← (deliver rsp0 kcs h;; exec_all timer_interrupt_entry) ((c, k), m);
      '(xs, k'') ← timer_trace rsp0 kcs h l k';
      Ret (ctx_of c' :: xs, k'')
  end.

Lemma ticked_ready c t k : tick_ready k -> tick_ready (ticked c t k).
Proof.
  intros [? ? Hst Hwf]. constructor; simpl; [done..| |by apply tick_wf].
  unfold tick. by case_decide.
Qed.

Lemma timer_trace_ticks rsp0 kcs h l k :
  is_u64 rsp0 -> tick_ready k -> tss_rsp0_ptr k = 0 -> Forall (fun cm => interruptible rsp0 cm.1) l ->
  exists k', timer_trace rsp0 kcs h l k =
      Ret (iret_ctx <$> (ticks ((fun cm => ctx_of cm.1) <$> l) (scheduler k)).1, k') /\
    scheduler k' = (ticks ((fun cm => ctx_of cm.1) <$> l) (scheduler k)).2 /\ tick_ready k'.
Proof.
  intros Hu. revert k. induction l as [|[c m] l IH]; intros k Hready Hnull Hl.
  { by exists k. }
  apply Forall_cons in Hl as [[Hsp Hroom] Hl]. simpl in Hsp, Hroom.
  destruct (lookup_lt_is_Some_2 _ _ (sw_current _ (tr_sched _ Hready))) as [t Ht].
  destruct (timer_interrupt_run rsp0 kcs h c k m t) as (c' & m' & E & Hctx & _);
    [done|done|lia|lia|done|done|by left|].
  destruct (IH (ticked (ctx_of c) t k)) as (k' & E' & Hs & Hr); [by apply ticked_ready|done|done|].
  exists k'. cbn [timer_trace]. rewrite E. simpl mbind. cbn beta iota.
  unfold mbind, outcome_bind. rewrite E'. rewrite fmap_cons, ticks_cons. simpl.
  split_and!; [|done..]. by rewrite Hctx.
Qed.

(** C2: a timer interrupt taken anywhere with room on the stack saves the
    complete register file of the interrupted code in the running task's
    context, resumes the next task round robin with all its registers (the
    abstract [tick]), calls [timer_tick] with an aligned stack, prints the
    task's id, acknowledges the interrupt once, releases the lock, and writes
    no memory but its own stack area and the RSP0 slot. *)
Theorem timer_switch_correct rsp0 kcs h c k m t :
  let sp := entry_sp rsp0 c in
  is_u64 rsp0 -> is_u64 (c RSP) -> 0 < sp - 168 -> sp < U64_LIM ->
  tick_ready k -> tasks (scheduler k) !! current (scheduler k) = Some t ->
  rsp0_ok k (stack_area sp) ->
  exists c' m',
    (deliver rsp0 kcs h;; exec_all timer_interrupt_entry) ((c, k), m) =
      Ret ((), ((c', ticked (ctx_of c) t k), m')) /\
    ctx_of c' = iret_ctx (tick (ctx_of c) (scheduler k)).1 /\
    (forall r, r ∈ system_regs -> c' r = c r) /\
    mem_frame (fun a => stack_area sp a \/ (a = tss_rsp0_ptr k /\ tss_rsp0_ptr k <> 0)) m m'.
Proof. apply timer_interrupt_run. Qed.

(** Whatever is preempted at tick [i] of [n] tasks is resumed at tick [i + n - 1]. *)
Lemma ticks_resume cs s i c :
  sched_wf s -> (2 <= length (tasks s))%nat -> cs !! i = Some c ->
  (i + length (tasks s) - 1 < length cs)%nat ->
  (ticks cs s).1 !! (i + length (tasks s) - 1)%nat = Some c.
Proof.
  intros Hwf Hn Hi Hlen. set (n := length (tasks s)) in *.
  assert (cs = take i cs ++ (c :: take (n - 1) (drop (S i) cs)) ++ drop (n - 1) (drop (S i) cs)) as Hcs.
  { rewrite <- app_comm_cons, take_drop. by rewrite <- (take_drop_middle cs i c Hi) at 1. }
  set (s1 := (ticks (take i cs) s).2).
  assert (length (take i cs) = i) as Hti by (rewrite length_take; lia).
  rewrite Hcs. destruct (ticks_app (take i cs)
    ((c :: take (n - 1) (drop (S i) cs)) ++ drop (n - 1) (drop (S i) cs)) s) as [-> _]. fold s1.
  rewrite lookup_app_r, ticks_results, Hti by (rewrite ticks_results; lia).
  destruct (ticks_app (c :: take (n - 1) (drop (S i) cs)) (drop (n - 1) (drop (S i) cs)) s1) as [-> _].
  assert (length (tasks s1) = n) as Hl1 by (unfold s1; by rewrite ticks_length).
  assert (length (take (n - 1) (drop (S i) cs)) = n - 1)%nat as Hl2
    by (rewrite length_take, length_drop; lia).
  assert (length (ticks (c :: take (n - 1) (drop (S i) cs)) s1).1 = n) as Hl3
    by (rewrite ticks_results; simpl; lia).
  rewrite lookup_app_l by lia.
  pose proof (ticks_round c (take (n - 1) (drop (S i) cs)) s1) as Hlast.
  rewrite last_lookup, Hl3 in Hlast. replace (i + n - 1 - i)%nat with (Init.Nat.pred n) by lia.
  apply Hlast; [by apply ticks_wf|lia|lia].
Qed.

(** C15: a preempted task is resumed exactly where it was: with [n] tasks, the
    registers interrupted at one tick are, all twenty of them, the registers
    resumed [n - 1] ticks later, whatever the other tasks did to registers and
    memory in between. *)
Theorem task_resumed_exactly rsp0 kcs h l k i c m :
  is_u64 rsp0 -> tick_ready k -> tss_rsp0_ptr k = 0 ->
  Forall (fun cm => interruptible rsp0 cm.1) l ->
  (2 <= length (tasks (scheduler k)))%nat ->
  l !! i = Some (c, m) -> flags_ok (c RFLAGS) ->
  (i + length (tasks (scheduler k)) - 1 < length l)%nat ->
  exists xs k', timer_trace rsp0 kcs h l k = Ret (xs, k') /\
    xs !! (i + length (tasks (scheduler k)) - 1)%nat = Some (ctx_of c).
Proof.
  intros Hu Hready Hnull Hl Hn Hi Hfl Hlen.
  destruct (timer_trace_ticks rsp0 kcs h l k Hu Hready Hnull Hl) as (k' & E & _ & _).
  eexists _, k'. split; [exact E|]. rewrite list_lookup_fmap, (ticks_resume _ _ i (ctx_of c));
    [|apply Hready|done|by rewrite list_lookup_fmap, Hi|by rewrite length_fmap].
  simpl. unfold iret_ctx, ctx_of. simpl. by rewrite flags_ok_iret.
Qed.

(** C36: round robin is fair: after [j] timer interrupts the task that runs is the
    [j]-th next one, so that within [n] interrupts every task runs. *)
Theorem round_robin_fair rsp0 kcs h l k :
  is_u64 rsp0 -> tick_ready k -> tss_rsp0_ptr k = 0 ->
  Forall (fun cm => interruptible rsp0 cm.1) l ->
  (2 <= length (tasks (scheduler k)))%nat ->
  exists xs k', timer_trace rsp0 kcs h l k = Ret (xs, k') /\
    current (scheduler k') =
      ((current (scheduler k) + length l) mod length (tasks (scheduler k)))%nat /\
    length (tasks (scheduler k')) = length (tasks (scheduler k)).
Proof.
  intros Hu Hready Hnull Hl Hn.
  destruct (timer_trace_ticks rsp0 kcs h l k Hu Hready Hnull Hl) as (k' & E & Hs & _).
  eexists _, k'. split; [exact E|]. rewrite Hs, ticks_current, ticks_length, length_fmap; [done| |done].
  apply Hready.
Qed.

(** C40: [timer_tick] hangs when the interrupted code holds the scheduler's lock
    (interrupts stay disabled while it spins), and before the scheduler is
    started it only prints a mark and acknowledges the interrupt. *)
Theorem timer_tick_other_branches k m p c :
  ctx_at m p c ->
  (sched_locked k = true -> timer_tick p (k, m) = Hang) /\
  (sched_locked k = false -> initialized (scheduler k) = false -> serial_ready (dev k) = true ->
   timer_tick p (k, m) = Ret ((), (mkKernel (scheduler k) false (tss_rsp0_ptr k)
     (mkDev true (console (dev k) ++ [Text (if Z.land (cs c) 3 =? 3 then "u" else ".")])
        (lapic_address (dev k)) (mmio (dev k) ++ [(lapic_address (dev k) + 0xB0, 0)])), m))).
Proof.
  intros Hctx. destruct (ctx_at_cs _ _ _ Hctx) as [Hp Hcs]. unfold timer_tick.
  run (run_load _ k m Hp). rewrite Hcs. split.
  - intros Hl. unfold mbind at 1, M_bind. by rewrite lock_held.
  - intros Hl Hi Hs. set (k1 := mkKernel (scheduler k) true (tss_rsp0_ptr k) (dev k)).
    run (run_lock k m Hl). run (run_get_self k1 m). simpl. unfold is_initialized. rewrite Hi. simpl.
    by run (run_on_dev _ k1 m _ _ (run_serial_print _ _ Hs)).
Qed.

(** ** Entering the first task *)

(** The whole of [switch_to_first_task]: the Rust part and the assembly. *)
Lemma switch_to_first_task_run c k m t :
  sched_locked k = false -> sched_wf (scheduler k) -> tss_rsp0_ptr k = 0 ->
  tasks (scheduler k) !! current (scheduler k) = Some t -> stack_room (c RSP) 5 ->
  exists c' m', switch_to_first_task ((c, k), m) = Ret ((), ((c', k), m')) /\
    c' RIP = rip (context t) /\ c' CS = cs (context t) /\
    c' RFLAGS = iret_flags (rflags (context t)) /\ c' RSP = rsp (context t) /\
    c' SS = ss (context t) /\ Forall (fun r => c' r = ss (context t)) [DS; ES; FS; GS] /\
    Forall (fun r => c' r = c r) PUSHED.
Proof.
  intros Hul [Hc Hall] Hnull Ht Hroom. unfold switch_to_first_task.
  assert (current_context (scheduler k) = Ret (Some (context t)) /\
          current_kernel_stack_top (scheduler k) = Ret (Some (kernel_stack t + KERNEL_STACK_SIZE))) as [E1 E2].
  { unfold current_context, current_kernel_stack_top, of_current.
    destruct (tasks (scheduler k)) as [|t0 ts] eqn:Hts; [done|].
    rewrite (index_ok _ _ _ Ht). simpl. split; [done|].
    destruct (proj1 (Forall_lookup _ _) Hall _ _ Ht). unfold kernel_stack_top.
    unfold KERNEL_STACK_SIZE in *. by rewrite add64_ok by lia. }
  assert (first_task_context (k, m) = Ret (context t, (k, m))) as ->.
  { unfold first_task_context. run (run_lock k m Hul).
    set (k1 := mkKernel (scheduler k) true (tss_rsp0_ptr k) (dev k)). run (run_get_self k1 m). run (run_lift _ (k1, m) _ E1).
    run (run_lift _ (k1, m) _ E2).
    assert (set_rsp0 (kernel_stack t + KERNEL_STACK_SIZE) (k1, m) = Ret ((), (k1, m))) as E0.
    { unfold set_rsp0. run (run_get_self k1 m). simpl. by rewrite Hnull. }
    run E0. destruct k. simpl in *. by subst. }
  set (x := context t).
  set (c1 := wr GS (ss x) (wr FS (ss x) (wr ES (ss x) (wr DS (ss x) c)))).
  change (first_task_asm x) with
    ([mov_val DS (ss x); mov_val ES (ss x); mov_val FS (ss x); mov_val GS (ss x)] ++
     (push_val <$> [ss x; rsp x; rflags x; cs x; rip x]) ++ [iretq] : list (instr kernel)).
  rewrite (exec_all_app _ _ _ ((c1, k), m)) by done.
  destruct (exec_push_vals [ss x; rsp x; rflags x; cs x; rip x] c1 k m)
    as (c2 & m2 & E3 & Hsp & Hbut & Hw & _); [exact Hroom|].
  rewrite (exec_all_app _ _ _ _ E3). change (c1 RSP) with (c RSP) in Hsp. simpl in Hsp.
  destruct Hroom as (Hr1 & Hr2 & Hr3).
  destruct (exec_iretq (rip x) (cs x) (rflags x) (rsp x) (ss x) c2 k m2)
    as (c3 & E4 & I1 & I2 & I3 & I4 & I5 & I6); [exact Hw|lia|lia| |].
  { assert (c2 RSP = c RSP + (-5) * 8) as -> by lia. by rewrite Z.mod_add. }
  cbn [exec_all]. run E4. exists c3, m2. split_and!; try done.
  - repeat constructor; rewrite I6, Hbut by set_solver; done.
  - repeat constructor; rewrite I6, Hbut by set_solver; done.
Qed.

(** [switch_to_first_task] ends in user code at the current task's entry point,
    stack, segments and flags, with the lock released; the general-purpose
    registers are not loaded from the task's context: they keep what the
    kernel had in them. *)
Theorem first_task_entered c k m t :
  sched_locked k = false -> sched_wf (scheduler k) -> tss_rsp0_ptr k = 0 ->
  tasks (scheduler k) !! current (scheduler k) = Some t -> stack_room (c RSP) 5 ->
  exists c' m', switch_to_first_task ((c, k), m) = Ret ((), ((c', k), m')) /\
    c' RIP = rip (context t) /\ c' CS = cs (context t) /\
    c' RFLAGS = iret_flags (rflags (context t)) /\ c' RSP = rsp (context t) /\
    c' SS = ss (context t) /\ Forall (fun r => c' r = ss (context t)) [DS; ES; FS; GS] /\
    Forall (fun r => c' r = c r) PUSHED.
Proof. apply switch_to_first_task_run. Qed.
End machine.

(** ** The invariant of the scheduler *)

Section scheduler.
Context {ck : OverflowChecks}.

(** The uses of the scheduler in the kernel: tasks are added in state [Ready],
    the scheduler is started once, ticks reschedule and save contexts. *)
Inductive sched_reach : Scheduler -> Prop :=
  | sr_new : sched_reach Scheduler_new
  | sr_add Hs `{GlobalBox Hs} s t (h : Hs) s' h' : sched_reach s -> state t = Ready -> task_ok t ->
      add_task t (s, h) = Ret ((), (s', h')) -> sched_reach s'
  | sr_start s s' : sched_reach s -> is_initialized s = false ->
      start s = Ret ((), s') -> sched_reach s'
  | sr_schedule s r s' : sched_reach s -> is_initialized s = true ->
      schedule s = Ret (r, s') -> sched_reach s'
  | sr_save s i c s' : sched_reach s ->
      update_task i (with_context c) s = Ret ((), s') -> sched_reach s'.

Record sched_inv (s : Scheduler) : Prop := {
  si_ok : Forall task_ok (tasks s);
  si_before : initialized s = false ->
    current s = 0%nat /\ Forall (fun t => state t = Ready) (tasks s);
  si_after : initialized s = true ->
    (current s < length (tasks s))%nat /\
    forall i t, tasks s !! i = Some t -> (state t = Running <-> i = current s);
}.

Lemma sched_inv_add {Hs} `{GlobalBox Hs} s t (h : Hs) s' h' :
  sched_inv s -> state t = Ready -> task_ok t -> add_task t (s, h) = Ret ((), (s', h')) -> sched_inv s'.
Proof.
  intros [Hok Hb Ha] Ht Hto Hrun. unfold add_task in Hrun.
  destruct ((if Z.of_nat (length (tasks s)) =? raw_cap (buffer s) then grow_tasks (buffer s) else mret (buffer s)) h)
    as [[v h1]| | | |]; simplify_eq. constructor; simpl.
  - by apply Forall_app; split; [|constructor].
  - intros Hi. destruct (Hb Hi). split; [done|]. by apply Forall_app; split; [|constructor].
  - intros Hi. destruct (Ha Hi) as [Hc Hr]. rewrite length_app. split; [simpl; lia|].
    intros i u [Hu|[Hge Hu]]%lookup_app_Some; [by apply Hr|].
    apply list_lookup_singleton_Some in Hu as [_ <-]. rewrite Ht. split; [done|lia].
Qed.

Lemma sched_inv_start s s' :
  sched_inv s -> is_initialized s = false -> start s = Ret ((), s') -> sched_inv s'.
Proof.
  intros Hinv Hi Hrun. pose proof Hinv as [Hok Hb Ha].
  destruct (Hb Hi) as [Hc Hr]. unfold start in Hrun.
  rewrite (run_bind _ _ _ _ _ (run_get s)) in Hrun.
  destruct (tasks s) as [|t0 ts] eqn:Hts; [by injection Hrun as <-|].
  rewrite (run_bind _ _ _ _ _ (run_update_task 0 (with_state Running) s t0 ltac:(by rewrite Hts))) in Hrun.
  injection Hrun as <-. rewrite Hts. apply Forall_cons in Hok as [Hok0 Hok].
  apply Forall_cons in Hr as [_ Hr]. constructor; simpl.
  - by constructor.
  - done.
  - intros _. rewrite Hc. split; [lia|]. intros [|i] t; simpl; [by intros [= <-]|].
    intros Ht. rewrite (proj1 (Forall_lookup _ _) Hr i t Ht). split; [done|lia].
Qed.

Lemma sched_inv_wf s : sched_inv s -> initialized s = true -> sched_wf s.
Proof. intros [Hok _ Ha] Hi. destruct (Ha Hi). by constructor. Qed.

Lemma sched_inv_schedule s r s' :
  sched_inv s -> is_initialized s = true -> schedule s = Ret (r, s') -> sched_inv s'.
Proof.
  intros Hinv Hi Hrun. pose proof (sched_inv_wf s Hinv Hi) as Hwf.
  destruct (decide (2 <= length (tasks s))%nat) as [Hn|Hn].
  2: { rewrite schedule_none in Hrun by lia. by simplify_eq. }
  destruct (tick_resume (new_user (mkSelectors 0 0 0 0 0) 0 0) s Hwf Hn) as (t & Ht & _).
  rewrite (schedule_some s t Hwf Hn Ht) in Hrun. simplify_eq.
  destruct Hinv as [Hok _ Ha]. destruct (Ha Hi) as [Hc Hr]. constructor; simpl.
  - repeat apply Forall_alter; try done; intros; by unfold task_ok in *.
  - unfold is_initialized in Hi. congruence.
  - intros _. rewrite !length_alter. split; [by apply next_index_lt|].
    intros i u. rewrite list_lookup_alter. case_decide as E; [subst|].
    + intros (v & Hv & ->)%fmap_Some. done.
    + rewrite list_lookup_alter. case_decide as E'; [subst|].
      * intros (v & Hv & ->)%fmap_Some. simpl. split; [done|]. by intros ?; congruence.
      * intros Hu. rewrite (Hr i u Hu). split; congruence.
Qed.

Lemma sched_inv_save s i c s' :
  sched_inv s -> update_task i (with_context c) s = Ret ((), s') -> sched_inv s'.
Proof.
  intros [Hok Hb Ha] Hrun. destruct (tasks s !! i) as [t|] eqn:Ht.
  2: { unfold update_task in Hrun. rewrite (run_bind _ _ _ _ _ (run_get s)) in Hrun.
       unfold mbind, M_bind, lift, index in Hrun. by rewrite Ht in Hrun. }
  rewrite (run_update_task i (with_context c) s t Ht) in Hrun. simplify_eq. constructor; simpl.
  - apply Forall_alter; [done|]. by unfold task_ok.
  - intros Hi. destruct (Hb Hi) as [? Hr]. split; [done|]. by apply Forall_alter.
  - intros Hi. destruct (Ha Hi) as [? Hr]. rewrite length_alter. split; [done|].
    intros j u. rewrite list_lookup_alter. case_decide; [subst|by apply Hr].
    intros (v & Hv & ->)%fmap_Some. simpl. by apply Hr.
Qed.

Lemma sched_reach_inv s : sched_reach s -> sched_inv s.
Proof.
  induction 1; eauto using sched_inv_add, sched_inv_start, sched_inv_schedule, sched_inv_save.
  by constructor; simpl.
Qed.

(** C27: in every reachable state of a started scheduler exactly one task is
    [Running], the current one, and [schedule] returns without panicking. *)
Theorem exactly_one_running s :
  sched_reach s -> is_initialized s = true ->
  (current s < length (tasks s))%nat /\
  (forall i t, tasks s !! i = Some t -> (state t = Running <-> i = current s)) /\
  exists r s', schedule s = Ret (r, s').
Proof.
  intros Hreach Hi. pose proof (sched_reach_inv s Hreach) as Hinv.
  pose proof (sched_inv_wf s Hinv Hi) as Hwf. destruct (si_after _ Hinv Hi) as [Hc Hr].
  split_and!; [done..|]. destruct (decide (2 <= length (tasks s))%nat) as [Hn|Hn].
  - destruct (lookup_lt_is_Some_2 _ _ (next_index_lt s Hc)) as [t Ht].
    eexists _, _. by apply (schedule_some s t).
  - eexists _, _. apply schedule_none. lia.
Qed.
End scheduler.

(** ** Two user tasks on one processor *)
Module Demo.
Import ReferenceFrame.
#[local] Instance demo_checks : OverflowChecks := true.

Definition demo_sel : Selectors := mkSelectors 0x08 0x10 0x23 0x1B 0x28.
Definition demo_task (n entry stack : Z) (st : TaskState) : Task :=
  mkTask n st (new_user demo_sel entry 0x7FFFFF000) stack.
Definition task1 : Task := demo_task 1 0x400000 0x10000 Ready.
Definition task2 : Task := demo_task 2 0x500000 0x20000 Ready.
Definition demo_sched : Scheduler := mkSched [with_state Running task1; task2] 0 true (mkRaw 0x9000 4).
Definition demo_kernel : kernel := mkKernel demo_sched false 0 (mkDev true [] 0xFEE00000 []).
Definition demo_regs (n : Z) : regfile := fun r =>
  match r with
  | CS => 0x23 | SS => 0x1B | RFLAGS => 0x202 | RSP => 0x7FFFF0000 | RIP => 0x400010
  | RAX => n | _ => 0
  end.
Definition demo_rsp0 : Z := 0x80000.

Lemma demo_ready : tick_ready demo_kernel.
Proof.
  constructor; [done..|]. constructor; [simpl; lia|].
  repeat constructor; simpl; unfold KERNEL_STACK_SIZE; lia.
Qed.

Lemma demo_interruptible n : interruptible demo_rsp0 (demo_regs n).
Proof. unfold interruptible, is_u64. vm_compute. repeat split; discriminate. Qed.

Lemma timer_switch_correct_witness :
  exists c' m',
    (deliver demo_rsp0 8 0;; exec_all timer_interrupt_entry) ((demo_regs 7, demo_kernel), ∅) =
      Ret ((), ((c', ticked (ctx_of (demo_regs 7)) (with_state Running task1) demo_kernel), m')) /\
    ctx_of c' = iret_ctx (context task2).
Proof.
  destruct (timer_switch_correct demo_rsp0 8 0 (demo_regs 7) demo_kernel ∅ (with_state Running task1))
    as (c' & m' & E & Hc & _).
  - vm_compute. split; [discriminate|reflexivity].
  - vm_compute. split; [discriminate|reflexivity].
  - vm_compute. reflexivity.
  - vm_compute. reflexivity.
  - exact demo_ready.
  - reflexivity.
  - by left.
  - exists c', m'. split; [exact E|exact Hc].
Defined.

Lemma demo_trace_ok :
  Forall (fun cm : regfile * mem => interruptible demo_rsp0 cm.1)
    [(demo_regs 1, ∅); (demo_regs 2, ∅); (demo_regs 3, ∅)].
Proof. repeat constructor; apply demo_interruptible. Qed.

Lemma task_resumed_exactly_witness :
  exists xs k', timer_trace demo_rsp0 8 0 [(demo_regs 1, ∅); (demo_regs 2, ∅); (demo_regs 3, ∅)]
      demo_kernel = Ret (xs, k') /\
    xs !! 2%nat = Some (ctx_of (demo_regs 2)).
Proof.
  apply (task_resumed_exactly demo_rsp0 8 0 _ demo_kernel 1 (demo_regs 2) ∅).
  - vm_compute. split; [discriminate|reflexivity].
  - exact demo_ready.
  - reflexivity.
  - exact demo_trace_ok.
  - simpl. lia.
  - reflexivity.
  - reflexivity.
  - simpl. lia.
Defined.

Lemma round_robin_fair_witness :
  exists xs k', timer_trace demo_rsp0 8 0 [(demo_regs 1, ∅); (demo_regs 2, ∅); (demo_regs 3, ∅)]
      demo_kernel = Ret (xs, k') /\ current (scheduler k') = 1%nat /\
    length (tasks (scheduler k')) = 2%nat.
Proof.
  apply (round_robin_fair demo_rsp0 8 0
    [(demo_regs 1, ∅); (demo_regs 2, ∅); (demo_regs 3, ∅)] demo_kernel).
  - vm_compute. split; [discriminate|reflexivity].
  - exact demo_ready.
  - reflexivity.
  - exact demo_trace_ok.
  - simpl. lia.
Defined.

Definition demo_ctx : TaskContext := mkCtx 0 0 0 0 0 0 0 0 0 0 0 0 0 0 0 0 0 0 0 0.
Lemma demo_ctx_at : ctx_at ∅ 4096 demo_ctx.
Proof. constructor; [repeat split|lia|lia|done]. Qed.

Lemma timer_tick_other_branches_witness :
  timer_tick 4096 (mkKernel demo_sched true 0 devices_new, ∅) = Hang.
Proof.
  exact (proj1 (timer_tick_other_branches (mkKernel demo_sched true 0 devices_new) ∅ 4096 demo_ctx
    demo_ctx_at) eq_refl).
Defined.

Lemma first_task_entered_witness :
  exists c' m', switch_to_first_task ((demo_regs 7, demo_kernel), ∅) = Ret ((), ((c', demo_kernel), m')) /\
    c' RIP = 0x400000 /\ c' CS = 0x23 /\ c' RFLAGS = 0x202 /\ c' RSP = 0x7FFFFF000 /\
    c' SS = 0x1B /\ Forall (fun r => c' r = 0x1B) [DS; ES; FS; GS] /\
    Forall (fun r => c' r = demo_regs 7 r) PUSHED.
Proof.
  apply (first_task_entered (demo_regs 7) demo_kernel ∅ (with_state Running task1)).
  - reflexivity.
  - exact (tr_sched _ demo_ready).
  - reflexivity.
  - reflexivity.
  - repeat split; vm_compute; reflexivity.
Defined.

(** A heap that gives every task vector the same address. *)
#[local] Instance demo_heap : GlobalBox () := {
  box_alloc _ _ := mret 0x9000;
  box_dealloc _ _ _ := mret ();
}.

Lemma demo_sched_reach : sched_reach demo_sched.
Proof.
  assert (task_ok task1 /\ task_ok task2) as [H1 H2]
    by (unfold task_ok, KERNEL_STACK_SIZE; simpl; lia).
  eapply (sr_start (mkSched [task1; task2] 0 false (mkRaw 0x9000 4))); [|done|done].
  eapply (sr_add () (mkSched [task1] 0 false (mkRaw 0x9000 4)) task2 tt _ tt); [|done|done|done].
  by eapply (sr_add () Scheduler_new task1 tt _ tt); [apply sr_new|..].
Qed.

Lemma exactly_one_running_witness :
  (current demo_sched < length (tasks demo_sched))%nat /\
  (forall i t, tasks demo_sched !! i = Some t -> (state t = Running <-> i = current demo_sched)) /\
  exists r s', schedule demo_sched = Ret (r, s').
Proof. exact (exactly_one_running demo_sched demo_sched_reach eq_refl). Defined.
End Demo.
