(* ===== verification/Syscall.v ===== *)
(** * System calls: [kernel/src/tasks/syscall.rs]

    The set-up of the processor for [syscall], the assembly entry, the
    dispatcher, and the copy of user memory.  User memory, the success of heap
    allocations and the CPU's feature bits are parameters. *)
From stdpp Require Import strings.
From S2P Require Import Prelude Machine Cpu Drivers Gdt Tasks.

Definition SYSCALL_STACK_SIZE : Z := 4096 * 4.
Definition USER_SPACE_LIMIT : Z := 0x0000800000000000.

(** ** Reading user memory *)

(** The byte mapped at an address; [None] is an unmapped page. *)
Class UserMemory := user_byte : Z -> option Z.
(** Whether the global allocator can serve [Vec::with_capacity(n)], and whether
    the conversion of the bytes to a string finds the memory it needs. *)
Class Heap := {
  heap_alloc : Z -> bool;
  lossy_alloc : list Z -> bool;
}.

Definition checked_add (a b : Z) : option Z := if a + b <? U64_LIM then Some (a + b) else None.

Section code.
Context {ck : OverflowChecks} `{UserMemory} `{Heap}.

(** [*(addr as *const u8)]: a page fault ends the kernel. *)
Definition read_byte (addr : Z) : outcome Z :=
  match user_byte addr with Some b => Ret b | None => Panic end.

(** [for i in 0..len], from [i] with [n] rounds left. *)
Fixpoint read_bytes (ptr i : Z) (n : nat) : outcome (list Z) :=
  match n with
  | O => Ret []
  | S n =>
      addr ← add64 ptr i;
      byte ← read_byte addr;
      result ← read_bytes ptr (i + 1) n;
      Ret (byte :: result)
  end.

Definition with_capacity (len : Z) : outcome () :=
  if (len =? 0) || heap_alloc len then Ret () else Panic.

Definition read_user_bytes (ptr len : Z) : outcome (option (list Z)) :=
  if (USER_SPACE_LIMIT <=? ptr) || (ptr =? 0) then Ret None
  else
    match checked_add ptr len with
    | None => Ret None
    | Some end_addr =>
        if USER_SPACE_LIMIT <? end_addr then Ret None
        else
          _ ← with_capacity len;
          result ← read_bytes ptr 0 (Z.to_nat len);
          Ret (Some result)
    end.

(** ** The dispatcher *)

Definition U64_MAX : Z := U64_LIM - 1.

Definition from_utf8_lossy (bytes : list Z) : outcome output :=
  if lossy_alloc bytes then Ret (Lossy bytes) else Panic.

Definition syscall_entry (syscall_num arg1 arg2 arg3 _arg4 _arg5 : Z) : M devices Z :=
  if syscall_num =? 1 then
    if negb (arg1 =? 1) then mret 1
    else
      bytes ← lift (read_user_bytes arg2 arg3);
      match bytes with
      | Some msg =>
          msg ← lift (from_utf8_lossy msg);
          serial_println [Text "[user] "; msg];;
          mret 0
      | None =>
          serial_println [Text "[kernel] write: invalid user pointer "; Hex arg2;
                          Text " or length "; Dec arg3];;
          mret 14
      end
  else if syscall_num =? 2 then
    if negb (arg1 =? 1) then mret U64_MAX
    else
      bytes ← lift (read_user_bytes arg2 arg3);
      match bytes with
      | Some bytes =>
          msg ← lift (from_utf8_lossy bytes);
          serial_println [Text "[user] "; msg];;
          mret arg3
      | None =>
          serial_println [Text "[kernel] write_bytes: invalid user pointer "; Hex arg2;
                          Text " or length "; Dec arg3];;
          mret U64_MAX
      end
  else
    serial_println [Text "[kernel] Unknown syscall: num="; Dec syscall_num];;
    mret U64_MAX.

(** [syscall_entry] as the function the assembly calls. *)
Definition syscall_entry_c (args : list Z) : M (devices * mem) Z := fun '(d, m) =>
  let arg i := default 0 (args !! i) in
  match syscall_entry (arg 0%nat) (arg 1%nat) (arg 2%nat) (arg 3%nat) (arg 4%nat) (arg 5%nat) d with
  | Ret (v, d') => Ret (v, (d', m))
  | Panic => Panic | Undef => Undef | Hang => Hang | OutOfFuel => OutOfFuel
  end.

(** ** The entry point

    [kernel_stack] and [user_rsp_temp] are the addresses of
    [SYSCALL_KERNEL_STACK] and [USER_RSP_TEMP]. *)
Definition syscall_handler (kernel_stack user_rsp_temp : Z) : list (instr devices) :=
  [mov_to_sym user_rsp_temp RSP;
   lea_sym RSP (kernel_stack + SYSCALL_STACK_SIZE);
   push RCX;
   push R11;
   mov_from_sym R11 user_rsp_temp;
   push R11;
   push RAX; push RDI; push RSI; push RDX; push R10; push R8; push R9;
   sti;
   mov_from RDI RSP 48;
   mov_from RSI RSP 40;
   mov_from RDX RSP 32;
   mov_from RCX RSP 24;
   mov_from R8 RSP 16;
   mov_from R9 RSP 8;
   call syscall_entry_c;
   mov_to RSP 48 RAX;
   cli;
   mov_from R9 RSP 0;
   mov_from R8 RSP 8;
   mov_from R10 RSP 16;
   mov_from RDX RSP 24;
   mov_from RSI RSP 32;
   mov_from RDI RSP 40;
   add_imm RSP 48;
   pop RAX;
   mov_from R11 RSP 8;
   mov_from RCX RSP 16;
   mov_from RSP RSP 0;
   sysretq].

(** ** Initialisation *)

(** The control registers and MSRs [init_syscalls] writes. *)
Record control := mkControl {
  cr0 : Z; cr4 : Z; efer : Z; lstar : Z; sfmask : Z; star : Z;
}.

Definition bit (n : Z) : Z := Z.shiftl 1 n.
Definition update (old set clear : Z) : Z := Z.ldiff (Z.lor old set) clear.

(** The feature bits [CpuId] reports; [None] when the leaf is missing. *)
Record features := mkFeatures {
  has_pge : option bool;
  has_fsgsbase : option bool;
  has_mce : option bool;
}.
Definition feature (f : option bool) (b : Z) : Z := if default false f then b else 0.

(** Bits 18, 5 and 1 of CR0: ALIGNMENT_MASK, NUMERIC_ERROR,
    MONITOR_COPROCESSOR; bits 30 and 29: CACHE_DISABLE, NOT_WRITE_THROUGH. *)
Definition init_cr0 (old : Z) : Z :=
  update old (Z.lor (bit 18) (Z.lor (bit 5) (bit 1))) (Z.lor (bit 30) (bit 29)).

(** Bits 8 and 2 of CR4: PERFORMANCE_MONITOR_COUNTER, TIMESTAMP_DISABLE; bits
    7, 16 and 6: PAGE_GLOBAL, FSGSBASE, MACHINE_CHECK_EXCEPTION. *)
Definition init_cr4 (f : features) (old : Z) : Z :=
  Z.lor (Z.ldiff old (Z.lor (bit 8) (bit 2)))
    (Z.lor (feature (has_pge f) (bit 7))
      (Z.lor (feature (has_fsgsbase f) (bit 16)) (feature (has_mce f) (bit 6)))).

(** The bases for SYSCALL and SYSRET (selectors are 16 bits wide), and STAR. *)
Definition sysret_base_of (sel : Selectors) : outcome Z :=
  sub64 (Z.land (user_data sel) (Z.lxor 3 0xFFFF)) 8.
Definition star_value (syscall_cs sysret_base : Z) : outcome Z :=
  hi ← shl64 sysret_base 48;
  lo ← shl64 syscall_cs 32;
  Ret (Z.lor hi lo).

(** [handler] is the address of [syscall_handler]. *)
Definition init_syscalls (sel : Selectors) (handler : Z) (f : features) (old : control)
    : M devices control :=
  let cr0' := init_cr0 (cr0 old) in
  let cr4' := init_cr4 f (cr4 old) in
  let efer' := Z.lor (efer old) (bit 0) in
  let syscall_cs := code sel in
  sysret_base ← lift (sysret_base_of sel);
  serial_println [Text "Setting up STAR register:"];;
  serial_println [Text "  Kernel CS (SYSCALL): "; Hex syscall_cs];;
  serial_println [Text "  SYSRET base: "; Hex sysret_base];;
  sysret_cs ← lift (add64 sysret_base 16);
  serial_println [Text "  SYSRET CS will be: "; Hex sysret_cs];;
  sysret_ss ← lift (add64 sysret_base 8);
  serial_println [Text "  SYSRET SS will be: "; Hex sysret_ss];;
  v ← lift (star_value syscall_cs sysret_base);
  serial_println [Text "  STAR value: "; Hex v];;
  serial_println [Text "Syscall initialized, handler at "; Hex handler];;
  mret (mkControl cr0' cr4' efer' handler (bit 9) v).
End code.
