(* ===== verification/SyscallProofs.v ===== *)
(** * The system-call path, step by step

    The assembly of [syscall_handler] in [kernel/src/tasks/syscall.rs] run on
    the processor model: what is saved on the kernel stack, the arguments the
    dispatcher gets, and the registers the user program gets back. *)
From stdpp Require Import strings.
From S2P Require Import Prelude Machine Cpu Drivers Gdt Tasks TasksProofs SwitchProofs Syscall.

Section loads.
Context {K : Type} `{CalleeFrame}.
Implicit Types (c : regfile) (k : K) (m : mem).

Lemma words_at_lookup m p ws i w :
  words_at m p ws -> ws !! i = Some w -> rd m (p + 8 * Z.of_nat i) = w.
Proof.
  revert p i. induction ws as [|v ws IH]; intros p [|i] Hw Hi; simpl in Hw, Hi; try done.
  - simplify_eq. destruct Hw as [Hw _]. by replace (p + 8 * Z.of_nat 0) with p by lia.
  - destruct Hw as [_ Hw]. specialize (IH _ _ Hw Hi).
    by replace (p + 8 * Z.of_nat (S i)) with (p + 8 + 8 * Z.of_nat i) by lia.
Qed.

(** A block of words at a valid stack address. *)
Record block_at (m : mem) (p : Z) (ws : list Z) : Prop := {
  bl_words : words_at m p ws;
  bl_low : 0 < p;
  bl_high : p + 8 * Z.of_nat (length ws) < U64_LIM;
  bl_align : p mod 8 = 0;
}.

Lemma block_ptr m p ws i : block_at m p ws -> (i < length ws)%nat -> valid_ptr (p + 8 * Z.of_nat i).
Proof.
  intros [] Hi. split; [lia|]. replace (p + 8 * Z.of_nat i) with (p + Z.of_nat i * 8) by lia.
  by rewrite Z.mod_add.
Qed.

Lemma exec_mov_from d b off i w ws c k m :
  block_at m (c b) ws -> ws !! i = Some w -> off = 8 * Z.of_nat i ->
  exec (mov_from d b off) ((c, k), m) = Ret ((), ((wr d w c, k), m)).
Proof.
  intros Hb Hi ->. pose proof (lookup_lt_Some _ _ _ Hi) as Hlt.
  pose proof (block_ptr _ _ _ i Hb Hlt) as Hp. cbn [exec]. run (run_get_regs c k m).
  assert (wrap64 (c b + 8 * Z.of_nat i) = c b + 8 * Z.of_nat i) as ->
    by (apply Z.mod_small; destruct Hp; lia).
  run (run_load _ (c, k) m Hp). by rewrite (words_at_lookup _ _ _ _ _ (bl_words _ _ _ Hb) Hi).
Qed.

(** [mov_to] replaces a word of the block. *)
Lemma exec_mov_to b off i s ws c k m :
  block_at m (c b) ws -> (i < length ws)%nat -> off = 8 * Z.of_nat i ->
  exec (mov_to b off s) ((c, k), m) =
    Ret ((), ((c, k), <[c b + 8 * Z.of_nat i := c s]> m)).
Proof.
  intros Hb Hlt ->. pose proof (block_ptr _ _ _ i Hb Hlt) as Hp.
  cbn [exec]. run (run_get_regs c k m).
  assert (wrap64 (c b + 8 * Z.of_nat i) = c b + 8 * Z.of_nat i) as ->
    by (apply Z.mod_small; destruct Hp; lia).
  by apply run_store.
Qed.

Lemma words_at_insert m p ws i v :
  words_at m p ws -> (i < length ws)%nat ->
  words_at (<[p + 8 * Z.of_nat i := v]> m) p (<[i := v]> ws).
Proof.
  revert p i. induction ws as [|w ws IH]; intros p [|i] Hw Hi; simpl in Hw, Hi; try lia.
  - destruct Hw as [Hw Hws]. replace (p + 8 * Z.of_nat 0) with p by lia.
    split; [apply rd_insert_eq|].
    eapply words_at_frame; [apply (mem_frame_insert (fun a => a = p)); done| |done]. simpl. lia.
  - destruct Hw as [Hw Hws]. cbn [insert list_insert words_at].
    split; [by rewrite rd_insert_ne by lia|].
    replace (p + 8 * Z.of_nat (S i)) with (p + 8 + 8 * Z.of_nat i) by lia. apply IH; [done|lia].
Qed.

(** A sequence of loads from the block at the stack pointer. *)
Definition loads (l : list (reg * nat)) : list (instr K) :=
  (fun di => mov_from di.1 RSP (8 * Z.of_nat di.2)) <$> l.
Definition loaded (ws : list Z) (l : list (reg * nat)) (c : regfile) : regfile :=
  foldl (fun c di => wr di.1 (default 0 (ws !! di.2)) c) c l.

Lemma exec_loads l ws c k m :
  block_at m (c RSP) ws -> Forall (fun di => di.1 <> RSP /\ (di.2 < length ws)%nat) l ->
  exec_all (loads l) ((c, k), m) = Ret ((), ((loaded ws l c, k), m)).
Proof.
  intros Hb Hl. revert c Hb. induction Hl as [|[d i] l [Hd Hi] _ IH]; intros c Hb; [done|].
  simpl in Hd, Hi. destruct (lookup_lt_is_Some_2 ws i Hi) as [w Hw].
  cbn [loads fmap list_fmap exec_all fst snd].
  run (exec_mov_from d RSP (8 * Z.of_nat i) i w ws c k m Hb Hw eq_refl).
  change (loaded ws ((d, i) :: l) c) with (loaded ws l (wr d (default 0 (ws !! i)) c)).
  rewrite Hw. simpl. apply IH. by rewrite wr_ne.
Qed.
End loads.

(** ** The phases of [syscall_handler] *)

Section handler.
Context {ck : OverflowChecks} `{UserMemory} `{Heap} `{CalleeFrameLaws}.
Context (kernel_stack user_rsp_temp : Z).

Definition syscall_top : Z := kernel_stack + SYSCALL_STACK_SIZE.

(** The part of the kernel stack a system call uses. *)
Definition syscall_area (a : Z) : Prop := syscall_top - 88 - frame_size <= a < syscall_top.

(** The static stack is aligned to 16 bytes, and [USER_RSP_TEMP] lies outside. *)
Record syscall_layout : Prop := {
  sl_low : 0 < kernel_stack;
  sl_high : syscall_top < U64_LIM;
  sl_align : kernel_stack mod 16 = 0;
  sl_temp : valid_ptr user_rsp_temp;
  sl_apart : ~ syscall_area user_rsp_temp;
}.

(** The words on the kernel stack, lowest first. *)
Definition saved_words (c : regfile) : list Z :=
  [c R9; c R8; c R10; c RDX; c RSI; c RDI; c RAX; c RSP; c R11; c RCX].

Definition saves : list (instr devices) :=
  [mov_to_sym user_rsp_temp RSP; lea_sym RSP syscall_top] ++ (push <$> [RCX; R11]) ++
  [mov_from_sym R11 user_rsp_temp] ++ (push <$> [R11; RAX; RDI; RSI; RDX; R10; R8; R9]) ++ [sti].
Definition arg_loads : list (reg * nat) :=
  [(RDI, 6); (RSI, 5); (RDX, 4); (RCX, 3); (R8, 2); (R9, 1)]%nat.
Definition restores : list (reg * nat) :=
  [(R9, 0); (R8, 1); (R10, 2); (RDX, 3); (RSI, 4); (RDI, 5)]%nat.
Definition leave : list (instr devices) :=
  [add_imm RSP 48; pop RAX; mov_from R11 RSP 8; mov_from RCX RSP 16; mov_from RSP RSP 0; sysretq].

Lemma handler_code :
  syscall_handler kernel_stack user_rsp_temp =
    saves ++ loads arg_loads ++ [call syscall_entry_c] ++ [mov_to RSP 48 RAX; cli] ++
    loads restores ++ leave.
Proof. reflexivity. Qed.

Lemma top_aligned : syscall_layout -> syscall_top mod 16 = 0.
Proof.
  intros []. unfold syscall_top, SYSCALL_STACK_SIZE.
  replace (kernel_stack + 4096 * 4) with (kernel_stack + 1024 * 16) by lia. by rewrite Z.mod_add.
Qed.

(** The prologue saves the user's registers on the kernel stack. *)
Lemma saves_run c d m :
  syscall_layout ->
  exists c' m', exec_all saves ((c, d), m) = Ret ((), ((c', d), m')) /\
    c' RSP = syscall_top - 80 /\ block_at m' (syscall_top - 80) (saved_words c) /\
    (forall r, r ∉ [RSP; R11; RFLAGS] -> c' r = c r) /\
    mem_frame (fun a => syscall_top - 80 <= a < syscall_top \/ a = user_rsp_temp) m m'.
Proof.
  intros Hl. pose proof (top_aligned Hl) as Hal. pose proof (mod16_mod8 _ Hal) as Hal8.
  destruct Hl as [Hlo Hhi _ Ht Hap]. pose proof frame_size_pos as Hfs.
  assert (syscall_top = kernel_stack + 16384) as Htop by done.
  set (t := user_rsp_temp) in *. set (m1 := <[t := c RSP]> m).
  set (c1 := wr RSP syscall_top c). unfold saves.
  assert (exec_all [mov_to_sym t RSP; lea_sym RSP syscall_top] ((c, d), m)
          = Ret ((), ((c1, d), m1))) as E1.
  { cbn [exec_all exec]. rewrite (run_bind _ _ _ () ((c, d), m1)); [done|].
    run (run_get_regs c d m). by apply run_store. }
  rewrite (exec_all_app _ _ _ _ E1).
  assert (c1 RSP = syscall_top) as Hsp1 by apply wr_eq.
  destruct (exec_pushes [RCX; R11] c1 d m1) as (c2 & m2 & E2 & Hsp2 & Hb2 & Hw2 & Hf2);
    [by_decide|rewrite Hsp1; split_and!; simpl; lia|].
  rewrite (exec_all_app _ _ _ _ E2). rewrite Hsp1 in *. simpl in Hsp2.
  assert (rd m2 t = c RSP) as Hrd.
  { rewrite (mem_frame_rd _ _ _ _ Hf2); [apply rd_insert_eq|]. unfold syscall_area in Hap. lia. }
  set (c3 := wr R11 (c RSP) c2).
  assert (exec_all [mov_from_sym R11 t] ((c2, d), m2) = Ret ((), ((c3, d), m2))) as E3.
  { cbn [exec_all exec]. rewrite (run_bind _ _ _ () ((c3, d), m2)); [done|].
    run (run_load t (c2, d) m2 Ht). by rewrite Hrd. }
  rewrite (exec_all_app _ _ _ _ E3).
  assert (c3 RSP = syscall_top - 16) as Hsp3 by (unfold c3; rewrite wr_ne by done; lia).
  destruct (exec_pushes [R11; RAX; RDI; RSI; RDX; R10; R8; R9] c3 d m2)
    as (c4 & m4 & E4 & Hsp4 & Hb4 & Hw4 & Hf4); [by_decide| |].
  { rewrite Hsp3. split_and!; [simpl; lia|lia|].
    replace (syscall_top - 16) with (syscall_top + (-2) * 8) by lia. by rewrite Z.mod_add. }
  rewrite (exec_all_app _ _ _ _ E4). rewrite Hsp3 in *. simpl in Hsp4.
  assert (c4 RSP = syscall_top - 80) as Hp by lia.
  eexists _, m4. split; [reflexivity|]. split_and!.
  - by rewrite wr_ne.
  - constructor; [|lia|simpl; lia|].
    2: { replace (syscall_top - 80) with (syscall_top + (-10) * 8) by lia. by rewrite Z.mod_add. }
    replace (saved_words c) with
      (reverse (c3 <$> [R11; RAX; RDI; RSI; RDX; R10; R8; R9]) ++ reverse (c1 <$> [RCX; R11])).
    2: { unfold c3. simpl. rewrite !(wr_ne R11), !Hb2 by done. by rewrite wr_eq. }
    apply words_at_app. rewrite <- Hp. split; [done|].
    replace (c4 RSP + _) with (c2 RSP) by (rewrite length_reverse, length_fmap; simpl; lia).
    eapply words_at_frame; [exact Hf4| |exact Hw2]. simpl. intros a. lia.
  - intros r Hr. rewrite wr_ne by set_solver. rewrite Hb4 by set_solver.
    unfold c3. rewrite wr_ne by set_solver. rewrite Hb2 by set_solver.
    unfold c1. by rewrite wr_ne by set_solver.
  - eapply mem_frame_trans; [apply mem_frame_insert; by right|].
    eapply mem_frame_trans; (eapply mem_frame_mono; [|eassumption]); simpl; lia.
Qed.

Lemma block_at_frame P m m' p ws :
  block_at m p ws -> mem_frame P m m' ->
  (forall a, p <= a < p + 8 * Z.of_nat (length ws) -> ~ P a) -> block_at m' p ws.
Proof. intros [] Hf HP. constructor; try done. by eapply words_at_frame. Qed.

Lemma block_at_drop m p ws n q :
  block_at m p ws -> (n <= length ws)%nat -> q = p + 8 * Z.of_nat n -> block_at m q (drop n ws).
Proof.
  intros [Hw Hlo Hhi Hal] Hn ->. constructor.
  - rewrite <- (take_drop n ws) in Hw. apply words_at_app in Hw as [_ Hw].
    by rewrite length_take, Nat.min_l in Hw by lia.
  - lia.
  - rewrite length_drop. lia.
  - replace (p + 8 * Z.of_nat n) with (p + Z.of_nat n * 8) by lia. by rewrite Z.mod_add.
Qed.

Lemma run_syscall_entry_c a0 a1 a2 a3 a4 a5 d m v d' :
  syscall_entry a0 a1 a2 a3 a4 a5 d = Ret (v, d') ->
  syscall_entry_c [a0; a1; a2; a3; a4; a5] (d, m) = Ret (v, (d', m)).
Proof. intros E. unfold syscall_entry_c. cbn [lookup list_lookup from_option Datatypes.id].
  by rewrite E. Qed.

(** The call of the dispatcher, with the System V arguments taken from the block. *)
Lemma call_run c x d m v d' :
  syscall_layout -> c RSP = syscall_top - 80 -> block_at m (syscall_top - 80) (saved_words x) ->
  syscall_entry (x RAX) (x RDI) (x RSI) (x RDX) (x R10) (x R8) d = Ret (v, d') ->
  exists c' m',
    exec_all (loads arg_loads ++ [call syscall_entry_c]) ((c, d), m) = Ret ((), ((c', d'), m')) /\
    c' RAX = v /\ (forall r, caller_saved r = false -> c' r = c r) /\
    block_at m' (syscall_top - 80) (saved_words x) /\ mem_frame syscall_area m m'.
Proof.
  intros Hl Hsp Hb Hent. pose proof (top_aligned Hl) as Hal. destruct Hl as [Hlo Hhi _ _ _].
  assert (syscall_top = kernel_stack + 16384) as Htop by done. pose proof frame_size_pos as Hfs.
  rewrite (exec_all_app _ _ _ _ (exec_loads arg_loads (saved_words x) c d m
    ltac:(by rewrite Hsp) ltac:(by_decide))).
  set (c1 := loaded (saved_words x) arg_loads c).
  assert (c1 RSP = syscall_top - 80) as Hsp1 by done.
  set (m1 := <[c1 RSP - 8 := c1 RIP]> m).
  destruct (exec_call_run syscall_entry_c c1 d m v d' m1) as (c2 & m2 & E & Hv & Hk & Hf).
  { rewrite Hsp1. split_and!; [lia|lia|]. apply mod16_mod8.
    replace (syscall_top - 80) with (syscall_top + (-5) * 16) by lia. by rewrite Z.mod_add. }
  { rewrite Hsp1. replace (syscall_top - 80) with (syscall_top + (-5) * 16) by lia. by rewrite Z.mod_add. }
  { exact (run_syscall_entry_c _ _ _ _ _ _ d m1 v d' Hent). }
  cbn [exec_all]. run E. rewrite Hsp1 in Hf.
  assert (mem_frame (fun a => a = syscall_top - 88) m m1) as Hf1 by (apply mem_frame_insert; lia).
  exists c2, m2. split_and!; [done|done| | |].
  - intros r Hr. rewrite Hk by done. by destruct r.
  - eapply block_at_frame; [eapply block_at_frame; [exact Hb|exact Hf1|]|exact Hf|];
      simpl; intros; lia.
  - unfold syscall_area. eapply mem_frame_trans; (eapply mem_frame_mono; [|eassumption]); simpl; lia.
Qed.

(** The registers after [leave]: the return value, the user's stack, flags and
    return address from the block. *)
Lemma leave_run c d m ws rv sp fl ip :
  block_at m (c RSP) ws -> length ws = 10%nat -> drop 6 ws = [rv; sp; fl; ip] ->
  exists c', exec_all leave ((c, d), m) = Ret ((), ((c', d), m)) /\
    c' RAX = rv /\ c' RSP = sp /\ c' R11 = fl /\ c' RCX = ip /\ c' RIP = ip /\
    c' RFLAGS = sysret_flags fl /\
    c' CS = Z.lor (Z.shiftr (c MSR_STAR) 48 + 16) 3 /\
    c' SS = Z.lor (Z.shiftr (c MSR_STAR) 48 + 8) 3 /\
    (forall r, r ∉ [RAX; RSP; R11; RCX; RIP; RFLAGS; CS; SS] -> c' r = c r).
Proof.
  intros Hb Hlen Hd. pose proof Hb as [_ Hlo Hhi _]. rewrite Hlen in Hhi. simpl in Hhi.
  set (c1 := wr RSP (c RSP + 48) c).
  assert (exec (add_imm RSP 48) ((c, d), m) = Ret ((), ((c1, d), m))) as E1.
  { cbn [exec]. run (run_get_regs c d m). unfold wrap64. by rewrite Z.mod_small by lia. }
  assert (block_at m (c1 RSP) [rv; sp; fl; ip]) as Hb1.
  { rewrite <- Hd. unfold c1. rewrite wr_eq. eapply block_at_drop; [exact Hb|lia|lia]. }
  set (c2 := wr RAX rv (wr RSP (c RSP + 56) c1)).
  assert (exec (pop RAX) ((c1, d), m) = Ret ((), ((c2, d), m))) as E2.
  { cbn [exec]. pose proof (block_ptr _ _ _ 0 Hb1 ltac:(simpl; lia)) as Hp.
    pose proof (bl_words _ _ _ Hb1) as [Hw _]. replace (c1 RSP + 8 * Z.of_nat 0) with (c1 RSP) in Hp by lia.
    assert (c1 RSP = c RSP + 48) as Hc1 by apply wr_eq.
    run (exec_pop_run c1 d m Hp ltac:(lia)). rewrite run_set_reg, Hw, Hc1.
    by replace (c RSP + 48 + 8) with (c RSP + 56) by lia. }
  assert (block_at m (c2 RSP) [sp; fl; ip]) as Hb2.
  { change [sp; fl; ip] with (drop 1 [rv; sp; fl; ip]). eapply block_at_drop; [exact Hb1|simpl; lia|].
    unfold c2, c1. rewrite (wr_ne RAX), !wr_eq by done. lia. }
  unfold leave. cbn [exec_all]. run E1. run E2.
  run (exec_mov_from R11 RSP 8 1 fl [sp; fl; ip] c2 d m Hb2 eq_refl eq_refl).
  run (exec_mov_from RCX RSP 16 2 ip [sp; fl; ip] (wr R11 fl c2) d m Hb2 eq_refl eq_refl).
  run (exec_mov_from RSP RSP 0 0 sp [sp; fl; ip] (wr RCX ip (wr R11 fl c2)) d m Hb2 eq_refl eq_refl).
  eexists. split; [reflexivity|]. split_and!; try reflexivity.
  intros r Hr. unfold c2, c1. by rewrite !wr_ne by set_solver.
Qed.

(** The words on the kernel stack once the result is among them, and what
    the end of the handler makes of them. *)
Definition result_words (x : regfile) (rv : Z) : list Z :=
  [x R9; x R8; x R10; x RDX; x RSI; x RDI; rv; x RSP; x R11; x RCX].
Lemma restore_tail_run c x rv d m :
  block_at m (c RSP) (result_words x rv) ->
  exists c', exec_all (loads restores ++ leave) ((c, d), m) = Ret ((), ((c', d), m)) /\
    c' RAX = rv /\ c' RSP = x RSP /\ c' R11 = x R11 /\ c' RCX = x RCX /\ c' RIP = x RCX /\
    c' RFLAGS = sysret_flags (x R11) /\
    c' CS = Z.lor (Z.shiftr (c MSR_STAR) 48 + 16) 3 /\
    c' SS = Z.lor (Z.shiftr (c MSR_STAR) 48 + 8) 3 /\
    Forall (fun r => c' r = x r) [RDI; RSI; RDX; R10; R8; R9] /\
    (forall r, caller_saved r = false -> r ∉ [RSP; RIP; RFLAGS; CS; SS] -> c' r = c r).
Proof.
  intros Hb. set (ws := result_words x rv) in *.
  rewrite (exec_all_app _ _ _ _ (exec_loads restores ws c d m Hb ltac:(by_decide))).
  set (c2 := loaded ws restores c).
  destruct (leave_run c2 d m ws rv (x RSP) (x R11) (x RCX))
    as (c3 & E3 & J1 & J2 & J3 & J4 & J5 & J6 & J7 & J8 & Hk); [done..|].
  exists c3. split_and!; try done.
  - repeat constructor; rewrite Hk by set_solver; reflexivity.
  - intros r Hr Hni. rewrite Hk by (destruct r; discriminate Hr || set_solver).
    unfold c2. by destruct r; try reflexivity; set_solver.
Qed.

(** The epilogue stores the return value and restores the user's registers. *)
Lemma restore_run c x d m :
  c RSP = syscall_top - 80 -> block_at m (syscall_top - 80) (saved_words x) ->
  exists c' m',
    exec_all ([mov_to RSP 48 RAX; cli] ++ loads restores ++ leave) ((c, d), m) =
      Ret ((), ((c', d), m')) /\
    c' RAX = c RAX /\ c' RSP = x RSP /\ c' R11 = x R11 /\ c' RCX = x RCX /\ c' RIP = x RCX /\
    c' RFLAGS = sysret_flags (x R11) /\
    c' CS = Z.lor (Z.shiftr (c MSR_STAR) 48 + 16) 3 /\
    c' SS = Z.lor (Z.shiftr (c MSR_STAR) 48 + 8) 3 /\
    Forall (fun r => c' r = x r) [RDI; RSI; RDX; R10; R8; R9] /\
    (forall r, caller_saved r = false -> r ∉ [RSP; RIP; RFLAGS; CS; SS] -> c' r = c r) /\
    mem_frame (fun a => syscall_top - 80 <= a < syscall_top) m m' /\
    block_at m' (syscall_top - 80) (result_words x (c RAX)).
Proof.
  intros Hsp Hb. set (p := syscall_top - 80) in *.
  set (m1 := <[p + 8 * Z.of_nat 6 := c RAX]> m).
  assert (block_at m1 p (result_words x (c RAX))) as Hb1.
  { destruct Hb. constructor; try done. apply (words_at_insert m p (saved_words x) 6); [done|simpl; lia]. }
  set (c1 := wr RFLAGS (Z.ldiff (c RFLAGS) IF) c).
  assert (exec_all [mov_to RSP 48 RAX; cli] ((c, d), m) = Ret ((), ((c1, d), m1))) as E1.
  { cbn [exec_all]. rewrite <- Hsp in Hb.
    run (exec_mov_to RSP 48 6 RAX (saved_words x) c d m Hb ltac:(simpl; lia) eq_refl).
    rewrite Hsp. reflexivity. }
  rewrite (exec_all_app _ _ _ _ E1).
  destruct (restore_tail_run c1 x (c RAX) d m1) as (c3 & E3 & J1 & J2 & J3 & J4 & J5 & J6 & J7 & J8 & Jr & Hk).
  { unfold c1. by rewrite wr_ne, Hsp. }
  exists c3, m1. split_and!; try done.
  - intros r Hr Hni. rewrite Hk by done. unfold c1. by rewrite wr_ne by set_solver.
  - apply mem_frame_insert. unfold p. lia.
Qed.
End handler.
