(* ===== verification/SyscallTheorems.v ===== *)
(** * What system calls guarantee

    The properties of [kernel/src/tasks/syscall.rs]: a system call returns to
    the user program with every register it may rely on, in the user segments
    the tasks were created with; the kernel never reads outside user space on
    behalf of a user pointer; the results of the dispatcher on every branch. *)
From stdpp Require Import strings.
From S2P Require Import Prelude Machine Cpu Drivers Gdt Tasks TasksProofs SwitchProofs Syscall.
From S2P Require Import SyscallProofs.

(** ** Set-up *)

Section setup.
Context {ck : OverflowChecks} `{GdtLaws}.

Definition star_of_gdt : Z := 0x10000800000000.

Lemma gdt_star a :
  sysret_base_of (GDT a).2 = Ret 0x10 /\ star_value (code (GDT a).2) 0x10 = Ret star_of_gdt.
Proof. rewrite gdt_selectors. unfold sysret_base_of, star_value. simpl. by destruct ck. Qed.

Lemma run_serial_println frags d : serial_ready d = true ->
  serial_println frags d =
    Ret ((), mkDev true (console d ++ frags ++ [Text newline]) (lapic_address d) (mmio d)).
Proof. apply run_serial_print. Qed.

(** What [init_syscalls] prints, and the registers it leaves. *)
Definition syscall_report (handler : Z) : list output :=
  [Text "Setting up STAR register:"; Text newline; Text "  Kernel CS (SYSCALL): "; Hex 0x08; Text newline;
   Text "  SYSRET base: "; Hex 0x10; Text newline; Text "  SYSRET CS will be: "; Hex 0x20; Text newline;
   Text "  SYSRET SS will be: "; Hex 0x18; Text newline; Text "  STAR value: "; Hex star_of_gdt; Text newline;
   Text "Syscall initialized, handler at "; Hex handler; Text newline].
Lemma init_syscalls_run a handler f old d :
  serial_ready d = true ->
  init_syscalls (GDT a).2 handler f old d =
    Ret (mkControl (init_cr0 (cr0 old)) (init_cr4 f (cr4 old)) (Z.lor (efer old) (bit 0)) handler IF star_of_gdt,
         mkDev true (console d ++ syscall_report handler) (lapic_address d) (mmio d)).
Proof.
  intros Hs. destruct (gdt_star a) as [E1 E2].
  unfold init_syscalls. cbv zeta. run (run_lift _ d _ E1).
  assert (add64 0x10 16 = Ret 0x20 /\ add64 0x10 8 = Ret 0x18) as [E3 E4] by done.
  repeat (first [ run (run_serial_println _ _ Hs)
                | match goal with |- context [mbind _ (serial_println ?fr) ?s] =>
                    run (run_serial_println fr s eq_refl) end
                | match goal with |- context [mbind _ (lift _) ?s] =>
                    first [run (run_lift _ s _ E3) | run (run_lift _ s _ E4) | run (run_lift _ s _ E2)] end ]).
  rewrite gdt_selectors. cbn [console code]. by rewrite <- !app_assoc.
Qed.

(** The STAR value makes [syscall] load the kernel's selectors and [sysretq]
    the user's. *)
Lemma star_selectors a :
  Z.land (Z.shiftr star_of_gdt 32) 0xFFFC = code (GDT a).2 /\
  Z.land (Z.shiftr star_of_gdt 32) 0xFFFC + 8 = data (GDT a).2 /\
  (forall e s, Z.lor (Z.shiftr star_of_gdt 48 + 16) 3 = cs (new_user (GDT a).2 e s) /\
               Z.lor (Z.shiftr star_of_gdt 48 + 8) 3 = ss (new_user (GDT a).2 e s)).
Proof. rewrite gdt_selectors. done. Qed.

Lemma init_cr0_bits old n : 0 <= n ->
  Z.testbit (init_cr0 old) n =
    if decide (n = 18 \/ n = 5 \/ n = 1) then true
    else if decide (n = 30 \/ n = 29) then false else Z.testbit old n.
Proof.
  intros Hn. unfold init_cr0, update. rewrite Z.ldiff_spec, Z.lor_spec.
  change (Z.lor (bit 18) (Z.lor (bit 5) (bit 1))) with (Z.lor (Z.shiftl 1 18) (Z.lor (Z.shiftl 1 5) (Z.shiftl 1 1))).
  change (Z.lor (bit 30) (bit 29)) with (Z.lor (Z.shiftl 1 30) (Z.shiftl 1 29)).
  rewrite !Z.lor_spec, !Z.shiftl_1_l, !Z.pow2_bits_eqb by lia.
  repeat case_decide; destruct (Z.testbit old n);
    repeat match goal with |- context [?x =? n] => destruct (Z.eqb_spec x n) end; simpl; lia || naive_solver.
Qed.

(** [init_syscalls] succeeds once the console is up, installs the entry point
    and masks interrupts on entry, and the STAR value it writes makes [syscall]
    load the kernel's code and data selectors of the GDT and [sysretq] the user
    selectors that [TaskContext::new_user] puts in a task's context; CR0 gets
    alignment checks and caching as the code says and keeps its other bits. *)
Theorem init_syscalls_correct a handler f old d :
  serial_ready d = true ->
  let sel := (GDT a).2 in
  exists ctl d', init_syscalls sel handler f old d = Ret (ctl, d') /\
    lstar ctl = handler /\ sfmask ctl = IF /\ Z.testbit (efer ctl) 0 = true /\
    Z.land (Z.shiftr (star ctl) 32) 0xFFFC = code sel /\
    Z.land (Z.shiftr (star ctl) 32) 0xFFFC + 8 = data sel /\
    (forall e s, Z.lor (Z.shiftr (star ctl) 48 + 16) 3 = cs (new_user sel e s) /\
                 Z.lor (Z.shiftr (star ctl) 48 + 8) 3 = ss (new_user sel e s)) /\
    (forall n, 0 <= n -> Z.testbit (cr0 ctl) n =
       if decide (n = 18 \/ n = 5 \/ n = 1) then true
       else if decide (n = 30 \/ n = 29) then false else Z.testbit (cr0 old) n).
Proof.
  intros Hs sel. destruct (star_selectors a) as (E1 & E2 & E3). eexists _, _.
  split; [exact (init_syscalls_run a handler f old d Hs)|]. cbn [lstar sfmask efer star cr0].
  split_and!; [done|done| |exact E1|exact E2|exact E3|].
  - rewrite Z.lor_spec. by rewrite orb_true_r.
  - apply init_cr0_bits.
Qed.
End setup.

(** ** The path of a system call *)

Section path.
Context {ck : OverflowChecks} `{UserMemory} `{Heap} `{CalleeFrameLaws} `{GdtLaws}.

(** The registers a user program keeps across a system call. *)
Definition kept_regs : list reg :=
  [RSP; RBX; RBP; RDI; RSI; RDX; R8; R9; R10; R12; R13; R14; R15; DS; ES; FS; GS;
   MSR_STAR; MSR_LSTAR; MSR_SFMASK].

(** The instruction, the handler and the return, one after the other, and what
    is left on the system-call stack. *)
Lemma syscall_path_full ks temp next a c d m v d' :
  syscall_layout ks temp -> c MSR_STAR = star_of_gdt ->
  syscall_entry (c RAX) (c RDI) (c RSI) (c RDX) (c R10) (c R8) d = Ret (v, d') ->
  exists c' m',
    (exec_syscall next;; exec_all (syscall_handler ks temp)) ((c, d), m) = Ret ((), ((c', d'), m')) /\
    c' RAX = v /\ c' RIP = next /\ c' RCX = next /\ c' R11 = c RFLAGS /\
    c' RFLAGS = sysret_flags (c RFLAGS) /\
    (forall e s, c' CS = cs (new_user (GDT a).2 e s) /\ c' SS = ss (new_user (GDT a).2 e s)) /\
    Forall (fun r => c' r = c r) kept_regs /\
    mem_frame (fun x => syscall_area ks x \/ x = temp) m m' /\
    block_at m' (syscall_top ks - 80) [c R9; c R8; c R10; c RDX; c RSI; c RDI; v; c RSP; c RFLAGS; next].
Proof.
  intros Hl Hstar Hent. pose proof frame_size_pos as Hfs.
  set (cs0 := Z.land (Z.shiftr (c MSR_STAR) 32) 0xFFFC).
  set (x := wr RCX next (wr R11 (c RFLAGS)
    (wr RFLAGS (Z.lor (Z.ldiff (c RFLAGS) (c MSR_SFMASK)) 2)
      (wr RIP (c MSR_LSTAR) (wr CS cs0 (wr SS (cs0 + 8) c)))))).
  assert (exec_syscall next ((c, d), m) = Ret ((), ((x, d), m))) as E0 by done. run E0.
  destruct (saves_run ks temp x d m Hl) as (c1 & m1 & E1 & Hsp1 & Hb1 & Hk1 & Hf1).
  rewrite handler_code, (exec_all_app _ _ _ _ E1).
  destruct (call_run ks temp c1 x d m1 v d' Hl Hsp1 Hb1 Hent) as (c2 & m2 & E2 & Hv & Hk2 & Hb2 & Hf2).
  rewrite app_assoc, (exec_all_app _ _ _ _ E2).
  destruct (restore_run ks c2 x d' m2) as (c3 & m3 & E3 & J1 & J2 & J3 & J4 & J5 & J6 & J7 & J8 & Jr & Jk & Hf3 & Hb3);
    [by rewrite Hk2|done|].
  assert (c2 MSR_STAR = star_of_gdt) as Hstar2 by (rewrite Hk2, Hk1 by set_solver; exact Hstar).
  rewrite Hstar2 in J7, J8. exists c3, m3. split_and!; try done.
  - by rewrite J1.
  - intros e s. rewrite J7, J8, gdt_selectors. done.
  - rewrite !Forall_cons in Jr. destruct Jr as (R1 & R2 & R3 & R4 & R5 & R6 & _).
    repeat constructor; try done; (rewrite Jk, Hk2, Hk1 by set_solver); reflexivity.
  - eapply mem_frame_trans; [eapply mem_frame_mono; [|exact Hf1]|
      eapply mem_frame_trans; [eapply mem_frame_mono; [|exact Hf2]|eapply mem_frame_mono; [|exact Hf3]]];
      unfold syscall_area; simpl; intros; lia || tauto || (left; lia).
  - by rewrite <- Hv.
Qed.
Lemma syscall_path_run ks temp next a c d m v d' :
  syscall_layout ks temp -> c MSR_STAR = star_of_gdt ->
  syscall_entry (c RAX) (c RDI) (c RSI) (c RDX) (c R10) (c R8) d = Ret (v, d') ->
  exists c' m',
    (exec_syscall next;; exec_all (syscall_handler ks temp)) ((c, d), m) = Ret ((), ((c', d'), m')) /\
    c' RAX = v /\ c' RIP = next /\ c' RCX = next /\ c' R11 = c RFLAGS /\
    c' RFLAGS = sysret_flags (c RFLAGS) /\
    (forall e s, c' CS = cs (new_user (GDT a).2 e s) /\ c' SS = ss (new_user (GDT a).2 e s)) /\
    Forall (fun r => c' r = c r) kept_regs /\
    mem_frame (fun x => syscall_area ks x \/ x = temp) m m'.
Proof.
  intros Hl Hs He. destruct (syscall_path_full ks temp next a c d m v d' Hl Hs He) as (c' & m' & E & Hrest).
  exists c', m'. split; [exact E|]. naive_solver.
Qed.

(** C3: a system call is transparent: [syscall], the handler and [sysretq] deliver
    RAX, RDI, RSI, RDX, R10 and R8 to [syscall_entry], return its result in RAX
    at the instruction after the call with the user's stack and flags, in the
    user segments of the GDT, restore every other register (RCX and R11 hold
    the return address and the flags, as the instruction set says), and write
    only the system-call stack and [USER_RSP_TEMP]. *)
Theorem syscall_transparent ks temp next a c d m v d' :
  syscall_layout ks temp -> c MSR_STAR = star_of_gdt ->
  syscall_entry (c RAX) (c RDI) (c RSI) (c RDX) (c R10) (c R8) d = Ret (v, d') ->
  exists c' m',
    (exec_syscall next;; exec_all (syscall_handler ks temp)) ((c, d), m) = Ret ((), ((c', d'), m')) /\
    c' RAX = v /\ c' RIP = next /\ c' RCX = next /\ c' R11 = c RFLAGS /\
    c' RFLAGS = sysret_flags (c RFLAGS) /\
    (forall e s, c' CS = cs (new_user (GDT a).2 e s) /\ c' SS = ss (new_user (GDT a).2 e s)) /\
    Forall (fun r => c' r = c r) kept_regs /\
    mem_frame (fun x => syscall_area ks x \/ x = temp) m m'.
Proof. apply syscall_path_run. Qed.
End path.

(** ** User memory *)

Section user.
Context {ck : OverflowChecks}.

Definition in_user_space (ptr len : Z) : Prop :=
  0 < ptr /\ ptr < USER_SPACE_LIMIT /\ ptr + len <= USER_SPACE_LIMIT.
#[global] Instance in_user_space_dec ptr len : Decision (in_user_space ptr len).
Proof. unfold in_user_space. apply _. Defined.

Lemma read_user_bytes_cases `{UserMemory} `{Heap} ptr len :
  is_u64 ptr -> is_u64 len ->
  read_user_bytes ptr len =
    if decide (in_user_space ptr len)
    then _ ← with_capacity len; result ← read_bytes ptr 0 (Z.to_nat len); Ret (Some result)
    else Ret None.
Proof.
  unfold is_u64, in_user_space, read_user_bytes, checked_add. intros Hp Hl.
  change USER_SPACE_LIMIT with 140737488355328.
  destruct (Z.leb_spec 140737488355328 ptr); simpl; [by rewrite decide_False by lia|].
  destruct (Z.eqb_spec ptr 0); simpl; [by rewrite decide_False by lia|].
  destruct (Z.ltb_spec (ptr + len) U64_LIM); [|by rewrite decide_False by lia].
  destruct (Z.ltb_spec 140737488355328 (ptr + len)); [by rewrite decide_False by lia|].
  by rewrite decide_True by lia.
Qed.

Lemma read_bytes_ok `{UserMemory} ptr i n bs :
  0 <= ptr -> 0 <= i -> ptr + i + Z.of_nat n < U64_LIM ->
  length bs = n -> (forall j b, bs !! j = Some b -> user_byte (ptr + i + Z.of_nat j) = Some b) ->
  read_bytes ptr i n = Ret bs.
Proof.
  revert i bs. induction n as [|n IH]; intros i bs Hp Hi Hlim Hlen Hbs; simpl.
  { by destruct bs. }
  destruct bs as [|b bs]; [done|]. simpl in Hlen. rewrite add64_ok by lia. simpl.
  unfold read_byte. replace (ptr + i) with (ptr + i + Z.of_nat 0) by lia.
  rewrite (Hbs 0%nat b) by done. simpl. rewrite (IH (i + 1) bs); [done|lia..|].
  intros j b' Hj. replace (ptr + (i + 1) + Z.of_nat j) with (ptr + i + Z.of_nat (S j)) by lia.
  by apply Hbs.
Qed.

Lemma read_user_bytes_run `{UserMemory} `{Heap} ptr len bs :
  is_u64 ptr -> is_u64 len ->
  (~ in_user_space ptr len -> read_user_bytes ptr len = Ret None) /\
  (in_user_space ptr len -> with_capacity len = Ret () -> Z.of_nat (length bs) = len ->
   (forall j b, bs !! j = Some b -> user_byte (ptr + Z.of_nat j) = Some b) ->
   read_user_bytes ptr len = Ret (Some bs)).
Proof.
  intros Hp Hl. rewrite read_user_bytes_cases by done. split.
  - intros. by rewrite decide_False.
  - intros Hin Hcap Hlen Hbs. rewrite decide_True, Hcap by done. simpl.
    unfold in_user_space, is_u64 in *. change USER_SPACE_LIMIT with 140737488355328 in *.
    rewrite (read_bytes_ok ptr 0 (Z.to_nat len) bs); [done|lia..|].
    intros j b Hj. rewrite Z.add_0_r. by apply Hbs.
Qed.

(** [read_user_bytes] copies exactly the bytes of the buffer when it is mapped,
    non-null and entirely below the user-space limit (and the heap can hold
    it), and returns [None] without touching memory for every other pointer
    and length, those whose sum wraps around included. *)
Theorem read_user_bytes_correct `{UserMemory} `{Heap} ptr len bs :
  is_u64 ptr -> is_u64 len ->
  (~ in_user_space ptr len -> read_user_bytes ptr len = Ret None) /\
  (in_user_space ptr len -> with_capacity len = Ret () -> Z.of_nat (length bs) = len ->
   (forall j b, bs !! j = Some b -> user_byte (ptr + Z.of_nat j) = Some b) ->
   read_user_bytes ptr len = Ret (Some bs)).
Proof. apply read_user_bytes_run. Qed.

(** Two user memories that agree on user space. *)
Definition same_user (U1 U2 : UserMemory) : Prop :=
  forall a, 0 < a < USER_SPACE_LIMIT -> U1 a = U2 a.

Lemma read_bytes_same (U1 U2 : UserMemory) ptr i n :
  same_user U1 U2 -> 0 < ptr -> 0 <= i -> ptr + i + Z.of_nat n <= USER_SPACE_LIMIT ->
  @read_bytes ck U1 ptr i n = @read_bytes ck U2 ptr i n.
Proof.
  intros Hs Hp. revert i. induction n as [|n IH]; intros i Hi Hlim; [done|].
  simpl. change USER_SPACE_LIMIT with 140737488355328 in Hlim.
  rewrite add64_ok by lia. simpl. unfold read_byte.
  assert (@user_byte U1 (ptr + i) = @user_byte U2 (ptr + i)) as ->.
  { apply Hs. change USER_SPACE_LIMIT with 140737488355328. lia. }
  rewrite IH; [done|lia|]. change USER_SPACE_LIMIT with 140737488355328. lia.
Qed.

(** C16: no system call reveals memory at or above [USER_SPACE_LIMIT]: the result,
    the console output and every other effect of [syscall_entry] are the same for any two memories
    that agree below the user-space limit, whatever the arguments. *)
Theorem kernel_memory_isolated (U1 U2 : UserMemory) `{Heap} num a1 a2 a3 a4 a5 d :
  same_user U1 U2 -> is_u64 a2 -> is_u64 a3 ->
  @syscall_entry ck U1 _ num a1 a2 a3 a4 a5 d = @syscall_entry ck U2 _ num a1 a2 a3 a4 a5 d.
Proof.
  intros Hs Hp Hl.
  assert (@read_user_bytes ck U1 _ a2 a3 = @read_user_bytes ck U2 _ a2 a3) as Hr.
  { rewrite !read_user_bytes_cases by done. case_decide as Hin; [|done].
    destruct Hin as (? & ? & ?). unfold is_u64 in *.
    by rewrite (read_bytes_same U1 U2) by (done || lia). }
  unfold syscall_entry. by rewrite Hr.
Qed.

(** The results of [syscall_entry] on every branch that returns: unknown
    numbers and bad file descriptors report their error codes, an invalid
    buffer 14 ([write]) or -1 ([write_bytes]), and a valid one is printed in
    full and returns 0 or its length. *)
Theorem syscall_entry_results `{UserMemory} `{Heap} num fd ptr len a4 a5 d bs :
  serial_ready d = true -> is_u64 ptr -> is_u64 len ->
  let run := syscall_entry num fd ptr len a4 a5 d in
  let printed fr := mkDev true (console d ++ fr ++ [Text newline]) (lapic_address d) (mmio d) in
  (num <> 1 -> num <> 2 ->
   run = Ret (U64_MAX, printed [Text "[kernel] Unknown syscall: num="; Dec num])) /\
  (num = 1 -> fd <> 1 -> run = Ret (1, d)) /\
  (num = 2 -> fd <> 1 -> run = Ret (U64_MAX, d)) /\
  (num = 1 -> fd = 1 -> ~ in_user_space ptr len ->
   run = Ret (14, printed [Text "[kernel] write: invalid user pointer "; Hex ptr;
                           Text " or length "; Dec len])) /\
  (num = 2 -> fd = 1 -> ~ in_user_space ptr len ->
   run = Ret (U64_MAX, printed [Text "[kernel] write_bytes: invalid user pointer "; Hex ptr;
                                Text " or length "; Dec len])) /\
  (num = 1 \/ num = 2 -> fd = 1 -> read_user_bytes ptr len = Ret (Some bs) ->
   lossy_alloc bs = true ->
   run = Ret (if decide (num = 1) then 0 else len, printed [Text "[user] "; Lossy bs])).
Proof.
  intros Hs Hp Hl run printed. unfold run, syscall_entry.
  assert (~ in_user_space ptr len -> read_user_bytes ptr len = Ret None) as Hnone.
  { intros. by rewrite read_user_bytes_cases, decide_False. }
  split_and!.
  - intros H1 H2. rewrite (proj2 (Z.eqb_neq num 1)), (proj2 (Z.eqb_neq num 2)) by done.
    by run (run_serial_println [Text "[kernel] Unknown syscall: num="; Dec num] d Hs).
  - intros -> Hfd. simpl. by rewrite (proj2 (Z.eqb_neq fd 1)).
  - intros -> Hfd. simpl. by rewrite (proj2 (Z.eqb_neq fd 1)).
  - intros -> -> Hno. simpl. run (run_lift _ d _ (Hnone Hno)).
    by run (run_serial_println _ d Hs).
  - intros -> -> Hno. simpl. run (run_lift _ d _ (Hnone Hno)).
    by run (run_serial_println _ d Hs).
  - intros Hnum -> Hrd Hlossy. assert (from_utf8_lossy bs = Ret (Lossy bs)) as Hu
      by (unfold from_utf8_lossy; by rewrite Hlossy).
    destruct Hnum as [-> | ->]; simpl; run (run_lift _ d _ Hrd); run (run_lift _ d _ Hu);
      by run (run_serial_println _ d Hs).
Qed.

(** A length is only bounded by the address space: when the heap cannot hold
    the buffer the kernel panics, so that a user program with a large mapped
    range, or only a large length, ends the kernel instead of getting an error
    code. *)
Theorem oversized_write_panics `{UserMemory} `{Heap} num ptr len a4 a5 d :
  num = 1 \/ num = 2 -> is_u64 ptr -> is_u64 len -> in_user_space ptr len ->
  0 < len -> heap_alloc len = false ->
  syscall_entry num 1 ptr len a4 a5 d = Panic.
Proof.
  intros Hnum Hp Hl Hin Hpos Hheap.
  assert (read_user_bytes ptr len = Panic) as Hr.
  { rewrite read_user_bytes_cases, decide_True by done. unfold with_capacity.
    by rewrite Hheap, (proj2 (Z.eqb_neq len 0)) by lia. }
  unfold syscall_entry. destruct Hnum as [-> | ->]; simpl; unfold mbind, M_bind, lift; by rewrite Hr.
Qed.
End user.

(** ** A user program that writes three bytes *)
Module Demo.
Import ReferenceFrame ReferenceGdt.
#[local] Instance demo_checks : OverflowChecks := true.
#[local] Instance demo_user : UserMemory := fun a =>
  if decide (0x400000 <= a < 0x401000) then Some (a mod 256) else None.
#[local] Instance demo_heap : Heap := {|
  heap_alloc := fun n => n <=? 4096;
  lossy_alloc := fun _ => true;
|}.

Definition demo_dev : devices := mkDev true [] 0xFEE00000 [].
Definition demo_user_regs : regfile := fun r =>
  match r with
  | RAX => 1 | RDI => 1 | RSI => 0x400010 | RDX => 3 | RSP => 0x7FFFFE000 | RFLAGS => 0x202
  | CS => 0x23 | SS => 0x1B | MSR_STAR => star_of_gdt | MSR_SFMASK => IF | RBX => 5 | _ => 0
  end.
Definition demo_bytes : list Z := [16; 17; 18].
Definition demo_after : devices :=
  mkDev true [Text "[user] "; Lossy demo_bytes; Text newline] 0xFEE00000 [].

Lemma demo_layout : syscall_layout 0x100000 0x200000.
Proof.
  assert (valid_ptr 0x200000) by by_decide.
  constructor; [lia|by vm_compute|done|done|]. unfold syscall_area, syscall_top, SYSCALL_STACK_SIZE. simpl. lia.
Qed.

Lemma demo_syscall : syscall_entry 1 1 0x400010 3 0 0 demo_dev = Ret (0, demo_after).
Proof. vm_compute. reflexivity. Qed.

Lemma demo_u64 n : 0 <= n < 1000000000000 -> is_u64 n.
Proof. unfold is_u64. lia. Qed.

Lemma init_syscalls_correct_witness :
  exists ctl d', init_syscalls (GDT 0).2 0x1000 (mkFeatures None None None)
      (mkControl 0 0 0 0 0 0) demo_dev = Ret (ctl, d') /\ star ctl = star_of_gdt.
Proof.
  destruct (init_syscalls_correct 0 0x1000 (mkFeatures None None None)
    (mkControl 0 0 0 0 0 0) demo_dev eq_refl) as (ctl & d' & E & _).
  exists ctl, d'. split; [exact E|]. vm_compute in E. injection E as <- _. reflexivity.
Defined.

Lemma syscall_transparent_witness :
  exists c' m',
    (exec_syscall 0x400123;; exec_all (syscall_handler 0x100000 0x200000))
      ((demo_user_regs, demo_dev), ∅) = Ret ((), ((c', demo_after), m')) /\
    c' RAX = 0 /\ c' RIP = 0x400123 /\ Forall (fun r => c' r = demo_user_regs r) kept_regs.
Proof.
  destruct (syscall_transparent 0x100000 0x200000 0x400123 0 demo_user_regs demo_dev ∅ 0 demo_after
    demo_layout eq_refl demo_syscall) as (c' & m' & E & H1 & H2 & _ & _ & _ & _ & Hk & _).
  exists c', m'. repeat (split; [assumption|]). exact Hk.
Defined.

Lemma demo_bytes_mapped j b :
  demo_bytes !! j = Some b -> user_byte (0x400010 + Z.of_nat j) = Some b.
Proof.
  intros Hj. destruct j as [|[|[|j]]]; simpl in Hj; try done; injection Hj as <-; reflexivity.
Qed.

Lemma read_user_bytes_correct_witness :
  in_user_space 0x400010 3 /\ read_user_bytes 0x400010 3 = Ret (Some demo_bytes).
Proof.
  assert (in_user_space 0x400010 3) as Hin by (unfold in_user_space, USER_SPACE_LIMIT; lia).
  split; [exact Hin|].
  apply (proj2 (read_user_bytes_correct 0x400010 3 demo_bytes
    (demo_u64 0x400010 ltac:(lia)) (demo_u64 3 ltac:(lia)))).
  - exact Hin.
  - reflexivity.
  - reflexivity.
  - exact demo_bytes_mapped.
Defined.

(** The same memory below the limit, another one above. *)
Definition demo_user2 : UserMemory := fun a =>
  if decide (0 < a < USER_SPACE_LIMIT) then demo_user a else Some 7.

Lemma kernel_memory_isolated_witness :
  @syscall_entry _ demo_user _ 1 1 0x400010 3 0 0 demo_dev =
  @syscall_entry _ demo_user2 _ 1 1 0x400010 3 0 0 demo_dev.
Proof.
  apply (kernel_memory_isolated demo_user demo_user2 1 1 0x400010 3 0 0 demo_dev).
  - intros a Ha. unfold demo_user2. by rewrite decide_True.
  - apply demo_u64. lia.
  - apply demo_u64. lia.
Defined.

Lemma syscall_entry_results_witness :
  syscall_entry 1 1 0x400010 3 0 0 demo_dev = Ret (0, demo_after).
Proof.
  apply (syscall_entry_results 1 1 0x400010 3 0 0 demo_dev demo_bytes).
  - reflexivity.
  - apply demo_u64. lia.
  - apply demo_u64. lia.
  - by left.
  - reflexivity.
  - reflexivity.
  - reflexivity.
Defined.

Lemma oversized_write_panics_witness : syscall_entry 1 1 0x400010 8192 0 0 demo_dev = Panic.
Proof.
  apply (oversized_write_panics 1 0x400010 8192 0 0 demo_dev).
  - by left.
  - apply demo_u64. lia.
  - apply demo_u64. lia.
  - unfold in_user_space, USER_SPACE_LIMIT. lia.
  - lia.
  - reflexivity.
Defined.
End Demo.
