(* ===== verification/UserProgram.v ===== *)
(** * The user program: [userspace/rs_helloworld/src/main.rs]

    The program the kernel starts: it prints three lines and then one line for
    ever, each through the [write] system call.  It runs on the processor of
    [Cpu] against the kernel's system-call path.  The program's strings are
    where the linker put them, the registers not named by the inline assembly
    are left alone. *)
From stdpp Require Import strings.
From S2P Require Import Prelude Machine Cpu Drivers Gdt Tasks TasksProofs SwitchProofs Syscall.
From S2P Require Import SyscallProofs SyscallTheorems.

(** The bytes of an ASCII string. *)
Definition string_bytes (s : string) : list Z :=
  (fun c => Z.of_nat (Ascii.nat_of_ascii c)) <$> String.list_ascii_of_string s.

(** Where the program's code and strings are: the address of a string, of the
    instruction after the [syscall] in [print], and of the one after the call
    of [main]. *)
Class ProgramLayout := {
  str_addr : string -> Z;
  after_syscall : Z;
  after_main : Z;
}.

Section code.
Context {ck : OverflowChecks} `{UserMemory} `{Heap} `{CalleeFrame} `{ProgramLayout}.
(** The kernel's system-call stack and [USER_RSP_TEMP]. *)
Context (kernel_stack user_rsp_temp : Z).

Abbreviation U := (M ((regfile * devices) * mem)).

(** The inputs of the inline assembly, [syscall] and the kernel until it
    returns. *)
Definition print (s : string) : U () :=
  exec_all [mov_val RAX 1; mov_val RDI 1; mov_val RSI (str_addr s);
            mov_val RDX (Z.of_nat (length (string_bytes s)))];;
  exec_syscall after_syscall;;
  exec_all (syscall_handler kernel_stack user_rsp_temp).

(** The first [n] rounds of the loop; the delay only executes [pause]. *)
Fixpoint main_loop (n : nat) : U () :=
  match n with
  | O => mret ()
  | S n => print "Hello, world!";; main_loop n
  end.

Definition user_main (n : nat) : U () :=
  print "Test";;
  print "More test";;
  print "Test";;
  main_loop n.

(** [_start] calls [main]: the return address is pushed. *)
Definition start (n : nat) : U () :=
  exec_all [push_val after_main];;
  user_main n.
End code.

Section proofs.
Context {ck : OverflowChecks} `{UserMemory} `{Heap} `{CalleeFrameLaws} `{GdtLaws} `{ProgramLayout}.
Context (ks temp : Z).

(** A string the program can print: mapped in user space, and small enough for
    the kernel's heap. *)
Record printable (s : string) : Prop := {
  pr_space : in_user_space (str_addr s) (Z.of_nat (length (string_bytes s)));
  pr_bytes j b : string_bytes s !! j = Some b -> user_byte (str_addr s + Z.of_nat j) = Some b;
  pr_heap : with_capacity (Z.of_nat (length (string_bytes s))) = Ret ();
  pr_lossy : lossy_alloc (string_bytes s) = true;
}.

(** The line the kernel prints for it. *)
Definition user_line (s : string) : list output := [Text "[user] "; Lossy (string_bytes s); Text newline].

Definition with_output (d : devices) (out : list output) : devices :=
  mkDev true (console d ++ out) (lapic_address d) (mmio d).

Lemma write_call_run s a4 a5 d : printable s -> serial_ready d = true ->
  syscall_entry 1 1 (str_addr s) (Z.of_nat (length (string_bytes s))) a4 a5 d =
    Ret (0, with_output d (user_line s)).
Proof.
  intros [Hin Hb Hcap Hlo] Hs. set (n := Z.of_nat (length (string_bytes s))) in *.
  assert (is_u64 (str_addr s) /\ is_u64 n) as [Hp Hl].
  { unfold in_user_space, is_u64, USER_SPACE_LIMIT in *. unfold n in *. lia. }
  assert (read_user_bytes (str_addr s) n = Ret (Some (string_bytes s))) as E1
    by (by apply (proj2 (read_user_bytes_run (str_addr s) n (string_bytes s) Hp Hl))).
  assert (from_utf8_lossy (string_bytes s) = Ret (Lossy (string_bytes s))) as E2
    by (unfold from_utf8_lossy; by rewrite Hlo).
  unfold syscall_entry. simpl. run (run_lift _ d _ E1). run (run_lift _ d _ E2).
  by run (run_serial_println [Text "[user] "; Lossy (string_bytes s)] d Hs).
Qed.

(** What a printing program can rely on afterwards: it is in user mode with its
    stack and the registers the kernel restores. *)
Definition user_kept (c c' : regfile) : Prop :=
  Forall (fun r => c' r = c r) [RSP; RBX; RBP; R8; R9; R10; R12; R13; R14; R15; DS; ES; FS; GS;
    MSR_STAR; MSR_LSTAR; MSR_SFMASK].

Lemma user_kept_refl c : user_kept c c.
Proof. by repeat constructor. Qed.
Lemma user_kept_trans c1 c2 c3 : user_kept c1 c2 -> user_kept c2 c3 -> user_kept c1 c3.
Proof.
  unfold user_kept. rewrite !Forall_forall. intros H12 H23 r Hr. by rewrite H23, H12.
Qed.

Lemma print_run s a c d m :
  syscall_layout ks temp -> c MSR_STAR = star_of_gdt -> printable s -> serial_ready d = true ->
  exists c' m', print ks temp s ((c, d), m) = Ret ((), ((c', with_output d (user_line s)), m')) /\
    user_kept c c' /\ c' RAX = 0 /\ c' RIP = after_syscall /\
    (forall e st, c' CS = cs (new_user (GDT a).2 e st) /\ c' SS = ss (new_user (GDT a).2 e st)) /\
    mem_frame (fun x => syscall_area ks x \/ x = temp) m m'.
Proof.
  intros Hl Hstar Hp Hs. set (n := Z.of_nat (length (string_bytes s))).
  set (c1 := wr RDX n (wr RSI (str_addr s) (wr RDI 1 (wr RAX 1 c)))).
  assert (exec_all [mov_val RAX 1; mov_val RDI 1; mov_val RSI (str_addr s); mov_val RDX n]
    ((c, d), m) = Ret ((), ((c1, d), m))) as E1 by reflexivity.
  destruct (syscall_path_run ks temp after_syscall a c1 d m 0 (with_output d (user_line s)) Hl Hstar)
    as (c' & m' & E & Hax & Hip & _ & _ & _ & Hseg & Hk & Hf).
  { by apply write_call_run. }
  exists c', m'. split_and!; [|..|done|done|done|done].
  - unfold print. run E1. exact E.
  - unfold user_kept. unfold kept_regs in Hk. rewrite Forall_forall in Hk. apply Forall_forall. intros r Hr.
    rewrite (Hk r) by set_solver. unfold c1. by rewrite !wr_ne by set_solver.
Qed.

(** ** Sequences of lines *)

Definition in_user_mode (a : Z) (c : regfile) : Prop :=
  forall e st, c CS = cs (new_user (GDT a).2 e st) /\ c SS = ss (new_user (GDT a).2 e st).

Fixpoint prints (l : list string) : M ((regfile * devices) * mem) () :=
  match l with
  | [] => mret ()
  | s :: l => print ks temp s;; prints l
  end.

Lemma main_loop_prints n : main_loop ks temp n = prints (replicate n "Hello, world!").
Proof. induction n as [|n IH]; [done|]. cbn [main_loop replicate prints]. by rewrite IH. Qed.
Lemma user_main_prints n :
  user_main ks temp n = prints ("Test" :: "More test" :: "Test" :: replicate n "Hello, world!").
Proof. unfold user_main. by rewrite main_loop_prints. Qed.

Lemma with_output_app d o1 o2 : with_output (with_output d o1) o2 = with_output d (o1 ++ o2).
Proof. unfold with_output. simpl. by rewrite app_assoc. Qed.

Lemma prints_run a l : forall c d m,
  syscall_layout ks temp -> c MSR_STAR = star_of_gdt -> in_user_mode a c -> Forall printable l ->
  serial_ready d = true ->
  exists c' m', prints l ((c, with_output d []), m) =
      Ret ((), ((c', with_output d (mjoin (user_line <$> l))), m')) /\
    user_kept c c' /\ in_user_mode a c' /\ mem_frame (fun x => syscall_area ks x \/ x = temp) m m'.
Proof.
  induction l as [|s l IH]; intros c d m Hl Hstar Hu Hp Hs.
  - exists c, m. split_and!; [done|apply user_kept_refl|done|apply mem_frame_refl].
  - apply Forall_cons in Hp as [Hps Hp].
    destruct (print_run s a c (with_output d []) m Hl Hstar Hps eq_refl) as (c1 & m1 & E1 & Hk1 & _ & _ & Hu1 & Hf1).
    rewrite with_output_app in E1. cbn [app] in E1.
    assert (c1 MSR_STAR = star_of_gdt) as Hstar1.
    { unfold user_kept in Hk1. rewrite Forall_forall in Hk1. rewrite Hk1 by set_solver. done. }
    destruct (IH c1 (with_output d (user_line s)) m1 Hl Hstar1 Hu1 Hp eq_refl) as (c2 & m2 & E2 & Hk2 & Hu2 & Hf2).
    rewrite !with_output_app, app_nil_r in E2. exists c2, m2. split_and!; [|by eapply user_kept_trans|done|].
    + cbn [prints]. run E1. exact E2.
    + by eapply mem_frame_trans.
Qed.

(** The user program and the kernel together.  Started in user mode, after
    any number of rounds of its loop, the program has had the kernel print
    exactly its three opening lines and one greeting for each round, in order,
    and nothing else; it is still in user mode, on its stack, with the registers
    the calls must keep, and no memory but the return address of [main], the
    system-call stack and [USER_RSP_TEMP] has been written. *)
Theorem user_program_output n a c d m :
  syscall_layout ks temp -> c MSR_STAR = star_of_gdt -> in_user_mode a c ->
  Forall printable ["Test"; "More test"; "Hello, world!"] ->
  stack_room (c RSP) 1 -> serial_ready d = true ->
  exists c' m', start ks temp n ((c, d), m) =
      Ret ((), ((c', with_output d (user_line "Test" ++ user_line "More test" ++ user_line "Test" ++
        mjoin (replicate n (user_line "Hello, world!")))), m')) /\
    in_user_mode a c' /\ c' RSP = c RSP - 8 /\
    Forall (fun r => c' r = c r) [RBX; RBP; R12; R13; R14; R15] /\
    mem_frame (fun x => c RSP - 8 <= x < c RSP \/ syscall_area ks x \/ x = temp) m m'.
Proof.
  intros Hl Hstar Hu Hp Hroom Hs. rewrite !Forall_cons in Hp. destruct Hp as (P1 & P2 & P3 & _).
  destruct (exec_push_vals [after_main] c d m Hroom) as (c1 & m1 & E1 & Hsp & Hbut & _ & Hf1).
  unfold but_rsp in Hbut. assert (forall r, r <> RSP -> c1 r = c r) as Hr1 by auto. clear Hbut. cbn in Hsp.
  assert (in_user_mode a c1) as Hu1 by (intros e st; rewrite !Hr1 by done; apply Hu).
  assert (d = with_output d []) as Ed by (unfold with_output; rewrite app_nil_r, <- Hs; by destruct d).
  destruct (prints_run a ("Test" :: "More test" :: "Test" :: replicate n "Hello, world!") c1 d m1) as
    (c2 & m2 & E2 & Hk & Hu2 & Hf); [done|by rewrite Hr1|done| |done|].
  { repeat (apply Forall_cons; split; [done|]). by apply Forall_replicate. }
  exists c2, m2. unfold user_kept in Hk. rewrite Forall_forall in Hk. split_and!.
  - unfold start. run E1. rewrite user_main_prints, Ed, E2, with_output_app. do 4 f_equal.
    by rewrite !fmap_cons, fmap_replicate.
  - done.
  - rewrite Hk by set_solver. lia.
  - apply Forall_forall. intros r Hr. rewrite Hk, Hr1 by set_solver. done.
  - eapply mem_frame_trans; [eapply mem_frame_mono; [|exact Hf1]|eapply mem_frame_mono; [|exact Hf]]; intros x Hx;
      [simpl in Hx; left; lia|tauto].
Qed.
End proofs.

(** ** Witness: a program whose strings are at 0x400000 *)

Module Demo.
Import ReferenceFrame ReferenceGdt.
#[local] Existing Instances SyscallTheorems.Demo.demo_checks SyscallTheorems.Demo.demo_heap.
#[local] Instance demo_program : ProgramLayout := {|
  str_addr := fun s => if decide (s = "Test") then 0x400000 else if decide (s = "More test") then 0x400010 else 0x400020;
  after_syscall := 0x401010; after_main := 0x401000;
|}.
(** The read-only data of the program. *)
Definition demo_rodata : list (Z * list Z) :=
  [(0x400000, string_bytes "Test"); (0x400010, string_bytes "More test"); (0x400020, string_bytes "Hello, world!")].
Fixpoint rodata_byte (l : list (Z * list Z)) (a : Z) : option Z :=
  match l with
  | [] => None
  | (p, bs) :: l => if decide (p <= a < p + Z.of_nat (length bs)) then bs !! Z.to_nat (a - p) else rodata_byte l a
  end.
#[local] Instance demo_memory : UserMemory := rodata_byte demo_rodata.

Lemma demo_printable s : s ∈ ["Test"; "More test"; "Hello, world!"] -> printable s.
Proof.
  intros Hs. repeat (apply elem_of_cons in Hs as [->|Hs]; [|]); [..|by apply elem_of_nil in Hs];
    (constructor; [by_decide| |reflexivity|reflexivity]); intros j b Hj;
    pose proof (lookup_lt_Some _ _ _ Hj) as Hlt; vm_compute in Hlt;
    do 13 (try (destruct j as [|j]; [vm_compute in Hj |- *; exact Hj|])); lia.
Qed.

Lemma user_program_output_witness :
  exists c' m', start 0x100000 0x200000 2 ((SyscallTheorems.Demo.demo_user_regs, SyscallTheorems.Demo.demo_dev), ∅) =
    Ret ((), ((c', with_output SyscallTheorems.Demo.demo_dev (user_line "Test" ++ user_line "More test" ++
      user_line "Test" ++ user_line "Hello, world!" ++ user_line "Hello, world!")), m')).
Proof.
  destruct (user_program_output 0x100000 0x200000 2 0 SyscallTheorems.Demo.demo_user_regs SyscallTheorems.Demo.demo_dev ∅
    SyscallTheorems.Demo.demo_layout eq_refl ltac:(by intros e st; rewrite gdt_selectors)
    ltac:(apply Forall_forall; exact demo_printable) ltac:(split; [|split]; reflexivity) eq_refl) as (c' & m' & E & _).
  exists c', m'. exact E.
Defined.
End Demo.
