(* ===== verification/Preemption.v ===== *)
(** * Timer interrupts during programs and system calls

    The system-call entry of [kernel/src/tasks/syscall.rs] enables interrupts
    while it runs the dispatcher, on one static stack.  This file runs the user
    program and the handler of [kernel/src/tasks/switch.rs] on one machine, with
    timer interrupts between any two instructions where they are enabled; the
    dispatcher [syscall_entry], which is Rust, is one step. *)
From stdpp Require Import strings.
From S2P Require Import Prelude Machine Cpu Drivers Gdt Tasks TasksProofs SwitchProofs Syscall.
From S2P Require Import SyscallProofs SyscallTheorems TasksTheorems UserProgram.

Section code.
Context {ck : OverflowChecks} `{UserMemory} `{Heap} `{CalleeFrame} `{ProgramLayout}.
(** The stack of the TSS, the kernel's code segment, the timer's handler, and
    the statics of [syscall.rs]. *)
Context (rsp0 kcs handler kernel_stack user_rsp_temp : Z).

Abbreviation P := (M ((regfile * kernel) * mem)).

(** Code that uses only the devices of the kernel. *)
Definition set_kdev (d : devices) (k : kernel) : kernel := mkKernel (scheduler k) (sched_locked k) (tss_rsp0_ptr k) d.
Definition on_devices_cpu {A} (f : M ((regfile * devices) * mem) A) : P A := fun '((c, k), m) =>
  match f ((c, dev k), m) with
  | Ret (a, ((c', d), m')) => Ret (a, ((c', set_kdev d k), m'))
  | Panic => Panic | Undef => Undef | Hang => Hang | OutOfFuel => OutOfFuel
  end.

(** A timer interrupt, from its delivery to the return. *)
Definition timer_interrupt : P () := deliver rsp0 kcs handler;; exec_all timer_interrupt_entry.

(** [n] timer interrupts in a row, while they are enabled. *)
Fixpoint interrupts (n : nat) : P () :=
  match n with
  | O => mret ()
  | S n => c ← get_regs; if Z.testbit (c RFLAGS) 9 then timer_interrupt;; interrupts n else mret ()
  end.

(** Instructions with interrupts before each of them: the next number of [ns]. *)
Fixpoint exec_irq (p : list (instr devices)) (ns : list nat) : P () :=
  match p with
  | [] => mret ()
  | i :: p => interrupts (hd 0%nat ns);; on_devices_cpu (exec i);; exec_irq p (tail ns)
  end.

(** [print] of the user program: the inputs of the inline assembly, [syscall],
    the handler. *)
Definition print_irq (s : string) (ns1 : list nat) (n : nat) (ns2 : list nat) : P () :=
  exec_irq [mov_val RAX 1; mov_val RDI 1; mov_val RSI (str_addr s);
            mov_val RDX (Z.of_nat (length (string_bytes s)))] ns1;;
  interrupts n;;
  on_devices_cpu (exec_syscall after_syscall);;
  exec_irq (syscall_handler kernel_stack user_rsp_temp) ns2.

(** When the interrupts come: before the instructions of a [print], before its
    [syscall], before the instructions of the handler.  Those of the delay after
    a greeting come before the first instruction of the next [print]. *)
Abbreviation schedule := (list nat * nat * list nat)%type.
Fixpoint prints_irq (l : list string) (sch : list schedule) : P () :=
  match l with
  | [] => mret ()
  | s :: l =>
      let '(ns1, n, ns2) := hd ([], 0%nat, []) sch in
      print_irq s ns1 n ns2;; prints_irq l (tail sch)
  end.

(** [_start] and the first [n] rounds of the loop of [main]. *)
Definition start_irq (n : nat) (ns : list nat) (sch : list schedule) : P () :=
  exec_irq [push_val after_main] ns;;
  prints_irq ("Test" :: "More test" :: "Test" :: replicate n "Hello, world!") sch.
End code.

(** ** One task *)

(** A kernel with one task: what [main] sets up. *)
Record single (t : Task) (k : kernel) : Prop := {
  sg_ready : tick_ready k;
  sg_tasks : tasks (scheduler k) = [t];
  sg_rsp0 : tss_rsp0_ptr k = 0;
}.

(** The devices and the kernel after [n] ticks. *)
Definition ticks_dev (n : nat) (t : Task) (d : devices) : devices :=
  mkDev true (console d ++ replicate n (Dec (id t))) (lapic_address d) (mmio d ++ replicate n (lapic_address d + 0xB0, 0)).

(** Registers that agree but for the flags, where bit 9 agrees. *)
Definition same_regs (c c' : regfile) : Prop :=
  (forall r, r <> RFLAGS -> c' r = c r) /\ Z.testbit (c' RFLAGS) 9 = Z.testbit (c RFLAGS) 9.

Lemma same_regs_refl c : same_regs c c.
Proof. done. Qed.
Lemma same_regs_trans c1 c2 c3 : same_regs c1 c2 -> same_regs c2 c3 -> same_regs c1 c3.
Proof. intros [H1 F1] [H2 F2]. split; [intros r Hr; by rewrite H2, H1|by rewrite F2, F1]. Qed.

(** The returns to a program keep the interrupt flag. *)
Lemma iret_flags_if v : Z.testbit (iret_flags v) 9 = Z.testbit v 9.
Proof. unfold iret_flags. rewrite Z.lor_spec, Z.land_spec.
  change (Z.testbit 0x3D7FD5 9) with true. change (Z.testbit 2 9) with false. by rewrite andb_true_r, orb_false_r. Qed.
Lemma sysret_flags_if v : Z.testbit (sysret_flags v) 9 = Z.testbit v 9.
Proof. unfold sysret_flags. rewrite Z.lor_spec, Z.land_spec.
  change (Z.testbit 0x3C7FD5 9) with true. change (Z.testbit 2 9) with false. by rewrite andb_true_r, orb_false_r. Qed.

Lemma same_regs_ctx c c' :
  ctx_of c' = iret_ctx (ctx_of c) -> (forall r, r ∈ system_regs -> c' r = c r) -> same_regs c c'.
Proof.
  intros E Hs. unfold ctx_of, iret_ctx in E. simpl in E. injection E as ? ? ? ? ? ? ? ? ? ? ? ? ? ? ? ? ? Hf ? ?.
  split.
  - intros r Hr. destruct r; try done; apply Hs; set_solver.
  - rewrite Hf. apply iret_flags_if.
Qed.

Lemma ticks_dev_0 t d : serial_ready d = true -> ticks_dev 0 t d = d.
Proof. intros Hs. unfold ticks_dev. rewrite !app_nil_r. destruct d. simpl in *. by subst. Qed.
Lemma ticks_dev_add n1 n2 t d : ticks_dev n2 t (ticks_dev n1 t d) = ticks_dev (n1 + n2) t d.
Proof. unfold ticks_dev. simpl. by rewrite !replicate_add, !app_assoc. Qed.

Lemma single_dev t k d : single t k -> serial_ready d = true -> single t (set_kdev d k).
Proof. intros [[] ? ?] Hd. constructor; [by constructor|done|done]. Qed.
Lemma set_kdev_dev k : set_kdev (dev k) k = k.
Proof. by destruct k. Qed.
Lemma set_kdev_twice d d' k : set_kdev d' (set_kdev d k) = set_kdev d' k.
Proof. done. Qed.

Section interrupts.
Context {ck : OverflowChecks} `{CalleeFrameLaws}.
Context (rsp0 kcs h : Z) (Hrsp0 : is_u64 rsp0).

Lemma ticked_single c t k : single t k -> ticked (ctx_of c) t k = set_kdev (ticks_dev 1 t (dev k)) k.
Proof.
  intros [[Hl Hs Hi Hw] Ht Hp]. unfold ticked, tick. rewrite Ht. simpl. unfold set_kdev. rewrite Hl.
  f_equal.
Qed.

(** Interrupts between two instructions change nothing a program can see. *)
Lemma interrupts_run n c t k m :
  single t k -> is_u64 (c RSP) -> 168 < entry_sp rsp0 c < U64_LIM ->
  exists c' m' j, interrupts rsp0 kcs h n ((c, k), m) = Ret ((), ((c', set_kdev (ticks_dev j t (dev k)) k), m')) /\
    (j <= n)%nat /\ same_regs c c' /\ mem_frame (stack_area (entry_sp rsp0 c)) m m' /\
    (Z.testbit (c RFLAGS) 9 = false -> c' = c /\ m' = m /\ j = 0%nat).
Proof.
  revert c k m. induction n as [|n IH]; intros c k m Hk Hsp Hroom.
  { exists c, m, 0%nat. rewrite ticks_dev_0, set_kdev_dev by apply Hk. split_and!; try done. }
  cbn [interrupts]. run (run_get_regs c k m). destruct (Z.testbit (c RFLAGS) 9) eqn:Hif.
  2: { exists c, m, 0%nat. rewrite ticks_dev_0, set_kdev_dev by apply Hk. split_and!; try done. lia. }
  destruct (timer_interrupt_run rsp0 kcs h c k m t) as (c1 & m1 & E1 & Hctx & Hsys & Hf1);
    [done|done|lia|lia|apply Hk| |left; apply Hk|].
  { pose proof (sw_current _ (tr_sched _ (sg_ready _ _ Hk))) as Hc. rewrite (sg_tasks _ _ Hk) in Hc |- *.
    destruct (current (scheduler k)); [done|simpl in Hc; lia]. }
  rewrite (ticked_single c t k Hk) in E1. unfold timer_interrupt. run E1.
  assert ((tick (ctx_of c) (scheduler k)).1 = ctx_of c) as Htk by (unfold tick; by rewrite (sg_tasks _ _ Hk)).
  rewrite Htk in Hctx. pose proof (same_regs_ctx c c1 Hctx Hsys) as Hsame.
  assert (entry_sp rsp0 c1 = entry_sp rsp0 c) as Hes by (unfold entry_sp; by rewrite !(proj1 Hsame)).
  destruct (IH c1 (set_kdev (ticks_dev 1 t (dev k)) k) m1) as (c' & m' & j & E & Hj & Hs' & Hf & _);
    [by apply single_dev|by rewrite (proj1 Hsame)|by rewrite Hes|].
  exists c', m', (1 + j)%nat. rewrite set_kdev_twice in E. cbn [dev set_kdev] in E. rewrite ticks_dev_add in E.
  split_and!; [done|lia|by eapply same_regs_trans| |done].
  rewrite Hes in Hf. eapply mem_frame_trans; [|exact Hf]. eapply mem_frame_mono; [|exact Hf1].
  intros a [?|[_ Hne]]; [done|]. by rewrite (sg_rsp0 _ _ Hk) in Hne.
Qed.

(** ** Without interrupts *)

Lemma on_devices_cpu_bind {A B} (f : M ((regfile * devices) * mem) A) (g : A -> M ((regfile * devices) * mem) B) s :
  on_devices_cpu (f ≫= g) s = (on_devices_cpu f ≫= fun a => on_devices_cpu (g a)) s.
Proof.
  destruct s as [[c k] m]. unfold on_devices_cpu, mbind, M_bind. destruct (f ((c, dev k), m)) as [[a [[c' d] m']]| | | |]; done.
Qed.

(** With no interrupt the instructions run as before. *)
Lemma exec_irq_none p s : exec_irq rsp0 kcs h p [] s = on_devices_cpu (exec_all p) s.
Proof.
  revert s. induction p as [|i p IH]; intros s.
  { destruct s as [[c k] m]. unfold on_devices_cpu. simpl. by rewrite set_kdev_dev. }
  cbn [exec_irq exec_all hd interrupts]. rewrite on_devices_cpu_bind. unfold mbind, M_bind.
  cbn. destruct (on_devices_cpu (exec i) s) as [[[] s1]| | | |]; by try apply IH.
Qed.

(** ** Code with interrupts masked *)

(** Instructions that keep the flags. *)
Definition quiet (i : instr devices) : bool :=
  match i with
  | push _ | push_val _ | mov_to _ _ _ | mov_to_sym _ _ => true
  | pop r | mov r _ | mov_from r _ _ | mov_from_sym r _ | lea_sym r _ | add_imm r _ | mov_val r _ =>
      negb (bool_decide (r = RFLAGS))
  | sti | cli | call _ | iretq | sysretq => false
  end.

Lemma quiet_flags i c d m c' d' m' :
  quiet i = true -> exec i ((c, d), m) = Ret ((), ((c', d'), m')) -> c' RFLAGS = c RFLAGS.
Proof.
  intros Hq. destruct i; cbn [quiet] in Hq; try discriminate Hq; try apply negb_true_iff, bool_decide_eq_false in Hq;
    unfold exec, exec_push, exec_pop, set_reg, mbind, M_bind, get_regs, put_regs, load, store, mret, M_ret; repeat case_decide;
    intros [=]; subst; by rewrite ?wr_ne.
Qed.

Lemma interrupts_masked n c k m :
  Z.testbit (c RFLAGS) 9 = false -> interrupts rsp0 kcs h n ((c, k), m) = Ret ((), ((c, k), m)).
Proof. intros Hf. destruct n; [done|]. cbn [interrupts]. run (run_get_regs c k m). by rewrite Hf. Qed.

Lemma run_on_devices_cpu {A} (f : M ((regfile * devices) * mem) A) c k m a c' d' m' :
  f ((c, dev k), m) = Ret (a, ((c', d'), m')) -> on_devices_cpu f ((c, k), m) = Ret (a, ((c', set_kdev d' k), m')).
Proof. unfold on_devices_cpu. by intros ->. Qed.

Lemma exec_irq_masked p : forall q ns c k m c' d' m',
  Forall (fun i => quiet i = true) p -> Z.testbit (c RFLAGS) 9 = false ->
  exec_all p ((c, dev k), m) = Ret ((), ((c', d'), m')) ->
  exec_irq rsp0 kcs h (p ++ q) ns ((c, k), m) =
    exec_irq rsp0 kcs h q (drop (length p) ns) ((c', set_kdev d' k), m') /\ c' RFLAGS = c RFLAGS.
Proof.
  induction p as [|i p IH]; intros q ns c k m c' d' m' Hq Hf E.
  { injection E as -> <- ->. rewrite set_kdev_dev. by rewrite drop_0. }
  apply Forall_cons in Hq as [Hi Hq]. cbn [exec_all] in E. apply run_bind_inv in E as ([] & [[c1 d1] m1] & E1 & E).
  cbn [app exec_irq]. run (interrupts_masked (hd 0%nat ns) c k m Hf). run (run_on_devices_cpu _ _ _ _ _ _ _ _ E1).
  pose proof (quiet_flags i _ _ _ _ _ _ Hi E1) as Hf1.
  destruct (IH q (tail ns) c1 (set_kdev d1 k) m1 c' d' m') as [-> Hf']; [done|by rewrite Hf1|done|].
  split; [|by rewrite Hf']. destruct ns; cbn [tail length drop]; by rewrite ?drop_nil.
Qed.

(** ** Code of the kernel with interrupts enabled *)

(** Kernel mode with an aligned stack: an interrupt stays on it. *)
Record window (c : regfile) (sp : Z) : Prop := {
  wn_rsp : c RSP = sp;
  wn_align : sp mod 16 = 0;
  wn_room : 168 < sp < U64_LIM;
  wn_mode : (Z.land (c CS) 3 =? 3) = false;
}.
Lemma window_same c c' sp : same_regs c c' -> window c sp -> window c' sp.
Proof. intros [Hr _] [? ? ? ?]. constructor; by rewrite ?Hr. Qed.

Lemma window_entry c sp : window c sp -> entry_sp rsp0 c = sp.
Proof.
  intros [Hsp Hal Hroom Hmode]. unfold entry_sp. rewrite Hmode, land_not15, Hsp; [|rewrite Hsp; unfold is_u64; lia].
  apply Z.mod_divide in Hal as [q ->]; [|done]. by rewrite Z.div_mul.
Qed.

Lemma interrupts_window n c t k m sp :
  single t k -> window c sp ->
  exists c' m' j, interrupts rsp0 kcs h n ((c, k), m) = Ret ((), ((c', set_kdev (ticks_dev j t (dev k)) k), m')) /\
    same_regs c c' /\ mem_frame (stack_area sp) m m'.
Proof.
  intros Hk Hw. pose proof Hw as [Hsp Hal Hroom Hmode].
  assert (is_u64 (c RSP)) as Hu by (rewrite Hsp; unfold is_u64; lia).
  pose proof (window_entry c sp Hw) as He.
  destruct (interrupts_run n c t k m Hk Hu) as (c' & m' & j & E & _ & Hs & Hf & _); [lia|].
  rewrite He in Hf. by exists c', m', j.
Qed.

(** Writing a register other than the flags keeps the agreement. *)
Lemma same_regs_wr c c' r v : r <> RFLAGS -> same_regs c c' -> same_regs (wr r v c) (wr r v c').
Proof.
  intros Hr [Hs Hf]. split; [|by rewrite !wr_ne]. intros q Hq. unfold wr. case_decide; [done|by apply Hs].
Qed.
Lemma same_regs_loaded ws l c c' :
  Forall (fun di => di.1 <> RFLAGS) l -> same_regs c c' -> same_regs (loaded ws l c) (loaded ws l c').
Proof.
  intros Hl. revert c c'. induction Hl as [|[r i] l Hr _ IH]; intros c c' Hs; [done|].
  cbn. apply IH, same_regs_wr; done.
Qed.

Lemma exec_irq_loads l : forall q ns ws c t k m sp,
  single t k -> window c sp -> block_at m sp ws ->
  Forall (fun di => (di.1 ∉ [RSP; CS; RFLAGS]) /\ (di.2 < length ws)%nat) l ->
  exists c' m' j, exec_irq rsp0 kcs h (loads l ++ q) ns ((c, k), m) =
      exec_irq rsp0 kcs h q (drop (length l) ns) ((c', set_kdev (ticks_dev j t (dev k)) k), m') /\
    same_regs (loaded ws l c) c' /\ mem_frame (stack_area sp) m m'.
Proof.
  induction l as [|[r i] l IH]; intros q ns ws c t k m sp Hk Hw Hb Hl.
  { exists c, m, 0%nat. rewrite ticks_dev_0, set_kdev_dev, drop_0 by apply Hk. done. }
  apply Forall_cons in Hl as [[Hr Hi] Hl]. simpl in Hr, Hi. destruct (lookup_lt_is_Some_2 ws i Hi) as [w Hiw].
  destruct (interrupts_window (hd 0%nat ns) c t k m sp Hk Hw) as (c1 & m1 & j1 & E1 & Hs1 & Hf1).
  set (k1 := set_kdev (ticks_dev j1 t (dev k)) k) in *.
  assert (block_at m1 sp ws) as Hb1 by (eapply block_at_frame; [exact Hb|exact Hf1|]; unfold stack_area; simpl; lia).
  pose proof (window_same _ _ _ Hs1 Hw) as Hw1. pose proof (wn_rsp _ _ Hw1) as Hsp1.
  assert (exec (mov_from r RSP (8 * Z.of_nat i)) ((c1, dev k1), m1) = Ret ((), ((wr r w c1, dev k1), m1))) as E2
    by (eapply exec_mov_from; [by rewrite Hsp1|done|done]).
  assert (window (wr r w c1) sp) as Hw2 by (destruct Hw1; constructor; rewrite ?wr_ne by set_solver; done).
  destruct (IH q (tail ns) ws (wr r w c1) t k1 m1 sp) as (c' & m' & j & E & Hs & Hf); [by apply single_dev|done|done|done|].
  exists c', m', (j1 + j)%nat. split_and!.
  - change (loads ((r, i) :: l) ++ q) with (mov_from r RSP (8 * Z.of_nat i) :: (loads l ++ q)). cbn [exec_irq]. run E1. run (run_on_devices_cpu _ _ _ _ _ _ _ _ E2).
    rewrite set_kdev_dev, E. unfold k1. cbn [dev set_kdev]. rewrite ticks_dev_add, set_kdev_twice.
    destruct ns; cbn [tail length drop]; by rewrite ?drop_nil.
  - eapply same_regs_trans; [|exact Hs]. change (loaded ws ((r, i) :: l) c) with (loaded ws l (wr r (default 0 (ws !! i)) c)).
    rewrite Hiw. apply same_regs_loaded, same_regs_wr; [eapply Forall_impl; [exact Hl|]; simpl; set_solver|set_solver|done].
  - by eapply mem_frame_trans.
Qed.
End interrupts.

(** ** A system call with interrupts *)

Section handler.
Context {ck : OverflowChecks} `{UserMemory} `{Heap} `{CalleeFrameLaws} `{GdtLaws} `{ProgramLayout}.
Context (rsp0 kcs h ks temp : Z) (Hrsp0 : is_u64 rsp0).

Abbreviation top := (syscall_top ks).

(** The system-call stack as far as a call and an interrupt in it reach. *)
Definition irq_area (a : Z) : Prop := top - 248 - frame_size <= a < top.

Lemma exec_all_app_inv (p q : list (instr devices)) s s2 :
  exec_all (p ++ q) s = Ret ((), s2) -> exists s1, exec_all p s = Ret ((), s1) /\ exec_all q s1 = Ret ((), s2).
Proof.
  revert s. induction p as [|i p IH]; intros s E; [by exists s|]. cbn [app exec_all] in E |- *.
  apply run_bind_inv in E as ([] & s1 & E1 & E). destruct (IH s1 E) as (s3 & E3 & E4). exists s3. by run E1.
Qed.

(** One instruction at the end of masked code. *)
Lemma exec_irq_masked_last p i q ns c k m c' d' m' :
  Forall (fun i => quiet i = true) p -> Z.testbit (c RFLAGS) 9 = false ->
  exec_all (p ++ [i]) ((c, dev k), m) = Ret ((), ((c', d'), m')) ->
  exec_irq rsp0 kcs h (p ++ i :: q) ns ((c, k), m) =
    exec_irq rsp0 kcs h q (drop (S (length p)) ns) ((c', set_kdev d' k), m').
Proof.
  intros Hq Hf E. apply exec_all_app_inv in E as ([[c1 d1] m1] & E1 & E2).
  destruct (exec_irq_masked rsp0 kcs h p (i :: q) ns c k m c1 d1 m1 Hq Hf E1) as [-> Hf1]. cbn [exec_irq exec_all] in E2 |- *.
  apply run_bind_inv in E2 as ([] & s & E2 & Es). injection Es as ->.
  run (interrupts_masked rsp0 kcs h (hd 0%nat (drop (length p) ns)) c1 (set_kdev d1 k) m1 ltac:(by rewrite Hf1)).
  run (run_on_devices_cpu (exec i) c1 (set_kdev d1 k) m1 _ _ _ _ E2). rewrite set_kdev_twice.
  do 2 f_equal. rewrite <- Nat.add_1_r, <- drop_drop. by destruct (drop (length p) ns).
Qed.

Lemma saves_irq q ns x k m :
  syscall_layout ks temp -> Z.testbit (x RFLAGS) 9 = false ->
  exists c m', exec_irq rsp0 kcs h (saves ks temp ++ q) ns ((x, k), m) =
      exec_irq rsp0 kcs h q (drop 14 ns) ((c, k), m') /\
    c RSP = top - 80 /\ block_at m' (top - 80) (saved_words x) /\ (forall r, r ∉ [RSP; R11; RFLAGS] -> c r = x r) /\
    mem_frame (fun a => irq_area a \/ a = temp) m m'.
Proof.
  intros Hl Hf. destruct (saves_run ks temp x (dev k) m Hl) as (c & m' & E & Hsp & Hb & Hk & Hm).
  exists c, m'. split_and!; [|done|done|done|].
  - unfold saves in E |- *. rewrite !app_assoc in E |- *. rewrite <- (app_assoc _ [sti] q).
    rewrite (exec_irq_masked_last _ sti q ns x k m c (dev k) m'); [by rewrite set_kdev_dev|by repeat constructor|done|exact E].
  - eapply mem_frame_mono; [|exact Hm]. pose proof frame_size_pos. unfold irq_area. intros a. lia.
Qed.

Lemma top_window c x : syscall_layout ks temp -> c RSP = top - 80 -> c CS = x CS -> (Z.land (x CS) 3 =? 3) = false ->
  window c (top - 80).
Proof.
  intros Hl Hsp Hcs Hm. pose proof (top_aligned ks temp Hl) as Hal. destruct Hl as [Hlo Hhi _ _ _].
  assert (top = ks + 16384) as Ht by done. constructor; [done| |lia|by rewrite Hcs].
  replace (top - 80) with (top + (-5) * 16) by lia. by rewrite Z.mod_add.
Qed.

(** The arguments are loaded and the dispatcher called. *)
Lemma call_irq q ns c x t k m v out :
  single t k -> window c (top - 80) -> block_at m (top - 80) (saved_words x) -> 96 < top - 80 ->
  (forall d, serial_ready d = true ->
    syscall_entry (x RAX) (x RDI) (x RSI) (x RDX) (x R10) (x R8) d = Ret (v, with_output d out)) ->
  exists c' m' n, exec_irq rsp0 kcs h (loads arg_loads ++ call syscall_entry_c :: q) ns ((c, k), m) =
      exec_irq rsp0 kcs h q (drop 7 ns) ((c', set_kdev (with_output (ticks_dev n t (dev k)) out) k), m') /\
    c' RAX = v /\ (forall r, caller_saved r = false -> r <> RFLAGS -> c' r = c r) /\
    block_at m' (top - 80) (saved_words x) /\ mem_frame irq_area m m'.
Proof.
  intros Hk Hw Hb Htop Hent. pose proof frame_size_pos as Hfs.
  destruct (exec_irq_loads rsp0 kcs h Hrsp0 arg_loads (call syscall_entry_c :: q) ns (saved_words x) c t k m (top - 80) Hk Hw Hb)
    as (c1 & m1 & j1 & -> & Hs1 & Hf1); [by_decide|]. set (k1 := set_kdev (ticks_dev j1 t (dev k)) k).
  assert (single t k1) as Hk1 by (by apply single_dev).
  assert (window c1 (top - 80)) as Hw1.
  { eapply window_same; [exact Hs1|]. destruct Hw. by constructor. }
  cbn [exec_irq]. destruct (interrupts_window rsp0 kcs h Hrsp0 (hd 0%nat (drop (length arg_loads) ns)) c1 t k1 m1 (top - 80) Hk1 Hw1)
    as (c2 & m2 & j2 & E2 & Hs2 & Hf2). run E2. set (k2 := set_kdev (ticks_dev j2 t (dev k1)) k1).
  pose proof (window_same _ _ _ Hs2 Hw1) as [Hsp2 Hal2 Hrm2 _]. pose proof (same_regs_trans _ _ _ Hs1 Hs2) as [Hreg _].
  destruct (exec_call_run syscall_entry_c c2 (dev k2) m2 v (with_output (dev k2) out) (<[c2 RSP - 8 := c2 RIP]> m2))
    as (c3 & m3 & E3 & Hv & Hk3 & Hf3).
  { rewrite Hsp2. split_and!; [lia|lia|by apply mod16_mod8]. }
  { by rewrite Hsp2. }
  { rewrite !Hreg by done. apply run_syscall_entry_c, Hent. done. }
  run (run_on_devices_cpu _ _ _ _ _ _ _ _ E3). exists c3, m3, (j1 + j2)%nat.
  assert (mem_frame irq_area m m3) as Hfr.
  { unfold irq_area, stack_area in *. rewrite Hsp2 in Hf3.
    eapply mem_frame_trans; [eapply mem_frame_mono; [|exact Hf1]; simpl; lia|].
    eapply mem_frame_trans; [eapply mem_frame_mono; [|exact Hf2]; simpl; lia|].
    eapply mem_frame_trans; [apply (mem_frame_insert _ m2 (top - 80 - 8) (c2 RIP)); lia|]. eapply mem_frame_mono; [|exact Hf3]. simpl. lia. }
  split_and!; [|done| | |done].
  - unfold k2, k1. cbn [dev set_kdev]. rewrite ticks_dev_add, !set_kdev_twice.
    replace (drop 7 ns) with (drop 1 (drop (length arg_loads) ns)) by (by rewrite drop_drop).
    by destruct (drop (length arg_loads) ns).
  - intros r Hr Hnf. rewrite Hk3, Hreg by done. by destruct r.
  - rewrite Hsp2 in Hf3. eapply block_at_frame; [|exact Hf3|simpl; lia].
    eapply block_at_frame; [|apply (mem_frame_insert (fun a => a = top - 88) m2 (top - 80 - 8)); lia|simpl; lia].
    eapply block_at_frame; [|exact Hf2|unfold stack_area; simpl; lia].
    eapply block_at_frame; [exact Hb|exact Hf1|unfold stack_area; simpl; lia].
Qed.

(** The result is stored and interrupts are masked again. *)
Lemma result_irq q ns c x t k m :
  single t k -> window c (top - 80) -> block_at m (top - 80) (saved_words x) ->
  exists c' m' n, exec_irq rsp0 kcs h (mov_to RSP 48 RAX :: cli :: q) ns ((c, k), m) =
      exec_irq rsp0 kcs h q (drop 2 ns) ((c', set_kdev (ticks_dev n t (dev k)) k), m') /\
    (forall r, r <> RFLAGS -> c' r = c r) /\ Z.testbit (c' RFLAGS) 9 = false /\
    block_at m' (c' RSP) (result_words x (c RAX)) /\ mem_frame irq_area m m'.
Proof.
  intros Hk Hw Hb. pose proof frame_size_pos as Hfs. cbn [exec_irq].
  destruct (interrupts_window rsp0 kcs h Hrsp0 (hd 0%nat ns) c t k m (top - 80) Hk Hw) as (c1 & m1 & j1 & E1 & Hs1 & Hf1). run E1.
  set (k1 := set_kdev (ticks_dev j1 t (dev k)) k). assert (single t k1) as Hk1 by (by apply single_dev).
  pose proof (window_same _ _ _ Hs1 Hw) as Hw1. pose proof (wn_rsp _ _ Hw1) as Hsp1.
  assert (block_at m1 (top - 80) (saved_words x)) as Hb1
    by (eapply block_at_frame; [exact Hb|exact Hf1|unfold stack_area; simpl; lia]).
  set (m2 := <[top - 80 + 8 * Z.of_nat 6 := c1 RAX]> m1).
  assert (exec (mov_to RSP 48 RAX) ((c1, dev k1), m1) = Ret ((), ((c1, dev k1), m2))) as E2.
  { unfold m2. rewrite <- Hsp1. eapply exec_mov_to; [rewrite Hsp1; exact Hb1|simpl; lia|done]. }
  run (run_on_devices_cpu _ _ _ _ _ _ _ _ E2). rewrite set_kdev_dev.
  assert (block_at m2 (top - 80) (result_words x (c1 RAX))) as Hb2.
  { destruct Hb1. constructor; try done. apply (words_at_insert m1 (top - 80) (saved_words x) 6); [done|simpl; lia]. }
  destruct (interrupts_window rsp0 kcs h Hrsp0 (hd 0%nat (tail ns)) c1 t k1 m2 (top - 80) Hk1 Hw1)
    as (c3 & m3 & j3 & E3 & Hs3 & Hf3). run E3. set (k3 := set_kdev (ticks_dev j3 t (dev k1)) k1).
  set (c4 := wr RFLAGS (Z.ldiff (c3 RFLAGS) IF) c3).
  assert (exec cli ((c3, dev k3), m3) = Ret ((), ((c4, dev k3), m3))) as E4 by done.
  run (run_on_devices_cpu _ _ _ _ _ _ _ _ E4). pose proof (same_regs_trans _ _ _ Hs1 Hs3) as [Hreg _].
  exists c4, m3, (j1 + j3)%nat. unfold k3, k1. cbn [dev set_kdev]. rewrite ticks_dev_add, !set_kdev_twice. split_and!.
  - destruct ns as [|? [|? ?]]; done.
  - intros r Hr. unfold c4. rewrite wr_ne by done. by apply Hreg.
  - unfold c4. rewrite wr_eq, Z.ldiff_spec. change (Z.testbit IF 9) with true. apply andb_false_r.
  - unfold c4. rewrite wr_ne, Hreg, (wn_rsp _ _ Hw), <- (proj1 Hs1 RAX) by done.
    eapply block_at_frame; [exact Hb2|exact Hf3|unfold stack_area; simpl; lia].
  - unfold irq_area, stack_area in *. eapply mem_frame_trans; [eapply mem_frame_mono; [|exact Hf1]; simpl; lia|].
    eapply mem_frame_trans; [apply (mem_frame_insert _ m1 (top - 80 + 8 * Z.of_nat 6)); lia|].
    eapply mem_frame_mono; [|exact Hf3]. simpl. lia.
Qed.

(** The whole handler. *)
Lemma handler_irq ns x t k m v out :
  syscall_layout ks temp -> single t k -> Z.testbit (x RFLAGS) 9 = false -> (Z.land (x CS) 3 =? 3) = false ->
  (forall d, serial_ready d = true ->
    syscall_entry (x RAX) (x RDI) (x RSI) (x RDX) (x R10) (x R8) d = Ret (v, with_output d out)) ->
  exists c' m' n1 n2, exec_irq rsp0 kcs h (syscall_handler ks temp) ns ((x, k), m) =
      Ret ((), ((c', set_kdev (ticks_dev n2 t (with_output (ticks_dev n1 t (dev k)) out)) k), m')) /\
    c' RAX = v /\ c' RSP = x RSP /\ c' R11 = x R11 /\ c' RCX = x RCX /\ c' RIP = x RCX /\
    c' RFLAGS = sysret_flags (x R11) /\
    c' CS = Z.lor (Z.shiftr (x MSR_STAR) 48 + 16) 3 /\ c' SS = Z.lor (Z.shiftr (x MSR_STAR) 48 + 8) 3 /\
    Forall (fun r => c' r = x r) [RDI; RSI; RDX; R10; R8; R9] /\
    (forall r, caller_saved r = false -> r ∉ [RSP; RIP; RFLAGS; CS; SS] -> c' r = x r) /\
    mem_frame (fun a => irq_area a \/ a = temp) m m'.
Proof.
  intros Hl Hk Hf Hm Hent. pose proof frame_size_pos as Hfs. assert (top = ks + 16384) as Htop by done.
  assert (0 < ks) as Hks by (by destruct Hl).
  set (tl := loads restores ++ leave).
  assert (syscall_handler ks temp = saves ks temp ++ (loads arg_loads ++ call syscall_entry_c :: mov_to RSP 48 RAX :: cli :: tl)) as ->
    by reflexivity.
  destruct (saves_irq (loads arg_loads ++ call syscall_entry_c :: mov_to RSP 48 RAX :: cli :: tl) ns x k m Hl Hf) as (c1 & m1 & -> & Hsp1 & Hb1 & Hr1 & Hf1).
  pose proof (top_window c1 x Hl Hsp1 ltac:(by rewrite Hr1 by set_solver) Hm) as Hw1.
  destruct (call_irq (mov_to RSP 48 RAX :: cli :: tl) (drop 14 ns) c1 x t k m1 v out Hk Hw1 Hb1
    ltac:(lia) Hent) as (c2 & m2 & n1 & E2 & Hv & Hr2 & Hb2 & Hf2). rewrite E2. clear E2.
  set (k2 := set_kdev _ k). assert (single t k2) as Hk2 by (by apply single_dev).
  assert (window c2 (top - 80)) as Hw2 by (destruct Hw1; constructor; rewrite ?Hr2; done).
  destruct (result_irq tl (drop 7 (drop 14 ns)) c2 x t k2 m2 Hk2 Hw2 Hb2)
    as (c3 & m3 & n2 & E3 & Hr3 & Hf3' & Hb3 & Hf3). rewrite E3. clear E3.
  set (k3 := set_kdev _ k2).
  destruct (restore_tail_run c3 x (c2 RAX) (dev k3) m3 Hb3) as (c4 & E4 & J1 & J2 & J3 & J4 & J5 & J6 & J7 & J8 & Jr & Jk).
  assert (c3 MSR_STAR = x MSR_STAR) as Hstar by (rewrite Hr3, Hr2, Hr1 by set_solver; done). rewrite Hstar in J7, J8.
  exists c4, m3, n1, n2. split_and!; try done; [|by rewrite J1| |].
  - set (tl0 := loads restores ++ [add_imm RSP 48; pop RAX; mov_from R11 RSP 8; mov_from RCX RSP 16; mov_from RSP RSP 0]
      : list (instr devices)).
    change tl with (tl0 ++ [sysretq]) in E4 |- *.
    rewrite (exec_irq_masked_last tl0 sysretq [] _ c3 k3 m3 c4 (dev k3) m3); [|by repeat constructor|done|exact E4].
    by rewrite set_kdev_dev.
  - intros r Hr Hni. rewrite Jk, Hr3, Hr2, Hr1 by (done || (destruct r; discriminate Hr || set_solver)). done.
  - eapply mem_frame_trans; [exact Hf1|]. eapply mem_frame_trans; (eapply mem_frame_mono; [|eassumption]); simpl; auto.
Qed.

(** ** The user program with interrupts *)

(** What is printed besides ticks, with each tick acknowledged. *)
Definition tick_mark (o : output) : bool := match o with Dec _ => true | _ => false end.
Definition ran (d d' : devices) (ls : list output) : Prop :=
  exists out, console d' = console d ++ out /\ filter (fun o => tick_mark o = false) out = ls /\
    serial_ready d' = true /\ lapic_address d' = lapic_address d /\
    mmio d' = mmio d ++ replicate (length (filter (fun o => tick_mark o = true) out)) (lapic_address d + 0xB0, 0).

Lemma ran_trans d1 d2 d3 l1 l2 : ran d1 d2 l1 -> ran d2 d3 l2 -> ran d1 d3 (l1 ++ l2).
Proof.
  intros (o1 & C1 & F1 & _ & A1 & M1) (o2 & C2 & F2 & S2 & A2 & M2). exists (o1 ++ o2). split_and!.
  - by rewrite C2, C1, app_assoc.
  - by rewrite filter_app, F1, F2.
  - done.
  - by rewrite A2.
  - by rewrite M2, M1, A1, filter_app, length_app, replicate_add, app_assoc.
Qed.
Lemma filter_replicate_ticks n t :
  filter (fun o => tick_mark o = false) (replicate n (Dec (id t))) = [] /\
  length (filter (fun o => tick_mark o = true) (replicate n (Dec (id t)))) = n.
Proof. induction n as [|n [IH1 IH2]]; [done|]. cbn [replicate]. rewrite !filter_cons. by split; [|rewrite decide_True by done; simpl; rewrite IH2]. Qed.
Lemma ran_ticks n t d : ran d (ticks_dev n t d) [].
Proof.
  destruct (filter_replicate_ticks n t) as [F1 F2]. exists (replicate n (Dec (id t))). split_and!; [done..|].
  by rewrite F2.
Qed.
Lemma ran_line s d : ran d (with_output d (user_line s)) (user_line s).
Proof. exists (user_line s). split_and!; [done..|]. cbn. by rewrite app_nil_r. Qed.

(** A program in user mode, set up for system calls. *)
Record user_ok (a : Z) (c : regfile) : Prop := {
  uo_mode : in_user_mode a c;
  uo_rsp : is_u64 (c RSP);
  uo_star : c MSR_STAR = star_of_gdt;
  uo_mask : c MSR_SFMASK = IF;
}.
Abbreviation sp0 := (Z.land rsp0 (not64 15)).

Lemma user_entry a c : in_user_mode a c -> entry_sp rsp0 c = sp0.
Proof. intros Hu. unfold entry_sp. destruct (Hu 0 0) as [-> _]. by rewrite gdt_selectors. Qed.
Lemma user_ok_same a c c' : same_regs c c' -> user_ok a c -> user_ok a c'.
Proof. intros [Hr _] [Hu ? ? ?]. constructor; rewrite ?Hr by done; try done. intros e st. rewrite !Hr by done. apply Hu. Qed.

Lemma interrupts_user n a c t k m :
  168 < sp0 < U64_LIM -> single t k -> user_ok a c ->
  exists c' m' j, interrupts rsp0 kcs h n ((c, k), m) = Ret ((), ((c', set_kdev (ticks_dev j t (dev k)) k), m')) /\
    same_regs c c' /\ mem_frame (stack_area sp0) m m'.
Proof.
  intros Hroom Hk [Hu Hsp _ _]. pose proof (user_entry a c Hu) as He.
  destruct (interrupts_run rsp0 kcs h Hrsp0 n c t k m Hk Hsp) as (c' & m' & j & E & _ & Hs & Hf & _); [by rewrite He|].
  rewrite He in Hf. by exists c', m', j.
Qed.

(** Loading registers with constants. *)
Definition set_all (l : list (reg * Z)) (c : regfile) : regfile := foldl (fun c rv => wr rv.1 rv.2 c) c l.
Lemma exec_irq_movs l : forall ns a c t k m,
  168 < sp0 < U64_LIM -> single t k -> user_ok a c -> Forall (fun rv => rv.1 ∈ [RAX; RDI; RSI; RDX]) l ->
  exists c' m' j, exec_irq rsp0 kcs h ((fun rv => mov_val rv.1 rv.2) <$> l) ns ((c, k), m) =
      Ret ((), ((c', set_kdev (ticks_dev j t (dev k)) k), m')) /\
    same_regs (set_all l c) c' /\ mem_frame (stack_area sp0) m m'.
Proof.
  induction l as [|[r v] l IH]; intros ns a c t k m Hroom Hk Hu Hl.
  { exists c, m, 0%nat. rewrite ticks_dev_0, set_kdev_dev by apply Hk. done. }
  apply Forall_cons in Hl as [Hr Hl]. simpl in Hr.
  destruct (interrupts_user (hd 0%nat ns) a c t k m Hroom Hk Hu) as (c1 & m1 & j1 & E1 & Hs1 & Hf1).
  set (k1 := set_kdev (ticks_dev j1 t (dev k)) k) in *. pose proof (user_ok_same a _ _ Hs1 Hu) as Hu1.
  assert (r <> RFLAGS /\ r <> CS /\ r <> SS /\ r <> RSP /\ r <> MSR_STAR /\ r <> MSR_SFMASK) as (? & ? & ? & ? & ? & ?)
    by set_solver.
  assert (user_ok a (wr r v c1)) as Hu2.
  { destruct Hu1 as [Hm ? ? ?]. constructor; rewrite ?wr_ne by done; try done. intros e st. rewrite !wr_ne by done. apply Hm. }
  destruct (IH (tail ns) a (wr r v c1) t k1 m1 Hroom) as (c' & m' & j & E & Hs & Hf); [by apply single_dev|done|done|].
  exists c', m', (j1 + j)%nat. split_and!.
  - cbn [fmap list_fmap exec_irq fst snd]. run E1.
    assert (exec (mov_val r v) ((c1, dev k1), m1) = Ret ((), ((wr r v c1, dev k1), m1))) as E2 by done.
    run (run_on_devices_cpu _ _ _ _ _ _ _ _ E2). rewrite set_kdev_dev. etrans; [exact E|].
    unfold k1. cbn [dev set_kdev]. by rewrite ticks_dev_add.
  - eapply same_regs_trans; [|exact Hs]. clear -Hs1 Hl Hr. change (set_all ((r, v) :: l) c) with (set_all l (wr r v c)).
    assert (same_regs (wr r v c) (wr r v c1)) as Hw by (apply same_regs_wr; [set_solver|done]).
    revert Hw. generalize (wr r v c), (wr r v c1). induction Hl as [|[q w] l Hq _ IH]; intros b b' Hb; [done|].
    cbn. apply IH, same_regs_wr; [set_solver|done].
  - by eapply mem_frame_trans.
Qed.

(** The memory of the kernel that calls and interrupts may write. *)
Definition kernel_areas (x : Z) : Prop := irq_area x \/ x = temp \/ stack_area sp0 x.

Definition callee_regs : list reg := [RSP; RBX; RBP; R12; R13; R14; R15].

Lemma print_irq_run a s ns1 n ns2 c t k m :
  syscall_layout ks temp -> 168 < sp0 < U64_LIM -> single t k -> user_ok a c -> printable s ->
  exists c' d' m', print_irq rsp0 kcs h ks temp s ns1 n ns2 ((c, k), m) = Ret ((), ((c', set_kdev d' k), m')) /\
    ran (dev k) d' (user_line s) /\ user_ok a c' /\ Forall (fun r => c' r = c r) callee_regs /\
    mem_frame kernel_areas m m'.
Proof.
  intros Hl Hroom Hk Hu Hp. set (bl := Z.of_nat (length (string_bytes s))).
  set (args := [(RAX, 1); (RDI, 1); (RSI, str_addr s); (RDX, bl)]). unfold print_irq.
  destruct (exec_irq_movs args ns1 a c t k m Hroom Hk Hu) as (c1 & m1 & j1 & E1 & Hs1 & Hf1); [by_decide|].
  change (exec_irq rsp0 kcs h [mov_val RAX 1; mov_val RDI 1; mov_val RSI (str_addr s); mov_val RDX bl] ns1 ((c, k), m) =
    Ret ((), ((c1, set_kdev (ticks_dev j1 t (dev k)) k), m1))) in E1. run E1.
  set (k1 := set_kdev (ticks_dev j1 t (dev k)) k). assert (single t k1) as Hk1 by (by apply single_dev).
  assert (user_ok a c1) as Hu1.
  { eapply user_ok_same; [exact Hs1|]. destruct Hu as [Hm ? ? ?]. constructor; done. }
  destruct (interrupts_user n a c1 t k1 m1 Hroom Hk1 Hu1) as (c2 & m2 & j2 & E2 & Hs2 & Hf2). run E2.
  set (k2 := set_kdev (ticks_dev j2 t (dev k1)) k1). assert (single t k2) as Hk2 by (by apply single_dev).
  pose proof (user_ok_same a _ _ Hs2 Hu1) as [_ Hsp2 Hstar2 Hmask2].
  pose proof (same_regs_trans _ _ _ Hs1 Hs2) as [Hreg _].
  set (x := wr RCX after_syscall (wr R11 (c2 RFLAGS) (wr RFLAGS (Z.lor (Z.ldiff (c2 RFLAGS) IF) 2)
    (wr RIP (c2 MSR_LSTAR) (wr CS 8 (wr SS 16 c2)))))).
  assert (exec_syscall after_syscall ((c2, dev k2), m2) = Ret ((), ((x, dev k2), m2))) as E3.
  { unfold exec_syscall. run (run_get_regs c2 (dev k2) m2). by rewrite Hstar2, Hmask2. }
  run (run_on_devices_cpu _ _ _ _ _ _ _ _ E3). rewrite set_kdev_dev.
  destruct (handler_irq ns2 x t k2 m2 0 (user_line s) Hl Hk2)
    as (c4 & m4 & n1 & n2 & E4 & J1 & J2 & J3 & J4 & J5 & J6 & J7 & J8 & Jr & Jk & Hf4).
  { change (Z.testbit (Z.lor (Z.ldiff (c2 RFLAGS) IF) 2) 9 = false). rewrite Z.lor_spec, Z.ldiff_spec.
    change (Z.testbit IF 9) with true. by rewrite andb_false_r. }
  { reflexivity. }
  { intros d Hd. change (syscall_entry (c2 RAX) (c2 RDI) (c2 RSI) (c2 RDX) (c2 R10) (c2 R8) d = Ret (0, with_output d (user_line s))).
    rewrite (Hreg RAX), (Hreg RDI), (Hreg RSI), (Hreg RDX) by done. by apply write_call_run. }
  eexists c4, _, m4. split_and!; [etrans; [exact E4|]; done| | | |].
  - assert (ran (dev k) (ticks_dev n1 t (dev k2)) []) as R by (unfold k2, k1; cbn [dev set_kdev]; rewrite !ticks_dev_add; apply ran_ticks).
    pose proof (ran_trans _ _ _ _ _ (ran_trans _ _ _ _ _ R (ran_line s _)) (ran_ticks n2 t _)) as R'.
    rewrite app_nil_r in R'. exact R'.
  - constructor; [|rewrite J2; unfold wr; simpl; done| |].
    + intros e st. rewrite J7, J8, gdt_selectors. change (x MSR_STAR) with (c2 MSR_STAR). by rewrite Hstar2.
    + rewrite Jk by (done || by_decide). exact Hstar2.
    + rewrite Jk by (done || by_decide). exact Hmask2.
  - assert (forall r, r <> RFLAGS -> x r = c2 r -> c4 r = x r -> set_all args c r = c r -> c4 r = c r) as Hkeep
      by (intros r Hr Hx Hc4 Hc; by rewrite Hc4, Hx, Hreg).
    unfold callee_regs. rewrite !Forall_cons. split_and!; [by apply Hkeep|..|done]; apply Hkeep; try done; by apply Jk; [|by_decide].
  - unfold kernel_areas. eapply mem_frame_trans; [eapply mem_frame_mono; [|exact Hf1]; tauto|].
    eapply mem_frame_trans; [eapply mem_frame_mono; [|exact Hf2]; tauto|]. eapply mem_frame_mono; [|exact Hf4]. tauto.
Qed.

Lemma prints_irq_run a l : forall sch c t k m,
  syscall_layout ks temp -> 168 < sp0 < U64_LIM -> single t k -> user_ok a c -> Forall printable l ->
  exists c' d' m', prints_irq rsp0 kcs h ks temp l sch ((c, k), m) = Ret ((), ((c', set_kdev d' k), m')) /\
    ran (dev k) d' (mjoin (user_line <$> l)) /\ user_ok a c' /\ Forall (fun r => c' r = c r) callee_regs /\
    mem_frame kernel_areas m m'.
Proof.
  induction l as [|s l IH]; intros sch c t k m Hl Hroom Hk Hu Hp.
  { exists c, (dev k), m. rewrite set_kdev_dev. split_and!; [done| |done|by repeat constructor|done].
    rewrite <- (ticks_dev_0 t (dev k)) at 2 by apply Hk. apply ran_ticks. }
  apply Forall_cons in Hp as [Hs Hp]. cbn [prints_irq]. destruct (hd ([], 0%nat, []) sch) as [[ns1 n] ns2].
  destruct (print_irq_run a s ns1 n ns2 c t k m Hl Hroom Hk Hu Hs) as (c1 & d1 & m1 & E1 & R1 & Hu1 & Hk1 & Hf1). run E1.
  destruct (IH (tail sch) c1 t (set_kdev d1 k) m1 Hl Hroom) as (c' & d' & m' & E & R & Hu' & Hk' & Hf); [|done|done|].
  { apply single_dev; [done|]. by destruct R1 as (? & _ & _ & ? & _). }
  exists c', d', m'. split_and!; [done|by eapply ran_trans|done| |by eapply mem_frame_trans].
  rewrite Forall_forall in *. intros r Hr. by rewrite Hk', Hk1.
Qed.

(** With no interrupt this is the program as it runs alone. *)
Lemma print_irq_none s st :
  print_irq rsp0 kcs h ks temp s [] 0 [] st = on_devices_cpu (print ks temp s) st.
Proof.
  unfold print_irq, print. rewrite on_devices_cpu_bind. unfold mbind at 1 4, M_bind at 1 4. rewrite exec_irq_none.
  destruct (on_devices_cpu _ st) as [[[] s1]| | | |]; [|done..]. rewrite on_devices_cpu_bind.
  cbn [interrupts]. unfold mbind, M_bind, mret, M_ret.
  destruct (on_devices_cpu (exec_syscall after_syscall) s1) as [[[] s2]| | | |]; [|done..]. apply exec_irq_none.
Qed.
Lemma prints_irq_none l st : prints_irq rsp0 kcs h ks temp l [] st = on_devices_cpu (prints ks temp l) st.
Proof.
  revert st. induction l as [|s l IH]; intros st.
  { destruct st as [[c k] m]. unfold on_devices_cpu. simpl. by rewrite set_kdev_dev. }
  cbn [prints_irq prints hd tail]. rewrite on_devices_cpu_bind. unfold mbind, M_bind. rewrite print_irq_none.
  destruct (on_devices_cpu (print ks temp s) st) as [[[] s1]| | | |]; [|done..]. apply IH.
Qed.
Lemma start_irq_none n st :
  start_irq rsp0 kcs h ks temp n [] [] st = on_devices_cpu (start ks temp n) st.
Proof.
  unfold start_irq, start. rewrite user_main_prints, on_devices_cpu_bind. unfold mbind, M_bind. rewrite exec_irq_none.
  destruct (on_devices_cpu _ st) as [[[] s1]| | | |]; [|done..]. apply prints_irq_none.
Qed.

(** C14: the user program on the kernel with its timer running.  Started in user
    mode as the only task, with timer interrupts arriving before any of its
    instructions and before any instruction of the system-call handler that
    runs with interrupts enabled, however many, after any number of rounds of
    its loop, the program has had the kernel print exactly its three opening
    lines and one greeting for each round, in order; the rest of the console is
    one mark for each tick, each tick has been acknowledged to the APIC, and the
    program is still in user mode, on its stack, with the registers the calls
    must keep.  The scheduler is as it was and only the return address of
    [main], the interrupt stack, the system-call stack and [USER_RSP_TEMP] have
    been written. *)
Theorem interrupted_program_output n ns sch a c t k m :
  syscall_layout ks temp -> 168 < sp0 < U64_LIM -> single t k -> user_ok a c ->
  Forall printable ["Test"; "More test"; "Hello, world!"] -> stack_room (c RSP) 1 ->
  exists c' d' m', start_irq rsp0 kcs h ks temp n ns sch ((c, k), m) = Ret ((), ((c', set_kdev d' k), m')) /\
    ran (dev k) d' (user_line "Test" ++ user_line "More test" ++ user_line "Test" ++
      mjoin (replicate n (user_line "Hello, world!"))) /\
    user_ok a c' /\ c' RSP = c RSP - 8 /\
    Forall (fun r => c' r = c r) [RBX; RBP; R12; R13; R14; R15] /\
    mem_frame (fun x => c RSP - 8 <= x < c RSP \/ kernel_areas x) m m'.
Proof.
  intros Hl Hroom Hk Hu Hp Hst. rewrite !Forall_cons in Hp. destruct Hp as (P1 & P2 & P3 & _).
  destruct (interrupts_user (hd 0%nat ns) a c t k m Hroom Hk Hu) as (c1 & m1 & j1 & E1 & Hs1 & Hf1).
  set (k1 := set_kdev (ticks_dev j1 t (dev k)) k) in *. pose proof (user_ok_same a _ _ Hs1 Hu) as Hu1.
  rewrite <- (proj1 Hs1 RSP ltac:(done)) in Hst.
  destruct (exec_push_vals [after_main] c1 (dev k1) m1 Hst) as (c2 & m2 & E2 & Hsp & Hbut & _ & Hf2). cbn in Hsp.
  unfold but_rsp in Hbut. assert (forall r, r <> RSP -> c2 r = c1 r) as Hr by auto. clear Hbut.
  change (exec_all [push_val after_main] ((c1, dev k1), m1) = Ret ((), ((c2, dev k1), m2))) in E2.
  cbn [exec_all] in E2. apply run_bind_inv in E2 as ([] & s & E2 & Es). injection Es as ->.
  assert (user_ok a c2) as Hu2.
  { destruct Hst as (? & ? & _). destruct Hu1 as [Hm Hsp1 ? ?].
    constructor; rewrite ?Hr by done; try done; [intros e st; rewrite !Hr by done; apply Hm|].
    rewrite Hsp. unfold is_u64 in *. lia. }
  destruct (prints_irq_run a ("Test" :: "More test" :: "Test" :: replicate n "Hello, world!") sch c2 t k1 m2 Hl Hroom)
    as (c' & d' & m' & E & R & Hu' & Hk' & Hf); [by apply single_dev|done| |].
  { repeat (apply Forall_cons; split; [done|]). by apply Forall_replicate. }
  exists c', d', m'. unfold callee_regs in Hk'. rewrite Forall_cons in Hk'. destruct Hk' as [Hsp' Hk'].
  pose proof (proj1 Hs1 RSP ltac:(done)) as Hrsp. split_and!.
  - assert (exec_irq rsp0 kcs h [push_val after_main] ns ((c, k), m) = Ret ((), ((c2, k1), m2))) as E0.
    { cbn [exec_irq]. run E1. run (run_on_devices_cpu _ _ _ _ _ _ _ _ E2). done. }
    unfold start_irq. run E0. exact E.
  - pose proof (ran_trans _ _ _ _ _ (ran_ticks j1 t (dev k)) R) as R'. by rewrite !fmap_cons, fmap_replicate in R'.
  - done.
  - rewrite Hsp', Hsp. lia.
  - rewrite Forall_forall in Hk' |- *. intros r Hi. rewrite (Hk' r Hi), Hr, (proj1 Hs1) by set_solver. done.
  - eapply mem_frame_trans; [eapply mem_frame_mono; [|exact Hf1]|
      eapply mem_frame_trans; [eapply mem_frame_mono; [|exact Hf2]|eapply mem_frame_mono; [|exact Hf]]];
      unfold kernel_areas; intros x Hx; simpl in Hx; [tauto|left; lia|tauto].
Qed.
End handler.

(** ** Witness: the program with one task, interrupted in user mode and in a call *)

Module Demo.
Import ReferenceFrame ReferenceGdt.
#[local] Existing Instances SyscallTheorems.Demo.demo_checks SyscallTheorems.Demo.demo_heap.
#[local] Existing Instances UserProgram.Demo.demo_program UserProgram.Demo.demo_memory.

Definition demo_only : Task := with_state Running TasksTheorems.Demo.task1.
Definition demo_alone : kernel := mkKernel (mkSched [demo_only] 0 true (mkRaw 0x9000 4)) false 0 SyscallTheorems.Demo.demo_dev.

Lemma demo_single : single demo_only demo_alone.
Proof.
  constructor; [|done|done]. constructor; [done..|]. constructor; [simpl; lia|].
  repeat constructor; simpl; unfold KERNEL_STACK_SIZE; lia.
Qed.
Lemma demo_user_ok : user_ok 0 SyscallTheorems.Demo.demo_user_regs.
Proof. constructor; [by intros e st; rewrite gdt_selectors|by_decide|done|done]. Qed.

Lemma interrupted_program_output_witness :
  exists c' d' m', start_irq 0x80000 8 0 0x100000 0x200000 1 [2%nat] [([1%nat], 1%nat, replicate 30 1%nat)]
      ((SyscallTheorems.Demo.demo_user_regs, demo_alone), ∅) = Ret ((), ((c', set_kdev d' demo_alone), m')) /\
    ran (dev demo_alone) d' (user_line "Test" ++ user_line "More test" ++ user_line "Test" ++
      user_line "Hello, world!").
Proof.
  destruct (interrupted_program_output 0x80000 8 0 0x100000 0x200000 ltac:(by_decide) 1 [2%nat]
    [([1%nat], 1%nat, replicate 30 1%nat)] 0 SyscallTheorems.Demo.demo_user_regs demo_only demo_alone ∅
    SyscallTheorems.Demo.demo_layout ltac:(by_decide) demo_single demo_user_ok
    ltac:(apply Forall_forall; exact UserProgram.Demo.demo_printable) ltac:(split; [|split]; reflexivity))
    as (c' & d' & m' & E & R & _).
  exists c', d', m'. split; [exact E|exact R].
Defined.
End Demo.
