(* ===== verification/PreemptedCalls.v ===== *)
(** * A task switch in a system call

    The system-call path of [kernel/src/tasks/syscall.rs] keeps the registers of
    the caller on one static stack and enables interrupts on it.  With two tasks
    the timer of [kernel/src/tasks/switch.rs] can switch in the middle of a call
    to a task that makes a call of its own; this file shows what the first call
    then returns to. *)
From stdpp Require Import strings.
From S2P Require Import Prelude Machine Cpu Drivers Gdt Tasks TasksProofs SwitchProofs Syscall.
From S2P Require Import SyscallProofs SyscallTheorems TasksTheorems UserProgram Preemption.

Section code.
Context {ck : OverflowChecks} `{UserMemory} `{Heap} `{CalleeFrame}.
Context (rsp0 kcs handler kernel_stack user_rsp_temp : Z).

End code.



Section proofs.
Context {ck : OverflowChecks} `{UserMemory} `{Heap} `{CalleeFrameLaws} `{GdtLaws}.
Context (rsp0 kcs h ks temp : Z) (Hrsp0 : is_u64 rsp0).



Abbreviation top := (syscall_top ks).
Abbreviation sp0 := (Z.land rsp0 (not64 15)).




End proofs.

(** ** Witness: a task that prints during the call of another *)

Module Demo.
Import ReferenceFrame ReferenceGdt.
#[local] Existing Instances SyscallTheorems.Demo.demo_checks SyscallTheorems.Demo.demo_heap.
#[local] Existing Instances UserProgram.Demo.demo_program UserProgram.Demo.demo_memory.



End Demo.
