(* ===== verification/Slub.v ===== *)
(** * The slab allocator: [kernel/src/mm/slub.rs]

    A cache of equal objects cut from pages.  A page starts with a
    [SlabHeader]; free objects are linked through their first word, slabs with
    free objects through their headers.  Pages come from a [PageProvider]. *)
From S2P Require Import Prelude Machine.

Definition PAGE_SIZE : Z := 4096.

(** The trait [PageProvider]. *)
Class PageProvider (P : Type) := {
  alloc_page : M (P * mem) (option Z);
  free_page : Z -> M (P * mem) ();
}.

(** The compiler chooses the order of the three fields of [SlabHeader]. *)
Class SlabLayout := {
  next_slab_at : Z;
  freelist_at : Z;
  in_use_at : Z;
}.
Class SlabLayoutLaws `{SlabLayout} : Prop :=
  slab_layout_ok : [next_slab_at; freelist_at; in_use_at] ≡ₚ [0; 8; 16].
Definition HEADER_SIZE : Z := 24.

Record SCache := mkCache { partial : option Z; size : Z }.
Definition SCache_new (size : Z) : SCache := mkCache None size.

Section code.
Context {ck : OverflowChecks} `{SlabLayout} {P : Type} `{PageProvider P}.

Abbreviation C := (M ((SCache * P) * mem)).

Definition next_slab (slab : Z) : Z := slab + next_slab_at.
Definition freelist (slab : Z) : Z := slab + freelist_at.
Definition in_use (slab : Z) : Z := slab + in_use_at.

Definition get_cache : C SCache := '(c, p) ← get_self; mret c.
Definition set_partial (q : option Z) : C () :=
  '(c, p) ← get_self; put_self (mkCache q (size c), p).

(** A call of the provider. *)
Definition provider {A} (f : M (P * mem) A) : C A := fun '((c, p), m) =>
  match f (p, m) with
  | Ret (a, (p', m')) => Ret (a, ((c, p'), m'))
  | Panic => Panic | Undef => Undef | Hang => Hang | OutOfFuel => OutOfFuel
  end.

Definition is_power_of_two (n : Z) : bool := (0 <? n) && (Z.land n (n - 1) =? 0).

(** Where the objects of a slab start, and how many there are. *)
Definition align_mask (size : Z) : outcome Z :=
  if is_power_of_two size then sub64 size 1 else Ret 7.
Definition object_offset (size : Z) : outcome Z :=
  mask ← align_mask size;
  end_ ← add64 HEADER_SIZE mask;
  Ret (Z.land end_ (not64 mask)).

(** [for i in (0..n).rev()]: link the objects below [n] in front of [next]. *)
Fixpoint link_objects (object_start size : Z) (n : nat) (next : option Z) : C (option Z) :=
  match n with
  | O => mret next
  | S i =>
      offset ← lift (mul64 (Z.of_nat i) size);
      let ptr := object_start + offset in
      store_ptr ptr next;;
      link_objects object_start size i (nonnull ptr)
  end.

(** The new slab of [alloc]: step 2. *)
Definition alloc_slab : C (option Z) :=
  page ← provider alloc_page;
  match page with
  | None => mret None
  | Some page_ptr =>
      cache ← get_cache;
      object_start_offset ← lift (object_offset (size cache));
      let object_start := page_ptr + object_start_offset in
      if PAGE_SIZE <=? object_start_offset then mret None
      else
        available_bytes ← lift (sub64 PAGE_SIZE object_start_offset);
        capacity ← (if size cache =? 0 then panic else mret (available_bytes / size cache));
        if capacity =? 0 then mret None
        else
          list ← link_objects object_start (size cache) (Z.to_nat capacity) None;
          match list with
          | None => panic
          | Some obj_ptr =>
              rest ← load_ptr obj_ptr;
              next ← match rest with
                     | Some _ => set_partial (nonnull page_ptr);; mret (partial cache)
                     | None => mret None
                     end;
              store_ptr (next_slab page_ptr) next;;
              store_ptr (freelist page_ptr) rest;;
              store (in_use page_ptr) 1;;
              mret (Some obj_ptr)
          end
  end.

(** [alloc]; it calls itself after dropping a slab without free objects from
    the partial list. *)
Fixpoint alloc (fuel : nat) : C (option Z) :=
  match fuel with
  | O => out_of_fuel
  | S fuel =>
      cache ← get_cache;
      match partial cache with
      | Some slab =>
          list ← load_ptr (freelist slab);
          match list with
          | Some obj_ptr =>
              rest ← load_ptr obj_ptr;
              store_ptr (freelist slab) rest;;
              n ← load (in_use slab);
              n ← lift (add64 n 1);
              store (in_use slab) n;;
              (match rest with
               | None =>
                   next ← load_ptr (next_slab slab);
                   set_partial next;;
                   store_ptr (next_slab slab) None
               | Some _ => mret ()
               end);;
              mret (Some obj_ptr)
          | None =>
              next ← load_ptr (next_slab slab);
              set_partial next;;
              alloc fuel
          end
      | None => alloc_slab
      end
  end.

(** The reference [cur]: the head of the partial list, or the link of a slab. *)
Inductive link := Head | After (slab : Z).
Definition read_link (l : link) : C (option Z) :=
  match l with Head => cache ← get_cache; mret (partial cache) | After s => load_ptr (next_slab s) end.
Definition write_link (l : link) (q : option Z) : C () :=
  match l with Head => set_partial q | After s => store_ptr (next_slab s) q end.

Fixpoint remove_slab_from (fuel : nat) (slab : Z) (cur : link) : C () :=
  match fuel with
  | O => out_of_fuel
  | S fuel =>
      node ← read_link cur;
      match node with
      | Some n =>
          if n =? slab then
            next ← load_ptr (next_slab n);
            write_link cur next
          else remove_slab_from fuel slab (After n)
      | None => mret ()
      end
  end.
Definition remove_slab_from_partial (fuel : nat) (slab : Z) : C () :=
  remove_slab_from fuel slab Head.

Definition dealloc (fuel : nat) (ptr : Z) : C () :=
  let page_ptr := Z.land ptr (not64 (PAGE_SIZE - 1)) in
  old ← load_ptr (freelist page_ptr);
  store_ptr ptr old;;
  store_ptr (freelist page_ptr) (nonnull ptr);;
  n ← load (in_use page_ptr);
  n ← lift (sub64 n 1);
  store (in_use page_ptr) n;;
  if n =? 0 then
    remove_slab_from_partial fuel page_ptr;;
    provider (free_page page_ptr)
  else
    next ← load_ptr ptr;
    match next with
    | None =>
        cache ← get_cache;
        store_ptr (next_slab page_ptr) (partial cache);;
        set_partial (nonnull page_ptr)
    | Some _ => mret ()
    end.
End code.
