(* ===== verification/SlubRep.v ===== *)
(** * Slabs in memory

    What the words of a slab page mean: the objects it is divided into, the
    chain of free ones, the count of used ones; and the contract between the
    slab allocator of [kernel/src/mm/slub.rs] and its page provider. *)
From S2P Require Import Prelude Machine Slub.

(** ** Pages *)

Record page_ok (pg : Z) : Prop := {
  po_low : 0 < pg;
  po_align : (4096 | pg);
  po_high : pg + 4096 < U64_LIM;
}.
Definition in_page (pg a : Z) : Prop := pg <= a < pg + 4096.
Definition in_pages (A : list Z) (a : Z) : Prop := exists pg, pg ∈ A /\ in_page pg a.

Lemma in_page_unique pg1 pg2 a :
  page_ok pg1 -> page_ok pg2 -> in_page pg1 a -> in_page pg2 a -> pg1 = pg2.
Proof. intros [_ [q1 ->] _] [_ [q2 ->] _]. unfold in_page. lia. Qed.

Lemma in_pages_app A B a : in_pages (A ++ B) a <-> in_pages A a \/ in_pages B a.
Proof. unfold in_pages. setoid_rewrite elem_of_app. naive_solver. Qed.
Lemma in_pages_cons pg A a : in_pages (pg :: A) a <-> in_page pg a \/ in_pages A a.
Proof. unfold in_pages. setoid_rewrite elem_of_cons. naive_solver. Qed.

#[global] Instance in_pages_perm : Proper ((≡ₚ) ==> eq ==> iff) in_pages.
Proof. intros A B HAB a ? <-. unfold in_pages. by setoid_rewrite HAB. Qed.

Lemma slab_page_mask pg a :
  page_ok pg -> in_page pg a -> Z.land a (not64 (PAGE_SIZE - 1)) = pg.
Proof.
  intros [Hlo [q ->] Hhi] Ha. unfold in_page in Ha.
  change (PAGE_SIZE - 1) with (2 ^ 12 - 1).
  rewrite (land_not_ones a 12) by (unfold is_u64; lia). change (2 ^ 12) with 4096.
  f_equal. symmetry. apply Z.div_unique with (a - q * 4096); lia.
Qed.

(** ** The contract of a page provider

    [prov_inv p m A]: the provider is in a good state and the pages [A] are
    handed out.  It keeps its data outside those pages. *)
Class PageProviderSpec (P : Type) `{PageProvider P} := {
  prov_inv : P -> mem -> list Z -> Prop;
  prov_perm p m A B : A ≡ₚ B -> prov_inv p m A -> prov_inv p m B;
  prov_pages p m A : prov_inv p m A -> NoDup A /\ Forall page_ok A;
  prov_write p m m' A :
    prov_inv p m A -> mem_frame (in_pages A) m m' -> prov_inv p m' A;
  alloc_page_ok p m A :
    prov_inv p m A ->
    exists r p' m', alloc_page (p, m) = Ret (r, (p', m')) /\
      (forall a, in_pages A a -> m' !! a = m !! a) /\
      match r with
      | Some pg => prov_inv p' m' (pg :: A)
      | None => prov_inv p' m' A
      end;
  free_page_ok p m pg A :
    prov_inv p m (pg :: A) ->
    exists p' m', free_page pg (p, m) = Ret ((), (p', m')) /\
      (forall a, in_pages A a -> m' !! a = m !! a) /\ prov_inv p' m' A;
}.

#[global] Instance prov_inv_perm `{PageProviderSpec P} p m :
  Proper ((≡ₚ) ==> iff) (prov_inv p m).
Proof. intros A B HAB. split; by apply prov_perm. Qed.

(** ** Size classes *)

(** The sizes of the kernel's eight caches. *)
Definition size_class (sz : Z) : Prop := sz ∈ [16; 32; 64; 128; 256; 512; 1024; 2048].

Definition obj_start (sz : Z) : Z := Z.max 32 sz.
Definition capacity (sz : Z) : Z := (4096 - obj_start sz) / sz.
Definition obj (sz pg : Z) (i : nat) : Z := pg + obj_start sz + Z.of_nat i * sz.
Definition objs (sz pg : Z) : list Z := obj sz pg <$> seq 0 (Z.to_nat (capacity sz)).

Definition in_obj (sz o a : Z) : Prop := o <= a < o + sz.

(** What the size classes have in common. *)
Record class_facts (sz : Z) : Prop := {
  cf_range : 16 <= sz <= 2048;
  cf_mult : sz mod 16 = 0;
  cf_divides : (sz | 4096);
  cf_start : (sz | obj_start sz);
  cf_start_range : 32 <= obj_start sz < 4096;
  cf_start_mult : obj_start sz mod 16 = 0;
  cf_capacity : 1 <= capacity sz;
  cf_fits : obj_start sz + capacity sz * sz <= 4096;
  cf_offset : forall ck : OverflowChecks, object_offset sz = Ret (obj_start sz);
}.

Lemma size_class_facts sz : size_class sz -> class_facts sz.
Proof.
  unfold size_class. rewrite !elem_of_cons, elem_of_nil. intros Hsz.
  destruct_or! Hsz; subst; try done; constructor;
    try (vm_compute; repeat split; discriminate); try reflexivity;
    try (apply Z.mod_divide; reflexivity || lia); intros []; reflexivity.
Qed.

Section objects.
Context (sz pg : Z) (Hsz : size_class sz) (Hpg : page_ok pg).

Lemma objs_elem o :
  o ∈ objs sz pg <-> exists i, (i < Z.to_nat (capacity sz))%nat /\ o = obj sz pg i.
Proof.
  unfold objs. rewrite list_elem_of_fmap. setoid_rewrite elem_of_seq. naive_solver lia.
Qed.

Lemma objs_range o : o ∈ objs sz pg -> pg + 32 <= o /\ o + sz <= pg + 4096.
Proof.
  intros (i & Hi & ->)%objs_elem. destruct (size_class_facts sz Hsz). unfold obj. nia.
Qed.

Lemma objs_aligned o : o ∈ objs sz pg -> (sz | o).
Proof.
  intros (i & Hi & ->)%objs_elem. pose proof (size_class_facts sz Hsz) as Hcf.
  unfold obj. repeat apply Z.divide_add_r;
    [exact (Z.divide_trans _ _ _ (cf_divides _ Hcf) (po_align _ Hpg))|apply Hcf|apply Z.divide_factor_r].
Qed.

Lemma objs_ptr o : o ∈ objs sz pg -> valid_ptr o.
Proof.
  intros Ho. pose proof (objs_range o Ho). pose proof (objs_aligned o Ho) as [c ->].
  destruct (size_class_facts sz Hsz), Hpg. split; [lia|].
  rewrite Z.mul_mod by lia. assert (sz mod 8 = 0) as ->.
  { apply Z.mod_divide; [lia|]. apply Z.mod_divide in cf_mult0 as [q ->]; [|lia].
    exists (q * 2). lia. }
  by rewrite Z.mul_0_r.
Qed.

Lemma obj_inj i j : obj sz pg i = obj sz pg j -> i = j.
Proof. destruct (size_class_facts sz Hsz). unfold obj. intros. nia. Qed.

Lemma objs_NoDup : NoDup (objs sz pg).
Proof. apply NoDup_fmap_2; [intros i j; apply obj_inj|apply NoDup_seq]. Qed.

(** Different objects do not overlap. *)
Lemma objs_disjoint o1 o2 a :
  o1 ∈ objs sz pg -> o2 ∈ objs sz pg -> in_obj sz o1 a -> in_obj sz o2 a -> o1 = o2.
Proof.
  intros (i & _ & ->)%objs_elem (j & _ & ->)%objs_elem. destruct (size_class_facts sz Hsz).
  unfold in_obj, obj. intros. assert (i = j) as -> by nia. done.
Qed.
End objects.

(** ** Chains *)

(** A list linked through the words at [fld]. *)
Fixpoint chain (fld : Z -> Z) (m : mem) (p : option Z) (l : list Z) : Prop :=
  match l with
  | [] => p = None
  | a :: l => p = Some a /\ chain fld m (nonnull (rd m (fld a))) l
  end.

Lemma chain_frame fld m m' p l :
  (forall a, a ∈ l -> rd m' (fld a) = rd m (fld a)) -> chain fld m p l -> chain fld m' p l.
Proof.
  revert p. induction l as [|a l IH]; intros p Hf; simpl; [done|]. intros [-> Hc]. split; [done|].
  rewrite Hf by left. apply IH; [|done]. intros b Hb. apply Hf. by right.
Qed.

Lemma chain_head fld m p l : chain fld m p l -> p = head l.
Proof. destruct l; simpl; [done|]. by intros [-> _]. Qed.

(** ** Slabs *)

Record slab := mkSlab { page : Z; sfree : list Z; sused : list Z }.

Section slabs.
Context `{SlabLayoutLaws}.

Lemma header_words pg :
  next_slab pg <> freelist pg /\ next_slab pg <> in_use pg /\ freelist pg <> in_use pg /\
  (forall w, w ∈ [next_slab pg; freelist pg; in_use pg] ->
     pg <= w < pg + 24 /\ (page_ok pg -> valid_ptr w)).
Proof.
  unfold next_slab, freelist, in_use.
  assert ([next_slab_at; freelist_at; in_use_at] ≡ₚ [0; 8; 16]) as Hl by apply slab_layout_ok.
  assert (NoDup [next_slab_at; freelist_at; in_use_at]) as Hn.
  { rewrite Hl. by_decide. }
  apply NoDup_cons in Hn as [Hn1 Hn]. apply NoDup_cons in Hn as [Hn2 _].
  rewrite !elem_of_cons in Hn1. rewrite !elem_of_cons in Hn2.
  split_and!; [intros ?; apply Hn1; left; lia|intros ?; apply Hn1; right; left; lia
    |intros ?; apply Hn2; left; lia|].
  intros w Hw. assert (exists d, w = pg + d /\ d ∈ [0; 8; 16]) as (d & -> & Hd).
  { setoid_rewrite <- Hl. set_unfold in Hw. destruct_or! Hw; subst;
      eexists; (split; [done|]); set_solver. }
  set_unfold in Hd. split; [lia|]. intros [Hlo [q ->] Hhi]. split; [lia|].
  destruct_or! Hd; subst; [replace (q * 4096 + 0) with (q * 512 * 8) by lia
    |replace (q * 4096 + 8) with ((q * 512 + 1) * 8) by lia
    |replace (q * 4096 + 16) with ((q * 512 + 2) * 8) by lia]; by apply Z.mod_mul.
Qed.

Record slab_ok (m : mem) (sz : Z) (s : slab) : Prop := {
  so_page : page_ok (page s);
  so_free : chain (fun a => a) m (nonnull (rd m (freelist (page s)))) (sfree s);
  so_count : rd m (in_use (page s)) = Z.of_nat (length (sused s));
  so_objs : sfree s ++ sused s ≡ₚ objs sz (page s);
}.

(** A slab depends on its header and its free objects only. *)
Lemma slab_ok_frame m m' sz s :
  rd m' (freelist (page s)) = rd m (freelist (page s)) ->
  rd m' (in_use (page s)) = rd m (in_use (page s)) ->
  (forall o, o ∈ sfree s -> rd m' o = rd m o) -> slab_ok m sz s -> slab_ok m' sz s.
Proof.
  intros Hf Hu Ho []. constructor; [done| |by rewrite Hu|done].
  rewrite Hf. by eapply chain_frame.
Qed.

Lemma slab_free_obj m sz s o : slab_ok m sz s -> o ∈ sfree s -> o ∈ objs sz (page s).
Proof. intros [_ _ _ <-] Ho. apply elem_of_app. by left. Qed.
Lemma slab_used_obj m sz s o : slab_ok m sz s -> o ∈ sused s -> o ∈ objs sz (page s).
Proof. intros [_ _ _ <-] Ho. apply elem_of_app. by right. Qed.
End slabs.
