(* ===== verification/SlubProofs.v ===== *)
(** * The operations of a slab cache

    [SCache::alloc] and [SCache::dealloc] of [kernel/src/mm/slub.rs] against
    the cache as lists of slabs, over any page provider that satisfies its
    contract. *)
From S2P Require Import Prelude Machine Slub SlubRep.

Section proofs.
Context {ck : OverflowChecks} `{SlabLayoutLaws}.

(** A cache in memory: the partial slabs in list order, and the full ones, to
    which nothing points. *)
Record cache_rep (m : mem) (sz : Z) (c : SCache) (parts fulls : list slab) : Prop := {
  cr_size : size c = sz;
  cr_class : size_class sz;
  cr_chain : chain next_slab m (partial c) (page <$> parts);
  cr_ok : Forall (slab_ok m sz) (parts ++ fulls);
  cr_parts : Forall (fun s => sfree s <> []) parts;
  cr_fulls : Forall (fun s => sfree s = []) fulls;
  cr_used : Forall (fun s => sused s <> []) (parts ++ fulls);
  cr_nodup : NoDup (page <$> parts ++ fulls);
}.

Definition used_objs (parts fulls : list slab) : list Z := mjoin (sused <$> parts ++ fulls).

(** ** Frames *)

Lemma word_of_head a : valid_ptr a -> nonnull a = Some a.
Proof. intros [? _]. apply nonnull_pos. lia. Qed.

(** The words a slab and its link depend on lie in its page. *)
Lemma slab_ok_agree m m' sz s :
  slab_ok m sz s -> size_class sz -> (forall a, in_page (page s) a -> rd m' a = rd m a) ->
  slab_ok m' sz s.
Proof.
  intros Hs Hsz Hrd. destruct (header_words (page s)) as (_ & _ & _ & Hw). unfold in_page in Hrd.
  eapply slab_ok_frame; [..|exact Hs].
  - apply Hrd. destruct (Hw (freelist (page s))); [set_solver|]. lia.
  - apply Hrd. destruct (Hw (in_use (page s))); [set_solver|]. lia.
  - intros o Ho. apply Hrd. pose proof (slab_free_obj _ _ _ _ Hs Ho) as Hob.
    pose proof (objs_range sz (page s) Hsz o Hob). destruct (size_class_facts sz Hsz). lia.
Qed.

Lemma next_in_page pg : in_page pg (next_slab pg).
Proof.
  destruct (header_words pg) as (_ & _ & _ & Hw). destruct (Hw (next_slab pg)) as [Hr _]; [set_solver|].
  unfold in_page. lia.
Qed.

Lemma other_page_rd pg pg' m m' a :
  page_ok pg -> page_ok pg' -> pg <> pg' -> mem_frame (in_page pg') m m' -> in_page pg a ->
  rd m' a = rd m a.
Proof.
  intros Hpg Hpg' Hne Hf Ha. apply (mem_frame_rd _ _ _ _ Hf). intros Ha'. apply Hne.
  by apply (in_page_unique _ _ a).
Qed.

Lemma chain_next_other m m' p l pg :
  Forall page_ok l -> page_ok pg -> pg ∉ l -> mem_frame (in_page pg) m m' ->
  chain next_slab m p l -> chain next_slab m' p l.
Proof.
  intros Hl Hpg Hni Hf. apply chain_frame. intros a Ha. rewrite Forall_forall in Hl.
  apply (other_page_rd a pg); [by apply Hl|done| |done|apply next_in_page]. by intros ->.
Qed.

Lemma slabs_other m m' sz l pg :
  Forall (slab_ok m sz) l -> size_class sz -> page_ok pg -> pg ∉ (page <$> l) ->
  mem_frame (in_page pg) m m' -> Forall (slab_ok m' sz) l.
Proof.
  intros Hl Hsz Hpg Hni Hf. rewrite Forall_forall in *. intros s Hs.
  eapply slab_ok_agree; [by apply Hl|done|]. intros a Ha.
  apply (other_page_rd (page s) pg); try done; [by destruct (Hl s Hs)|].
  intros <-. apply Hni. apply list_elem_of_fmap. by exists s.
Qed.

Lemma slab_pages m sz l : Forall (slab_ok m sz) l -> Forall page_ok (page <$> l).
Proof. intros Hl. apply Forall_fmap. eapply Forall_impl; [exact Hl|]. by intros s []. Qed.

Lemma used_bound m sz s : slab_ok m sz s -> size_class sz -> Z.of_nat (length (sused s)) <= 4096.
Proof.
  intros [_ _ _ Hp] Hsz. apply Permutation_length in Hp. rewrite length_app in Hp.
  unfold objs in Hp. rewrite length_fmap, length_seq in Hp. destruct (size_class_facts sz Hsz). nia.
Qed.

(** ** Taking an object from the first partial slab *)

(** The header words written by taking [o] out of a slab with rest [fr]. *)
Definition take_mem (m : mem) (s : slab) (fr : list Z) : mem :=
  let m1 := <[freelist (page s) := word_of (head fr)]> m in
  let m2 := <[in_use (page s) := Z.of_nat (length (sused s)) + 1]> m1 in
  match fr with [] => <[next_slab (page s) := 0]> m2 | _ => m2 end.

Lemma take_frame m s fr : mem_frame (fun a => page s <= a < page s + 24) m (take_mem m s fr).
Proof.
  destruct (header_words (page s)) as (_ & _ & _ & Hw). unfold take_mem.
  assert (mem_frame (fun a => page s <= a < page s + 24) m
    (<[in_use (page s) := Z.of_nat (length (sused s)) + 1]>
       (<[freelist (page s) := word_of (head fr)]> m))) as Hm.
  { eapply mem_frame_trans; apply mem_frame_insert; apply Hw; set_solver. }
  destruct fr; [|done]. eapply mem_frame_trans; [exact Hm|]. apply mem_frame_insert, Hw. set_solver.
Qed.

Lemma take_slab_ok m sz s o fr :
  slab_ok m sz s -> size_class sz -> sfree s = o :: fr ->
  slab_ok (take_mem m s fr) sz (mkSlab (page s) fr (o :: sused s)).
Proof.
  intros Hs Hsz Hfr. pose proof Hs as [Hpg Hc Hn Hp]. rewrite Hfr in *.
  destruct Hc as [_ Hc]. destruct (header_words (page s)) as (N1 & N2 & N3 & _).
  assert (forall q, q ∈ fr -> q ∈ objs sz (page s)) as Hobj.
  { intros q Hq. rewrite <- Hp. by right; apply elem_of_app; left. }
  assert (rd (take_mem m s fr) (freelist (page s)) = word_of (head fr)) as E1.
  { unfold take_mem. destruct fr; rewrite ?(rd_insert_ne _ (next_slab _)) by done;
      rewrite (rd_insert_ne _ (in_use _)) by done; apply rd_insert_eq. }
  constructor; cbn [page sfree sused].
  - done.
  - rewrite E1. replace (nonnull (word_of (head fr))) with (head fr).
    2: { destruct fr as [|q fr]; [done|]. simpl. symmetry. apply word_of_head.
         apply (objs_ptr sz (page s)); [done..|]. apply Hobj. left. }
    rewrite (chain_head _ _ _ _ Hc) in Hc. eapply chain_frame; [|exact Hc].
    intros q Hq. apply (mem_frame_rd _ _ _ _ (take_frame m s fr)).
    pose proof (objs_range sz (page s) Hsz q (Hobj q Hq)). lia.
  - unfold take_mem. simpl length. destruct fr.
    + rewrite rd_insert_ne by done. rewrite rd_insert_eq. lia.
    + rewrite rd_insert_eq. lia.
  - rewrite <- Hp. simpl. by rewrite Permutation_middle.
Qed.

Lemma header_ptrs pg :
  page_ok pg -> valid_ptr (next_slab pg) /\ valid_ptr (freelist pg) /\ valid_ptr (in_use pg).
Proof.
  intros Hpg. destruct (header_words pg) as (_ & _ & _ & Hw).
  split_and!; apply Hw; (done || set_solver).
Qed.

(** The cache after [o] is taken from its first partial slab [s]. *)
Lemma take_rep m sz c s o fr parts fulls :
  cache_rep m sz c (s :: parts) fulls -> sfree s = o :: fr ->
  let s' := mkSlab (page s) fr (o :: sused s) in
  match fr with
  | [] => cache_rep (take_mem m s fr) sz (mkCache (nonnull (rd m (next_slab (page s)))) (size c))
            parts (s' :: fulls)
  | _ => cache_rep (take_mem m s fr) sz c (s' :: parts) fulls
  end.
Proof.
  intros [Hsize Hsz Hch Hok Hpa Hfu Hus Hnd] Hfr s'.
  pose proof (slab_pages _ _ _ Hok) as Hpages. rewrite fmap_cons in Hch.
  rewrite <- app_comm_cons in *. rewrite fmap_cons in Hnd, Hpages.
  apply Forall_cons in Hok as [Hs Hok]. apply Forall_cons in Hus as [_ Hus].
  apply Forall_cons in Hpa as [_ Hpa]. apply Forall_cons in Hpages as [Hpg Hpages].
  apply NoDup_cons in Hnd as [Hni Hnd]. destruct Hch as [Hpart Hch].
  pose proof (take_slab_ok m sz s o fr Hs Hsz Hfr) as Hs'. fold s' in Hs'.
  assert (mem_frame (in_page (page s)) m (take_mem m s fr)) as Hf.
  { eapply mem_frame_mono; [|apply take_frame]. unfold in_page. simpl. lia. }
  assert (Forall (slab_ok (take_mem m s fr) sz) (parts ++ fulls)) as Hok'
    by (by apply (slabs_other m _ sz _ (page s))).
  assert (chain next_slab (take_mem m s fr) (nonnull (rd m (next_slab (page s)))) (page <$> parts)) as Hch'.
  { eapply (chain_next_other m); [|done| |done..].
    - rewrite fmap_app in Hpages. by apply Forall_app in Hpages as [? _].
    - rewrite fmap_app in Hni. set_solver. }
  destruct (header_words (page s)) as (N1 & N2 & _ & _).
  destruct fr as [|q fr]; constructor; cbn [partial]; try done;
    rewrite <- ?app_comm_cons; try by constructor.
  - apply Forall_app in Hok' as [? ?]. by apply Forall_app; split; [|constructor].
  - apply Forall_app in Hus as [? ?]. by apply Forall_app; split; [|constructor].
  - rewrite fmap_app, fmap_cons, <- Permutation_middle, <- fmap_app. by constructor.
  - rewrite fmap_cons. split; [done|]. unfold take_mem. simpl page.
    by replace (rd _ (next_slab (page s))) with (rd m (next_slab (page s)))
      by (by rewrite !rd_insert_ne).
Qed.

Section provider.
Context {P : Type} `{PageProvider P}.

Lemma run_get_cache c (p : P) m : get_cache ((c, p), m) = Ret (c, ((c, p), m)).
Proof. reflexivity. Qed.
Lemma run_set_partial q c (p : P) m :
  set_partial q ((c, p), m) = Ret ((), ((mkCache q (size c), p), m)).
Proof. reflexivity. Qed.

Lemma alloc_part_run fuel c (p : P) m sz s o fr parts fulls :
  cache_rep m sz c (s :: parts) fulls -> sfree s = o :: fr ->
  alloc (S fuel) ((c, p), m) = Ret (Some o,
    ((match fr with [] => mkCache (nonnull (rd m (next_slab (page s)))) (size c) | _ => c end, p),
     take_mem m s fr)).
Proof.
  intros [_ Hsz Hch Hok _ _ _ _] Hfr. destruct Hch as [Hpart _].
  apply Forall_cons in Hok as [Hs _]. pose proof Hs as [Hpg Hc Hn Hobj]. rewrite Hfr in Hc, Hobj.
  destruct Hc as [Hhead Hc]. destruct (header_words (page s)) as (N1 & N2 & N3 & _).
  destruct (header_ptrs _ Hpg) as (V1 & V2 & V3).
  assert (valid_ptr o) as Hvo.
  { apply (objs_ptr sz (page s)); [done..|]. rewrite <- Hobj. left. }
  pose proof (used_bound _ _ _ Hs Hsz) as Hub.
  cbn [alloc]. run (run_get_cache c p m). rewrite Hpart.
  run (run_load_ptr (freelist (page s)) (c, p) m V2). rewrite Hhead.
  run (run_load_ptr o (c, p) m Hvo). rewrite (chain_head _ _ _ _ Hc).
  run (run_store_ptr (freelist (page s)) (head fr) (c, p) m V2).
  set (m1 := <[freelist (page s) := word_of (head fr)]> m).
  run (run_load (in_use (page s)) (c, p) m1 V3).
  assert (rd m1 (in_use (page s)) = Z.of_nat (length (sused s))) as -> by (unfold m1; by rewrite rd_insert_ne).
  assert (add64 (Z.of_nat (length (sused s))) 1 = Ret (Z.of_nat (length (sused s)) + 1)) as Ha
    by (apply add64_ok; lia).
  run (run_lift _ ((c, p), m1) _ Ha).
  run (run_store (in_use (page s)) (Z.of_nat (length (sused s)) + 1) (c, p) m1 V3).
  set (m2 := <[in_use (page s) := Z.of_nat (length (sused s)) + 1]> m1).
  destruct fr as [|q fr]; cbn [head]; [|reflexivity].
  assert ((next ← load_ptr (next_slab (page s));
           set_partial next;; store_ptr (next_slab (page s)) None) ((c, p), m2)
    = Ret ((), ((mkCache (nonnull (rd m (next_slab (page s)))) (size c), p), take_mem m s []))) as E.
  { run (run_load_ptr (next_slab (page s)) (c, p) m2 V1).
    assert (rd m2 (next_slab (page s)) = rd m (next_slab (page s))) as ->
      by (unfold m2, m1; by rewrite !rd_insert_ne).
    run (run_set_partial (nonnull (rd m (next_slab (page s)))) c p m2).
    by rewrite run_store_ptr. }
  by run E.
Qed.

(** ** A new slab *)

Lemma link_objects_run st sz n next l c (p : P) m :
  0 < st -> (forall i, (i < n)%nat -> valid_ptr (st + Z.of_nat i * sz)) -> 8 <= sz ->
  st + Z.of_nat n * sz < U64_LIM ->
  chain (fun a => a) m next l -> (forall a, a ∈ l -> st + Z.of_nat n * sz <= a) ->
  exists m', link_objects st sz n next ((c, p), m) =
      Ret (head (((fun i => st + Z.of_nat i * sz) <$> seq 0 n) ++ l), ((c, p), m')) /\
    chain (fun a => a) m' (head (((fun i => st + Z.of_nat i * sz) <$> seq 0 n) ++ l))
      (((fun i => st + Z.of_nat i * sz) <$> seq 0 n) ++ l) /\
    mem_frame (fun a => st <= a < st + Z.of_nat n * sz) m m'.
Proof.
  intros Hst. revert next l m. induction n as [|n IH]; intros next l m Hv Hsz Hlim Hc Hl.
  { exists m. simpl. rewrite <- (chain_head _ _ _ _ Hc). by split_and!. }
  cbn [link_objects]. set (a := st + Z.of_nat n * sz).
  assert (mul64 (Z.of_nat n) sz = Ret (Z.of_nat n * sz)) as E1 by (apply mul64_ok; nia).
  assert (valid_ptr a) as Ha by (apply Hv; lia).
  run (run_lift _ ((c, p), m) _ E1). cbv zeta. fold a. run (run_store_ptr a next (c, p) m Ha).
  rewrite (word_of_head a Ha). set (m1 := <[a := word_of next]> m).
  assert (chain (fun a => a) m1 (Some a) (a :: l)) as Hc1.
  { split; [done|]. unfold m1. rewrite rd_insert_eq.
    assert (nonnull (word_of next) = next) as ->.
    { apply nonnull_word_of. intros ->. destruct l as [|b l]; [done|].
      specialize (Hl b ltac:(left)). destruct Hc as [[= <-] _]. lia. }
    eapply chain_frame; [|exact Hc]. intros b Hb. specialize (Hl b Hb). rewrite rd_insert_ne; [done|].
    unfold a. lia. }
  destruct (IH (Some a) (a :: l) m1) as (m' & E & Hc' & Hf); [|done| |done| |].
  { intros i Hi. apply Hv. lia. }
  { unfold a in *. lia. }
  { intros b [->|Hb]%elem_of_cons; [done|]. specialize (Hl b Hb). unfold a. lia. }
  assert (((fun i => st + Z.of_nat i * sz) <$> seq 0 (S n)) ++ l =
          ((fun i => st + Z.of_nat i * sz) <$> seq 0 n) ++ a :: l) as ->.
  { rewrite seq_S, fmap_app, <- app_assoc. done. }
  exists m'. split_and!; [done..|]. eapply mem_frame_trans.
  - apply (mem_frame_insert _ _ a). unfold a. lia.
  - eapply mem_frame_mono; [|exact Hf]. simpl. intros. lia.
Qed.
Lemma objs_cons sz pg :
  size_class sz -> exists os, objs sz pg = obj sz pg 0 :: os.
Proof.
  intros Hsz. destruct (size_class_facts sz Hsz). unfold objs.
  destruct (Z.to_nat (capacity sz)) as [|n] eqn:E; [lia|]. by eexists.
Qed.

Lemma run_provider {A} (f : M (P * mem) A) c (p : P) m a p' m' :
  f (p, m) = Ret (a, (p', m')) -> provider f ((c, p), m) = Ret (a, ((c, p'), m')).
Proof. unfold provider. by intros ->. Qed.

(** The header written over a page whose objects are already linked. *)
Lemma header_slab_ok m sz pg o os :
  size_class sz -> page_ok pg -> objs sz pg = o :: os ->
  chain (fun a => a) m (Some o) (o :: os) ->
  let m' := <[in_use pg := 1]> (<[freelist pg := word_of (head os)]> (<[next_slab pg := 0]> m)) in
  slab_ok m' sz (mkSlab pg os [o]) /\ rd m' (next_slab pg) = 0 /\
  mem_frame (fun a => pg <= a < pg + 24) m m'.
Proof.
  intros Hsz Hpg Hobjs [_ Hc] m'. destruct (header_words pg) as (N1 & N2 & N3 & Hw).
  assert (mem_frame (fun a => pg <= a < pg + 24) m m') as Hf.
  { unfold m'. repeat (eapply mem_frame_trans; [|apply mem_frame_insert, Hw; set_solver]).
    apply mem_frame_refl. }
  assert (forall q, q ∈ os -> q ∈ objs sz pg) as Hin by (intros q Hq; rewrite Hobjs; by right).
  split_and!; [|unfold m'; by rewrite !rd_insert_ne, rd_insert_eq by done|done].
  constructor; cbn [page sfree sused]; [done| | |].
  - unfold m' at 2. rewrite rd_insert_ne, rd_insert_eq by done.
    replace (nonnull (word_of (head os))) with (head os).
    2: { destruct os as [|q os]; [done|]. simpl. symmetry. apply word_of_head.
         apply (objs_ptr sz pg); [done..|]. apply Hin. left. }
    rewrite (chain_head _ _ _ _ Hc) in Hc. eapply chain_frame; [|exact Hc].
    intros q Hq. apply (mem_frame_rd _ _ _ _ Hf).
    pose proof (objs_range sz pg Hsz q (Hin q Hq)). lia.
  - unfold m'. by rewrite rd_insert_eq.
  - rewrite Hobjs. by rewrite Permutation_app_comm.
Qed.

Lemma alloc_slab_run sz c (p p1 : P) m m1 pg :
  size_class sz -> size c = sz -> partial c = None -> page_ok pg ->
  alloc_page (p, m) = Ret (Some pg, (p1, m1)) ->
  exists os m', objs sz pg = obj sz pg 0 :: os /\
    alloc_slab ((c, p), m) = Ret (Some (obj sz pg 0),
      ((match os with [] => c | _ => mkCache (Some pg) sz end, p1), m')) /\
    mem_frame (in_page pg) m1 m' /\ slab_ok m' sz (mkSlab pg os [obj sz pg 0]) /\
    rd m' (next_slab pg) = 0.
Proof.
  intros Hsz Hsize Hpart Hpg Hal. destruct (size_class_facts sz Hsz) as [Hr _ _ _ Hst _ Hcap Hfit Hoff].
  destruct (objs_cons sz pg Hsz) as [os Hobjs]. pose proof Hpg as [Hlo _ Hhi].
  destruct (link_objects_run (pg + obj_start sz) sz (Z.to_nat (capacity sz)) None [] c p1 m1)
    as (m2 & Hlink & Hch & Hf2); [lia| |lia|lia|done|set_solver|].
  { intros i Hi. apply (objs_ptr sz pg); [done..|]. apply objs_elem. by exists i. }
  rewrite app_nil_r in *. change ((fun i => _) <$> seq 0 _) with (objs sz pg) in *.
  rewrite Hobjs in Hlink, Hch. cbn [head] in Hlink, Hch.
  destruct (header_slab_ok m2 sz pg (obj sz pg 0) os Hsz Hpg Hobjs Hch) as (Hok & Hnx & Hf3).
  set (m3 := <[in_use pg := 1]> (<[freelist pg := word_of (head os)]> (<[next_slab pg := 0]> m2))) in *.
  exists os, m3. split_and!; [done| | |done..].
  2: { eapply mem_frame_trans; [eapply mem_frame_mono, Hf2|eapply mem_frame_mono, Hf3];
         unfold in_page; simpl; intros; lia. }
  destruct (header_ptrs _ Hpg) as (V1 & V2 & V3).
  assert (valid_ptr (obj sz pg 0)) as Vo.
  { apply (objs_ptr sz pg); [done..|]. rewrite Hobjs. left. }
  unfold alloc_slab. run (run_provider alloc_page c p m _ _ _ Hal). cbv iota.
  run (run_get_cache c p1 m1). rewrite Hsize. run (run_lift _ ((c, p1), m1) _ (Hoff ck)). cbv zeta.
  rewrite (proj2 (Z.leb_gt PAGE_SIZE _)) by (change PAGE_SIZE with 4096; lia).
  assert (sub64 PAGE_SIZE (obj_start sz) = Ret (4096 - obj_start sz)) as Es
    by (apply sub64_ok; change PAGE_SIZE with 4096; lia).
  run (run_lift _ ((c, p1), m1) _ Es). rewrite (proj2 (Z.eqb_neq sz 0)) by lia. run.
  fold (capacity sz). rewrite (proj2 (Z.eqb_neq (capacity sz) 0)) by lia.
  run Hlink. run (run_load_ptr (obj sz pg 0) (c, p1) m2 Vo).
  rewrite (chain_head _ _ _ _ (proj2 Hch)), Hpart. rewrite (word_of_head pg).
  2: { split; [lia|]. apply Z.mod_divide; [lia|].
       apply (Z.divide_trans _ 4096); [by exists 512|apply Hpg]. }
  destruct os as [|q os]; cbn [head].
  - run. run (run_store_ptr (next_slab pg) None (c, p1) m2 V1).
    run (run_store_ptr (freelist pg) None (c, p1) (<[next_slab pg := 0]> m2) V2).
    run (run_store (in_use pg) 1 (c, p1) (<[freelist pg := 0]> (<[next_slab pg := 0]> m2)) V3). done.
  - run (run_bind _ _ _ _ _ (run_set_partial (Some pg) c p1 m2)). rewrite Hsize.
    set (c' := mkCache (Some pg) sz).
    run (run_store_ptr (next_slab pg) None (c', p1) m2 V1).
    run (run_store_ptr (freelist pg) (Some q) (c', p1) (<[next_slab pg := 0]> m2) V2).
    run (run_store (in_use pg) 1 (c', p1) (<[freelist pg := q]> (<[next_slab pg := 0]> m2)) V3). done.
Qed.

(** A cache does not depend on memory outside its pages. *)
Lemma cache_rep_agree m m' sz c parts fulls :
  cache_rep m sz c parts fulls ->
  (forall a, in_pages (page <$> parts ++ fulls) a -> m' !! a = m !! a) ->
  cache_rep m' sz c parts fulls.
Proof.
  intros [Hsize Hsz Hch Hok Hpa Hfu Hus Hnd] Ha.
  assert (forall s a, s ∈ parts ++ fulls -> in_page (page s) a -> rd m' a = rd m a) as Hrd.
  { intros s a Hs Hin. unfold rd. rewrite Ha; [done|]. exists (page s). split; [|done].
    apply list_elem_of_fmap. by exists s. }
  constructor; try done.
  - eapply chain_frame; [|exact Hch]. intros pg (s & -> & Hs)%list_elem_of_fmap.
    apply (Hrd s); [set_solver|apply next_in_page].
  - rewrite Forall_forall in *. intros s Hs. eapply slab_ok_agree; [by apply Hok|done|].
    intros a. by apply Hrd.
Qed.

Lemma used_obj_slab parts fulls o :
  o ∈ used_objs parts fulls <-> exists s, s ∈ parts ++ fulls /\ o ∈ sused s.
Proof.
  unfold used_objs. rewrite list_elem_of_join. setoid_rewrite list_elem_of_fmap. naive_solver.
Qed.
End provider.
End proofs.
