(* ===== verification/SlubOps.v ===== *)
(** * Allocation from a slab cache

    [SCache::alloc] of [kernel/src/mm/slub.rs], whole: every branch it can
    take on a cache in memory, over any page provider that keeps its
    contract.  [B] stands for the provider's pages that belong to others. *)
From S2P Require Import Prelude Machine Slub SlubRep SlubProofs.

Section ops.
Context {ck : OverflowChecks} `{SlabLayoutLaws} {P : Type} `{PageProviderSpec P}.

Abbreviation pages parts fulls := (page <$> parts ++ fulls).

(** ** Used objects *)

Lemma used_obj_facts m sz c parts fulls o :
  cache_rep m sz c parts fulls -> o ∈ used_objs parts fulls ->
  exists pg, pg ∈ pages parts fulls /\ page_ok pg /\ o ∈ objs sz pg.
Proof.
  intros Hc (s & Hs & Ho)%used_obj_slab. destruct Hc as [_ _ _ Hok _ _ _ _].
  rewrite Forall_forall in Hok. specialize (Hok s Hs). exists (page s).
  split_and!; [apply list_elem_of_fmap; by exists s|apply Hok|]. by eapply slab_used_obj.
Qed.

Lemma obj_in_page sz pg o a :
  size_class sz -> o ∈ objs sz pg -> in_obj sz o a -> in_page pg a /\ pg + 32 <= a.
Proof.
  intros Hsz Ho Ha. pose proof (objs_range sz pg Hsz o Ho). unfold in_obj, in_page in *. lia.
Qed.

Lemma NoDup_join_used m sz l :
  size_class sz -> Forall (slab_ok m sz) l -> NoDup (page <$> l) -> NoDup (mjoin (sused <$> l)).
Proof.
  intros Hsz. induction l as [|s l IH]; intros Hok Hnd; [constructor|].
  apply Forall_cons in Hok as [Hs Hok]. rewrite fmap_cons in Hnd. apply NoDup_cons in Hnd as [Hni Hnd].
  simpl. apply NoDup_app. split_and!; [| |by apply IH].
  - assert (NoDup (sfree s ++ sused s)) as [_ [_ ?]]%NoDup_app; [|done].
    rewrite (so_objs _ _ _ Hs). by apply objs_NoDup.
  - intros o Ho (l' & Ho' & (s' & -> & Hs')%list_elem_of_fmap)%list_elem_of_join. apply Hni.
    rewrite Forall_forall in Hok. specialize (Hok s' Hs').
    apply (slab_used_obj _ _ _ _ Hs) in Ho. apply (slab_used_obj _ _ _ _ Hok) in Ho'.
    destruct (size_class_facts sz Hsz).
    rewrite (in_page_unique (page s) (page s') o);
      [apply list_elem_of_fmap; by exists s'|apply Hs|apply Hok|..];
      eapply (obj_in_page sz); try done; unfold in_obj; lia.
Qed.

(** The objects in use are distinct, aligned to the object size, and do not
    overlap. *)
Lemma used_objs_facts m sz c parts fulls :
  cache_rep m sz c parts fulls ->
  NoDup (used_objs parts fulls) /\
  (forall o, o ∈ used_objs parts fulls -> (sz | o) /\ valid_ptr o /\ o + sz < U64_LIM) /\
  (forall o1 o2 a, o1 ∈ used_objs parts fulls -> o2 ∈ used_objs parts fulls ->
    in_obj sz o1 a -> in_obj sz o2 a -> o1 = o2).
Proof.
  intros Hc. pose proof (cr_class _ _ _ _ _ Hc) as Hsz. split_and!.
  - unfold used_objs. eapply NoDup_join_used; [done|apply Hc|apply Hc].
  - intros o Ho. destruct (used_obj_facts _ _ _ _ _ _ Hc Ho) as (pg & _ & Hpg & Hob).
    pose proof (objs_range sz pg Hsz o Hob). destruct Hpg as [? ? ?] eqn:Epg.
    split_and!; [by apply (objs_aligned sz pg)|by apply (objs_ptr sz pg)|lia].
  - intros o1 o2 a Hu1 Hu2 Ha1 Ha2.
    destruct (used_obj_facts _ _ _ _ _ _ Hc Hu1) as (pg1 & _ & Hpg1 & Ho1).
    destruct (used_obj_facts _ _ _ _ _ _ Hc Hu2) as (pg2 & _ & Hpg2 & Ho2).
    destruct (obj_in_page _ _ _ _ Hsz Ho1 Ha1) as [P1 _].
    destruct (obj_in_page _ _ _ _ Hsz Ho2 Ha2) as [P2 _].
    rewrite (in_page_unique pg2 pg1 a) in Ho2 by done. by apply (objs_disjoint sz pg1 Hsz o1 o2 a).
Qed.

(** ** What an operation on one page leaves alone *)

Lemma header_apart m m' sz c parts fulls pg :
  cache_rep m sz c parts fulls -> page_ok pg ->
  mem_frame (fun a => pg <= a < pg + 24) m m' ->
  forall u a, u ∈ used_objs parts fulls -> in_obj sz u a -> m' !! a = m !! a.
Proof.
  intros Hc Hpg Hf u a Hu Ha. apply Hf. intros Hin.
  destruct (used_obj_facts _ _ _ _ _ _ Hc Hu) as (pg' & _ & Hpg' & Ho).
  destruct (obj_in_page _ _ _ _ (cr_class _ _ _ _ _ Hc) Ho Ha) as [Hp Hlo].
  rewrite (in_page_unique pg' pg a) in Hlo; try done; [lia|]. unfold in_page. lia.
Qed.

Lemma page_apart m m' A pg :
  Forall page_ok A -> page_ok pg -> pg ∉ A -> mem_frame (in_page pg) m m' ->
  forall a, in_pages A a -> m' !! a = m !! a.
Proof.
  intros HA Hpg Hni Hf a (pg' & Hin & Ha). apply Hf. intros Ha'. apply Hni.
  rewrite Forall_forall in HA. by rewrite (in_page_unique pg pg' a) by auto.
Qed.

Lemma frame_in_pages m m' A pg :
  pg ∈ A -> mem_frame (in_page pg) m m' -> mem_frame (in_pages A) m m'.
Proof. intros Hin. apply mem_frame_mono. intros a Ha. by exists pg. Qed.

Lemma used_in_pages m sz c parts fulls u a :
  cache_rep m sz c parts fulls -> u ∈ used_objs parts fulls -> in_obj sz u a ->
  in_pages (pages parts fulls) a.
Proof.
  intros Hc Hu Ha. destruct (used_obj_facts _ _ _ _ _ _ Hc Hu) as (pg & Hin & _ & Ho).
  exists pg. split; [done|]. by apply (obj_in_page sz pg u a (cr_class _ _ _ _ _ Hc)).
Qed.

(** A write to an object in use changes nothing of the cache. *)
Lemma cache_rep_write m sz c parts fulls u a v :
  cache_rep m sz c parts fulls -> u ∈ used_objs parts fulls -> in_obj sz u a ->
  cache_rep (<[a := v]> m) sz c parts fulls.
Proof.
  intros Hc Hu Ha. pose proof Hc as [Hsize Hsz Hch Hok Hpa Hfu Hus Hnd].
  destruct (proj1 (used_obj_slab _ _ _) Hu) as (s & Hs & Hus').
  rewrite Forall_forall in Hok. pose proof (Hok s Hs) as Hsok.
  pose proof (slab_used_obj _ _ _ _ Hsok Hus') as Hu'. destruct (obj_in_page _ _ _ _ Hsz Hu' Ha) as [Hp Hlo].
  assert (forall t w, t ∈ parts ++ fulls -> w ∈ [next_slab (page t); freelist (page t); in_use (page t)] -> a <> w)
    as Hhead.
  { intros t w Ht Hw ->. destruct (header_words (page t)) as (_ & _ & _ & Hr). destruct (Hr w Hw) as [Hr' _].
    rewrite (in_page_unique (page s) (page t) w) in Hlo; [lia|apply Hsok|by destruct (Hok t Ht)|done|].
    unfold in_page. lia. }
  constructor; try done.
  - eapply chain_frame; [|exact Hch]. intros pg (t & -> & Ht)%list_elem_of_fmap.
    apply rd_insert_ne, (Hhead t); set_solver.
  - apply Forall_forall. intros t Ht. specialize (Hok t Ht).
    eapply slab_ok_frame; [apply rd_insert_ne, (Hhead t); set_solver..| |exact Hok].
    intros o Ho. apply rd_insert_ne. intros ->. destruct (size_class_facts sz Hsz).
    pose proof (slab_free_obj _ _ _ _ Hok Ho) as Ho'. assert (in_obj sz o o) as Hoo by (unfold in_obj; lia).
    destruct (obj_in_page _ _ _ _ Hsz Ho' Hoo) as [Hp' _].
    assert (page t = page s) as Hpp by (apply (in_page_unique _ _ o); [apply Hok|apply Hsok|done|done]).
    rewrite Hpp in Ho'. assert (u = o) as -> by (by apply (objs_disjoint sz (page s) Hsz u o o)).
    assert (t = s) as ->.
    { apply list_elem_of_lookup in Ht as [j Hj], Hs as [j' Hj']. assert (j = j') as ->; [|by simplify_eq].
      eapply NoDup_lookup; [exact Hnd|..]; rewrite list_lookup_fmap; [by rewrite Hj|by rewrite Hj'; simpl; rewrite Hpp]. }
    assert (NoDup (sfree s ++ sused s)) as (_ & Hd & _)%NoDup_app.
    { rewrite (so_objs _ _ _ Hsok). by apply objs_NoDup. }
    by apply (Hd o).
Qed.

(** ** [alloc] *)

(** The result of an operation on a cache: the new cache in memory, the
    provider's pages, and what is unchanged: the pages [B] of others and the
    bytes of the objects [kept]. *)
Record cache_step (sz : Z) (kept : list Z) (B : list Z) (m : mem)
    (c' : SCache) (p' : P) (m' : mem) (parts' fulls' : list slab) : Prop := {
  cs_rep : cache_rep m' sz c' parts' fulls';
  cs_prov : prov_inv p' m' (pages parts' fulls' ++ B);
  cs_others : forall a, in_pages B a -> m' !! a = m !! a;
  cs_kept : forall u a, u ∈ kept -> in_obj sz u a -> m' !! a = m !! a;
}.

Lemma alloc_part_ok fuel sz c (p : P) m s parts fulls B :
  cache_rep m sz c (s :: parts) fulls -> prov_inv p m (pages (s :: parts) fulls ++ B) ->
  exists o c' m' parts' fulls',
    alloc (S fuel) ((c, p), m) = Ret (Some o, ((c', p), m')) /\
    cache_step sz (used_objs (s :: parts) fulls) B m c' p m' parts' fulls' /\
    used_objs parts' fulls' ≡ₚ o :: used_objs (s :: parts) fulls.
Proof.
  intros Hc Hp. destruct (sfree s) as [|o fr] eqn:Hfr.
  { pose proof (cr_parts _ _ _ _ _ Hc) as Hpa. by apply Forall_cons in Hpa as [? _]. }
  pose proof (alloc_part_run fuel c p m sz s o fr parts fulls Hc Hfr) as Hrun.
  pose proof (take_rep m sz c s o fr parts fulls Hc Hfr) as Hrep. cbv zeta in Hrep.
  destruct (prov_pages _ _ _ Hp) as [Hnd Hpok]. apply NoDup_app in Hnd as (_ & HB & _).
  apply Forall_app in Hpok as [Hpok HBok]. pose proof (Forall_inv Hpok) as Hpg.
  pose proof (take_frame m s fr) as Hf24. set (m' := take_mem m s fr) in *.
  assert (mem_frame (in_page (page s)) m m') as Hf.
  { eapply mem_frame_mono; [|exact Hf24]. unfold in_page. simpl. lia. }
  assert (prov_inv p m' (pages (s :: parts) fulls ++ B)) as Hp'.
  { apply (prov_write p m); [done|]. apply (frame_in_pages _ _ _ (page s)); [left|done]. }
  assert (forall a, in_pages B a -> m' !! a = m !! a) as HoB.
  { apply (page_apart m m' B (page s)); [done..| |done]. apply HB. left. }
  pose proof (header_apart _ _ _ _ _ _ _ Hc Hpg Hf24) as Hk.
  destruct fr as [|q fr].
  - eexists o, _, m', parts, (mkSlab (page s) [] (o :: sused s) :: fulls).
    split_and!; [exact Hrun| |].
    + constructor; [done| |done..]. eapply prov_perm; [|exact Hp'].
      apply Permutation_app_tail. rewrite !fmap_app, !fmap_cons. simpl.
      by rewrite Permutation_middle.
    + unfold used_objs. rewrite !fmap_app, !fmap_cons, !join_app. simpl.
      rewrite <- Permutation_middle, app_assoc. by rewrite (Permutation_app_comm (mjoin _) (sused s)).
  - eexists o, _, m', (mkSlab (page s) (q :: fr) (o :: sused s) :: parts), fulls.
    split_and!; [exact Hrun|by constructor|done].
Qed.

Lemma alloc_new_ok fuel sz c (p : P) m fulls B :
  cache_rep m sz c [] fulls -> prov_inv p m (pages [] fulls ++ B) ->
  exists r c' p' m' parts' fulls',
    alloc (S fuel) ((c, p), m) = Ret (r, ((c', p'), m')) /\
    cache_step sz (used_objs [] fulls) B m c' p' m' parts' fulls' /\
    match r with
    | Some o => used_objs parts' fulls' ≡ₚ o :: used_objs [] fulls
    | None => parts' = [] /\ fulls' = fulls /\ exists st, alloc_page (p, m) = Ret (None, st)
    end.
Proof.
  intros Hc Hp. destruct (alloc_page_ok _ _ _ Hp) as (r & p1 & m1 & Hal & Hag & Hp1).
  pose proof Hc as [Hsize Hsz Hch _ _ _ _ _]. simpl in Hch.
  setoid_rewrite in_pages_app in Hag.
  assert (forall u a, u ∈ used_objs [] fulls -> in_obj sz u a -> m1 !! a = m !! a) as Hk1
    by (intros u a Hu Ha; apply Hag; left; by eapply used_in_pages).
  assert (cache_rep m1 sz c [] fulls) as Hc1 by (eapply cache_rep_agree; [exact Hc|]; auto).
  cbn [alloc]. destruct r as [pg|].
  2: { exists None, c, p1, m1, [], fulls. split; [|split; [constructor; auto|naive_solver]].
       run (run_get_cache c p m). rewrite Hch. unfold alloc_slab.
       by run (run_provider alloc_page c p m _ _ _ Hal). }
  destruct (prov_pages _ _ _ Hp1) as [[Hni _]%NoDup_cons [Hpg Hpok]%Forall_cons].
  destruct (alloc_slab_run sz c p p1 m m1 pg Hsz Hsize Hch Hpg Hal)
    as (os & m2 & Hobjs & Hrun & Hf & Hs & Hnx).
  assert (forall a, in_pages (pages [] fulls ++ B) a -> m2 !! a = m1 !! a) as Hag2
    by (by apply (page_apart m1 m2 _ pg)).
  setoid_rewrite in_pages_app in Hag2.
  assert (cache_rep m2 sz c [] fulls) as Hc2 by (eapply cache_rep_agree; [exact Hc1|]; auto).
  set (s := mkSlab pg os [obj sz pg 0]) in *.
  assert (prov_inv p1 m2 (pg :: pages [] fulls ++ B)) as Hp2.
  { apply (prov_write p1 m1); [done|]. apply (frame_in_pages _ _ _ pg); [left|done]. }
  assert (forall u a, u ∈ used_objs [] fulls -> in_obj sz u a -> m2 !! a = m !! a) as Hk2.
  { intros u a Hu Ha. rewrite <- (Hk1 u a) by done. apply Hag2. left. by eapply used_in_pages. }
  assert (forall a, in_pages B a -> m2 !! a = m !! a) as HB2
    by (intros a Ha; rewrite Hag2, Hag; auto).
  destruct Hc2 as [_ _ Hch2 Hok2 _ Hfu Hus Hnd]. simpl in Hok2, Hus, Hnd.
  assert (pg ∉ page <$> fulls) as Hni' by (intros ?; apply Hni, elem_of_app; by left).
  destruct os as [|q os].
  - exists (Some (obj sz pg 0)), c, p1, m2, [], (s :: fulls). split_and!; [| |done].
    { run (run_get_cache c p m). rewrite Hch. exact Hrun. }
    constructor; [|exact Hp2|done..]. constructor; simpl; try done; constructor; done.
  - exists (Some (obj sz pg 0)), (mkCache (Some pg) sz), p1, m2, [s], fulls.
    split_and!; [| |done].
    { run (run_get_cache c p m). rewrite Hch. exact Hrun. }
    constructor; [|exact Hp2|done..]. constructor; simpl; try done; [by rewrite Hnx|by constructor..].
Qed.

Lemma scache_alloc_ok fuel sz c (p : P) m parts fulls B :
  cache_rep m sz c parts fulls -> prov_inv p m (pages parts fulls ++ B) ->
  exists r c' p' m' parts' fulls',
    alloc (S fuel) ((c, p), m) = Ret (r, ((c', p'), m')) /\
    cache_step sz (used_objs parts fulls) B m c' p' m' parts' fulls' /\
    match r with
    | Some o => used_objs parts' fulls' ≡ₚ o :: used_objs parts fulls
    | None => parts = [] /\ parts' = [] /\ fulls' = fulls /\ exists st, alloc_page (p, m) = Ret (None, st)
    end.
Proof.
  intros Hc Hp. destruct parts as [|s parts].
  - destruct (alloc_new_ok fuel _ _ _ _ _ _ Hc Hp) as (r & c' & p' & m' & ps & fs & ? & ? & Hr).
    exists r, c', p', m', ps, fs. split_and!; [done..|]. by destruct r.
  - destruct (alloc_part_ok fuel _ _ _ _ _ _ _ _ Hc Hp) as (o & c' & m' & ps & fs & ? & ? & ?).
    by exists (Some o), c', p, m', ps, fs.
Qed.
End ops.
