(* ===== verification/SlubDealloc.v ===== *)
(** * Returning an object to a slab cache

    [SCache::dealloc] and [remove_slab_from_partial] of
    [kernel/src/mm/slub.rs]: the object goes to the front of its slab's free
    chain; a slab with no used object left is unlinked and its page given
    back, a slab that was full becomes partial again. *)
From S2P Require Import Prelude Machine Slub SlubRep SlubProofs SlubOps.

Section remove.
Context {ck : OverflowChecks} `{SlabLayoutLaws} {P : Type} `{PageProvider P}.

(** ** The search through the partial list *)

Definition link_val (c : SCache) (m : mem) (cur : link) : option Z :=
  match cur with Head => partial c | After s => nonnull (rd m (next_slab s)) end.
Definition link_page (cur : link) : list Z :=
  match cur with Head => [] | After s => [s] end.

Lemma run_read_link c (p : P) m cur :
  Forall page_ok (link_page cur) -> read_link cur ((c, p), m) = Ret (link_val c m cur, ((c, p), m)).
Proof.
  destruct cur as [|s]; simpl; [done|]. intros Hs. apply Forall_inv in Hs.
  apply run_load_ptr, header_ptrs, Hs.
Qed.

Lemma nonnull_not_null w : nonnull w <> Some 0.
Proof. unfold nonnull. destruct (Z.eqb_spec w 0); congruence. Qed.

Lemma next_slab_inj a b : next_slab a = next_slab b -> a = b.
Proof. unfold next_slab. lia. Qed.

Lemma remove_absent fuel pg c (p : P) m cur l :
  chain next_slab m (link_val c m cur) l -> Forall page_ok (link_page cur ++ l) -> pg ∉ l ->
  (length l < fuel)%nat ->
  remove_slab_from fuel pg cur ((c, p), m) = Ret ((), ((c, p), m)).
Proof.
  revert cur l. induction fuel as [|fuel IH]; intros cur l Hch Hok Hni Hlen; [lia|].
  apply Forall_app in Hok as [Hcur Hl]. cbn [remove_slab_from].
  run (run_read_link c p m cur Hcur). destruct l as [|a l]; simpl in Hch.
  - by rewrite Hch.
  - destruct Hch as [-> Hch]. apply not_elem_of_cons in Hni as [Hne Hni].
    rewrite (proj2 (Z.eqb_neq a pg)) by done. apply (IH (After a) l); [done|done|done|].
    simpl in Hlen. lia.
Qed.

Lemma remove_present fuel pg c (p : P) m cur l1 l2 :
  chain next_slab m (link_val c m cur) (l1 ++ pg :: l2) ->
  Forall page_ok (link_page cur ++ l1 ++ pg :: l2) -> NoDup (link_page cur ++ l1 ++ pg :: l2) ->
  (length l1 < fuel)%nat ->
  exists c' m', remove_slab_from fuel pg cur ((c, p), m) = Ret ((), ((c', p), m')) /\
    chain next_slab m' (link_val c' m' cur) (l1 ++ l2) /\ size c' = size c /\
    (cur <> Head -> c' = c) /\
    mem_frame (fun a => exists s, s ∈ link_page cur ++ l1 /\ a = next_slab s) m m'.
Proof.
  revert cur l1. induction fuel as [|fuel IH]; intros cur l1 Hch Hok Hnd Hlen; [lia|].
  apply Forall_app in Hok as [Hcur Hl]. cbn [remove_slab_from].
  run (run_read_link c p m cur Hcur). destruct l1 as [|s l1]; simpl in Hch; destruct Hch as [Hlv Hch]; rewrite Hlv.
  - rewrite Z.eqb_refl. apply Forall_inv in Hl as Hpg.
    run (run_load_ptr (next_slab pg) (c, p) m (proj1 (header_ptrs pg Hpg))).
    destruct cur as [|t].
    + eexists _, m. split; [apply run_set_partial|]. done.
    + apply Forall_inv in Hcur as Ht. eexists c, _.
      split; [apply run_store_ptr, (header_ptrs t Ht)|]. simpl.
      rewrite rd_insert_eq, nonnull_word_of by apply nonnull_not_null.
      split_and!; [|done..|].
      * eapply chain_frame; [|exact Hch]. intros a Ha. apply rd_insert_ne. intros <-%next_slab_inj.
        apply NoDup_cons in Hnd as [Hnd _]. simpl in Hnd. set_solver.
      * apply mem_frame_insert. exists t. set_solver.
  - apply NoDup_app in Hnd as (_ & Hcl & Hnd). rewrite <- app_comm_cons in Hnd.
    pose proof Hnd as [Hns _]%NoDup_cons.
    rewrite (proj2 (Z.eqb_neq s pg)) by (intros ->; apply Hns; set_solver).
    destruct (IH (After s) l1 Hch Hl Hnd) as (c' & m' & Hrun & Hch' & Hsz & Hc & Hf).
    { simpl in Hlen. lia. }
    exists c', m'. rewrite Hc in * by done. split_and!; try done.
    + split; [|exact Hch']. destruct cur as [|t]; [done|].
      simpl. rewrite (mem_frame_rd _ _ _ _ Hf); [done|]. intros (u & Hu & <-%next_slab_inj).
      apply (Hcl t); set_solver.
    + eapply mem_frame_mono; [|exact Hf]. simpl. intros a (u & Hu & ->). exists u. set_solver.
Qed.
End remove.

(** ** The object goes back to its slab *)

Section give.
Context {ck : OverflowChecks} `{SlabLayoutLaws}.

Definition give_mem (m : mem) (s : slab) (o : Z) : mem :=
  <[in_use (page s) := Z.of_nat (length (sused s)) - 1]>
    (<[freelist (page s) := o]> (<[o := rd m (freelist (page s))]> m)).

Lemma give_frame m sz s o :
  size_class sz -> o ∈ objs sz (page s) ->
  mem_frame (fun a => page s <= a < page s + 24 \/ a = o) m (give_mem m s o).
Proof.
  intros Hsz Ho. destruct (header_words (page s)) as (_ & _ & _ & Hw). unfold give_mem.
  assert (forall w, w ∈ [next_slab (page s); freelist (page s); in_use (page s)] ->
    page s <= w < page s + 24 \/ w = o) as Hw' by (intros w Hwi; left; by apply Hw).
  eapply mem_frame_trans; [|apply mem_frame_insert, Hw'; set_solver].
  eapply mem_frame_trans; [|apply mem_frame_insert, Hw'; set_solver].
  apply mem_frame_insert. by right.
Qed.

Lemma give_frame_page m sz s o :
  size_class sz -> o ∈ objs sz (page s) -> mem_frame (in_page (page s)) m (give_mem m s o).
Proof.
  intros Hsz Ho. eapply mem_frame_mono; [|by apply (give_frame m sz)].
  pose proof (objs_range _ _ Hsz _ Ho). destruct (size_class_facts sz Hsz).
  unfold in_page. simpl. lia.
Qed.

Lemma objs_not_header sz pg o w :
  size_class sz -> o ∈ objs sz pg -> w ∈ [next_slab pg; freelist pg; in_use pg] -> o <> w.
Proof.
  intros Hsz Ho Hw. pose proof (objs_range _ _ Hsz _ Ho).
  destruct (header_words pg) as (_ & _ & _ & Hr). destruct (Hr w Hw). lia.
Qed.

Lemma give_slab_ok m sz s o us :
  slab_ok m sz s -> size_class sz -> sused s ≡ₚ o :: us ->
  slab_ok (give_mem m s o) sz (mkSlab (page s) (o :: sfree s) us).
Proof.
  intros Hs Hsz Hus. pose proof Hs as [Hpg Hc Hn Hp].
  destruct (header_words (page s)) as (_ & _ & N3 & _).
  assert (o ∈ objs sz (page s)) as Ho.
  { eapply slab_used_obj; [done|]. rewrite Hus. left. }
  assert (NoDup (o :: sfree s ++ us)) as [Hno _]%NoDup_cons.
  { rewrite Permutation_middle, <- Hus, Hp. by apply objs_NoDup. }
  pose proof (objs_not_header _ _ _ (freelist (page s)) Hsz Ho ltac:(set_solver)) as O2.
  pose proof (objs_not_header _ _ _ (in_use (page s)) Hsz Ho ltac:(set_solver)) as O3.
  constructor; cbn [page sfree sused]; [done| | |].
  - split.
    + unfold give_mem. rewrite rd_insert_ne, rd_insert_eq by done.
      by apply word_of_head, (objs_ptr sz (page s)).
    + assert (rd (give_mem m s o) o = rd m (freelist (page s))) as ->.
      { unfold give_mem. by rewrite !rd_insert_ne, rd_insert_eq by done. }
      eapply chain_frame; [|exact Hc]. intros q Hq.
      apply (mem_frame_rd _ _ _ _ (give_frame m sz s o Hsz Ho)).
      pose proof (objs_range _ _ Hsz _ (slab_free_obj _ _ _ _ Hs Hq)). set_solver by lia.
  - unfold give_mem. rewrite rd_insert_eq, Hus. simpl. lia.
  - rewrite <- Hp, Hus. simpl. by rewrite Permutation_middle.
Qed.
(** The link of every slab is as before. *)
Lemma give_next m sz s o pg :
  slab_ok m sz s -> size_class sz -> o ∈ objs sz (page s) -> page_ok pg ->
  rd (give_mem m s o) (next_slab pg) = rd m (next_slab pg).
Proof.
  intros Hs Hsz Ho Hpg. destruct (decide (pg = page s)) as [->|Hne].
  - destruct (header_words (page s)) as (N1 & N2 & _ & _).
    pose proof (objs_not_header _ _ _ (next_slab (page s)) Hsz Ho ltac:(set_solver)).
    unfold give_mem. by rewrite !rd_insert_ne.
  - apply (other_page_rd pg (page s)); [done|apply Hs|done|by apply (give_frame_page m sz)|].
    apply next_in_page.
Qed.

(** The other used objects keep their bytes. *)
Lemma give_kept m sz s l o us :
  size_class sz -> Forall (slab_ok m sz) (s :: l) -> NoDup (page <$> s :: l) -> sused s ≡ₚ o :: us ->
  forall u a, u ∈ us ++ mjoin (sused <$> l) -> in_obj sz u a -> give_mem m s o !! a = m !! a.
Proof.
  intros Hsz Hok Hnd Hus u a Hu Ha.
  pose proof (NoDup_join_used m sz (s :: l) Hsz Hok Hnd) as Hnu. simpl in Hnu.
  rewrite Hus in Hnu. simpl in Hnu. apply NoDup_cons in Hnu as [Hno _].
  pose proof (Forall_inv Hok) as Hs.
  assert (o ∈ objs sz (page s)) as Ho by (eapply slab_used_obj; [done|]; rewrite Hus; left).
  assert (exists t, t ∈ s :: l /\ u ∈ sused t) as (t & Ht & Hut).
  { apply elem_of_app in Hu as [Hu|(l' & Hu & (t & -> & Ht)%list_elem_of_fmap)%list_elem_of_join].
    - exists s. split; [left|]. rewrite Hus. by right.
    - exists t. split; [by right|done]. }
  rewrite Forall_forall in Hok. specialize (Hok t Ht).
  pose proof (slab_used_obj _ _ _ _ Hok Hut) as Huo.
  destruct (obj_in_page _ _ _ _ Hsz Huo Ha) as [Hpa Hlo].
  destruct (size_class_facts sz Hsz). pose proof (objs_range _ _ Hsz _ Ho).
  apply (give_frame m sz s o Hsz Ho). intros [Hh| ->].
  - rewrite (in_page_unique (page t) (page s) a) in Hlo; [lia|apply Hok|apply Hs|done|].
    unfold in_page. lia.
  - rewrite (in_page_unique (page t) (page s) o) in Huo; [|apply Hok|apply Hs|done|unfold in_page; lia].
    rewrite (objs_disjoint sz (page s) Hsz u o o) in Hu; [done|done..|]. unfold in_obj. lia.
Qed.

Lemma cache_rep_intro m sz c l parts fulls :
  size c = sz -> size_class sz -> chain next_slab m (partial c) (page <$> parts) ->
  parts ++ fulls ≡ₚ l -> Forall (slab_ok m sz) l -> Forall (fun s => sused s <> []) l ->
  NoDup (page <$> l) -> Forall (fun s => sfree s <> []) parts -> Forall (fun s => sfree s = []) fulls ->
  cache_rep m sz c parts fulls.
Proof. intros ??? Hl ?????. by constructor; rewrite ?Hl. Qed.

(** Writes to links do not touch the slabs or their objects. *)
Definition next_writes (A : list Z) (a : Z) : Prop := exists pg, pg ∈ A /\ a = next_slab pg.

Lemma next_write_apart A sz pg o a :
  Forall page_ok A -> size_class sz -> page_ok pg -> o ∈ objs sz pg -> in_obj sz o a ->
  ~ next_writes A a.
Proof.
  intros HA Hsz Hpg Ho Ha (pg' & Hin & ->). rewrite Forall_forall in HA.
  destruct (obj_in_page _ _ _ _ Hsz Ho Ha) as [Hp Hlo].
  rewrite (in_page_unique pg pg' (next_slab pg')) in Hlo;
    [|done|by apply HA|done|apply next_in_page].
  destruct (header_words pg') as (_ & _ & _ & Hw). destruct (Hw (next_slab pg')); [set_solver|]. lia.
Qed.

Lemma next_write_slab_ok A m m' sz s :
  Forall page_ok A -> size_class sz -> mem_frame (next_writes A) m m' ->
  slab_ok m sz s -> slab_ok m' sz s.
Proof.
  intros HA Hsz Hf Hs. pose proof (so_page _ _ _ Hs) as Hpg.
  destruct (header_words (page s)) as (N1 & N2 & N3 & Hw).
  assert (forall w, w ∈ [freelist (page s); in_use (page s)] -> ~ next_writes A w) as Hh.
  { intros w Hwi (pg' & Hin & ->). rewrite Forall_forall in HA.
    assert (page s = pg') as <-; [|set_solver].
    destruct (Hw (next_slab pg')); [set_solver|].
    apply (in_page_unique _ _ (next_slab pg')); [done|by apply HA| |apply next_in_page].
    unfold in_page. lia. }
  eapply slab_ok_frame; [..|exact Hs]; try (apply (mem_frame_rd _ _ _ _ Hf), Hh; set_solver).
  intros o Ho. apply (mem_frame_rd _ _ _ _ Hf). destruct (size_class_facts sz Hsz).
  apply (next_write_apart _ sz (page s) o o); try done; [by eapply slab_free_obj|].
  unfold in_obj. lia.
Qed.
End give.

Section dealloc.
Context {ck : OverflowChecks} `{SlabLayoutLaws} {P : Type} `{PageProviderSpec P}.

Abbreviation pages parts fulls := (page <$> parts ++ fulls).

(** What [dealloc] does after the three header writes. *)
Definition settle (fuel : nat) (pg o n : Z) : M ((SCache * P) * mem) () :=
  if n =? 0 then
    remove_slab_from_partial fuel pg;; provider (free_page pg)
  else
    next ← load_ptr o;
    match next with
    | None =>
        cache ← get_cache;
        store_ptr (next_slab pg) (partial cache);;
        set_partial (nonnull pg)
    | Some _ => mret ()
    end.

Lemma dealloc_run fuel c (p : P) m sz s o :
  size_class sz -> slab_ok m sz s -> o ∈ sused s ->
  dealloc fuel o ((c, p), m) =
    settle fuel (page s) o (Z.of_nat (length (sused s)) - 1) ((c, p), give_mem m s o).
Proof.
  intros Hsz Hs Ho. pose proof Hs as [Hpg Hc Hn _]. destruct (header_words (page s)) as (_ & _ & N3 & _).
  destruct (header_ptrs _ Hpg) as (V1 & V2 & V3). pose proof (used_bound _ _ _ Hs Hsz) as Hub.
  pose proof (slab_used_obj _ _ _ _ Hs Ho) as Hob. pose proof (objs_ptr _ _ Hsz Hpg _ Hob) as Vo.
  pose proof (objs_not_header _ _ _ (in_use (page s)) Hsz Hob ltac:(set_solver)) as O3.
  destruct (size_class_facts sz Hsz). pose proof (objs_range _ _ Hsz _ Hob).
  unfold dealloc. cbv zeta. rewrite (slab_page_mask (page s) o Hpg) by (unfold in_page; lia).
  run (run_load_ptr (freelist (page s)) (c, p) m V2).
  run (run_store_ptr o (nonnull (rd m (freelist (page s)))) (c, p) m Vo).
  assert (word_of (nonnull (rd m (freelist (page s)))) = rd m (freelist (page s))) as ->.
  { unfold nonnull. by destruct (Z.eqb_spec (rd m (freelist (page s))) 0) as [->|]. }
  set (m1 := <[o := _]> m). rewrite (word_of_head o Vo).
  run (run_store_ptr (freelist (page s)) (Some o) (c, p) m1 V2).
  set (m2 := <[freelist (page s) := word_of (Some o)]> m1).
  run (run_load (in_use (page s)) (c, p) m2 V3).
  assert (rd m2 (in_use (page s)) = Z.of_nat (length (sused s))) as ->.
  { unfold m2, m1. by rewrite !rd_insert_ne. }
  assert (sub64 (Z.of_nat (length (sused s))) 1 = Ret (Z.of_nat (length (sused s)) - 1)) as E.
  { apply sub64_ok. destruct (sused s); [by apply elem_of_nil in Ho|simpl in *; lia]. }
  run (run_lift _ ((c, p), m2) _ E).
  by run (run_store (in_use (page s)) (Z.of_nat (length (sused s)) - 1) (c, p) m2 V3).
Qed.
(** Unlinking a slab that is in the partial list, or is not. *)
Lemma remove_run fuel c (p : P) m parts parts' pg :
  chain next_slab m (partial c) (page <$> parts) -> Forall page_ok (page <$> parts) ->
  NoDup (page <$> parts) -> (length parts < fuel)%nat ->
  ((exists p1 s p2, page s = pg /\ parts = p1 ++ s :: p2 /\ parts' = p1 ++ p2) \/
   (pg ∉ (page <$> parts)) /\ parts' = parts) ->
  exists c' m', remove_slab_from_partial fuel pg ((c, p), m) = Ret ((), ((c', p), m')) /\
    chain next_slab m' (partial c') (page <$> parts') /\ size c' = size c /\
    mem_frame (next_writes (page <$> parts')) m m'.
Proof.
  intros Hch Hok Hnd Hlen [(p1 & s & p2 & <- & -> & ->)|[Hni ->]].
  - rewrite length_app in Hlen. rewrite !fmap_app, fmap_cons in *.
    destruct (remove_present fuel (page s) c p m Head (page <$> p1) (page <$> p2))
      as (c' & m' & ? & ? & ? & _ & Hf); [done..|rewrite length_fmap; lia|].
    exists c', m'. split_and!; [done..|]. eapply mem_frame_mono; [|exact Hf].
    intros a (t & Ht & ->). exists t. set_solver.
  - exists c, m. split_and!; [|done..]. eapply remove_absent; [done..|]. by rewrite length_fmap.
Qed.

(** The last object of a slab: the slab is unlinked and its page given back. *)
Lemma settle_empty fuel sz c (p : P) m s o l parts parts' fulls' B :
  size_class sz -> size c = sz -> chain next_slab m (partial c) (page <$> parts) ->
  ((exists p1 s' p2, page s' = page s /\ parts = p1 ++ s' :: p2 /\ parts' = p1 ++ p2) \/
   (page s ∉ (page <$> parts)) /\ parts' = parts) ->
  Forall page_ok (page <$> parts) -> NoDup (page <$> parts) -> (length parts < fuel)%nat ->
  parts' ++ fulls' ≡ₚ l -> Forall (slab_ok m sz) l -> Forall (fun s => sused s <> []) l ->
  Forall (fun s => sfree s <> []) parts' -> Forall (fun s => sfree s = []) fulls' ->
  prov_inv p m (page s :: (page <$> l) ++ B) ->
  exists c' p' m', settle fuel (page s) o 0 ((c, p), m) = Ret ((), ((c', p'), m')) /\
    cache_step sz (mjoin (sused <$> l)) B m c' p' m' parts' fulls'.
Proof.
  intros Hsz Hsize Hch Hcase Hpok Hnd Hlen Hl Hok Hus Hpa Hfu Hp.
  destruct (remove_run fuel c p m parts parts' (page s)) as (c' & m1 & Hrun & Hch1 & Hsize1 & Hf); [done..|].
  destruct (prov_pages _ _ _ Hp) as [[Hns Hndl]%NoDup_cons [_ Hlok]%Forall_cons].
  apply Forall_app in Hlok as [Hlok HBok]. apply NoDup_app in Hndl as (Hndl & HlB & _).
  assert (forall pg, pg ∈ page <$> parts' -> pg ∈ page <$> l) as Hsub
    by (intros pg; rewrite <- Hl, fmap_app; set_solver).
  assert (Forall page_ok (page <$> parts')) as Hpok'.
  { rewrite Forall_forall in *. intros pg Hpg. by apply Hlok, Hsub. }
  assert (mem_frame (in_pages (page <$> l)) m m1) as Hfl.
  { eapply mem_frame_mono; [|exact Hf]. intros a (pg & Hpg & ->). exists pg.
    split; [by apply Hsub|apply next_in_page]. }
  destruct (free_page_ok p m1 (page s) ((page <$> l) ++ B)) as (p' & m2 & Hfree & Hag & Hp').
  { apply (prov_write p m); [done|]. eapply mem_frame_mono; [|exact Hfl].
    intros a. rewrite in_pages_cons, in_pages_app. auto. }
  setoid_rewrite in_pages_app in Hag. exists c', p', m2. split.
  { unfold settle. simpl. run Hrun. by rewrite (run_provider (free_page (page s)) c' p m1 _ _ _ Hfree). }
  assert (cache_rep m1 sz c' parts' fulls') as Hrep.
  { apply (cache_rep_intro _ _ _ l); try done; [congruence|].
    eapply Forall_impl; [exact Hok|]. intros t. by apply (next_write_slab_ok (page <$> parts')). }
  constructor.
  - eapply cache_rep_agree; [exact Hrep|]. intros a. rewrite Hl. auto.
  - eapply prov_perm; [|exact Hp']. by rewrite Hl.
  - intros a Ha. rewrite Hag by auto. apply Hfl. intros (pg & Hpg & Hin). destruct Ha as (pg' & Hpg' & Hin').
    rewrite Forall_forall in Hlok, HBok. apply (HlB pg Hpg).
    rewrite (in_page_unique pg pg' a); auto.
  - intros u a Hu Ha. assert (u ∈ used_objs parts' fulls') as Hu' by (unfold used_objs; by rewrite Hl).
    destruct (used_obj_facts _ _ _ _ _ _ Hrep Hu') as (pg & Hpg & Hpgok & Huo).
    rewrite Hag by (left; rewrite <- Hl; by eapply used_in_pages).
    apply Hf. by apply (next_write_apart _ sz pg u a).
Qed.
(** A slab that keeps used objects: it is linked in if it was full. *)
Lemma settle_partial fuel sz c (p : P) m s o n l parts parts' fulls' B :
  size_class sz -> size c = sz -> n <> 0 -> slab_ok m sz s -> head (sfree s) = Some o ->
  chain next_slab m (partial c) (page <$> parts) -> Forall page_ok (page <$> parts) ->
  match sfree s with
  | [_] => parts' = s :: parts
  | _ => (page <$> parts') = (page <$> parts)
  end ->
  parts' ++ fulls' ≡ₚ s :: l -> Forall (slab_ok m sz) l -> Forall (fun s => sused s <> []) (s :: l) ->
  Forall (fun s => sfree s <> []) parts' -> Forall (fun s => sfree s = []) fulls' ->
  prov_inv p m (page s :: (page <$> l) ++ B) ->
  exists c' m', settle fuel (page s) o n ((c, p), m) = Ret ((), ((c', p), m')) /\
    cache_step sz (used_objs parts' fulls') B m c' p m' parts' fulls'.
Proof.
  intros Hsz Hsize Hn Hs Hhd Hch Hpok Hcase Hl Hok Hus Hpa Hfu Hp.
  destruct (sfree s) as [|o' fr] eqn:Hfr; [done|]. injection Hhd as ->.
  pose proof Hs as [Hpg Hc _ _]. rewrite Hfr in Hc. destruct Hc as [_ Hc].
  assert (o ∈ objs sz (page s)) as Ho by (eapply slab_free_obj; [done|]; rewrite Hfr; left).
  pose proof (objs_ptr _ _ Hsz Hpg _ Ho) as Vo. destruct (prov_pages _ _ _ Hp) as [Hnd Hlok].
  rewrite app_comm_cons in Hnd, Hlok. apply NoDup_app in Hnd as (Hnd & HB & _).
  apply Forall_app in Hlok as [_ HBok]. unfold settle. rewrite (proj2 (Z.eqb_neq n 0)) by done.
  rewrite (run_bind _ _ _ _ _ (run_load_ptr o (c, p) m Vo)). rewrite (chain_head _ _ _ _ Hc).
  assert (forall c' m', chain next_slab m' (partial c') (page <$> parts') -> size c' = sz ->
    mem_frame (next_writes [page s]) m m' ->
    cache_step sz (used_objs parts' fulls') B m c' p m' parts' fulls') as Hstep.
  { intros c' m' Hch' Hsize' Hf.
    assert (mem_frame (in_page (page s)) m m') as Hfp.
    { eapply mem_frame_mono; [|exact Hf]. intros a (pg & ->%list_elem_of_singleton & ->). apply next_in_page. }
    assert (cache_rep m' sz c' parts' fulls') as Hrep.
    { apply (cache_rep_intro _ _ _ (s :: l)); try done. constructor; [|eapply Forall_impl; [exact Hok|]; intros t];
        apply (next_write_slab_ok [page s] m); try done; by constructor. }
    constructor; [done| |apply (page_apart m m' B (page s)); [done..|apply HB; left|done]|].
    - rewrite app_comm_cons in Hp. change (page s :: (page <$> l)) with (page <$> (s :: l)) in Hp.
      rewrite Hl. apply (prov_write p m); [done|]. apply (frame_in_pages _ _ _ (page s)); [left|done].
    - intros u a Hu Ha. destruct (used_obj_facts _ _ _ _ _ _ Hrep Hu) as (pg & _ & Hpgok & Huo).
      apply Hf. apply (next_write_apart _ sz pg u a); try done. by constructor. }
  destruct fr as [|q fr]; cbn [head].
  - subst parts'. run (run_get_cache c p m). destruct (header_ptrs _ Hpg) as (V1 & _ & _).
    run (run_store_ptr (next_slab (page s)) (partial c) (c, p) m V1).
    rewrite (nonnull_pos (page s)) by apply Hpg. eexists _, _. split; [apply run_set_partial|].
    apply Hstep; [|done|apply mem_frame_insert; exists (page s); set_solver].
    assert (NoDup (page <$> (s :: parts))) as [Hnp _]%NoDup_cons.
    { change (page s :: (page <$> l)) with (page <$> (s :: l)) in Hnd. rewrite <- Hl, fmap_app in Hnd.
      by apply NoDup_app in Hnd as [? _]. }
    split; [done|]. rewrite rd_insert_eq, nonnull_word_of.
    + eapply chain_frame; [|exact Hch]. intros pg Hin. apply rd_insert_ne. by intros <-%next_slab_inj.
    + intros E. rewrite (chain_head _ _ _ _ Hch) in E. destruct parts as [|t parts]; [done|].
      simpl in E. injection E as E. apply Forall_inv in Hpok as [? _ _]. lia.
  - exists c, m. split; [done|]. apply Hstep; [by rewrite Hcase|done|apply mem_frame_refl].
Qed.
(** ** [dealloc] *)

(** The state after the header writes, for the slab [s] of [o] and the other
    slabs [l]. *)
Lemma give_state sz c (p : P) m parts fulls s l o us B :
  cache_rep m sz c parts fulls -> prov_inv p m (pages parts fulls ++ B) ->
  parts ++ fulls ≡ₚ s :: l -> sused s ≡ₚ o :: us ->
  let m1 := give_mem m s o in let s1 := mkSlab (page s) (o :: sfree s) us in
  chain next_slab m1 (partial c) (page <$> parts) /\ slab_ok m1 sz s1 /\
  Forall (slab_ok m1 sz) l /\ Forall (fun t => sused t <> []) l /\
  prov_inv p m1 (page s :: (page <$> l) ++ B) /\
  (forall a, in_pages B a -> m1 !! a = m !! a) /\
  (forall u a, u ∈ us ++ mjoin (sused <$> l) -> in_obj sz u a -> m1 !! a = m !! a).
Proof.
  intros [Hsize Hsz Hch Hok _ _ Hused Hnd] Hp Hl Hus m1 s1.
  destruct (prov_pages _ _ _ Hp) as [Hndp Hpok]. rewrite Hl in Hok, Hused, Hnd, Hp, Hndp, Hpok.
  pose proof (Forall_inv Hok) as Hs. pose proof (so_page _ _ _ Hs) as Hpg.
  assert (o ∈ objs sz (page s)) as Ho by (eapply slab_used_obj; [done|]; rewrite Hus; left).
  pose proof (give_frame_page m sz s o Hsz Ho) as Hf. fold m1 in Hf.
  apply NoDup_app in Hndp as (_ & HB & _). apply Forall_app in Hpok as [Hpok HBok].
  split_and!.
  - eapply chain_frame; [|exact Hch]. intros pg Hpgi. apply (give_next m sz s o); try done.
    rewrite Forall_forall in Hpok. apply Hpok. rewrite <- Hl, fmap_app. set_solver.
  - by apply give_slab_ok.
  - apply Forall_cons in Hok as [_ Hok]. apply NoDup_cons in Hnd as [Hnd _].
    by apply (slabs_other m m1 sz l (page s)).
  - by apply Forall_cons in Hused as [_ ?].
  - apply (prov_write p m); [exact Hp|]. apply (frame_in_pages _ _ _ (page s)); [left|done].
  - apply (page_apart m m1 B (page s)); [done..|apply HB; left|done].
  - by apply give_kept.
Qed.

Lemma cache_step_weaken sz kept kept' B m m1 c' (p' : P) m' parts' fulls' :
  cache_step sz kept B m1 c' p' m' parts' fulls' ->
  (forall a, in_pages B a -> m1 !! a = m !! a) ->
  (forall u a, u ∈ kept' -> in_obj sz u a -> m1 !! a = m !! a) ->
  (forall u, u ∈ kept' -> u ∈ kept) -> cache_step sz kept' B m c' p' m' parts' fulls'.
Proof.
  intros [Hrep Hp HB Hk] HB1 Hk1 Hsub. constructor; try done.
  - intros a Ha. by rewrite HB, HB1.
  - intros u a Hu Ha. rewrite (Hk u a), (Hk1 u a); auto.
Qed.

(** The object's slab is in one of the two lists. *)
Lemma slab_split m sz c parts fulls o :
  cache_rep m sz c parts fulls -> o ∈ used_objs parts fulls ->
  exists s p2 f2, o ∈ sused s /\ parts ++ fulls ≡ₚ s :: p2 ++ f2 /\
    Forall (fun t => sfree t <> []) p2 /\ Forall (fun t => sfree t = []) f2 /\
    ((exists p1 p3, parts = p1 ++ s :: p3 /\ p2 = p1 ++ p3 /\ f2 = fulls /\ sfree s <> []) \/
     ((page s ∉ (page <$> parts)) /\ p2 = parts /\ sfree s = [])).
Proof.
  intros [_ _ _ _ Hpa Hfu _ Hnd] (s & [Hs|Hs]%elem_of_app & Ho)%used_obj_slab;
    apply list_elem_of_split in Hs as (l1 & l2 & ->).
  - apply Forall_app in Hpa as [H1' [Hne H2']%Forall_cons]. exists s, (l1 ++ l2), fulls.
    split_and!; [done| |by apply Forall_app|done|left; by exists l1, l2].
    by rewrite <- Permutation_middle.
  - apply Forall_app in Hfu as [H1' [Hne H2']%Forall_cons]. exists s, parts, (l1 ++ l2).
    split_and!; [done| |done|by apply Forall_app|right; split_and!; [|done..]].
    + by rewrite <- Permutation_middle, <- Permutation_middle.
    + rewrite fmap_app, NoDup_app in Hnd. destruct Hnd as (_ & Hnd & _). intros Hin.
      apply (Hnd _ Hin). rewrite fmap_app. set_solver.
Qed.

Lemma scache_dealloc_ok fuel sz c (p : P) m parts fulls B o :
  cache_rep m sz c parts fulls -> prov_inv p m (pages parts fulls ++ B) ->
  o ∈ used_objs parts fulls -> (length parts < fuel)%nat ->
  exists c' p' m' parts' fulls',
    dealloc fuel o ((c, p), m) = Ret ((), ((c', p'), m')) /\
    cache_step sz (used_objs parts' fulls') B m c' p' m' parts' fulls' /\
    used_objs parts fulls ≡ₚ o :: used_objs parts' fulls'.
Proof.
  intros Hc Hp Ho Hfuel. destruct (slab_split _ _ _ _ _ _ Hc Ho) as (s & p2 & f2 & Hso & Hl & Hp2 & Hf2 & Hcase).
  destruct (elem_of_Permutation (sused s) o) as [Hus _]. destruct (Hus Hso) as [us Hus'].
  destruct (give_state _ _ _ _ _ _ _ _ _ _ _ Hc Hp Hl Hus') as (Hch & Hs1 & Hok & Hused & Hp1 & HB1 & Hk1).
  pose proof Hc as [Hsize Hsz _ Hok0 _ _ _ Hnd0]. pose proof (slab_pages _ _ _ Hok0) as Hpok0.
  rewrite fmap_app in Hnd0, Hpok0. apply NoDup_app in Hnd0 as (Hndp & _ & _).
  apply Forall_app in Hpok0 as [Hpokp _].
  rewrite Hl in Hok0. apply Forall_inv in Hok0 as Hs. rewrite (dealloc_run fuel c p m sz s o Hsz Hs Hso).
  set (m1 := give_mem m s o) in *. 
  assert (Z.of_nat (length (sused s)) - 1 = Z.of_nat (length us)) as -> by (rewrite Hus'; simpl; lia).
  assert (used_objs parts fulls ≡ₚ o :: us ++ mjoin (sused <$> p2 ++ f2)) as Hall.
  { unfold used_objs. rewrite Hl, fmap_cons. simpl. by rewrite Hus'. }
  destruct us as [|u us].
  - destruct (settle_empty fuel sz c p m1 s o (p2 ++ f2) parts p2 f2 B)
      as (c' & p' & m' & Hrun & Hstep); try done.
    { destruct Hcase as [(p1 & p3 & -> & -> & _)|(? & -> & _)]; [left; by exists p1, s, p3|by right]. }
    exists c', p', m', p2, f2. split_and!; [done| |done].
    by eapply cache_step_weaken.
  - set (s1 := mkSlab (page s) (o :: sfree s) (u :: us)) in *.
    assert (exists parts', parts' ++ f2 ≡ₚ s1 :: p2 ++ f2 /\ Forall (fun t => sfree t <> []) parts' /\
      match sfree s1 with [_] => parts' = s1 :: parts | _ => (page <$> parts') = (page <$> parts) end)
      as (parts' & Hl' & Hpa' & Hm).
    { destruct Hcase as [(p1 & p3 & -> & -> & _ & Hne)|(_ & -> & Hnil)].
      - exists (p1 ++ s1 :: p3). apply Forall_app in Hp2 as [? ?]. split_and!.
        + by rewrite <- Permutation_middle.
        + apply Forall_app. by split; [|constructor].
        + simpl. destruct (sfree s); [done|]. by rewrite !fmap_app, !fmap_cons.
      - exists (s1 :: parts). split_and!; [done|by constructor|]. simpl. by rewrite Hnil. }
    destruct (settle_partial fuel sz c p m1 s1 o (Z.of_nat (length (u :: us))) (p2 ++ f2) parts parts' f2 B)
      as (c' & m' & Hrun & Hstep); try done; [by constructor|].
    exists c', p, m', parts', f2. split_and!; [done| |].
    + eapply cache_step_weaken; [exact Hstep|done| |done]. intros v a Hv. apply Hk1.
      unfold used_objs in Hv. rewrite Hl' in Hv. done.
    + rewrite Hall. unfold used_objs. by rewrite Hl'.
Qed.
End dealloc.
