(* ===== verification/GlobalAlloc.v ===== *)
(** * The kernel heap: [kernel/src/mm/allocator.rs]

    The global allocator puts eight slab caches on top of the buddy allocator.
    Its statics are mutexes: the guards are taken and dropped as the code takes
    and drops them, and locking a mutex that is held spins for ever. *)
From S2P Require Import Prelude Machine X86Api Buddy Slub.

(** ** [GlobalPageAllocator] *)

Record GlobalPageAllocator := mkPages { frame_allocator : BuddyAllocator }.

(** A call of a method of the field [frame_allocator]. *)
Definition on_frames {A} (f : M (BuddyAllocator * mem) A) : M (GlobalPageAllocator * mem) A :=
  fun '(p, m) =>
    match f (frame_allocator p, m) with
    | Ret (a, (s', m')) => Ret (a, (mkPages s', m'))
    | Panic => Panic | Undef => Undef | Hang => Hang | OutOfFuel => OutOfFuel
    end.

#[global] Instance GlobalPageAllocator_provider {ck : OverflowChecks} :
  PageProvider GlobalPageAllocator := {
  alloc_page := on_frames (Buddy.alloc 0);
  free_page ptr := on_frames (Buddy.dealloc ptr 0);
}.

(** ** The statics *)

Record Mutex (A : Type) := mkMutex { locked : bool; data : A }.
Arguments mkMutex {A} locked data.
Arguments locked {A} m.
Arguments data {A} m.

(** [ALLOCATOR] and [PAGE_ALLOCATOR]. *)
Record KHeap := mkHeap {
  caches : list (Mutex SCache);
  page_allocator : Mutex (option GlobalPageAllocator);
}.

Definition cache_sizes : list Z := [16; 32; 64; 128; 256; 512; 1024; 2048].
Definition SlubAllocator_new : list (Mutex SCache) :=
  (fun size => mkMutex false (SCache_new size)) <$> cache_sizes.
Definition heap_new : KHeap := mkHeap SlubAllocator_new (mkMutex false None).

Abbreviation H := (M (KHeap * mem)).

Definition lock_provider : H () :=
  h ← get_self;
  if locked (page_allocator h) then hang
  else put_self (mkHeap (caches h) (mkMutex true (data (page_allocator h)))).
Definition unlock_provider : H () :=
  h ← get_self; put_self (mkHeap (caches h) (mkMutex false (data (page_allocator h)))).

(** [self.caches[index].lock()] *)
Definition lock_cache (index : nat) : H () :=
  h ← get_self;
  c ← lift (Prelude.index (caches h) index);
  if locked c then hang
  else put_self (mkHeap (<[index := mkMutex true (data c)]> (caches h)) (page_allocator h)).
Definition unlock_cache (index : nat) : H () :=
  h ← get_self;
  c ← lift (Prelude.index (caches h) index);
  put_self (mkHeap (<[index := mkMutex false (data c)]> (caches h)) (page_allocator h)).

(** [if let Some(p) = provider.as_mut() { f(p) } else { d }], the lock held. *)
Definition with_provider {A} (d : A) (f : M (GlobalPageAllocator * mem) A) : H A := fun '(h, m) =>
  match data (page_allocator h) with
  | None => Ret (d, (h, m))
  | Some p =>
      match f (p, m) with
      | Ret (a, (p', m')) =>
          Ret (a, (mkHeap (caches h) (mkMutex (locked (page_allocator h)) (Some p')), m'))
      | Panic => Panic | Undef => Undef | Hang => Hang | OutOfFuel => OutOfFuel
      end
  end.

(** The same with the guard of a cache, which [f] uses too. *)
Definition with_cache {A} (index : nat) (d : A) (f : M ((SCache * GlobalPageAllocator) * mem) A) : H A :=
  fun '(h, m) =>
    match data (page_allocator h), caches h !! index with
    | None, _ => Ret (d, (h, m))
    | _, None => Panic
    | Some p, Some c =>
        match f ((data c, p), m) with
        | Ret (a, ((c', p'), m')) =>
            Ret (a, (mkHeap (<[index := mkMutex (locked c) c']> (caches h))
                            (mkMutex (locked (page_allocator h)) (Some p')), m'))
        | Panic => Panic | Undef => Undef | Hang => Hang | OutOfFuel => OutOfFuel
        end
    end.

(** ** [GlobalAlloc for SlubAllocator] *)

(** The chain of comparisons of [alloc], and the one of [dealloc]. *)
Definition alloc_index (size : Z) : nat :=
  if size <=? 16 then 0 else if size <=? 32 then 1 else if size <=? 64 then 2
  else if size <=? 128 then 3 else if size <=? 256 then 4 else if size <=? 512 then 5
  else if size <=? 1024 then 6 else 7.
Definition dealloc_index (size : Z) : nat :=
  if size <=? 16 then 0 else if size <=? 32 then 1 else if size <=? 64 then 2
  else if size <=? 128 then 3 else if size <=? 256 then 4 else if size <=? 512 then 5
  else if size <=? 1024 then 6 else 7.

Record Layout := mkLayout { lsize : Z; lalign : Z }.

(** The buddy allocator hands out at most [MAX_PAGES] pages, so no partial
    list is longer than that. *)
Definition HEAP_FUEL : nat := S (Z.to_nat MAX_PAGES).

Section code.
Context {ck : OverflowChecks} `{SlabLayout}.

(** The null pointer is 0. *)
Definition heap_alloc (layout : Layout) : H Z :=
  let size := lsize layout in
  if 2048 <? size then
    if size <=? Slub.PAGE_SIZE then
      lock_provider;;
      ptr ← with_provider None alloc_page;
      unlock_provider;;
      mret (default 0 ptr)
    else mret 0
  else
    let index := alloc_index size in
    lock_cache index;;
    lock_provider;;
    ptr ← with_cache index None (Slub.alloc HEAP_FUEL);
    unlock_provider;;
    unlock_cache index;;
    mret (default 0 ptr).

Definition heap_dealloc (ptr : Z) (layout : Layout) : H () :=
  let size := lsize layout in
  if 2048 <? size then
    lock_provider;;
    with_provider () (free_page ptr);;
    unlock_provider
  else
    let index := dealloc_index size in
    lock_cache index;;
    lock_provider;;
    with_cache index () (Slub.dealloc HEAP_FUEL ptr);;
    unlock_provider;;
    unlock_cache index;;
    mret ().

(** ** Setting the heap up *)

Definition init_heap (offset : Z) : H () :=
  lock_provider;;
  h ← get_self;
  put_self (mkHeap (caches h)
    (mkMutex true (Some (mkPages (set_offset offset (new BITMAP_STORAGE))))));;
  unlock_provider.

Definition add_frame (start : Z) : H () :=
  lock_provider;;
  with_provider () (on_frames (Buddy.add_frame start));;
  unlock_provider.

Definition allocate_frame `{PhysFrameApi} : H (option Z) :=
  lock_provider;;
  frame ← with_provider None (on_frames Buddy.allocate_frame);
  unlock_provider;;
  mret frame.
End code.
#[global] Opaque HEAP_FUEL.
