(* ===== verification/PageProvider.v ===== *)
(** * The buddy allocator as a page provider

    [GlobalPageAllocator] of [kernel/src/mm/allocator.rs] keeps the contract
    that the slab allocator is proved against: the pages it hands out are
    distinct, page-aligned and outside its free memory, and it touches free
    memory only. *)
From S2P Require Import Prelude Machine X86Api Buddy BuddySpec FreeList BuddyBits BuddyProofs.
From S2P Require Import BuddySystem Slub SlubRep SlubProofs GlobalAlloc.

(** A page handed out: its address comes from a page index that is not free. *)
Definition out_page (off : Z) (L : flists) (pg : Z) : Prop :=
  exists x, pg = addr off x /\ block_wf off 0 x /\ ~ BuddySpec.free_page L x.

(** [fed] are the indices of the pages the allocator was given: each of them is
    free or handed out, none is lost and none is invented. *)
Record pages_inv (off : Z) (fed : list Z) (p : GlobalPageAllocator) (m : mem) (A : list Z) : Prop := {
  pi_nodup : NoDup A;
  pi_offset : offset (frame_allocator p) = off;
  pi_aligned : (4096 | offset (frame_allocator p));
  pi_rep : exists L, buddy_rep (frame_allocator p) m L /\
    Forall (out_page (offset (frame_allocator p)) L) A /\
    (forall x, x ∈ fed <-> BuddySpec.free_page L x \/ addr (offset (frame_allocator p)) x ∈ A);
}.

Lemma out_page_ok off L pg :
  0 <= off -> (4096 | off) -> off + MAX_PAGES * Buddy.PAGE_SIZE < U64_LIM -> out_page off L pg -> page_ok pg.
Proof.
  intros Hlo [q ->] Hhi (x & -> & [_ _ Hx Hxh Hnull] & _).
  unfold addr, bsz, MAX_PAGES, Buddy.PAGE_SIZE in *. simpl in Hxh. constructor; [lia| |lia].
  exists (q + x). lia.
Qed.

Lemma pages_inv_pages off fed p m A : pages_inv off fed p m A -> NoDup A /\ Forall page_ok A.
Proof.
  intros [Hnd Hoff Hal (L & [Hc _] & HA & _)]. split; [done|].
  eapply Forall_impl; [exact HA|]. intros pg. apply out_page_ok; [apply Hc|done|apply Hc].
Qed.

(** Memory that is not free is the client's to write. *)
Lemma buddy_rep_frame s m m' L :
  buddy_rep s m L -> mem_frame (fun a => ~ bytes_of (offset s) (BuddySpec.free_page L) a) m m' ->
  buddy_rep s m' L.
Proof.
  intros [[HL ? ? ? ? Hdl] Hbits] Hf. split; [|done]. constructor; try done.
  intros k. eapply dlseg_frame, Hdl. intros x Hx. apply (mem_frame_rd _ _ _ _ Hf).
  apply (node_bytes _ _ (fun p => p ∈ L !!! k)) in Hx; [|done]. intros Hn. apply Hn.
  destruct Hx as (q & Hq & Hx). exists q. split; [by eapply free_page_elem|done].
Qed.

Lemma out_pages_not_free off L A a :
  Forall (out_page off L) A -> in_pages A a -> ~ bytes_of off (BuddySpec.free_page L) a.
Proof.
  rewrite Forall_forall. intros HA (pg & Hin & Ha) (q & Hq & Hqa).
  destruct (HA pg Hin) as (x & -> & _ & Hx). unfold in_page, addr, Buddy.PAGE_SIZE in *.
  assert (x = q) as -> by lia. done.
Qed.

Lemma pages_inv_write off fed p m m' A :
  pages_inv off fed p m A -> mem_frame (in_pages A) m m' -> pages_inv off fed p m' A.
Proof.
  intros [Hnd Hoff Hal (L & Hrep & HA & Hfed)] Hf. constructor; [done..|]. exists L. split; [|done].
  eapply buddy_rep_frame; [exact Hrep|]. eapply mem_frame_mono; [|exact Hf].
  intros a. by apply out_pages_not_free.
Qed.

Lemma out_page_mono off L L' pg :
  (forall x, BuddySpec.free_page L' x -> BuddySpec.free_page L x) -> out_page off L pg -> out_page off L' pg.
Proof. intros Hsub (x & -> & Hx & Hn). exists x. split_and!; auto. Qed.

Section provider.
Context {ck : OverflowChecks} (off : Z) (fed : list Z).

Lemma alloc_page_correct p m A :
  pages_inv off fed p m A ->
  exists r p' m', alloc_page (p, m) = Ret (r, (p', m')) /\
    (forall a, in_pages A a -> m' !! a = m !! a) /\
    match r with Some pg => pages_inv off fed p' m' (pg :: A) | None => pages_inv off fed p' m' A end.
Proof.
  intros [Hnd Hoff Hal (L & Hrep & HA & Hfed)]. destruct p as [s]. cbn [frame_allocator] in *.
  destruct (alloc_refines 0 s m L Hrep) as (s' & m' & Hrun & Ho & Hrep' & Hf).
  eexists _, (mkPages s'), m'. split; [unfold alloc_page, GlobalPageAllocator_provider, on_frames; simpl;
    rewrite Hrun; reflexivity|].
  split.
  { intros a Ha. apply Hf. by eapply out_pages_not_free. }
  pose proof (bc_wf _ _ _ (proj1 Hrep)) as HL.
  destruct (spec_alloc 0 L) as [[x L']|] eqn:Hs; simpl in *.
  - destruct (spec_alloc_sound _ (bc_low _ _ _ (proj1 Hrep)) _ _ _ _ HL Hs) as (_ & Hp & Hfresh & Hpages).
    constructor; cbn [frame_allocator]; rewrite ?Ho; [|done..|].
    + constructor; [|done]. intros Hin. rewrite Forall_forall in HA.
      destruct (HA _ Hin) as (y & <-%addr_inj & _ & Hny). apply Hny, Hpages. left. apply in_block_self.
    + exists L'. split_and!; [done| |].
      * constructor; [exists x; split_and!; [done..|]; apply Hfresh, in_block_self|].
        eapply Forall_impl; [exact HA|]. intros pg. apply out_page_mono. intros y Hy.
        apply Hpages. by right.
      * intros y. rewrite Hfed, Hpages, in_block_0, elem_of_cons, (inj_iff (addr (offset s))). tauto.
  - constructor; cbn [frame_allocator]; rewrite ?Ho; [done..|]. by exists L.
Qed.

Lemma free_page_correct p m pg A :
  pages_inv off fed p m (pg :: A) ->
  exists p' m', free_page pg (p, m) = Ret ((), (p', m')) /\
    (forall a, in_pages A a -> m' !! a = m !! a) /\ pages_inv off fed p' m' A.
Proof.
  intros [[Hni Hnd]%NoDup_cons Hoff Hal (L & Hrep & [Hpg HA]%Forall_cons & Hfed)]. destruct p as [s].
  cbn [frame_allocator] in *. destruct Hpg as (x & -> & Hx & Hnx).
  assert (fresh_block L 0 x) as Hfresh by (intros y ->%in_block_0; done).
  destruct (dealloc_refines x 0 s m L Hrep Hx Hfresh) as (s' & m' & Hrun & Ho & Hrep' & Hf).
  destruct (spec_dealloc_sound _ x 0 L (bc_wf _ _ _ (proj1 Hrep)) Hx Hfresh) as [_ Hpages].
  setoid_rewrite in_block_0 in Hpages.
  assert (Forall (out_page (offset s) (spec_dealloc x 0 L)) A) as HA'.
  { rewrite Forall_forall in *. intros pg Hin. destruct (HA pg Hin) as (y & -> & Hy & Hny).
    exists y. split_and!; [done..|]. rewrite Hpages. intros [->|?]; done. }
  exists (mkPages s'), m'. split_and!.
  - unfold free_page, GlobalPageAllocator_provider, on_frames. simpl. by rewrite Hrun.
  - intros a Ha. apply Hf. unfold freed_bytes.
    intros Hb. apply (out_pages_not_free _ _ _ _ HA' Ha). destruct Hb as (y & Hy & Hya).
    exists y. split; [|done]. apply Hpages. rewrite in_block_0 in Hy. done.
  - constructor; cbn [frame_allocator]; rewrite ?Ho; [done..|]. exists (spec_dealloc x 0 L).
    split_and!; [done..|]. intros y. rewrite Hfed, Hpages, elem_of_cons, (inj_iff (addr (offset s))). tauto.
Qed.

Definition GlobalPageAllocator_spec : PageProviderSpec GlobalPageAllocator.
Proof.
  refine {| prov_inv := pages_inv off fed |}.
  - intros p m A B HAB [Hnd Hoff Hal (L & Hrep & HA & Hfed)]. constructor; [by rewrite <- HAB|done..|].
    exists L. setoid_rewrite <- HAB. done.
  - apply pages_inv_pages.
  - intros p m m' A. apply pages_inv_write.
  - apply alloc_page_correct.
  - apply free_page_correct.
Defined.

(** At most [MAX_PAGES] pages are out at any time. *)
Lemma pages_inv_bound p m A : pages_inv off fed p m A -> (length A <= Z.to_nat MAX_PAGES)%nat.
Proof.
  intros [Hnd _ _ (L & _ & HA & _)]. rewrite Forall_forall in HA. set (all := (fun i => addr (offset (frame_allocator p)) (Z.of_nat i)) <$> seq 0 (Z.to_nat MAX_PAGES)).
  replace (Z.to_nat MAX_PAGES) with (length all) by (unfold all; by rewrite length_fmap, length_seq).
  apply submseteq_length, NoDup_submseteq; [done|]. intros pg Hpg.
  destruct (HA pg Hpg) as (x & -> & [_ _ Hlo Hhi _] & _). unfold all. apply list_elem_of_fmap.
  exists (Z.to_nat x). split; [f_equal; lia|]. apply elem_of_seq. unfold bsz in Hhi. simpl in Hhi. lia.
Qed.
(** No page comes out exactly when all pages given to the allocator are out. *)
Lemma alloc_page_none p m A st :
  pages_inv off fed p m A -> alloc_page (p, m) = Ret (None, st) ->
  forall x, x ∈ fed -> addr (offset (frame_allocator p)) x ∈ A.
Proof.
  intros [_ _ _ (L & Hrep & _ & Hfed)] Hrun x. rewrite Hfed. intros [Hfree|?]; [exfalso|done].
  destruct p as [s]. cbn [frame_allocator] in *.
  destruct (alloc_refines 0 s m L Hrep) as (s' & m' & Hrun' & _).
  unfold alloc_page, GlobalPageAllocator_provider, on_frames in Hrun. cbn [frame_allocator] in Hrun.
  rewrite Hrun' in Hrun. destruct (spec_alloc 0 L) eqn:Hs; simplify_eq/=.
  unfold spec_alloc in Hs. rewrite spec_alloc_rec_none in Hs by done.
  destruct Hfree as (k & q & Hq & _). pose proof (bc_wf _ _ _ (proj1 Hrep)) as HL.
  rewrite Hs in Hq by (pose proof (free_wf_elem_order _ _ _ _ HL Hq); lia). by apply elem_of_nil in Hq.
Qed.

(** ** The other operations on the page allocator *)

Lemma run_on_frames {A} (f : M (BuddyAllocator * mem) A) s m a s' m' :
  f (s, m) = Ret (a, (s', m')) -> on_frames f (mkPages s, m) = Ret (a, (mkPages s', m')).
Proof. unfold on_frames. cbn [frame_allocator]. by intros ->. Qed.

(** A new frame is free memory afterwards. *)
Lemma add_frame_correct p m A x :
  pages_inv off fed p m A -> block_wf (offset (frame_allocator p)) 0 x -> x ∉ fed ->
  exists p' m', on_frames (Buddy.add_frame (addr (offset (frame_allocator p)) x)) (p, m) = Ret ((), (p', m')) /\
    (forall a, in_pages A a -> m' !! a = m !! a) /\
    pages_inv off (x :: fed) p' m' A.
Proof.
  intros [Hnd Hoff Hal (L & Hrep & HA & Hfed)] Hx Hnew. destruct p as [s]. cbn [frame_allocator] in *.
  assert (fresh_block L 0 x) as Hfresh by (intros y ->%in_block_0 ?; apply Hnew, Hfed; by left).
  destruct (add_frame_refines x s m L Hrep Hx Hfresh) as (s' & m' & Hrun & Ho & Hrep' & Hf).
  destruct (spec_dealloc_sound _ x 0 L (bc_wf _ _ _ (proj1 Hrep)) Hx Hfresh) as [_ Hpages].
  setoid_rewrite in_block_0 in Hpages.
  assert (Forall (out_page (offset s) (spec_dealloc x 0 L)) A) as HA'.
  { rewrite Forall_forall in *. intros pg Hin. destruct (HA pg Hin) as (y & -> & Hy & Hny).
    exists y. split_and!; [done..|]. rewrite Hpages. intros [->|?]; [|done].
    apply Hnew, Hfed. by right. }
  exists (mkPages s'), m'. split_and!; [by apply run_on_frames| |].
  - intros a Ha. apply Hf. intros (y & Hy & Hya). apply (out_pages_not_free _ _ _ _ HA' Ha).
    exists y. split; [|done]. apply Hpages. by rewrite in_block_0 in Hy.
  - constructor; cbn [frame_allocator]; rewrite ?Ho; [done..|]. exists (spec_dealloc x 0 L).
    split_and!; [done..|]. intros y. rewrite Hpages, elem_of_cons, Hfed. tauto.
Qed.

(** A frame handed out is a page of its own. *)
Lemma allocate_frame_pages `{PhysFrameLaws} p m A :
  pages_inv off fed p m A ->
  exists r p' m', on_frames Buddy.allocate_frame (p, m) = Ret (r, (p', m')) /\
    (forall a, in_pages A a -> m' !! a = m !! a) /\
    match r with
    | Some f => exists x, f = 4096 * x /\ 0 <= x < MAX_PAGES /\ pages_inv off fed p' m' (off + f :: A)
    | None => pages_inv off fed p' m' A /\ forall x, x ∈ fed -> addr off x ∈ A
    end.
Proof.
  intros Hinv. destruct (alloc_page_correct p m A Hinv) as (r & p' & m' & Hrun & Hag & Hr).
  pose proof (pi_offset _ _ _ _ _ Hinv) as Hoff. destruct p as [s], p' as [s']. cbn [frame_allocator].
  assert (Buddy.alloc 0 (s, m) = Ret (r, (s', m'))) as Hrun'.
  { unfold alloc_page, GlobalPageAllocator_provider, on_frames in Hrun. cbn [frame_allocator] in Hrun.
    destruct (Buddy.alloc 0 (s, m)) as [[? []]| | | |]; simplify_eq. done. }
  destruct r as [pg|].
  2: { exists None, (mkPages s'), m'. split_and!; [|done|done|].
       - apply run_on_frames. unfold Buddy.allocate_frame. by run Hrun'.
       - rewrite <- Hoff. exact (alloc_page_none _ _ _ _ Hinv Hrun). }
  pose proof Hr as [_ _ _ (L & [Hc _] & [(x & -> & [_ _ Hlo Hhi _] & _) _]%Forall_cons & _)].
  cbn [frame_allocator] in *. unfold bsz in Hhi. simpl in Hhi.
  destruct Hc as [_ Hlow _ Hlim _ _]. unfold MAX_PAGES, Buddy.PAGE_SIZE in Hhi, Hlim.
  exists (Some (4096 * x)), (mkPages s'), m'. split_and!; [|done|].
  - apply run_on_frames. unfold Buddy.allocate_frame. run Hrun'. run (run_get_self s' m').
    unfold addr, Buddy.PAGE_SIZE. rewrite sub64_ok by lia.
    replace (offset s' + 4096 * x - offset s') with (x * 4096) by lia.
    run (run_lift (x * 4096) (s', m') _ eq_refl). rewrite containing_address_ok by lia.
    rewrite Z.div_mul by lia. run (run_lift (x * 4096) (s', m') _ eq_refl). by rewrite Z.mul_comm.
  - exists x. split_and!; [done|lia|unfold MAX_PAGES; lia|]. by destruct Hr as [? <- ? ?].
Qed.
End provider.
