(* ===== verification/HeapRep.v ===== *)
(** * The kernel heap in memory

    What the statics of [kernel/src/mm/allocator.rs] stand for: the blocks that
    are allocated, each in a slab of its size class or on a page of its own,
    and the frames taken from the page allocator. *)
From S2P Require Import Prelude Machine X86Api Buddy Slub SlubRep SlubProofs SlubOps.
From S2P Require Import SlubDealloc GlobalAlloc PageProvider.

(** ** Lists of groups *)

Lemma join_split {A B} (f : A -> list B) (l : list A) i x :
  l !! i = Some x -> mjoin (f <$> l) ≡ₚ f x ++ mjoin (f <$> delete i l).
Proof. intros Hi. by rewrite (delete_Permutation l i x Hi) at 1. Qed.

Lemma join_insert {A B} (f : A -> list B) (l : list A) i x y :
  l !! i = Some x -> mjoin (f <$> <[i := y]> l) ≡ₚ f y ++ mjoin (f <$> delete i l).
Proof.
  intros Hi. assert (delete i (<[i := y]> l) = delete i l) as <-.
  { revert i Hi. induction l as [|z l IH]; intros [|i] Hi; simplify_eq/=; [done|]. f_equal. by apply IH. }
  apply join_split, list_lookup_insert_eq. by eapply lookup_lt_Some.
Qed.

Lemma join_unique {A} (ls : list (list A)) i j l1 l2 x :
  NoDup (mjoin ls) -> ls !! i = Some l1 -> ls !! j = Some l2 -> x ∈ l1 -> x ∈ l2 -> i = j.
Proof.
  revert i j. induction ls as [|l ls IH]; intros [|i] [|j] Hnd Hi Hj H1 H2; simplify_eq/=; try done;
    apply NoDup_app in Hnd as (_ & Hd & Hnd).
  - exfalso. apply (Hd x H1), list_elem_of_join. exists l2. split; [done|]. by eapply list_elem_of_lookup_2.
  - exfalso. apply (Hd x H2), list_elem_of_join. exists l1. split; [done|]. by eapply list_elem_of_lookup_2.
  - f_equal. by apply (IH i j).
Qed.

(** ** Size classes *)

(** The chain of comparisons picks the least of the eight sizes that fits. *)
Lemma alloc_index_class size :
  0 < size <= 2048 ->
  exists sz, cache_sizes !! alloc_index size = Some sz /\ size_class sz /\
    sz = 2 ^ (Z.of_nat (alloc_index size) + 4) /\ size <= sz /\ (16 < size -> sz < 2 * size).
Proof.
  intros Hs. unfold alloc_index.
  repeat match goal with |- context [if ?a <=? ?b then _ else _] => destruct (Z.leb_spec a b) end;
    (eexists; split; [reflexivity|]; split; [unfold size_class; set_solver|split; [reflexivity|lia]]).
Qed.

Lemma cache_size_class i sz : cache_sizes !! i = Some sz -> size_class sz.
Proof. intros Hi. unfold size_class. by apply (list_elem_of_lookup_2 cache_sizes i). Qed.

(** ** Allocated blocks *)

Abbreviation block := (Z * Layout)%type.

Definition in_block (b : block) (a : Z) : Prop := b.1 <= a < b.1 + lsize b.2.
Definition is_small (b : block) : Prop := lsize b.2 <= 2048.
(** The group of pages a block lives in: its size class, or 8. *)
Definition group (b : block) : nat :=
  if decide (is_small b) then alloc_index (lsize b.2) else 8.

Definition in_class (i : nat) (b : block) : Prop := group b = i.
#[global] Instance in_class_dec i b : Decision (in_class i b).
Proof. unfold in_class. apply _. Defined.
#[global] Typeclasses Opaque in_class.

Definition blocks_of (i : nat) (live : list block) : list Z := fst <$> filter (in_class i) live.

Lemma group_small b : 0 < lsize b.2 <= 2048 -> group b = alloc_index (lsize b.2) /\ (group b < 8)%nat.
Proof.
  intros Hb. unfold group. rewrite decide_True by (unfold is_small; lia). split; [done|].
  destruct (alloc_index_class _ Hb) as (sz & Hi & _). by apply lookup_lt_Some in Hi.
Qed.
Lemma group_large b : 2048 < lsize b.2 -> group b = 8%nat.
Proof. intros Hb. unfold group. by rewrite decide_False by (unfold is_small; lia). Qed.

(** A block of a size class fits the objects of the class. *)
Lemma group_size b : 0 < lsize b.2 <= 4096 -> forall i sz,
  group b = i -> (i < 8)%nat -> cache_sizes !! i = Some sz -> lsize b.2 <= sz.
Proof.
  intros Hb i sz Hg Hi Hsz. destruct (decide (lsize b.2 <= 2048)); [|rewrite (group_large b) in Hg by lia; lia].
  destruct (group_small b) as [Hg' _]; [lia|].
  destruct (alloc_index_class (lsize b.2)) as (sz' & Hsz' & _ & _ & Hle & _); [lia|].
  rewrite <- Hg', Hg, Hsz in Hsz'. by simplify_eq.
Qed.

Lemma blocks_of_cons i b live :
  blocks_of i (b :: live) = if decide (group b = i) then b.1 :: blocks_of i live else blocks_of i live.
Proof.
  unfold blocks_of. rewrite filter_cons.
  destruct (decide (in_class i b)), (decide (group b = i)); done.
Qed.

Lemma blocks_of_elem i live p : p ∈ blocks_of i live <-> exists l, (p, l) ∈ live /\ group (p, l) = i.
Proof.
  unfold blocks_of. rewrite list_elem_of_fmap. setoid_rewrite list_elem_of_filter. unfold in_class.
  split; [intros ([p' l] & -> & ? & ?); by exists l|intros (l & ? & ?); by exists (p, l)].
Qed.

#[global] Instance blocks_of_perm i : Proper ((≡ₚ) ==> (≡ₚ)) (blocks_of i).
Proof. intros l l' Hl. unfold blocks_of. by rewrite Hl. Qed.

(** ** The heap *)

Abbreviation slabs := (list (list slab * list slab)).
Definition cpages (sl : list slab * list slab) : list Z := page <$> sl.1 ++ sl.2.

(** The pages out of the page allocator, by group: the eight caches, the
    blocks of more than 2048 bytes, the frames. *)
Definition groups (S : slabs) (live : list block) (frames : list Z) : list (list Z) :=
  (cpages <$> S) ++ [blocks_of 8 live; frames].

Section rep.
Context `{SlabLayoutLaws}.

Record heap_rep (off : Z) (fed : list Z) (h : KHeap) (m : mem) (S : slabs)
    (live : list block) (frames : list Z) : Prop := {
  hr_slabs : length S = 8%nat;
  hr_count : length (caches h) = 8%nat;
  hr_caches : forall i sl sz, S !! i = Some sl -> cache_sizes !! i = Some sz ->
    exists c, caches h !! i = Some (mkMutex false c) /\ cache_rep m sz c sl.1 sl.2 /\
      used_objs sl.1 sl.2 ≡ₚ blocks_of i live;
  hr_sizes : forall b, b ∈ live -> 0 < lsize b.2 <= 4096;
  hr_provider : exists p, page_allocator h = mkMutex false (Some p) /\
    pages_inv off fed p m (mjoin (groups S live frames));
}.

(** Where a live block is. *)
Lemma live_block_place off fed h m S live frames b a :
  heap_rep off fed h m S live frames -> b ∈ live -> in_block b a ->
  exists l pg, groups S live frames !! group b = Some l /\ pg ∈ l /\ page_ok pg /\ in_page pg a /\
    (group b = 8%nat -> pg = b.1).
Proof.
  intros [HS Hn Hc Hsz (p & _ & Hinv)] Hb Ha. destruct (pages_inv_pages _ _ _ _ _ Hinv) as [_ Hok].
  specialize (Hsz b Hb). unfold in_block in Ha. rewrite Forall_forall in Hok.
  destruct (decide (lsize b.2 <= 2048)) as [Hsm|Hlg].
  - destruct (group_small b) as [Hg Hlt]; [lia|]. destruct (alloc_index_class (lsize b.2)) as (sz & Hi & Hcl & _ & Hle & _); [lia|].
    destruct (lookup_lt_is_Some_2 S (group b)) as [sl Hsl]; [lia|]. rewrite <- Hg in Hi.
    destruct (Hc _ _ _ Hsl Hi) as (c & _ & Hrep & Hused).
    assert (b.1 ∈ used_objs sl.1 sl.2) as Hu.
    { rewrite Hused. apply blocks_of_elem. exists b.2. by destruct b. }
    destruct (used_obj_facts _ _ _ _ _ _ Hrep Hu) as (pg & Hpg & Hpgok & Ho).
    exists (cpages sl), pg. split_and!; [|done|done| |lia].
    + unfold groups. rewrite lookup_app_l by (rewrite length_fmap; lia). by rewrite list_lookup_fmap, Hsl.
    + apply (obj_in_page sz pg b.1 a Hcl Ho). unfold in_obj. lia.
  - pose proof (group_large b ltac:(lia)) as Hg. exists (blocks_of 8 live), b.1. rewrite Hg.
    assert (b.1 ∈ blocks_of 8 live) as Hin by (apply blocks_of_elem; exists b.2; by destruct b).
    assert (groups S live frames !! 8%nat = Some (blocks_of 8 live)) as Hl.
    { unfold groups. rewrite lookup_app_r by (rewrite length_fmap; lia). by rewrite length_fmap, HS. }
    split_and!; [done..| | |done].
    + apply Hok, list_elem_of_join. exists (blocks_of 8 live). split; [done|]. by eapply list_elem_of_lookup_2.
    + unfold in_page. lia.
Qed.

(** Two live blocks that share an address are the same pointer. *)
Lemma live_disjoint off fed h m S live frames b1 b2 a :
  heap_rep off fed h m S live frames -> b1 ∈ live -> b2 ∈ live -> in_block b1 a -> in_block b2 a ->
  b1.1 = b2.1 /\ group b1 = group b2.
Proof.
  intros Hrep Hb1 Hb2 Ha1 Ha2.
  destruct (live_block_place _ _ _ _ _ _ _ _ _ Hrep Hb1 Ha1) as (l1 & pg1 & Hl1 & Hp1 & Hok1 & Hin1 & Hlg1).
  destruct (live_block_place _ _ _ _ _ _ _ _ _ Hrep Hb2 Ha2) as (l2 & pg2 & Hl2 & Hp2 & Hok2 & Hin2 & Hlg2).
  assert (pg1 = pg2) as <- by (by apply (in_page_unique _ _ a)).
  destruct Hrep as [HS Hn Hc Hsz (p & _ & Hinv)]. destruct (pages_inv_pages _ _ _ _ _ Hinv) as [Hnd _].
  pose proof (join_unique _ _ _ _ _ pg1 Hnd Hl1 Hl2 Hp1 Hp2) as Hg. split; [|done].
  pose proof (Hsz b1 Hb1) as Hs1. pose proof (Hsz b2 Hb2) as Hs2.
  destruct (decide (lsize b1.2 <= 2048)) as [Hsm|Hlg].
  - destruct (group_small b1) as [Hg1 Hlt]; [lia|].
    destruct (decide (lsize b2.2 <= 2048)); [|rewrite (group_large b2) in Hg by lia; lia].
    destruct (group_small b2) as [Hg2 _]; [lia|].
    destruct (lookup_lt_is_Some_2 S (group b1)) as [sl Hsl]; [lia|].
    destruct (alloc_index_class (lsize b1.2)) as (sz & Hi & _ & _ & Hle1 & _); [lia|].
    destruct (alloc_index_class (lsize b2.2)) as (sz' & Hi' & _ & _ & Hle2 & _); [lia|].
    rewrite <- Hg1 in Hi. rewrite <- Hg2, <- Hg, Hi in Hi'. simplify_eq.
    destruct (Hc _ _ _ Hsl Hi) as (c & _ & Hrep & Hused).
    destruct (used_objs_facts _ _ _ _ _ Hrep) as (_ & _ & Hd).
    apply (Hd _ _ a); [rewrite Hused; apply blocks_of_elem; exists b1.2; by destruct b1
      |rewrite Hused; apply blocks_of_elem; exists b2.2; by destruct b2| |];
      unfold in_obj, in_block in *; lia.
  - rewrite (group_large b1) in * by lia. by rewrite <- Hlg1, <- Hlg2 by done.
Qed.
End rep.
