(* ===== verification/HeapProofs.v ===== *)
(** * The operations of the kernel heap

    [GlobalAlloc::alloc] and [dealloc], [add_frame] and [allocate_frame] of
    [kernel/src/mm/allocator.rs] on a heap in memory: which branch runs, what
    it returns, which blocks are live afterwards, and that every other live
    block keeps its contents. *)
From S2P Require Import Prelude Machine X86Api Buddy Slub SlubRep SlubProofs SlubOps.
From S2P Require Import SlubDealloc GlobalAlloc PageProvider HeapRep.

Section heap.
Context {ck : OverflowChecks} `{SlabLayoutLaws} (off : Z) (fed : list Z).

#[local] Instance provider_spec : PageProviderSpec GlobalPageAllocator := GlobalPageAllocator_spec off fed.

(** ** Locks *)

Definition unlocked (cs : list (Mutex SCache)) (p : option GlobalPageAllocator) : KHeap :=
  mkHeap cs (mkMutex false p).

Lemma run_lock_provider cs p m :
  lock_provider (unlocked cs p, m) = Ret ((), (mkHeap cs (mkMutex true p), m)).
Proof. reflexivity. Qed.
Lemma run_unlock_provider cs b p m :
  unlock_provider (mkHeap cs (mkMutex b p), m) = Ret ((), (unlocked cs p, m)).
Proof. reflexivity. Qed.

Lemma run_lock_cache cs p m i c :
  cs !! i = Some (mkMutex false c) ->
  lock_cache i (unlocked cs p, m) = Ret ((), (unlocked (<[i := mkMutex true c]> cs) p, m)).
Proof.
  intros Hi. unfold lock_cache. run (run_get_self (unlocked cs p) m).
  run (run_lift _ (unlocked cs p, m) _ (index_ok _ _ _ Hi)). done.
Qed.

Lemma run_unlock_cache cs p m i c b :
  cs !! i = Some (mkMutex b c) ->
  unlock_cache i (unlocked cs p, m) = Ret ((), (unlocked (<[i := mkMutex false c]> cs) p, m)).
Proof.
  intros Hi. unfold unlock_cache. run (run_get_self (unlocked cs p) m).
  run (run_lift _ (unlocked cs p, m) _ (index_ok _ _ _ Hi)). done.
Qed.

(** Both guards taken, [f] run on the cache and the provider, both dropped. *)
Lemma run_locked_cache {A B} i cs p m c (d : A) f a c' p' m' (k : A -> H B) :
  cs !! i = Some (mkMutex false c) -> f ((c, p), m) = Ret (a, ((c', p'), m')) ->
  (lock_cache i;; lock_provider;; x ← with_cache i d f; unlock_provider;; unlock_cache i;; k x)
    (unlocked cs (Some p), m) = k a (unlocked (<[i := mkMutex false c']> cs) (Some p'), m').
Proof.
  intros Hi Hf. pose proof (lookup_lt_Some _ _ _ Hi) as Hlt.
  run (run_lock_cache cs (Some p) m i c Hi). run (run_lock_provider (<[i := mkMutex true c]> cs) (Some p) m).
  set (cs1 := <[i := mkMutex true c]> cs).
  assert (with_cache i d f (mkHeap cs1 (mkMutex true (Some p)), m) =
    Ret (a, (mkHeap (<[i := mkMutex true c']> cs1) (mkMutex true (Some p')), m'))) as E.
  { unfold with_cache. cbn [page_allocator data caches]. unfold cs1 at 1.
    rewrite list_lookup_insert_eq by done. cbn [data locked]. by rewrite Hf. }
  run E. run (run_unlock_provider (<[i := mkMutex true c']> cs1) true (Some p') m').
  assert ((<[i := mkMutex true c']> cs1) !! i = Some (mkMutex true c')) as E2.
  { apply list_lookup_insert_eq. unfold cs1. by rewrite length_insert. }
  run (run_unlock_cache _ (Some p') m' i c' true E2). unfold cs1. by rewrite !list_insert_insert_eq.
Qed.

(** The provider's guard taken, [f] run, the guard dropped. *)
Lemma run_locked_provider {A B} cs p m (d : A) f a p' m' (k : A -> H B) :
  f (p, m) = Ret (a, (p', m')) ->
  (lock_provider;; x ← with_provider d f; unlock_provider;; k x) (unlocked cs (Some p), m) =
    k a (unlocked cs (Some p'), m').
Proof.
  intros Hf. run (run_lock_provider cs (Some p) m).
  assert (with_provider d f (mkHeap cs (mkMutex true (Some p)), m) =
    Ret (a, (mkHeap cs (mkMutex true (Some p')), m'))) as E.
  { unfold with_provider. cbn [page_allocator data caches locked]. by rewrite Hf. }
  run E. by run (run_unlock_provider cs true (Some p') m').
Qed.

Lemma run_locked_provider_unit cs p m f p' m' :
  f (p, m) = Ret ((), (p', m')) ->
  (lock_provider;; with_provider () f;; unlock_provider) (unlocked cs (Some p), m) =
    Ret ((), (unlocked cs (Some p'), m')).
Proof.
  intros Hf. run (run_lock_provider cs (Some p) m). unfold mbind, M_bind, with_provider. cbn.
  by rewrite Hf.
Qed.

(** ** One cache steps, the rest of the heap stays *)

Lemma groups_join (S : slabs) (live : list block) (frames : list Z) :
  mjoin (groups S live frames) = mjoin (cpages <$> S) ++ blocks_of 8 live ++ frames.
Proof. unfold groups. rewrite join_app. simpl. by rewrite app_nil_r. Qed.

Definition other_pages (i : nat) (S : slabs) (live : list block) (frames : list Z) : list Z :=
  mjoin (cpages <$> delete i S) ++ blocks_of 8 live ++ frames.

Lemma groups_split i (S : slabs) live frames sl :
  S !! i = Some sl ->
  mjoin (groups S live frames) ≡ₚ cpages sl ++ other_pages i S live frames.
Proof. intros Hi. rewrite groups_join, (join_split cpages S i sl Hi). by rewrite <- app_assoc. Qed.

Lemma groups_insert i (S : slabs) live frames sl sl' :
  S !! i = Some sl ->
  mjoin (groups (<[i := sl']> S) live frames) ≡ₚ cpages sl' ++ other_pages i S live frames.
Proof. intros Hi. rewrite groups_join, (join_insert cpages S i sl sl' Hi). by rewrite <- app_assoc. Qed.

Lemma other_pages_group i j (S : slabs) live frames l :
  (i < 8)%nat -> length S = 8%nat -> groups S live frames !! j = Some l -> i <> j ->
  forall pg, pg ∈ l -> pg ∈ other_pages i S live frames.
Proof.
  intros Hi HS Hj Hne pg Hpg. unfold other_pages. unfold groups in Hj.
  apply lookup_app_Some in Hj as [Hj|[Hge Hj]]; rewrite ?length_fmap, ?HS in *.
  - apply elem_of_app. left. apply list_elem_of_join. exists l. split; [done|].
    rewrite list_lookup_fmap in Hj. destruct (S !! j) as [sl|] eqn:Hsl; simplify_eq/=.
    apply list_elem_of_fmap. exists sl. split; [done|].
    destruct (decide (j < i)%nat).
    + eapply (list_elem_of_lookup_2 _ j). by rewrite list_lookup_delete_lt.
    + destruct j as [|j]; [lia|]. eapply (list_elem_of_lookup_2 _ j). rewrite list_lookup_delete_ge; [done|lia].
  - rewrite !elem_of_app. right. destruct (j - 8)%nat as [|[|?]]; simplify_eq/=; auto.
Qed.

(** The state of the heap after a step of cache [i] that leaves the blocks
    [live']. *)
Lemma cache_step_heap cs p m S live frames i sl sz c' p' m' parts' fulls' kept live' :
  heap_rep off fed (unlocked cs (Some p)) m S live frames ->
  S !! i = Some sl -> cache_sizes !! i = Some sz ->
  cache_step sz kept (other_pages i S live frames) m c' p' m' parts' fulls' ->
  used_objs parts' fulls' ≡ₚ blocks_of i live' ->
  (forall j, j <> i -> blocks_of j live' ≡ₚ blocks_of j live) ->
  (forall b, b ∈ live' -> 0 < lsize b.2 <= 4096) ->
  heap_rep off fed (unlocked (<[i := mkMutex false c']> cs) (Some p')) m'
    (<[i := (parts', fulls')]> S) live' frames.
Proof.
  intros [HS Hn Hc _ _] Hsl Hsz [Hrep Hprov HB _] Hused Hoth Hsizes.
  assert (i < 8)%nat as Hi by (apply lookup_lt_Some in Hsl; lia).
  constructor; [by rewrite length_insert|cbn [caches unlocked]; by rewrite length_insert| |done|].
  - intros j slj szj Hj Hszj. cbn [caches unlocked]. cbn [caches unlocked] in Hn.
    destruct (decide (j = i)) as [->|Hne].
    + rewrite list_lookup_insert_eq in Hj by lia. simplify_eq. exists c'.
      rewrite list_lookup_insert_eq by lia. done.
    + rewrite list_lookup_insert_ne in Hj by done. destruct (Hc _ _ _ Hj Hszj) as (cj & Hcj & Hrj & Huj).
      exists cj. rewrite list_lookup_insert_ne by done. split_and!; [done| |].
      * eapply cache_rep_agree; [exact Hrj|]. intros a (pg & Hpg & Ha). apply HB. exists pg. split; [|done].
        eapply (other_pages_group i j); [done..| |congruence|exact Hpg].
        unfold groups. rewrite lookup_app_l by (rewrite length_fmap; by apply lookup_lt_Some in Hj).
        by rewrite list_lookup_fmap, Hj.
      * rewrite Huj. by rewrite (Hoth j Hne).
  - exists p'. split; [done|]. change (pages_inv off fed) with prov_inv.
    rewrite (groups_insert i S live' frames sl (parts', fulls') Hsl).
    assert (other_pages i S live' frames ≡ₚ other_pages i S live frames) as ->; [|done].
    unfold other_pages. by rewrite (Hoth 8%nat ltac:(lia)).
Qed.

(** Live blocks of which the step keeps the objects keep their contents. *)
Lemma cache_step_contents h m S live frames i sl sz kept c' p' m' parts' fulls' b a :
  heap_rep off fed h m S live frames -> S !! i = Some sl -> cache_sizes !! i = Some sz ->
  cache_step sz kept (other_pages i S live frames) m c' p' m' parts' fulls' ->
  b ∈ live -> in_block b a -> (group b = i -> b.1 ∈ kept) -> m' !! a = m !! a.
Proof.
  intros Hrep Hsl Hsz [_ _ HB Hk] Hb Ha Hkept.
  assert (i < 8)%nat as Hi by (apply lookup_lt_Some in Hsl; destruct Hrep; lia).
  destruct (decide (group b = i)) as [Hg|Hne].
  - apply (Hk b.1); [auto|]. pose proof (hr_sizes _ _ _ _ _ _ _ Hrep b Hb) as Hs.
    pose proof (group_size b Hs i sz Hg Hi Hsz).
    unfold in_obj, in_block in *. lia.
  - destruct (live_block_place _ _ _ _ _ _ _ _ _ Hrep Hb Ha) as (l & pg & Hl & Hpg & _ & Hin & _).
    apply HB. exists pg. split; [|done]. eapply (other_pages_group i (group b)); try done; apply Hrep.
Qed.
(** ** [alloc] *)

Lemma heap_rep_split h m S live frames :
  heap_rep off fed h m S live frames ->
  exists cs p, h = unlocked cs (Some p) /\ prov_inv p m (mjoin (groups S live frames)).
Proof. intros [_ _ _ _ (p & Hp & Hinv)]. exists (caches h), p. split; [destruct h; simpl in *; by subst|done]. Qed.

(** A cache with its contents, and the contract of its provider. *)
Lemma heap_rep_cache cs p m S live frames size :
  heap_rep off fed (unlocked cs (Some p)) m S live frames -> 0 < size <= 2048 ->
  exists sl sz c, S !! alloc_index size = Some sl /\ cache_sizes !! alloc_index size = Some sz /\
    cs !! alloc_index size = Some (mkMutex false c) /\ cache_rep m sz c sl.1 sl.2 /\
    used_objs sl.1 sl.2 ≡ₚ blocks_of (alloc_index size) live /\ size_class sz /\
    prov_inv p m ((page <$> sl.1 ++ sl.2) ++ other_pages (alloc_index size) S live frames).
Proof.
  intros Hrep Hs. destruct (alloc_index_class size Hs) as (sz & Hsz & Hcl & _).
  destruct (lookup_lt_is_Some_2 S (alloc_index size)) as [sl Hsl].
  { apply lookup_lt_Some in Hsz. destruct Hrep. simpl in Hsz. lia. }
  destruct (hr_caches _ _ _ _ _ _ _ Hrep _ _ _ Hsl Hsz) as (c & Hc & Hcr & Hu).
  exists sl, sz, c. split_and!; try done.
  destruct (hr_provider _ _ _ _ _ _ _ Hrep) as (p' & [= <-] & Hinv).
  change (pages_inv off fed) with prov_inv in Hinv. by rewrite (groups_split _ _ _ _ _ Hsl) in Hinv.
Qed.

(** What an allocation does: the pointer is fresh, or null when no page is
    left; the contents of the live blocks stay. *)
Record alloc_result (m : mem) (S : slabs) (live : list block) (frames : list Z)
    (layout : Layout) (r : Z) (h' : KHeap) (m' : mem) (S' : slabs) : Prop := {
  ar_contents : forall b a, b ∈ live -> in_block b a -> m' !! a = m !! a;
  ar_result :
    (r = 0 /\ heap_rep off fed h' m' S' live frames /\
      forall x, x ∈ fed -> BuddyProofs.addr off x ∈ mjoin (groups S live frames)) \/
    (0 < r /\ heap_rep off fed h' m' S' ((r, layout) :: live) frames);
}.
Lemma HEAP_FUEL_S : HEAP_FUEL = S (Z.to_nat MAX_PAGES).
Proof. reflexivity. Qed.

Lemma blocks_of_new i b live : group b = i -> b.1 :: blocks_of i live = blocks_of i (b :: live).
Proof. intros Hg. rewrite blocks_of_cons. by rewrite decide_True. Qed.
Lemma blocks_of_other j b live : j <> group b -> blocks_of j (b :: live) = blocks_of j live.
Proof. intros Hg. rewrite blocks_of_cons. by rewrite decide_False. Qed.

Lemma heap_alloc_small h m S live frames layout :
  heap_rep off fed h m S live frames -> 0 < lsize layout <= 2048 ->
  exists r h' m' S', heap_alloc layout (h, m) = Ret (r, (h', m')) /\
    alloc_result m S live frames layout r h' m' S'.
Proof.
  intros Hrep Hs. destruct (heap_rep_split _ _ _ _ _ Hrep) as (cs & p & -> & Hall).
  destruct (heap_rep_cache _ _ _ _ _ _ _ Hrep Hs) as (sl & sz & c & Hsl & Hsz & Hc & Hcr & Hu & Hcl & Hp).
  set (i := alloc_index (lsize layout)) in *.
  destruct (scache_alloc_ok (Z.to_nat MAX_PAGES) _ _ _ _ _ _ _ Hcr Hp)
    as (r & c' & p' & m' & ps & fs & Hrun & Hstep & Hr).
  exists (default 0 r), (unlocked (<[i := mkMutex false c']> cs) (Some p')), m', (<[i := (ps, fs)]> S). split.
  { unfold heap_alloc. rewrite (proj2 (Z.ltb_ge 2048 _)) by lia. cbv zeta. fold i.
    rewrite HEAP_FUEL_S.
    rewrite (run_locked_cache i cs p m c None _ r c' p' m' (fun ptr => mret (default 0 ptr)) Hc Hrun). done. }
  assert (forall b a, b ∈ live -> in_block b a -> m' !! a = m !! a) as Hcont.
  { intros b a Hb Ha. eapply cache_step_contents; try done. intros Hg. rewrite Hu.
    apply blocks_of_elem. exists b.2. by destruct b. }
  constructor; [done|]. destruct r as [o|]; simpl.
  - right. destruct (used_objs_facts _ _ _ _ _ (cs_rep _ _ _ _ _ _ _ _ _ Hstep)) as (_ & Hfacts & _).
    destruct (Hfacts o) as (_ & [Hpos _] & _); [rewrite Hr; left|].
    split; [lia|].
    assert (group (o, layout) = i) as Hg by exact (proj1 (group_small (o, layout) Hs)).
    eapply cache_step_heap; try done.
    + by rewrite Hr, Hu, <- (blocks_of_new i (o, layout)).
    + intros j Hj. by rewrite blocks_of_other by congruence.
    + intros b [->|Hb]%elem_of_cons; [simpl; lia|]. by apply (hr_sizes _ _ _ _ _ _ _ Hrep).
  - left. destruct Hr as (Hs1 & -> & -> & st & Hnone). split_and!; [done| |].
    + eapply cache_step_heap; try done; [by rewrite <- Hs1|]. apply Hrep.
    + intros x Hx. rewrite <- (pi_offset _ _ _ _ _ Hall). exact (alloc_page_none off fed p m _ st Hall Hnone x Hx).
Qed.

Lemma groups_large S live frames b :
  group b = 8%nat -> mjoin (groups S (b :: live) frames) ≡ₚ b.1 :: mjoin (groups S live frames).
Proof.
  intros Hg. rewrite !groups_join, <- (blocks_of_new 8 b live Hg). simpl. by rewrite <- Permutation_middle.
Qed.

(** The caches are as before when the memory of the pages is. *)
Lemma heap_rep_pages cs p m p' m' S live live' frames frames' fed' :
  heap_rep off fed (unlocked cs (Some p)) m S live frames ->
  (forall a, in_pages (mjoin (cpages <$> S)) a -> m' !! a = m !! a) ->
  (forall i, (i < 8)%nat -> blocks_of i live' ≡ₚ blocks_of i live) ->
  (forall b, b ∈ live' -> 0 < lsize b.2 <= 4096) ->
  pages_inv off fed' p' m' (mjoin (groups S live' frames')) ->
  heap_rep off fed' (unlocked cs (Some p')) m' S live' frames'.
Proof.
  intros [HS Hn Hc Hsz _] Hag Hbl Hsz' Hinv. constructor; [done..| |done|by exists p'].
  intros i sl sz Hi Hszi. destruct (Hc i sl sz Hi Hszi) as (c & Hci & Hcr & Hu). exists c.
  split_and!; [done| |rewrite Hbl; [done|apply lookup_lt_Some in Hi; lia]].
  eapply cache_rep_agree; [exact Hcr|]. intros a (pg & Hpg & Ha). apply Hag. exists pg. split; [|done].
  apply list_elem_of_join. exists (cpages sl). split; [done|]. apply list_elem_of_fmap. exists sl.
  split; [done|]. by eapply list_elem_of_lookup_2.
Qed.

Lemma live_in_pages h m S live frames b a :
  heap_rep off fed h m S live frames -> b ∈ live -> in_block b a ->
  in_pages (mjoin (groups S live frames)) a.
Proof.
  intros Hrep Hb Ha. destruct (live_block_place _ _ _ _ _ _ _ _ _ Hrep Hb Ha) as (l & pg & Hl & Hpg & _ & Hin & _).
  exists pg. split; [|done]. apply list_elem_of_join. exists l. split; [done|]. by eapply list_elem_of_lookup_2.
Qed.

Lemma heap_alloc_large h m S live frames layout :
  heap_rep off fed h m S live frames -> 2048 < lsize layout <= 4096 ->
  exists r h' m' S', heap_alloc layout (h, m) = Ret (r, (h', m')) /\
    alloc_result m S live frames layout r h' m' S'.
Proof.
  intros Hrep Hs. destruct (heap_rep_split _ _ _ _ _ Hrep) as (cs & p & -> & Hall).
  destruct (alloc_page_ok _ _ _ Hall) as (r & p' & m' & Hrun & Hag & Hr).
  exists (default 0 r), (unlocked cs (Some p')), m', S. split.
  { unfold heap_alloc. rewrite (proj2 (Z.ltb_lt 2048 _)), (proj2 (Z.leb_le _ Slub.PAGE_SIZE))
      by (change Slub.PAGE_SIZE with 4096; lia).
    by rewrite (run_locked_provider cs p m None _ r p' m' (fun ptr => mret (default 0 ptr)) Hrun). }
  assert (forall a, in_pages (mjoin (cpages <$> S)) a -> m' !! a = m !! a) as Hag'.
  { intros a Ha. apply Hag. rewrite groups_join, in_pages_app. by left. }
  constructor; [intros b a Hb Ha; apply Hag; by eapply live_in_pages|]. destruct r as [pg|]; simpl.
  - right. destruct (prov_pages _ _ _ Hr) as [_ [[Hpos _ _] _]%Forall_cons]. split; [done|].
    assert (group (pg, layout) = 8%nat) as Hg by (apply group_large; simpl; lia).
    eapply heap_rep_pages; [exact Hrep|done|..].
    + intros i Hi. by rewrite blocks_of_other by lia.
    + intros b [->|Hb]%elem_of_cons; [simpl; lia|]. by apply (hr_sizes _ _ _ _ _ _ _ Hrep).
    + change (pages_inv off fed) with prov_inv. by rewrite groups_large.
  - left. split_and!; [done| |].
    + eapply heap_rep_pages; [exact Hrep|done|done|apply Hrep|done].
    + intros x Hx. rewrite <- (pi_offset _ _ _ _ _ Hall). exact (alloc_page_none off fed p m _ _ Hall Hrun x Hx).
Qed.

Lemma heap_alloc_ok h m S live frames layout :
  heap_rep off fed h m S live frames -> 0 < lsize layout <= 4096 ->
  exists r h' m' S', heap_alloc layout (h, m) = Ret (r, (h', m')) /\
    alloc_result m S live frames layout r h' m' S'.
Proof.
  intros Hrep Hs. destruct (decide (lsize layout <= 2048));
    [apply heap_alloc_small|apply heap_alloc_large]; (done || lia).
Qed.
(** ** [dealloc] *)

Lemma heap_rep_perm h m S live live' frames :
  live ≡ₚ live' -> heap_rep off fed h m S live frames -> heap_rep off fed h m S live' frames.
Proof.
  intros Hl [HS Hn Hc Hsz (p & Hp & Hinv)]. constructor; [done..| | |].
  - intros i sl sz Hi Hszi. destruct (Hc i sl sz Hi Hszi) as (c & ? & ? & Hu). exists c.
    split_and!; [done..|]. by rewrite <- Hl.
  - intros b. rewrite <- Hl. apply Hsz.
  - exists p. split; [done|]. change (pages_inv off fed) with prov_inv in *.
    rewrite groups_join in *. by rewrite <- Hl.
Qed.

Lemma dealloc_index_same size : dealloc_index size = alloc_index size.
Proof. reflexivity. Qed.

Lemma heap_dealloc_small h m S live frames ptr layout :
  heap_rep off fed h m S ((ptr, layout) :: live) frames -> lsize layout <= 2048 ->
  exists h' m' S', heap_dealloc ptr layout (h, m) = Ret ((), (h', m')) /\
    heap_rep off fed h' m' S' live frames /\
    (forall b a, b ∈ live -> in_block b a -> m' !! a = m !! a).
Proof.
  intros Hrep Hs. pose proof (hr_sizes _ _ _ _ _ _ _ Hrep (ptr, layout) ltac:(left)) as Hpos. simpl in Hpos.
  destruct (heap_rep_split _ _ _ _ _ Hrep) as (cs & p & -> & Hall).
  destruct (heap_rep_cache _ _ _ _ _ _ (lsize layout) Hrep)
    as (sl & sz & c & Hsl & Hsz & Hc & Hcr & Hu & Hcl & Hp); [lia|].
  destruct (group_small (ptr, layout)) as [Hg _]; [simpl; lia|]. simpl in Hg.
  set (i := alloc_index (lsize layout)) in *. rewrite <- (blocks_of_new i _ live Hg) in Hu. simpl in Hu.
  destruct (scache_dealloc_ok HEAP_FUEL sz c p m sl.1 sl.2 _ ptr Hcr Hp)
    as (c' & p' & m' & ps & fs & Hrun & Hstep & Hused).
  { rewrite Hu. left. }
  { pose proof (pages_inv_bound off fed p m _ Hp) as Hb. rewrite HEAP_FUEL_S.
    rewrite length_app, length_fmap, length_app in Hb. lia. }
  rewrite Hu in Hused. apply Permutation_cons_inv in Hused.
  exists (unlocked (<[i := mkMutex false c']> cs) (Some p')), m', (<[i := (ps, fs)]> S). split_and!.
  - unfold heap_dealloc. rewrite (proj2 (Z.ltb_ge 2048 _)) by lia. cbv zeta.
    rewrite dealloc_index_same. fold i.
    by rewrite (run_locked_cache i cs p m c () _ () c' p' m' (fun _ => mret ()) Hc Hrun).
  - eapply cache_step_heap; try done.
    + intros j Hj. by rewrite blocks_of_other by congruence.
    + intros b Hb. apply (hr_sizes _ _ _ _ _ _ _ Hrep). by right.
  - intros b a Hb Ha. eapply cache_step_contents; [exact Hrep|done..|by right|done|].
    intros Hgb. rewrite <- Hused. apply blocks_of_elem. exists b.2. by destruct b.
Qed.

Lemma heap_dealloc_large h m S live frames ptr layout :
  heap_rep off fed h m S ((ptr, layout) :: live) frames -> 2048 < lsize layout ->
  exists h' m' S', heap_dealloc ptr layout (h, m) = Ret ((), (h', m')) /\
    heap_rep off fed h' m' S' live frames /\
    (forall b a, b ∈ live -> in_block b a -> m' !! a = m !! a).
Proof.
  intros Hrep Hs. destruct (heap_rep_split _ _ _ _ _ Hrep) as (cs & p & -> & Hall).
  pose proof (group_large (ptr, layout) Hs) as Hg. rewrite groups_large in Hall by done.
  destruct (free_page_ok _ _ _ _ Hall) as (p' & m' & Hrun & Hag & Hp'). cbn [fst] in Hrun.
  assert (heap_rep off fed (unlocked cs (Some p')) m' S live frames) as Hrep'.
  { eapply heap_rep_pages; [exact Hrep|..|exact Hp'].
    - intros a Ha. apply Hag. rewrite groups_join, in_pages_app. by left.
    - intros i Hi. by rewrite blocks_of_other by lia.
    - intros b Hb. apply (hr_sizes _ _ _ _ _ _ _ Hrep). by right. }
  exists (unlocked cs (Some p')), m', S. split_and!; [|done|].
  - unfold heap_dealloc. rewrite (proj2 (Z.ltb_lt 2048 _)) by lia.
    by rewrite (run_locked_provider_unit cs p m _ p' m' Hrun).
  - intros b a Hb Ha. apply Hag. by eapply live_in_pages.
Qed.

Lemma heap_dealloc_ok h m S live live' frames ptr layout :
  heap_rep off fed h m S live frames -> live ≡ₚ (ptr, layout) :: live' ->
  exists h' m' S', heap_dealloc ptr layout (h, m) = Ret ((), (h', m')) /\
    heap_rep off fed h' m' S' live' frames /\
    (forall b a, b ∈ live' -> in_block b a -> m' !! a = m !! a).
Proof.
  intros Hrep Hl. apply (heap_rep_perm _ _ _ _ _ _ Hl) in Hrep.
  destruct (decide (lsize layout <= 2048)); [by eapply heap_dealloc_small|].
  eapply heap_dealloc_large; [done|lia].
Qed.

(** ** [add_frame], [allocate_frame], and writes to allocated memory *)

Lemma heap_add_frame_ok h m S live frames x :
  heap_rep off fed h m S live frames -> BuddySpec.block_wf off 0 x -> x ∉ fed ->
  exists h' m', add_frame (BuddyProofs.addr off x) (h, m) = Ret ((), (h', m')) /\
    heap_rep off (x :: fed) h' m' S live frames /\
    (forall b a, b ∈ live -> in_block b a -> m' !! a = m !! a).
Proof.
  intros Hrep Hx Hnew. destruct (heap_rep_split _ _ _ _ _ Hrep) as (cs & p & -> & Hall).
  pose proof (pi_offset _ _ _ _ _ Hall) as Hoff.
  destruct (add_frame_correct off fed p m _ x Hall) as (p' & m' & Hrun & Hag & Hp'); [by rewrite Hoff|done|].
  rewrite Hoff in Hrun. exists (unlocked cs (Some p')), m'. split_and!.
  - unfold add_frame. by rewrite (run_locked_provider_unit cs p m _ p' m' Hrun).
  - eapply heap_rep_pages; [exact Hrep|..|exact Hp']; [|done|apply Hrep].
    intros a Ha. apply Hag. rewrite groups_join, in_pages_app. by left.
  - intros b a Hb Ha. apply Hag. by eapply live_in_pages.
Qed.

Lemma heap_allocate_frame_ok `{PhysFrameLaws} h m S live frames :
  heap_rep off fed h m S live frames ->
  exists r h' m', allocate_frame (h, m) = Ret (r, (h', m')) /\
    heap_rep off fed h' m' S live (match r with Some f => off + f :: frames | None => frames end) /\
    (forall b a, b ∈ live -> in_block b a -> m' !! a = m !! a) /\
    (forall f, r = Some f -> exists x, f = 4096 * x /\ 0 <= x < MAX_PAGES) /\
    (r = None -> forall x, x ∈ fed -> BuddyProofs.addr off x ∈ mjoin (groups S live frames)).
Proof.
  intros Hrep. destruct (heap_rep_split _ _ _ _ _ Hrep) as (cs & p & -> & Hall).
  destruct (allocate_frame_pages off fed p m _ Hall) as (r & p' & m' & Hrun & Hag & Hr).
  exists r, (unlocked cs (Some p')), m'. split_and!.
  - unfold allocate_frame. by rewrite (run_locked_provider cs p m None _ r p' m' (fun f => mret f) Hrun).
  - eapply heap_rep_pages; [exact Hrep| |done|apply Hrep|].
    + intros a Ha. apply Hag. rewrite groups_join, in_pages_app. by left.
    + change (pages_inv off fed) with prov_inv. destruct r as [f|]; [|by destruct Hr].
      destruct Hr as (x & -> & _ & Hr). rewrite !groups_join in *. eapply prov_perm; [|exact Hr].
      by rewrite !app_assoc, <- Permutation_middle.
  - intros b a Hb Ha. apply Hag. by eapply live_in_pages.
  - intros f ->. destruct Hr as (x & -> & ? & _). by exists x.
  - intros ->. by destruct Hr.
Qed.
End heap.
