(* ===== verification/HeapSystem.v ===== *)
(** * The kernel heap as a transition system

    The states the heap of [kernel/src/mm/allocator.rs] goes through: it is
    initialised, frames are added, blocks and frames are allocated, blocks are
    freed, and their owners write to them. *)
From S2P Require Import Prelude Machine X86Api Buddy BuddySpec BuddySystem Slub SlubRep SlubProofs SlubOps.
From S2P Require Import SlubDealloc GlobalAlloc PageProvider HeapRep HeapProofs.

Record hsys := mkHsys {
  hs_heap : KHeap;
  hs_mem : mem;
  hs_live : list block;   (* the allocated blocks *)
  hs_frames : list Z;     (* the addresses of the frames taken *)
  hs_fed : list Z;        (* the indices of the pages added *)
}.

Section system.
Context {ck : OverflowChecks} `{SlabLayoutLaws} `{PhysFrameLaws} (off : Z).

Inductive hstep : hsys -> hsys -> Prop :=
  | h_add_frame h m live frames fed x h' m' :
      good_frame off x -> x ∉ fed ->
      GlobalAlloc.add_frame (BuddyProofs.addr off x) (h, m) = Ret ((), (h', m')) ->
      hstep (mkHsys h m live frames fed) (mkHsys h' m' live frames (x :: fed))
  | h_alloc h m live frames fed layout ptr h' m' :
      0 < lsize layout -> heap_alloc layout (h, m) = Ret (ptr, (h', m')) ->
      hstep (mkHsys h m live frames fed)
        (mkHsys h' m' (if ptr =? 0 then live else (ptr, layout) :: live) frames fed)
  | h_dealloc h m live live' frames fed ptr layout h' m' :
      live ≡ₚ (ptr, layout) :: live' -> heap_dealloc ptr layout (h, m) = Ret ((), (h', m')) ->
      hstep (mkHsys h m live frames fed) (mkHsys h' m' live' frames fed)
  | h_frame h m live frames fed r h' m' :
      GlobalAlloc.allocate_frame (h, m) = Ret (r, (h', m')) ->
      hstep (mkHsys h m live frames fed)
        (mkHsys h' m' live (match r with Some f => off + f :: frames | None => frames end) fed)
  | h_write h m live frames fed a v :
      (exists b, b ∈ live /\ HeapRep.in_block b a) \/ in_pages frames a ->
      hstep (mkHsys h m live frames fed) (mkHsys h (<[a := v]> m) live frames fed).

(** After [init_heap]. *)
Definition hinit (m : mem) (x : hsys) : Prop :=
  exists h, init_heap off (heap_new, m) = Ret ((), (h, m)) /\ x = mkHsys h m [] [] [].

Inductive hreach (m : mem) : hsys -> Prop :=
  | hreach_init x : hinit m x -> hreach m x
  | hreach_step x y : hreach m x -> hstep x y -> hreach m y.

Definition hinv (x : hsys) (S : slabs) : Prop :=
  heap_rep off (hs_fed x) (hs_heap x) (hs_mem x) S (hs_live x) (hs_frames x).

(** ** The invariant *)

Lemma empty_cache_rep m sz : size_class sz -> cache_rep m sz (SCache_new sz) [] [].
Proof. intros Hsz. constructor; try done; constructor. Qed.

Lemma hinv_init m x :
  0 <= off -> (4096 | off) -> off + MAX_PAGES * Buddy.PAGE_SIZE < U64_LIM ->
  hinit m x -> exists S, hinv x S.
Proof.
  intros Hlo Hal Hhi (h & Hrun & ->).
  assert (h = mkHeap SlubAllocator_new (mkMutex false (Some (mkPages (set_offset off (new BITMAP_STORAGE))))))
    as ->.
  { unfold init_heap in Hrun. by injection Hrun as <-. }
  clear Hrun.
  exists (replicate 8 ([], [])). constructor; [done|done| |intros b []%elem_of_nil|].
  - intros i sl sz Hi Hsz. apply lookup_replicate in Hi as [-> _]. exists (SCache_new sz).
    split_and!; [|apply empty_cache_rep; by eapply cache_size_class|done].
    change (SlubAllocator_new !! i = Some (mkMutex false (SCache_new sz))).
    unfold SlubAllocator_new. by rewrite list_lookup_fmap, Hsz.
  - eexists. split; [done|]. cbn [hs_live hs_frames hs_mem hs_fed].
    change (mjoin (groups (replicate 8 ([], [])) [] [])) with (@nil Z).
    constructor; cbn [frame_allocator]; [constructor|done|done|].
    exists no_blocks. split_and!; [apply buddy_rep_init; [done| |done]|done|].
    + apply Z.mod_divide; [done|]. apply (Z.divide_trans _ 4096); [by exists 512|done].
    + intros y. rewrite elem_of_nil. split; [intros []|]. intros [(k & q & Hq & _)|[]%elem_of_nil].
      rewrite no_blocks_lookup in Hq. by apply elem_of_nil in Hq.
Qed.

Lemma frames_in_pages S (live : list block) frames a :
  in_pages frames a -> in_pages (mjoin (groups S live frames)) a.
Proof. rewrite groups_join, !in_pages_app. auto. Qed.

(** An address of one group of pages is in no other. *)
Lemma group_apart fed h m S live frames i sl j l pg a :
  heap_rep off fed h m S live frames -> S !! i = Some sl -> groups S live frames !! j = Some l ->
  pg ∈ l -> in_page pg a -> i <> j -> ~ in_pages (cpages sl) a.
Proof.
  intros Hrep Hi Hj Hpg Ha Hne (pg' & Hpg' & Ha'). apply Hne.
  assert (groups S live frames !! i = Some (cpages sl)) as Hgi.
  { unfold groups. rewrite lookup_app_l by (rewrite length_fmap; by eapply lookup_lt_Some).
    by rewrite list_lookup_fmap, Hi. }
  destruct Hrep as [_ _ _ _ (p & _ & Hinv)]. destruct (pages_inv_pages _ _ _ _ _ Hinv) as [Hnd Hok].
  rewrite Forall_forall in Hok.
  assert (pg' = pg) as ->; [|by apply (join_unique _ _ _ _ _ pg Hnd Hgi Hj)].
  apply (in_page_unique _ _ a); [..|done|done]; apply Hok, list_elem_of_join;
    eexists; (split; [done|]); by eapply list_elem_of_lookup_2.
Qed.

(** A write to a live block or a frame changes no slab structure. *)
Lemma heap_rep_write fed h m S live frames a v :
  heap_rep off fed h m S live frames ->
  (exists b, b ∈ live /\ HeapRep.in_block b a) \/ in_pages frames a ->
  heap_rep off fed h (<[a := v]> m) S live frames.
Proof.
  intros Hrep Ha. pose proof Hrep as [HS Hn Hc Hsz (p & Hp & Hinv)].
  assert (in_pages (mjoin (groups S live frames)) a) as Hin.
  { destruct Ha as [(b & Hb & Hba)|Hf]; [by eapply live_in_pages|by apply frames_in_pages]. }
  constructor; [done..| |done|exists p; split; [done|]; eapply pages_inv_write;
    [exact Hinv|by apply mem_frame_insert]].
  intros i sl sz Hi Hszi. destruct (Hc i sl sz Hi Hszi) as (c & Hci & Hcr & Hu). exists c.
  split_and!; [done| |done].
  assert (~ in_pages (cpages sl) a -> cache_rep (<[a := v]> m) sz c sl.1 sl.2) as Hout.
  { intros Hn'. eapply cache_rep_agree; [exact Hcr|]. intros a' Ha'. apply lookup_insert_ne. by intros <-. }
  assert (i < 8)%nat as Hi8 by (apply lookup_lt_Some in Hi; lia).
  destruct Ha as [(b & Hb & Hba)|(pg & Hpg & Hpa)].
  - destruct (decide (group b = i)) as [Hg|Hg].
    + pose proof (group_size _ (Hsz b Hb) _ _ Hg Hi8 Hszi) as Hle.
      apply (cache_rep_write _ _ _ _ _ b.1); [done| |unfold in_obj, HeapRep.in_block in *; lia].
      rewrite Hu. apply blocks_of_elem. exists b.2. by destruct b.
    + destruct (live_block_place _ _ _ _ _ _ _ _ _ Hrep Hb Hba) as (l & pg & Hl & Hpg & _ & Hpa & _).
      apply Hout. by eapply group_apart.
  - apply Hout. eapply (group_apart _ _ _ _ _ _ i sl 9%nat); try done; [|lia].
    unfold groups. rewrite lookup_app_r by (rewrite length_fmap; lia). by rewrite length_fmap, HS.
Qed.

Lemma heap_alloc_too_large layout st :
  4096 < lsize layout -> heap_alloc layout st = Ret (0, st).
Proof.
  intros Hs. unfold heap_alloc. rewrite (proj2 (Z.ltb_lt 2048 _)), (proj2 (Z.leb_gt _ Slub.PAGE_SIZE))
    by (change Slub.PAGE_SIZE with 4096; lia). done.
Qed.

Lemma hstep_inv x y S : hinv x S -> hstep x y -> exists S', hinv y S'.
Proof.
  unfold hinv. intros Hinv Hst.
  destruct Hst as [h m live frames fed x h' m' Hx Hn Hrun|h m live frames fed layout ptr h' m' Hs Hrun
    |h m live live' frames fed ptr layout h' m' Hl Hrun|h m live frames fed r h' m' Hrun
    |h m live frames fed a v Ha]; cbn [hs_heap hs_mem hs_live hs_frames hs_fed] in *.
  - destruct (heap_add_frame_ok off fed h m S live frames x Hinv Hx Hn) as (h1 & m1 & E & Hrep & _).
    rewrite E in Hrun. simplify_eq. eauto.
  - destruct (decide (lsize layout <= 4096)).
    + destruct (heap_alloc_ok off fed h m S live frames layout Hinv) as (r & h1 & m1 & S1 & E & Hres); [lia|].
      rewrite E in Hrun. simplify_eq. exists S1. destruct Hres as [_ [(-> & Hrep & _)|(Hpos & Hrep)]].
      * by rewrite Z.eqb_refl.
      * by rewrite (proj2 (Z.eqb_neq ptr 0)) by lia.
    + rewrite heap_alloc_too_large in Hrun by lia. simplify_eq. by exists S.
  - destruct (heap_dealloc_ok off fed h m S live live' frames ptr layout Hinv Hl)
      as (h1 & m1 & S1 & E & Hrep & _). rewrite E in Hrun. simplify_eq. eauto.
  - destruct (heap_allocate_frame_ok off fed h m S live frames Hinv) as (r1 & h1 & m1 & E & Hrep & _).
    rewrite E in Hrun. simplify_eq. eauto.
  - exists S. by apply heap_rep_write.
Qed.

Lemma hreach_inv m x :
  0 <= off -> (4096 | off) -> off + MAX_PAGES * Buddy.PAGE_SIZE < U64_LIM ->
  hreach m x -> exists S, hinv x S.
Proof.
  intros Hlo Hal Hhi Hr. induction Hr as [x Hx|x y _ [S IH] Hst]; [by apply (hinv_init m)|].
  by apply (hstep_inv x y S).
Qed.

(** The address of a live block. *)
Lemma live_block_aligned fed h m S live frames b :
  heap_rep off fed h m S live frames -> b ∈ live ->
  0 < b.1 /\ b.1 + lsize b.2 < U64_LIM /\
  exists k, 4 <= k <= 12 /\ (2 ^ k | b.1) /\ lsize b.2 <= 2 ^ k.
Proof.
  intros Hrep Hb. pose proof (hr_sizes _ _ _ _ _ _ _ Hrep b Hb) as Hs.
  destruct (decide (lsize b.2 <= 2048)) as [Hsm|Hlg].
  - destruct (group_small b) as [Hg Hlt]; [lia|].
    destruct (alloc_index_class (lsize b.2)) as (sz & Hsz & _ & Hpow & Hle & _); [lia|]. rewrite <- Hg in Hsz, Hpow.
    destruct (lookup_lt_is_Some_2 S (group b)) as [sl Hsl]; [destruct Hrep; lia|].
    destruct (hr_caches _ _ _ _ _ _ _ Hrep _ _ _ Hsl Hsz) as (c & _ & Hcr & Hu).
    destruct (used_objs_facts _ _ _ _ _ Hcr) as (_ & Hf & _).
    destruct (Hf b.1) as (Hal & [Hv _] & Hhi); [rewrite Hu; apply blocks_of_elem; exists b.2; by destruct b|].
    split_and!; [lia..|]. exists (Z.of_nat (group b) + 4). rewrite <- Hpow. split_and!; [lia|lia|done|done].
  - pose proof (group_large b ltac:(lia)) as Hg.
    destruct (live_block_place _ _ _ _ _ _ _ _ b.1 Hrep Hb) as (l & pg & _ & _ & [Hp1 Hp2 Hp3] & _ & Hpg);
      [unfold HeapRep.in_block; lia|]. rewrite Hpg in * by done.
    split_and!; [lia..|]. exists 12. split_and!; [lia|lia|exact Hp2|lia].
Qed.

Lemma live_nodup fed h m S live frames :
  heap_rep off fed h m S live frames -> NoDup (fst <$> live).
Proof.
  intros Hrep. pose proof Hrep as [HS _ Hc Hsz (p & _ & Hinv)].
  assert (forall i, (i <= 8)%nat -> NoDup (blocks_of i live)) as Hg.
  { intros i Hi. destruct (decide (i = 8%nat)) as [->|Hne].
    - destruct (pages_inv_pages _ _ _ _ _ Hinv) as [Hnd _]. rewrite groups_join in Hnd.
      apply NoDup_app in Hnd as (_ & _ & Hnd). by apply NoDup_app in Hnd as (? & _ & _).
    - destruct (lookup_lt_is_Some_2 S i) as [sl Hsl]; [lia|].
      destruct (lookup_lt_is_Some_2 cache_sizes i) as [sz Hszi]; [simpl; lia|].
      destruct (Hc _ _ _ Hsl Hszi) as (c & _ & Hcr & Hu). rewrite <- Hu.
      by destruct (used_objs_facts _ _ _ _ _ Hcr) as [? _]. }
  assert (forall b, b ∈ live -> (group b <= 8)%nat) as Hle.
  { intros b Hb. specialize (Hsz b Hb). destruct (decide (lsize b.2 <= 2048));
      [destruct (group_small b); lia|rewrite (group_large b); lia]. }
  assert (forall b1 b2, b1 ∈ live -> b2 ∈ live -> b1.1 = b2.1 -> group b1 = group b2) as Hsame.
  { intros b1 b2 H1' H2' Heq. pose proof (Hsz b1 H1'). pose proof (Hsz b2 H2').
    apply (live_disjoint _ _ _ _ _ _ _ b1 b2 b1.1 Hrep H1' H2'); unfold HeapRep.in_block; lia. }
  clear -Hg Hle Hsame. induction live as [|b live IH]; [constructor|]. simpl. apply NoDup_cons. split.
  - intros ([p l] & Hp & Hb)%list_elem_of_fmap. simpl in Hp.
    assert (group b = group (p, l)) as Hgb by (apply Hsame; [left|by right|done]).
    specialize (Hg (group b) (Hle b ltac:(left))). rewrite blocks_of_cons, decide_True in Hg by done.
    apply NoDup_cons in Hg as [Hg _]. apply Hg, blocks_of_elem. exists l. rewrite Hp. by rewrite Hgb.
  - apply IH.
    + intros i Hi. specialize (Hg i Hi). rewrite blocks_of_cons in Hg. case_decide; [|done].
      by apply NoDup_cons in Hg as [_ ?].
    + intros b' Hb'. apply Hle. by right.
    + intros b1 b2 Hb1 Hb2. apply Hsame; by right.
Qed.

Lemma live_not_frame fed h m S live frames b a :
  heap_rep off fed h m S live frames -> b ∈ live -> HeapRep.in_block b a -> ~ in_pages frames a.
Proof.
  intros Hrep Hb Ha (pg' & Hpg' & Ha').
  destruct (live_block_place _ _ _ _ _ _ _ _ _ Hrep Hb Ha) as (l & pg & Hl & Hpg & Hpgok & Hin & _).
  destruct Hrep as [HS _ _ Hsz (p & _ & Hinv)]. destruct (pages_inv_pages _ _ _ _ _ Hinv) as [Hnd Hok].
  assert (groups S live frames !! 9%nat = Some frames) as Hg9.
  { unfold groups. rewrite lookup_app_r by (rewrite length_fmap; lia). by rewrite length_fmap, HS. }
  assert (pg = pg') as <-.
  { apply (in_page_unique _ _ a); [done| |done|done]. rewrite Forall_forall in Hok.
    apply Hok, list_elem_of_join. exists frames. split; [done|]. by eapply list_elem_of_lookup_2. }
  pose proof (join_unique _ _ _ _ _ pg Hnd Hl Hg9 Hpg Hpg') as Hg. specialize (Hsz b Hb).
  destruct (decide (lsize b.2 <= 2048)); [destruct (group_small b); lia|rewrite (group_large b) in Hg; lia].
Qed.

(** Every page in use holds a block in use or is a frame taken. *)
Lemma blocks_of_count (live : list block) :
  (sum_list (length <$> ((fun i => blocks_of i live) <$> seq 0 9)) <= length live)%nat.
Proof.
  induction live as [|b live IH]; [done|]. simpl in IH |- *. rewrite !blocks_of_cons.
  generalize dependent (group b). intros g.
  do 9 (destruct g as [|g]; [simpl; lia|]). simpl. lia.
Qed.

Lemma slabs_used_count m sz c parts fulls :
  cache_rep m sz c parts fulls -> (length (page <$> parts ++ fulls) <= length (used_objs parts fulls))%nat.
Proof.
  intros [_ _ _ _ _ _ Hus _]. unfold used_objs. rewrite length_fmap.
  induction (parts ++ fulls) as [|s l IH]; [done|].
  apply Forall_cons in Hus as [Hs Hus]. specialize (IH Hus). rewrite fmap_cons. cbn [mjoin list_join].
  rewrite length_app. destruct (sused s) as [|u us]; [done|]. cbn [length]. unfold mjoin in *. lia.
Qed.

Lemma pages_used_bound fed h m S live frames :
  heap_rep off fed h m S live frames ->
  (length (mjoin (groups S live frames)) <= length live + length frames)%nat.
Proof.
  intros [HS _ Hc _ _]. pose proof (blocks_of_count live) as Hcount.
  assert (forall i sl, S !! i = Some sl -> (length (cpages sl) <= length (blocks_of i live))%nat) as Hle.
  { intros i sl Hsl. destruct (lookup_lt_is_Some_2 cache_sizes i) as [sz Hsz].
    { apply lookup_lt_Some in Hsl. simpl. lia. }
    destruct (Hc i sl sz Hsl Hsz) as (c & _ & Hcr & <-). by eapply slabs_used_count. }
  rewrite groups_join, !length_app.
  do 8 (destruct S as [|? S]; [done|]). destruct S; [|done].
  pose proof (Hle 0%nat _ eq_refl). pose proof (Hle 1%nat _ eq_refl). pose proof (Hle 2%nat _ eq_refl).
  pose proof (Hle 3%nat _ eq_refl). pose proof (Hle 4%nat _ eq_refl). pose proof (Hle 5%nat _ eq_refl).
  pose proof (Hle 6%nat _ eq_refl). pose proof (Hle 7%nat _ eq_refl).
  simpl in Hcount |- *. rewrite !length_app. simpl. lia.
Qed.

(** ** Pages in use *)

(** The page of a block; a block never leaves it. *)
Definition page_of (b : block) : Z := b.1 / 4096 * 4096.
(** The pages in use: those that hold a block, and the frames. *)
Definition used_pages (live : list block) (frames : list Z) : list Z := (page_of <$> live) ++ frames.

Lemma page_of_eq pg b : page_ok pg -> in_page pg b.1 -> page_of b = pg.
Proof.
  intros [_ [q ->] _] Ha. unfold in_page in Ha. unfold page_of.
  rewrite (Z.div_unique b.1 4096 q (b.1 - q * 4096)); lia.
Qed.

(** The pages out of the page allocator are those that hold a block or were
    taken as a frame: an empty slab is given back. *)
Lemma used_pages_groups fed h m S live frames pg :
  heap_rep off fed h m S live frames ->
  pg ∈ mjoin (groups S live frames) <-> pg ∈ used_pages live frames.
Proof.
  intros Hrep. pose proof Hrep as [HS _ Hc Hsz (p & _ & Hinv)].
  destruct (pages_inv_pages _ _ _ _ _ Hinv) as [_ Hok]. rewrite Forall_forall in Hok.
  unfold used_pages. rewrite elem_of_app. split.
  - intros Hpg. pose proof (Hok pg Hpg) as Hpgok. rewrite groups_join, !elem_of_app in Hpg.
    destruct Hpg as [Hpg|[Hpg|Hpg]]; [left|left|by right]; apply list_elem_of_fmap.
    + apply list_elem_of_join in Hpg as (l & Hpg & (sl & -> & [i Hi]%list_elem_of_lookup)%list_elem_of_fmap).
      destruct (lookup_lt_is_Some_2 cache_sizes i) as [sz Hszi]; [apply lookup_lt_Some in Hi; simpl; lia|].
      destruct (Hc i sl sz Hi Hszi) as (c & _ & Hcr & Hu).
      apply list_elem_of_fmap in Hpg as (s & -> & Hs).
      pose proof Hcr as [_ Hcl _ Hsok _ _ Hus _]. rewrite Forall_forall in Hus, Hsok.
      specialize (Hus s Hs). destruct (sused s) as [|o os] eqn:Eo; [done|].
      assert (o ∈ sused s) as Ho by (rewrite Eo; left).
      assert (o ∈ blocks_of i live) as (l & Hl & _)%blocks_of_elem.
      { rewrite <- Hu. apply list_elem_of_join. exists (sused s). split; [done|]. apply list_elem_of_fmap. by exists s. }
      exists (o, l). split; [|done]. symmetry. apply page_of_eq; [done|].
      apply (obj_in_page sz (page s) o o Hcl); [by eapply slab_used_obj; [apply Hsok|]|].
      pose proof (size_class_facts sz Hcl) as []. unfold in_obj. simpl. lia.
    + apply blocks_of_elem in Hpg as (l & Hl & _). exists (pg, l). split; [|done]. symmetry.
      apply page_of_eq; [done|]. unfold in_page. simpl. lia.
  - intros [(b & -> & Hb)%list_elem_of_fmap|Hf].
    + specialize (Hsz b Hb).
      destruct (live_block_place _ _ _ _ _ _ _ _ b.1 Hrep Hb) as (l & pg & Hl & Hpg & Hpgok & Hin & _);
        [unfold HeapRep.in_block; lia|]. rewrite (page_of_eq pg b Hpgok Hin).
      apply list_elem_of_join. exists l. split; [done|]. by eapply list_elem_of_lookup_2.
    + rewrite groups_join, !elem_of_app. auto.
Qed.

(** A block lies in its page. *)
Lemma block_in_page fed h m S live frames b a :
  heap_rep off fed h m S live frames -> b ∈ live -> HeapRep.in_block b a -> in_page (page_of b) a.
Proof.
  intros Hrep Hb Ha. pose proof (hr_sizes _ _ _ _ _ _ _ Hrep b Hb) as Hs.
  destruct (live_block_aligned _ _ _ _ _ _ _ Hrep Hb) as (Hp & _ & k & Hk & Hd & Hle).
  assert ((2 ^ k | 4096)) as [c Hc].
  { exists (2 ^ (12 - k)). rewrite <- Z.pow_add_r by lia. by replace (12 - k + k) with 12 by lia. }
  assert (0 < 2 ^ k) by (apply Z.pow_pos_nonneg; lia).
  unfold in_page, HeapRep.in_block, page_of in *. pose proof (Z.div_mod b.1 4096 ltac:(lia)) as Hdm.
  pose proof (Z.mod_pos_bound b.1 4096 ltac:(lia)) as Hmod.
  assert ((2 ^ k | b.1 mod 4096)) as [d Hdd].
  { rewrite Z.mod_eq by lia. apply Z.divide_sub_r; [done|]. exists (c * (b.1 / 4096)). rewrite Hc. ring. }
  assert (d < c) by nia. assert (b.1 mod 4096 + 2 ^ k <= 4096) by nia. lia.
Qed.

(** The pages added are free or in use, never both. *)
Lemma heap_pages fed h m S live frames :
  heap_rep off fed h m S live frames ->
  exists p L, data (page_allocator h) = Some p /\ BuddyProofs.buddy_rep (frame_allocator p) m L /\
    offset (frame_allocator p) = off /\
    (forall y, y ∈ fed <-> BuddySpec.free_page L y \/ BuddyProofs.addr off y ∈ used_pages live frames) /\
    (forall y, BuddySpec.free_page L y -> BuddyProofs.addr off y ∉ used_pages live frames) /\
    (forall pg, pg ∈ used_pages live frames -> exists y, y ∈ fed /\ pg = BuddyProofs.addr off y).
Proof.
  intros Hrep. pose proof Hrep as [_ _ _ _ (p & Hp & [_ Hoff _ (L & HL & Hout & Hfed)])]. rewrite Hoff in *.
  rewrite Forall_forall in Hout. exists p, L.
  assert (forall y, BuddySpec.free_page L y -> BuddyProofs.addr off y ∉ used_pages live frames) as Hno.
  { intros y Hy Hin. rewrite <- (used_pages_groups _ _ _ _ _ _ _ Hrep) in Hin.
    destruct (Hout _ Hin) as (z & Hz & _ & Hn). assert (y = z) as -> by (unfold BuddyProofs.addr, Buddy.PAGE_SIZE in Hz; lia).
    done. }
  split_and!; [by rewrite Hp|done|done| |done|].
  - intros y. by rewrite Hfed, (used_pages_groups _ _ _ _ _ _ _ Hrep).
  - intros pg Hpg. rewrite <- (used_pages_groups _ _ _ _ _ _ _ Hrep) in Hpg.
    destruct (Hout pg Hpg) as (z & -> & _ & _). exists z. split; [|done]. apply Hfed. by right.
Qed.

Lemma hreach_fed m x : hreach m x -> NoDup (hs_fed x).
Proof.
  induction 1 as [x (h & _ & ->)|x y _ IH Hst]; [constructor|].
  by destruct Hst; cbn [hs_fed] in *; [constructor|..].
Qed.

(** While the blocks and frames in use are fewer than the pages added, an
    allocation of at most a page succeeds. *)
Lemma heap_room m x layout :
  0 <= off -> (4096 | off) -> off + MAX_PAGES * Buddy.PAGE_SIZE < U64_LIM ->
  hreach m x -> 0 < lsize layout <= 4096 ->
  (length (hs_live x) + length (hs_frames x) < length (hs_fed x))%nat ->
  exists ptr h' m' S', heap_alloc layout (hs_heap x, hs_mem x) = Ret (ptr, (h', m')) /\ 0 < ptr /\
    heap_rep off (hs_fed x) h' m' S' ((ptr, layout) :: hs_live x) (hs_frames x) /\
    (forall b a, b ∈ hs_live x -> HeapRep.in_block b a -> m' !! a = hs_mem x !! a).
Proof.
  intros Hlo Hal Hhi Hr Hs Hroom. destruct (hreach_inv m x Hlo Hal Hhi Hr) as [S Hinv].
  destruct (heap_alloc_ok _ _ _ _ _ _ _ layout Hinv) as (ptr & h' & m' & S' & Hrun & [Hk Hres]); [lia|].
  exists ptr, h', m', S'. split; [done|]. destruct Hres as [(_ & _ & Hfull)|[Hpos Hrep]]; [exfalso|done].
  pose proof (pages_used_bound _ _ _ _ _ _ Hinv) as Hub.
  assert (length (BuddyProofs.addr off <$> hs_fed x) <= length (mjoin (groups S (hs_live x) (hs_frames x))))%nat as Hle.
  { apply submseteq_length, NoDup_submseteq.
    - apply NoDup_fmap_2; [|by eapply hreach_fed]. intros i j. unfold BuddyProofs.addr, Buddy.PAGE_SIZE. lia.
    - intros a (y & -> & Hy)%list_elem_of_fmap. by apply Hfull. }
  rewrite length_fmap in Hle. lia.
Qed.
End system.
