(* ===== verification/HeapTheorems.v ===== *)
(** * What the slab allocator and the kernel heap guarantee

    The properties of [kernel/src/mm/slub.rs] over any page provider, and of
    [kernel/src/mm/allocator.rs], where the provider is the buddy allocator:
    the choice of the size class, the refinement of a set of objects, the
    safety of every reachable heap, progress, and alignment. *)
From S2P Require Import Prelude Machine X86Api Buddy BuddySpec BuddySystem Slub SlubRep SlubProofs SlubOps.
From S2P Require Import SlubDealloc GlobalAlloc PageProvider HeapRep HeapProofs HeapSystem.

(** ** Slab caches *)

Section slab.
Context {ck : OverflowChecks} `{SlabLayoutLaws}.
Context {P : Type} {provider : PageProvider P} {spec : PageProviderSpec P}.

(** C5: a slab cache over any page provider that keeps its contract refines a
    set of equal objects.  [alloc] returns an object that was not in use and adds
    it to the set, or returns nothing, only when no slab has a free object and the
    provider has no page; [dealloc] of an object in use returns and takes it out
    of the set.  Both keep the bytes of every other object in use and of every
    page [B] that belongs to others, keep the provider's contract, and keep the
    cache well formed; the objects in use are aligned to the object size and do
    not overlap. *)
Theorem slab_cache_refines_set sz c (p : P) m parts fulls B :
  cache_rep m sz c parts fulls -> prov_inv p m ((page <$> parts ++ fulls) ++ B) ->
  (forall fuel, exists r c' p' m' parts' fulls',
    Slub.alloc (S fuel) ((c, p), m) = Ret (r, ((c', p'), m')) /\
    cache_step sz (used_objs parts fulls) B m c' p' m' parts' fulls' /\
    match r with
    | Some o => (o ∉ used_objs parts fulls) /\ used_objs parts' fulls' ≡ₚ o :: used_objs parts fulls
    | None => parts = [] /\ used_objs parts' fulls' = used_objs parts fulls /\
        exists st, alloc_page (p, m) = Ret (None, st)
    end) /\
  (forall fuel o, o ∈ used_objs parts fulls -> (length parts < fuel)%nat ->
    exists c' p' m' parts' fulls',
      Slub.dealloc fuel o ((c, p), m) = Ret ((), ((c', p'), m')) /\
      cache_step sz (used_objs parts' fulls') B m c' p' m' parts' fulls' /\
      used_objs parts fulls ≡ₚ o :: used_objs parts' fulls') /\
  NoDup (used_objs parts fulls) /\
  (forall o, o ∈ used_objs parts fulls -> (sz | o) /\ o + sz < U64_LIM) /\
  (forall o1 o2 a, o1 ∈ used_objs parts fulls -> o2 ∈ used_objs parts fulls ->
    in_obj sz o1 a -> in_obj sz o2 a -> o1 = o2).
Proof.
  intros Hc Hp. destruct (used_objs_facts _ _ _ _ _ Hc) as (Hnd & Hal & Hdis). split_and!; [| |done| |done].
  - intros fuel. destruct (scache_alloc_ok fuel _ _ _ _ _ _ _ Hc Hp)
      as (r & c' & p' & m' & ps & fs & Hrun & Hstep & Hr).
    exists r, c', p', m', ps, fs. split_and!; [done..|]. destruct r as [o|]; [|naive_solver].
    split; [|done]. destruct (used_objs_facts _ _ _ _ _ (cs_rep _ _ _ _ _ _ _ _ _ Hstep)) as (Hnd' & _).
    rewrite Hr in Hnd'. by apply NoDup_cons in Hnd' as [? _].
  - intros fuel o Ho Hf. by apply scache_dealloc_ok.
  - intros o Ho. destruct (Hal o Ho) as (? & _ & ?). done.
Qed.
End slab.

(** ** The kernel heap *)

Section heap.
Context {ck : OverflowChecks} `{SlabLayoutLaws} `{PhysFrameLaws}.

(** C31: the chains of comparisons of [alloc] and [dealloc] both compute the
    binary logarithm of the size rounded up, from 16 on: the two agree, and they
    pick the least of the eight object sizes that holds the block. *)
Theorem size_class_is_log2 size :
  0 < size <= 2048 ->
  alloc_index size = Z.to_nat (Z.log2_up (Z.max 16 size) - 4) /\
  dealloc_index size = alloc_index size /\
  exists sz, cache_sizes !! alloc_index size = Some sz /\ size <= sz /\
    forall j sz', cache_sizes !! j = Some sz' -> size <= sz' -> (alloc_index size <= j)%nat.
Proof.
  intros Hs. destruct (alloc_index_class size Hs) as (sz & Hi & _ & Hpow & Hle & Hlow).
  set (i := alloc_index size) in *. split_and!; [|done|].
  - rewrite (Z.log2_up_unique (Z.max 16 size) (Z.of_nat i + 4)); [lia|lia|].
    replace (Z.pred (Z.of_nat i + 4)) with (Z.of_nat i + 3) by lia.
    assert (2 ^ (Z.of_nat i + 4) = 2 * 2 ^ (Z.of_nat i + 3)) as Hd.
    { rewrite <- Z.pow_succ_r by lia. f_equal. lia. }
    assert (2 ^ 4 <= 2 ^ (Z.of_nat i + 4)) by (apply Z.pow_le_mono_r; lia).
    destruct (decide (16 < size)); [lia|].
    assert (i = 0%nat) as -> by (unfold i, alloc_index; by rewrite (proj2 (Z.leb_le size 16)) by lia).
    split; [change (8 < Z.max 16 size)|change (Z.max 16 size <= 16)]; lia.
  - exists sz. split_and!; [done..|]. intros j sz' Hj Hle'.
    assert (sz' = 2 ^ (Z.of_nat j + 4)) as ->.
    { do 8 (destruct j as [|j]; [by simplify_eq/=|]). done. }
    assert (2 ^ (Z.of_nat i + 3) < 2 ^ (Z.of_nat j + 4)) as Hlt.
    { destruct (decide (16 < size)).
      - assert (2 ^ (Z.of_nat i + 4) = 2 * 2 ^ (Z.of_nat i + 3)) as Hd
          by (rewrite <- Z.pow_succ_r by lia; f_equal; lia). lia.
      - assert (i = 0%nat) as -> by (unfold i, alloc_index; by rewrite (proj2 (Z.leb_le size 16)) by lia).
        apply Z.pow_lt_mono_r; lia. }
    apply Z.pow_lt_mono_r_iff in Hlt; lia.
Qed.

(** A page holds an allocated block. *)
Definition holds_block (off : Z) (live : list block) (y : Z) : Prop :=
  exists b a, b ∈ live /\ HeapRep.in_block b a /\ in_page (BuddyProofs.addr off y) a.

Lemma holds_block_page off fed h m S live frames y :
  heap_rep off fed h m S live frames -> (4096 | off) ->
  holds_block off live y <-> BuddyProofs.addr off y ∈ (page_of <$> live).
Proof.
  intros Hrep [q ->]. rewrite list_elem_of_fmap. split.
  - intros (b & a & Hb & Ha & Hya). exists b. split; [|done].
    pose proof (block_in_page _ _ _ _ _ _ _ _ _ Hrep Hb Ha) as Hpa.
    unfold in_page, page_of, BuddyProofs.addr, Buddy.PAGE_SIZE in *. lia.
  - intros (b & Hby & Hb). pose proof (hr_sizes _ _ _ _ _ _ _ Hrep b Hb) as Hs. exists b, b.1.
    assert (HeapRep.in_block b b.1) as Hin by (unfold HeapRep.in_block; lia). split_and!; [done..|].
    rewrite Hby. by eapply block_in_page.
Qed.

(** C4: in every state the heap reaches after [init_heap], by adding frames,
    allocating and freeing blocks, taking frames and writing to what was
    allocated, the blocks in use have distinct addresses, never overlap and lie in
    pages that were added.  Every page that was added is in exactly one of three
    states: free in the page allocator, holding a block in use, or taken as a
    frame; and no other page is.  So no page is lost, not even one whose last
    block was freed, and none is invented. *)
Theorem heap_reachable_safe off m x :
  0 <= off -> (4096 | off) -> off + MAX_PAGES * Buddy.PAGE_SIZE < U64_LIM ->
  hreach off m x ->
  NoDup (fst <$> hs_live x) /\
  (forall b1 b2 a, b1 ∈ hs_live x -> b2 ∈ hs_live x ->
    HeapRep.in_block b1 a -> HeapRep.in_block b2 a -> b1.1 = b2.1) /\
  exists p L, data (page_allocator (hs_heap x)) = Some p /\
    BuddyProofs.buddy_rep (frame_allocator p) (hs_mem x) L /\ offset (frame_allocator p) = off /\
    (forall b a, b ∈ hs_live x -> HeapRep.in_block b a ->
      (exists y, y ∈ hs_fed x /\ in_page (BuddyProofs.addr off y) a) /\
      ~ in_pages (hs_frames x) a /\ ~ BuddyProofs.bytes_of off (BuddySpec.free_page L) a) /\
    (forall y, y ∈ hs_fed x <->
      BuddySpec.free_page L y \/ holds_block off (hs_live x) y \/ BuddyProofs.addr off y ∈ hs_frames x) /\
    (forall y, BuddySpec.free_page L y -> ~ holds_block off (hs_live x) y /\ BuddyProofs.addr off y ∉ hs_frames x) /\
    (forall y, holds_block off (hs_live x) y -> BuddyProofs.addr off y ∉ hs_frames x).
Proof.
  intros Hlo Hal Hhi Hr. destruct (hreach_inv off m x Hlo Hal Hhi Hr) as [S Hinv]. unfold hinv in Hinv.
  split_and!; [by eapply live_nodup|intros b1 b2 a ? ? ? ?; by apply (live_disjoint _ _ _ _ _ _ _ b1 b2 a Hinv)|].
  destruct (heap_pages off _ _ _ _ _ _ Hinv) as (p & L & Hp & Hrep & Hoff & Hfed & Hfree & Hused).
  unfold used_pages in Hfed, Hfree. setoid_rewrite elem_of_app in Hfed. setoid_rewrite elem_of_app in Hfree.
  exists p, L. setoid_rewrite (holds_block_page _ _ _ _ _ _ _ _ Hinv Hal). split_and!; [done|done|done| |done|..].
  - intros b a Hb Ha. assert (page_of b ∈ (page_of <$> hs_live x)) as Hin by (apply list_elem_of_fmap; by exists b).
    pose proof (block_in_page _ _ _ _ _ _ _ _ _ Hinv Hb Ha) as Hpa. destruct (Hused (page_of b)) as (y & Hy & Hyb); [by apply elem_of_app; left|].
    rewrite Hyb in Hin, Hpa. split_and!; [by exists y|by eapply live_not_frame|]. intros (z & Hz & Hza). apply (Hfree z Hz). left.
    replace z with y; [done|]. unfold in_page, BuddyProofs.addr, Buddy.PAGE_SIZE in *. lia.
  - intros y Hy. specialize (Hfree y Hy). tauto.
  - intros y (b & Hby & Hb)%list_elem_of_fmap Hf. pose proof (hr_sizes _ _ _ _ _ _ _ Hinv b Hb) as Hs.
    assert (HeapRep.in_block b b.1) as Hin by (unfold HeapRep.in_block; lia).
    apply (live_not_frame _ _ _ _ _ _ _ _ _ Hinv Hb Hin). exists (page_of b). split; [by rewrite <- Hby|by eapply block_in_page].
Qed.


(** C33: what [alloc] returns fits the type it is for.  The size of a Rust type
    is a multiple of its alignment, a power of two; for such a layout the pointer
    is null or aligned as asked, and the whole block lies in the address space. *)
Theorem heap_alloc_fits_type off m x layout k ptr st' :
  0 <= off -> (4096 | off) -> off + MAX_PAGES * Buddy.PAGE_SIZE < U64_LIM ->
  hreach off m x -> 0 < lsize layout -> 0 <= k -> lalign layout = 2 ^ k -> (lalign layout | lsize layout) ->
  heap_alloc layout (hs_heap x, hs_mem x) = Ret (ptr, st') ->
  ptr = 0 \/ 0 < ptr /\ (lalign layout | ptr) /\ ptr + lsize layout < U64_LIM.
Proof.
  intros Hlo Hal Hhi Hr Hs Hk Hla Hdiv Hrun.
  destruct (hreach_inv off m x Hlo Hal Hhi Hr) as [S Hinv]. unfold hinv in Hinv.
  destruct (decide (lsize layout <= 4096)).
  2: { rewrite heap_alloc_too_large in Hrun by lia. left. by simplify_eq. }
  destruct (heap_alloc_ok _ _ _ _ _ _ _ layout Hinv) as (ptr' & h' & m' & S' & Hrun' & [_ Hres]); [lia|].
  rewrite Hrun' in Hrun. simplify_eq. destruct Hres as [[-> _]|[Hpos Hrep]]; [by left|right].
  destruct (live_block_aligned _ _ _ _ _ _ _ (ptr, layout) Hrep ltac:(left)) as (_ & Hend & e & He & Hdv & Hle).
  simpl in *. split_and!; [done| |done]. eapply Z.divide_trans; [|exact Hdv]. rewrite Hla in *.
  destruct Hdiv as [q Hq].
  assert (0 < 2 ^ k) by (apply Z.pow_pos_nonneg; lia). assert (0 < q) by nia. assert (2 ^ k <= 2 ^ e) as Hke by nia. exists (2 ^ (e - k)).
  apply Z.pow_le_mono_r_iff in Hke; [|lia..]. rewrite <- Z.pow_add_r by lia. f_equal. lia.
Qed.
End heap.

(** ** Witnesses: a heap at 1 TiB with one page, and one block of 24 bytes *)

Module Demo.
#[local] Instance demo_ck : OverflowChecks := true.
#[local] Instance demo_layout : SlabLayout := {| next_slab_at := 0; freelist_at := 8; in_use_at := 16 |}.
#[local] Instance demo_layout_laws : SlabLayoutLaws.
Proof. unfold SlabLayoutLaws. reflexivity. Qed.
#[local] Existing Instance ReferenceApi.phys_frame_api.
#[local] Existing Instance ReferenceApi.phys_frame_laws.

Definition demo_off : Z := 1099511627776.
Definition demo_pages : GlobalPageAllocator := mkPages (set_offset demo_off (new BITMAP_STORAGE)).
Definition demo_heap0 : KHeap := mkHeap SlubAllocator_new (mkMutex false (Some demo_pages)).
Definition final {A T} (o : outcome (A * T)) (d : T) : T := match o with Ret (_, st) => st | _ => d end.
Definition demo1 : KHeap * mem :=
  final (GlobalAlloc.add_frame (BuddyProofs.addr demo_off 8) (demo_heap0, ∅)) (demo_heap0, ∅).
Definition small : Layout := mkLayout 24 8.
Definition demo2 : KHeap * mem := final (heap_alloc small demo1) demo1.
Definition demo_ptr : Z := 1099511660576.

Lemma demo_low : 0 <= demo_off.
Proof. unfold demo_off. lia. Qed.
Lemma demo_aligned : (4096 | demo_off).
Proof. by exists 268435456. Qed.
Lemma demo_high : demo_off + MAX_PAGES * Buddy.PAGE_SIZE < U64_LIM.
Proof. reflexivity. Qed.
Lemma demo_good : good_frame demo_off 8.
Proof.
  constructor; [unfold MAX_ORDER; lia|by exists 8|lia|..];
    unfold MAX_PAGES, Buddy.PAGE_SIZE, demo_off; [change (bsz 0) with 1|]; lia.
Qed.

Definition demo_sys0 : hsys := mkHsys demo_heap0 ∅ [] [] [].
Definition demo_sys1 : hsys := mkHsys demo1.1 demo1.2 [] [] [8].
Definition demo_sys2 : hsys := mkHsys demo2.1 demo2.2 [(demo_ptr, small)] [] [8].

Lemma demo_reach0 : hreach demo_off ∅ demo_sys0.
Proof. apply hreach_init. exists demo_heap0. split; reflexivity. Qed.

Lemma demo_add : GlobalAlloc.add_frame (BuddyProofs.addr demo_off 8) (demo_heap0, ∅) = Ret ((), demo1).
Proof.
  destruct (hreach_inv demo_off ∅ _ demo_low demo_aligned demo_high demo_reach0) as [S Hinv].
  destruct (heap_add_frame_ok demo_off [] _ _ S [] [] 8 Hinv demo_good) as (h & m & E & _); [apply not_elem_of_nil|].
  unfold demo1. cbn [hs_heap hs_mem demo_sys0] in E. rewrite E. reflexivity.
Qed.

Lemma demo_reach1 : hreach demo_off ∅ demo_sys1.
Proof.
  eapply hreach_step; [exact demo_reach0|]. apply h_add_frame; [exact demo_good|apply not_elem_of_nil|].
  rewrite demo_add. by destruct demo1.
Qed.

Lemma demo_alloc_ptr :
  match heap_alloc small demo1 with Ret (ptr, _) => ptr = demo_ptr | _ => False end.
Proof. vm_compute. reflexivity. Qed.

Lemma demo_alloc_small : heap_alloc small (demo1.1, demo1.2) = Ret (demo_ptr, (demo2.1, demo2.2)).
Proof.
  pose proof demo_alloc_ptr as E. unfold demo2. destruct demo1 as [h m]. cbn [fst snd].
  destruct (heap_alloc small (h, m)) as [[ptr [h' m']]| | | |]; [by subst|done..].
Qed.

Lemma demo_reach2 : hreach demo_off ∅ demo_sys2.
Proof.
  eapply hreach_step; [exact demo_reach1|]. unfold demo_sys1, demo_sys2.
  exact (h_alloc demo_off demo1.1 demo1.2 [] [] [8] small demo_ptr demo2.1 demo2.2 eq_refl demo_alloc_small).
Qed.
#[local] Opaque demo1 demo2 demo_heap0 demo_pages.

Lemma size_class_is_log2_witness :
  alloc_index 24 = Z.to_nat (Z.log2_up (Z.max 16 24) - 4) /\ dealloc_index 24 = alloc_index 24 /\
  exists sz, cache_sizes !! alloc_index 24 = Some sz /\ 24 <= sz /\
    forall j sz', cache_sizes !! j = Some sz' -> 24 <= sz' -> (alloc_index 24 <= j)%nat.
Proof. apply (size_class_is_log2 24). lia. Defined.

Lemma heap_reachable_safe_witness :
  NoDup (fst <$> hs_live demo_sys2) /\
  exists L, (BuddySpec.free_page L 8 \/ holds_block demo_off (hs_live demo_sys2) 8) /\
    ~ (BuddySpec.free_page L 8 /\ holds_block demo_off (hs_live demo_sys2) 8).
Proof.
  destruct (heap_reachable_safe demo_off ∅ demo_sys2 demo_low demo_aligned demo_high demo_reach2)
    as (Hnd & _ & p & L & _ & _ & _ & _ & Hfed & Hfree & _).
  split; [exact Hnd|]. exists L. split.
  - destruct (proj1 (Hfed 8)) as [Hf|[Hh|Hn]]; [left|by left|by right|by apply elem_of_nil in Hn].
  - intros [Hf Hh]. exact (proj1 (Hfree 8 Hf) Hh).
Defined.


Lemma heap_alloc_fits_type_witness :
  demo_ptr = 0 \/ 0 < demo_ptr /\ (8 | demo_ptr) /\ demo_ptr + 24 < U64_LIM.
Proof.
  apply (heap_alloc_fits_type demo_off ∅ demo_sys1 small 3 demo_ptr (demo2.1, demo2.2)
    demo_low demo_aligned demo_high demo_reach1); [done|done|done|by exists 3|exact demo_alloc_small].
Defined.

Lemma demo_provider : exists p m, pages_inv demo_off [8] p m [].
Proof.
  destruct (hreach_inv demo_off ∅ _ demo_low demo_aligned demo_high demo_reach0) as [S Hinv].
  assert (pages_inv demo_off [] demo_pages ∅ []) as Hp.
  { constructor; [constructor|reflexivity|exact demo_aligned|]. exists no_blocks.
    split_and!; [apply buddy_rep_init; [exact demo_low|reflexivity|exact demo_high]|done|].
    intros y. rewrite elem_of_nil. split; [intros []|]. intros [(k & q & Hq & _)|[]%elem_of_nil].
    rewrite no_blocks_lookup in Hq. by apply elem_of_nil in Hq. }
  destruct (add_frame_correct demo_off [] demo_pages ∅ [] 8 Hp demo_good (not_elem_of_nil 8))
    as (p & m & _ & _ & Hp'). by exists p, m.
Qed.

Lemma slab_cache_refines_set_witness :
  exists p m r st, Slub.alloc (P := GlobalPageAllocator) 1 ((SCache_new 64, p), m) = Ret (r, st).
Proof.
  destruct demo_provider as (p & m & Hp). exists p, m.
  assert (size_class 64) as Hcl by (unfold size_class; set_solver).
  destruct (slab_cache_refines_set (spec := GlobalPageAllocator_spec demo_off [8]) 64 (SCache_new 64) p m [] [] []
    (empty_cache_rep m 64 Hcl) Hp) as [Ha _].
  destruct (Ha 0%nat) as (r & c' & p' & m' & ps & fs & E & _). exists r, (c', p', m'). exact E.
Defined.

(** An alignment larger than the size is not honoured: 8 bytes asked for at a
    multiple of 64 are given at a multiple of 32 only. *)
Lemma over_aligned_layout_ignored :
  match heap_alloc (mkLayout 8 64) demo1 with
  | Ret (ptr, _) => ptr <> 0 /\ ptr mod 64 = 32
  | _ => False
  end.
Proof. vm_compute. split; [discriminate|reflexivity]. Qed.
End Demo.
