(* ===== verification/Collections.v ===== *)
(** * Boxes, vectors and shared pointers on the kernel heap

    [main.rs] exercises the heap with [Box], [Vec] and [Rc] of Rust's [alloc]
    library.  This file models what it uses of them over [heap_alloc] and
    [heap_dealloc]: growth of a vector by doubling through the default
    [GlobalAlloc::realloc], the counters of a shared pointer.  [main] keeps 32-bit
    integers in them; a cell of the memory at an address that is a multiple of
    four holds the integer written there. *)
From S2P Require Import Prelude Machine X86Api Buddy BuddySpec BuddySystem Slub SlubRep GlobalAlloc PageProvider.
From S2P Require Import HeapRep HeapProofs HeapSystem.

Definition I32_SIZE : Z := 4.
Definition ISIZE_MAX : Z := 2 ^ 63 - 1.

Definition i32_ptr (a : Z) : Prop := 0 < a < U64_LIM /\ a mod 4 = 0.
#[global] Instance i32_ptr_dec a : Decision (i32_ptr a).
Proof. unfold i32_ptr. apply _. Defined.

(** [copy_nonoverlapping] of [n] bytes; bytes nothing was written to keep any
    value. *)
Fixpoint copy_bytes (src dst : Z) (n : nat) (m : mem) : mem :=
  match n with
  | O => m
  | S n =>
      let m' := copy_bytes src dst n m in
      match m !! (src + Z.of_nat n) with
      | Some v => <[dst + Z.of_nat n := v]> m'
      | None => m'
      end
  end.

(** Where the fields of a [Vec] are in its 24 bytes is the compiler's choice. *)
Class VecFields := { cap_at : Z; ptr_at : Z; len_at : Z }.
Class VecFieldsLaws `{VecFields} : Prop := vec_fields_ok : Permutation [cap_at; ptr_at; len_at] [0; 8; 16].

Section code.
Context {ck : OverflowChecks} `{SlabLayout}.

Definition store_i32 (a v : Z) : H () := fun '(h, m) =>
  if decide (i32_ptr a) then Ret ((), (h, <[a := v]> m)) else Undef.

(** The default [GlobalAlloc::realloc]. *)
Definition realloc (ptr : Z) (layout : Layout) (new_size : Z) : H Z :=
  new_ptr ← heap_alloc (mkLayout new_size (lalign layout));
  if new_ptr =? 0 then mret 0
  else
    (fun '(h, m) => Ret ((), (h, copy_bytes ptr new_ptr (Z.to_nat (Z.min (lsize layout) new_size)) m)));;
    heap_dealloc ptr layout;;
    mret new_ptr.

(** [Box::new] of an [i32]; a failed allocation panics. *)
Definition Box_new (v : Z) : H Z :=
  p ← heap_alloc (mkLayout I32_SIZE 4);
  if p =? 0 then panic else store_i32 p v;; mret p.

(** [Vec<i32>] *)
Record RVec := mkVec { vptr : Z; vcap : Z; vlen : Z }.
Definition Vec_new : RVec := mkVec 4 0 0.
Definition array_layout (n : Z) : Layout := mkLayout (I32_SIZE * n) 4.

(** [RawVec::grow_one] *)
Definition grow_one (v : RVec) : H RVec :=
  let cap := Z.max 4 (Z.max (vcap v * 2) (vcap v + 1)) in
  if ISIZE_MAX <? I32_SIZE * cap then panic
  else
    ptr ← (if vcap v =? 0 then heap_alloc (array_layout cap)
           else realloc (vptr v) (array_layout (vcap v)) (I32_SIZE * cap));
    if ptr =? 0 then panic else mret (mkVec ptr cap (vlen v)).

Definition push (value : Z) (v : RVec) : H RVec :=
  v ← (if vlen v =? vcap v then grow_one v else mret v);
  store_i32 (vptr v + I32_SIZE * vlen v) value;;
  mret (mkVec (vptr v) (vcap v) (vlen v + 1)).

(** [for i in lo..lo + n { vec.push(i) }] *)
Fixpoint push_range (lo : Z) (n : nat) (v : RVec) : H RVec :=
  match n with
  | O => mret v
  | S n => v ← push lo v; push_range (lo + 1) n v
  end.

(** [vec![..]]: an array in a box, turned into a vector. *)
Fixpoint store_all (a : Z) (l : list Z) : H () :=
  match l with
  | [] => mret ()
  | v :: l => store_i32 a v;; store_all (a + I32_SIZE) l
  end.
Definition vec_macro (l : list Z) : H RVec :=
  let n := Z.of_nat (length l) in
  p ← heap_alloc (array_layout n);
  if p =? 0 then panic else store_all p l;; mret (mkVec p n n).

(** ** [Rc<Vec<i32>>] *)

Context `{VecFields}.

(** Two counters and the value. *)
Definition rc_layout : Layout := mkLayout 40 8.
Definition Rc_new (v : RVec) : H Z :=
  p ← heap_alloc rc_layout;
  if p =? 0 then panic
  else
    store p 1;; store (p + 8) 1;;
    store (p + (16 + cap_at)) (vcap v);; store (p + (16 + ptr_at)) (vptr v);; store (p + (16 + len_at)) (vlen v);;
    mret p.
Definition strong_count (p : Z) : H Z := load p.
(** A count of 0 is assumed away; a count that wraps aborts. *)
Definition Rc_clone (p : Z) : H Z :=
  strong ← load p;
  if strong =? 0 then undef
  else
    let strong := (strong + 1) mod U64_LIM in
    store p strong;;
    if strong =? 0 then panic else mret p.
Definition vec_drop (v : RVec) : H () :=
  if vcap v =? 0 then mret () else heap_dealloc (vptr v) (array_layout (vcap v)).
(** The weak pointer that all strong ones share. *)
Definition Rc_weak_drop (p : Z) : H () :=
  weak ← load (p + 8);
  store (p + 8) ((weak - 1) mod U64_LIM);;
  weak ← load (p + 8);
  if weak =? 0 then heap_dealloc p rc_layout else mret ().
Definition Rc_drop_slow (p : Z) : H () :=
  cap ← load (p + (16 + cap_at));
  ptr ← load (p + (16 + ptr_at));
  len ← load (p + (16 + len_at));
  vec_drop (mkVec ptr cap len);;
  Rc_weak_drop p.
Definition Rc_drop (p : Z) : H () :=
  strong ← load p;
  store p ((strong - 1) mod U64_LIM);;
  strong ← load p;
  if strong =? 0 then Rc_drop_slow p else mret ().
End code.

(** ** Steps of a client of the heap *)

Lemma copy_bytes_lookup src dst n m a :
  (forall k, 0 <= k < Z.of_nat n -> a <> dst + k) -> copy_bytes src dst n m !! a = m !! a.
Proof.
  induction n as [|n IH]; intros Ha; [done|]. cbn [copy_bytes].
  assert (copy_bytes src dst n m !! a = m !! a) as <- by (apply IH; intros k Hk; apply Ha; lia).
  destruct (m !! (src + Z.of_nat n)); [|done]. apply lookup_insert_ne. symmetry. apply Ha. lia.
Qed.
Lemma copy_bytes_copied src dst n m k v :
  0 <= k < Z.of_nat n -> m !! (src + k) = Some v -> copy_bytes src dst n m !! (dst + k) = Some v.
Proof.
  induction n as [|n IH]; intros Hk Hv; [lia|]. cbn [copy_bytes].
  destruct (decide (k = Z.of_nat n)) as [->|Hne]; [rewrite Hv; apply lookup_insert_eq|].
  destruct (m !! (src + Z.of_nat n)); [rewrite lookup_insert_ne by lia|]; apply IH; done || lia.
Qed.

Section steps.
Context {ck : OverflowChecks} `{SlabLayoutLaws} `{PhysFrameLaws} (off : Z) (m0 : mem).
Context (Hlo : 0 <= off) (Hal : (4096 | off)) (Hhi : off + MAX_PAGES * Buddy.PAGE_SIZE < U64_LIM).

(** Contents of blocks that stay. *)
Definition keeps (bs : list block) (m m' : mem) : Prop :=
  forall b a, b ∈ bs -> in_block b a -> m' !! a = m !! a.
Lemma keeps_trans bs m1 m2 m3 : keeps bs m1 m2 -> keeps bs m2 m3 -> keeps bs m1 m3.
Proof. intros Hk1 Hk2 b a Hb Ha. by rewrite (Hk2 b a), (Hk1 b a). Qed.
Lemma keeps_mono bs bs' m m' : bs ⊆ bs' -> keeps bs' m m' -> keeps bs m m'.
Proof. intros Hs Hk b a Hb. by apply Hk, Hs. Qed.

(** Pages are left while the blocks and frames in use are fewer. *)
Definition room (x : hsys) (n : nat) : Prop :=
  (length (hs_live x) + length (hs_frames x) + n <= length (hs_fed x))%nat.

Lemma alloc_step x layout :
  hreach off m0 x -> 0 < lsize layout <= 4096 -> room x 1 ->
  exists ptr h m, heap_alloc layout (hs_heap x, hs_mem x) = Ret (ptr, (h, m)) /\ (ptr =? 0) = false /\
    hreach off m0 (mkHsys h m ((ptr, layout) :: hs_live x) (hs_frames x) (hs_fed x)) /\
    keeps (hs_live x) (hs_mem x) m.
Proof.
  intros Hr Hs Hroom. destruct (heap_room off m0 x layout Hlo Hal Hhi Hr Hs) as (ptr & h & m & S & E & Hp & _ & Hk);
    [unfold room in Hroom; lia|].
  exists ptr, h, m. assert ((ptr =? 0) = false) as Hz by (apply Z.eqb_neq; lia). split_and!; [done|done| |exact Hk].
  eapply hreach_step; [exact Hr|]. destruct x as [h0 mx live frames fed].
  pose proof (h_alloc off h0 mx live frames fed layout ptr h m) as Hst. rewrite Hz in Hst. apply Hst; [lia|done].
Qed.

Lemma dealloc_step x ptr layout live' :
  hreach off m0 x -> hs_live x ≡ₚ (ptr, layout) :: live' ->
  exists h m, heap_dealloc ptr layout (hs_heap x, hs_mem x) = Ret ((), (h, m)) /\
    hreach off m0 (mkHsys h m live' (hs_frames x) (hs_fed x)) /\ keeps live' (hs_mem x) m.
Proof.
  intros Hr Hl. destruct (hreach_inv off m0 x Hlo Hal Hhi Hr) as [S Hinv].
  destruct (heap_dealloc_ok _ _ _ _ _ _ _ _ _ _ Hinv Hl) as (h & m & S' & E & _ & Hk).
  exists h, m. split_and!; [done| |exact Hk]. eapply hreach_step; [exact Hr|].
  destruct x. by eapply h_dealloc.
Qed.

Lemma write_step x b a v :
  hreach off m0 x -> b ∈ hs_live x -> in_block b a ->
  hreach off m0 (mkHsys (hs_heap x) (<[a := v]> (hs_mem x)) (hs_live x) (hs_frames x) (hs_fed x)).
Proof. intros Hr Hb Ha. eapply hreach_step; [exact Hr|]. destruct x. apply h_write. left. by exists b. Qed.

Lemma copy_step x b src dst n :
  hreach off m0 x -> b ∈ hs_live x -> (forall k, 0 <= k < Z.of_nat n -> in_block b (dst + k)) ->
  hreach off m0 (mkHsys (hs_heap x) (copy_bytes src dst n (hs_mem x)) (hs_live x) (hs_frames x) (hs_fed x)).
Proof.
  intros Hr Hb. induction n as [|n IH]; intros Hin; [by destruct x|]. cbn [copy_bytes].
  assert (forall k, 0 <= k < Z.of_nat n -> in_block b (dst + k)) as Hin' by (intros k Hk; apply Hin; lia).
  specialize (IH Hin'). destruct (hs_mem x !! (src + Z.of_nat n)); [|exact IH].
  apply (write_step (mkHsys _ _ _ _ _) b _ z IH Hb). apply Hin. lia.
Qed.

(** Blocks in use: apart, aligned, inside the address space. *)
Lemma live_apart x b bs a : hreach off m0 x -> hs_live x ≡ₚ b :: bs -> in_block b a ->
  forall b', b' ∈ bs -> ~ in_block b' a.
Proof.
  intros Hr Hl Ha b' Hb' Ha'. destruct (hreach_inv off m0 x Hlo Hal Hhi Hr) as [S Hinv].
  pose proof (live_nodup _ _ _ _ _ _ _ Hinv) as Hnd. rewrite Hl, fmap_cons in Hnd. apply NoDup_cons in Hnd as [Hnd _].
  apply Hnd, list_elem_of_fmap. exists b'. split; [|done].
  apply (live_disjoint _ _ _ _ _ _ _ b b' a Hinv); [rewrite Hl; left|rewrite Hl; by right|done|done].
Qed.
Lemma live_block_ok x b : hreach off m0 x -> b ∈ hs_live x ->
  0 < b.1 /\ b.1 + lsize b.2 < U64_LIM /\ b.1 mod 16 = 0 /\ 0 < lsize b.2 <= 4096.
Proof.
  intros Hr Hb. destruct (hreach_inv off m0 x Hlo Hal Hhi Hr) as [S Hinv].
  destruct (live_block_aligned _ _ _ _ _ _ _ _ Hinv Hb) as (Hp & He & k & Hk & Hd & _).
  split_and!; [done|done| |by eapply hr_sizes|by eapply hr_sizes]. apply Z.mod_divide; [done|].
  eapply Z.divide_trans; [|exact Hd]. exists (2 ^ (k - 4)). change 16 with (2 ^ 4). rewrite <- Z.pow_add_r by lia. f_equal. lia.
Qed.

Lemma keeps_insert x b bs a v : hreach off m0 x -> hs_live x ≡ₚ b :: bs -> in_block b a ->
  keeps bs (hs_mem x) (<[a := v]> (hs_mem x)).
Proof.
  intros Hr Hl Ha b' a' Hb' Ha'. apply lookup_insert_ne. intros <-. by apply (live_apart x b bs a Hr Hl Ha b' Hb').
Qed.

Lemma run_store_i32 a v h m : i32_ptr a -> store_i32 a v (h, m) = Ret ((), (h, <[a := v]> m)).
Proof. intros Ha. unfold store_i32. by rewrite decide_True. Qed.
Lemma i32_in_block x b k : hreach off m0 x -> b ∈ hs_live x -> 0 <= k -> I32_SIZE * k + 4 <= lsize b.2 ->
  i32_ptr (b.1 + I32_SIZE * k) /\ in_block b (b.1 + I32_SIZE * k).
Proof.
  unfold I32_SIZE. intros Hr Hb Hk Hle. destruct (live_block_ok x b Hr Hb) as (Hp & He & Hm & _).
  unfold i32_ptr, in_block. split; [|lia]. split; [lia|].
  rewrite Z.mul_comm, Z.mod_add by done. rewrite <- (Z.mod_mod_divide b.1 16 4) by (by exists 4).
  by rewrite Hm.
Qed.
End steps.
