(* ===== verification/CollectionsTheorems.v ===== *)
(** * What boxes, vectors and shared pointers do on the kernel heap

    A vector on a reachable heap refines a list of integers, a shared pointer
    counts its owners; both leave every other block of the heap alone. *)
From S2P Require Import Prelude Machine X86Api Buddy BuddySpec BuddySystem Slub SlubRep GlobalAlloc PageProvider.
From S2P Require Import HeapRep HeapProofs HeapSystem HeapTheorems Collections.

(** ** Vectors *)

(** A vector holds a list. *)
Record vec_rep (v : RVec) (l : list Z) (m : mem) : Prop := {
  vr_len : vlen v = Z.of_nat (length l);
  vr_cap : vlen v <= vcap v;
  vr_cells i z : l !! i = Some z -> m !! (vptr v + I32_SIZE * Z.of_nat i) = Some z;
}.
Definition vec_blocks (v : RVec) : list block :=
  if vcap v =? 0 then [] else [(vptr v, array_layout (vcap v))].

(** The capacity when the vector has to grow. *)
Definition grown (cap : Z) : Z := Z.max 4 (Z.max (cap * 2) (cap + 1)).

Section proofs.
Context {ck : OverflowChecks} `{SlabLayoutLaws} `{PhysFrameLaws} (off : Z) (m0 : mem).
Context (Hlo : 0 <= off) (Hal : (4096 | off)) (Hhi : off + MAX_PAGES * Buddy.PAGE_SIZE < U64_LIM).

(** A client that owns the blocks [mine] now owns [mine'] and left the other
    blocks alone. *)
Record client_step (x x' : hsys) (mine' others : list block) : Prop := {
  cl_reach : hreach off m0 x';
  cl_live : hs_live x' ≡ₚ mine' ++ others;
  cl_frames : hs_frames x' = hs_frames x;
  cl_fed : hs_fed x' = hs_fed x;
  cl_keeps : keeps others (hs_mem x) (hs_mem x');
}.

Lemma client_step_trans x x1 x2 mine1 mine2 others :
  client_step x x1 mine1 others -> client_step x1 x2 mine2 others -> client_step x x2 mine2 others.
Proof.
  intros [_ _ Hf1 Hd1 Hk1] [Hr2 Hl2 Hf2 Hd2 Hk2]. constructor; [done|done|congruence|congruence|by eapply keeps_trans].
Qed.

(** Some of the others' blocks are one's own. *)
Lemma client_step_focus x x' mine o others :
  client_step x x' mine (o ++ others) -> client_step x x' (mine ++ o) others.
Proof.
  intros [Hr Hl Hf Hd Hk]. constructor; [done|by rewrite <- app_assoc|done|done|].
  eapply keeps_mono; [|exact Hk]. set_solver.
Qed.

(** [realloc] moves a block and its contents. *)
Lemma realloc_run x ptr layout new_size others :
  hreach off m0 x -> hs_live x ≡ₚ (ptr, layout) :: others -> room x 1 -> lsize layout <= new_size <= 4096 ->
  exists p x', realloc ptr layout new_size (hs_heap x, hs_mem x) = Ret (p, (hs_heap x', hs_mem x')) /\ (p =? 0) = false /\
    client_step x x' [(p, mkLayout new_size (lalign layout))] others /\
    (forall k z, 0 <= k < lsize layout -> hs_mem x !! (ptr + k) = Some z -> hs_mem x' !! (p + k) = Some z).
Proof.
  intros Hr Hl Hroom Hsz. destruct (live_block_ok off m0 Hlo Hal Hhi x (ptr, layout) Hr) as (_ & _ & _ & Hpos);
    [rewrite Hl; left|]. cbn [fst snd] in Hpos.
  set (nl := mkLayout new_size (lalign layout)).
  destruct (alloc_step off m0 Hlo Hal Hhi x nl Hr ltac:(cbn; lia) Hroom) as (p & h1 & m1 & E1 & Hp & Hr1 & Hk1).
  set (n := Z.to_nat (Z.min (lsize layout) new_size)). set (m2 := copy_bytes ptr p n m1).
  assert (hreach off m0 (mkHsys h1 m2 ((p, nl) :: hs_live x) (hs_frames x) (hs_fed x))) as Hr2.
  { apply (copy_step off m0 _ (p, nl) ptr p n Hr1); [left|]. intros k Hk. unfold in_block. cbn. lia. }
  assert ((p, nl) :: hs_live x ≡ₚ (ptr, layout) :: (p, nl) :: others) as Hl2 by (rewrite Hl; constructor).
  destruct (dealloc_step off m0 Hlo Hal Hhi _ ptr layout ((p, nl) :: others) Hr2 Hl2) as (h3 & m3 & E3 & Hr3 & Hk3).
  exists p, (mkHsys h3 m3 ((p, nl) :: others) (hs_frames x) (hs_fed x)). cbn [hs_heap hs_mem hs_live hs_frames hs_fed] in *.
  split_and!; [|done| |].
  - unfold realloc. fold nl. run E1. rewrite Hp. fold n. unfold mbind at 1, M_bind at 1. fold m2. by run E3.
  - constructor; cbn; try done. apply keeps_trans with m1; [eapply keeps_mono; [|exact Hk1]; rewrite Hl; set_solver|].
    apply keeps_trans with m2; [|eapply keeps_mono; [|exact Hk3]; set_solver].
    intros b a Hb Ha. apply copy_bytes_lookup. intros k Hk ->.
    assert (hs_live (mkHsys h1 m1 ((p, nl) :: hs_live x) (hs_frames x) (hs_fed x)) ≡ₚ (p, nl) :: hs_live x) as Hl1 by done.
    apply (live_apart off m0 Hlo Hal Hhi _ _ _ (p + k) Hr1 Hl1) with b; [unfold in_block; cbn; lia|rewrite Hl; by right|done].
  - intros k z Hk Hz. assert (in_block (p, nl) (p + k)) as Hin by (unfold in_block; cbn; lia).
    rewrite (Hk3 (p, nl) _ ltac:(left) Hin). apply copy_bytes_copied; [lia|].
    rewrite (Hk1 (ptr, layout) (ptr + k)); [done|rewrite Hl; left|unfold in_block; cbn; lia].
Qed.

Lemma vec_blocks_cons v : 0 < vcap v -> vec_blocks v = [(vptr v, array_layout (vcap v))].
Proof. intros Hc. unfold vec_blocks. by rewrite (proj2 (Z.eqb_neq _ 0)) by lia. Qed.

(** The capacity of a vector on the heap. *)
Lemma vec_cap_bound x v l others :
  hreach off m0 x -> hs_live x ≡ₚ vec_blocks v ++ others -> vec_rep v l (hs_mem x) ->
  vcap v = 0 \/ 0 < vcap v <= 1024.
Proof.
  intros Hr Hl [Hlen Hcap _]. destruct (decide (vcap v = 0)) as [?|Hne]; [by left|right].
  rewrite vec_blocks_cons in Hl by lia. destruct (live_block_ok off m0 Hlo Hal Hhi x (vptr v, array_layout (vcap v)) Hr)
    as (_ & _ & _ & Hs); [rewrite Hl; left|]. cbn in Hs. unfold I32_SIZE in Hs. lia.
Qed.

Lemma grow_one_run x v l others :
  hreach off m0 x -> hs_live x ≡ₚ vec_blocks v ++ others -> vec_rep v l (hs_mem x) -> vlen v = vcap v ->
  vcap v <= 512 -> room x 1 ->
  exists v' x', grow_one v (hs_heap x, hs_mem x) = Ret (v', (hs_heap x', hs_mem x')) /\
    client_step x x' (vec_blocks v') others /\ vec_rep v' l (hs_mem x') /\
    vlen v' = vlen v /\ vcap v' = grown (vcap v).
Proof.
  intros Hr Hl Hv Hfull Hcap Hroom. pose proof (vec_cap_bound x v l others Hr Hl Hv) as Hb. destruct Hv as [Hlen Hle Hcells].
  assert (4 <= grown (vcap v) <= 1024 /\ vcap v < grown (vcap v)) as Hg by (unfold grown; lia).
  unfold grow_one. fold (grown (vcap v)). rewrite (proj2 (Z.ltb_ge ISIZE_MAX _)) by (unfold ISIZE_MAX, I32_SIZE; lia).
  destruct (decide (vcap v = 0)) as [Hz|Hne].
  - rewrite (proj2 (Z.eqb_eq _ 0) Hz). assert (l = []) as -> by (destruct l; [done|cbn in Hlen; lia]).
    unfold vec_blocks in Hl. rewrite (proj2 (Z.eqb_eq _ 0) Hz) in Hl.
    destruct (alloc_step off m0 Hlo Hal Hhi x (array_layout (grown (vcap v))) Hr) as (p & h & m & E & Hp & Hr' & Hk);
      [cbn; unfold I32_SIZE; lia|done|].
    eexists (mkVec p (grown (vcap v)) (vlen v)), (mkHsys h m _ _ _). run E. rewrite Hp. split_and!; [done| | |done|done].
    + rewrite vec_blocks_cons by (cbn; lia). constructor; cbn; try done; [by rewrite Hl|].
      eapply keeps_mono; [|exact Hk]. rewrite Hl. done.
    + constructor; cbn; [done|lia|done].
  - rewrite (proj2 (Z.eqb_neq _ 0)) by lia. rewrite vec_blocks_cons in Hl by lia.
    destruct (realloc_run x (vptr v) (array_layout (vcap v)) (I32_SIZE * grown (vcap v)) others Hr Hl Hroom)
      as (p & x' & E & Hp & Hst & Hcp); [cbn; unfold I32_SIZE; lia|].
    exists (mkVec p (grown (vcap v)) (vlen v)), x'. run E. rewrite Hp. split_and!; [done| | |done|done].
    + rewrite vec_blocks_cons by (cbn; lia). exact Hst.
    + constructor; cbn; [done|lia|]. intros i z Hi. apply Hcp; [|by apply Hcells].
      apply lookup_lt_Some in Hi. cbn; unfold I32_SIZE; lia.
Qed.

(** A write into the spare capacity. *)
Lemma push_in_place x v l others z :
  hreach off m0 x -> hs_live x ≡ₚ vec_blocks v ++ others -> vec_rep v l (hs_mem x) -> vlen v < vcap v ->
  exists x', store_i32 (vptr v + I32_SIZE * vlen v) z (hs_heap x, hs_mem x) = Ret ((), (hs_heap x', hs_mem x')) /\
    client_step x x' (vec_blocks v) others /\ vec_rep (mkVec (vptr v) (vcap v) (vlen v + 1)) (l ++ [z]) (hs_mem x').
Proof.
  intros Hr Hl [Hlen Hle Hcells] Hlt. rewrite vec_blocks_cons in Hl |- * by lia. set (b := (vptr v, array_layout (vcap v))) in *.
  assert (b ∈ hs_live x) as Hb by (rewrite Hl; left).
  destruct (i32_in_block off m0 Hlo Hal Hhi x b (vlen v) Hr Hb) as [Hptr Hin]; [lia|cbn; unfold I32_SIZE; lia|].
  cbn [fst b] in Hptr, Hin. exists (mkHsys (hs_heap x) (<[vptr v + I32_SIZE * vlen v := z]> (hs_mem x)) (hs_live x) (hs_frames x) (hs_fed x)).
  split; [by apply run_store_i32|]. split.
  - constructor; cbn; [by apply (write_step off m0 x b)|done|done|done|by eapply keeps_insert].
  - constructor; cbn; [rewrite length_app; cbn; lia|lia|]. intros i z' [Hi|[Hi Hz]]%lookup_app_Some.
    + rewrite lookup_insert_ne; [by apply Hcells|]. apply lookup_lt_Some in Hi. unfold I32_SIZE. lia.
    + apply list_lookup_singleton_Some in Hz as [Hi0 <-]. replace (Z.of_nat i) with (vlen v) by lia. apply lookup_insert_eq.
Qed.

Lemma push_run x v l others z :
  hreach off m0 x -> hs_live x ≡ₚ vec_blocks v ++ others -> vec_rep v l (hs_mem x) -> room x 1 ->
  vlen v < vcap v \/ vcap v <= 512 ->
  exists v' x', push z v (hs_heap x, hs_mem x) = Ret (v', (hs_heap x', hs_mem x')) /\
    client_step x x' (vec_blocks v') others /\ vec_rep v' (l ++ [z]) (hs_mem x') /\
    vcap v' = if decide (vlen v < vcap v) then vcap v else grown (vcap v).
Proof.
  intros Hr Hl Hv Hroom Hc. pose proof (vec_cap_bound x v l others Hr Hl Hv) as Hb.
  destruct (decide (vlen v < vcap v)) as [Hlt|Hfull].
  { unfold push. rewrite (proj2 (Z.eqb_neq (vlen v) _)) by lia. run (run_ret v (hs_heap x, hs_mem x)).
    destruct (push_in_place x v l others z Hr Hl Hv Hlt) as (x' & E & Hst & Hv'). run E.
    by exists (mkVec (vptr v) (vcap v) (vlen v + 1)), x'. }
  assert (vlen v = vcap v) as Heq by (destruct Hv; lia).
  destruct (grow_one_run x v l others Hr Hl Hv Heq ltac:(lia) Hroom) as (v1 & x1 & E1 & Hst1 & Hv1 & Hlen1 & Hcap1).
  pose proof Hst1 as [Hr1 Hl1 _ _ _].
  destruct (push_in_place x1 v1 l others z Hr1 Hl1 Hv1) as (x' & E & Hst & Hv');
    [rewrite Hlen1, Hcap1; unfold grown; lia|].
  exists (mkVec (vptr v1) (vcap v1) (vlen v1 + 1)), x'. unfold push. rewrite Heq, Z.eqb_refl. run E1. run E.
  split_and!; [done|by eapply client_step_trans|done|done].
Qed.

(** C20: a vector refines a list.  On a reachable heap with a page to spare, a
    [push] to a vector that holds [l] returns a vector that holds [l] with the
    value at the end, whether it fits or the vector has to move; afterwards the
    heap is reachable, the vector owns exactly its new block (the old one is
    freed), and all other blocks keep their contents.  The capacity doubles from
    4.  As the heap serves blocks of at most a page, a full vector of more than 512
    elements cannot grow and the push panics. *)
Theorem push_refines_append x v l others z :
  hreach off m0 x -> hs_live x ≡ₚ vec_blocks v ++ others -> vec_rep v l (hs_mem x) -> room x 1 ->
  if decide (vlen v < vcap v \/ vcap v <= 512) then
    exists v' x', push z v (hs_heap x, hs_mem x) = Ret (v', (hs_heap x', hs_mem x')) /\
      client_step x x' (vec_blocks v') others /\ vec_rep v' (l ++ [z]) (hs_mem x') /\
      vcap v' = if decide (vlen v < vcap v) then vcap v else grown (vcap v)
  else push z v (hs_heap x, hs_mem x) = Panic.
Proof.
  intros Hr Hl Hv Hroom. case_decide as Hc; [exact (push_run x v l others z Hr Hl Hv Hroom Hc)|].
  pose proof (vec_cap_bound x v l others Hr Hl Hv) as Hb.
  unfold push. rewrite (proj2 (Z.eqb_eq (vlen v) _)) by (destruct Hv; lia). apply run_bind_panic.
  unfold grow_one. fold (grown (vcap v)).
  rewrite (proj2 (Z.ltb_ge ISIZE_MAX _)) by (unfold ISIZE_MAX, I32_SIZE, grown; lia).
  rewrite (proj2 (Z.eqb_neq (vcap v) 0)) by lia.
  assert (realloc (vptr v) (array_layout (vcap v)) (I32_SIZE * grown (vcap v)) (hs_heap x, hs_mem x) =
    Ret (0, (hs_heap x, hs_mem x))) as E; [|by run E].
  unfold realloc. assert (4096 < lsize (mkLayout (I32_SIZE * grown (vcap v)) 4)) as Hbig by (cbn; unfold I32_SIZE, grown; lia).
  by run (heap_alloc_too_large _ (hs_heap x, hs_mem x) Hbig).
Qed.

(** The capacity of a vector that grew by pushes. *)
Definition cap_for (n : Z) : Z := if n =? 0 then 0 else Z.max 4 (2 ^ Z.log2_up n).
Lemma cap_for_next n : 0 <= n ->
  cap_for (n + 1) = if decide (n < cap_for n) then cap_for n else grown (cap_for n).
Proof.
  intros Hn. unfold cap_for, grown. rewrite (proj2 (Z.eqb_neq (n + 1) 0)) by lia.
  destruct (Z.eqb_spec n 0) as [->|Hne]; [done|]. destruct (decide (n < 4)) as [Hs|Hs].
  { assert (n = 1 \/ n = 2 \/ n = 3) as [->|[->| ->]] by lia; done. }
  pose proof (Z.log2_up_spec n ltac:(lia)) as [Hlow Hup]. set (k := Z.log2_up n) in *.
  assert (2 <= k) as Hk by (apply (Z.log2_up_le_mono 4 n); lia).
  assert (2 ^ 2 <= 2 ^ k) by (apply Z.pow_le_mono_r; lia).
  destruct (decide (n = 2 ^ k)) as [E|E].
  - rewrite decide_False by lia. replace (n + 1) with (Z.succ (2 ^ k)) by lia. rewrite Z.log2_up_succ_pow2 by lia.
    rewrite Z.pow_succ_r by lia. lia.
  - rewrite decide_True by lia. by rewrite (Z.log2_up_unique (n + 1) k) by lia.
Qed.

Lemma client_room x x' mine others n :
  client_step x x' mine others ->
  (length mine + length others + length (hs_frames x) + n <= length (hs_fed x))%nat -> room x' n.
Proof. intros [_ Hl Hf Hd _] Hn. unfold room. rewrite Hf, Hd, (Permutation_length Hl), length_app. lia. Qed.
Lemma vec_blocks_length v : (length (vec_blocks v) <= 1)%nat.
Proof. unfold vec_blocks. destruct (vcap v =? 0); cbn; lia. Qed.

(** A loop of pushes. *)
Lemma push_range_run n : forall x v l lo others,
  hreach off m0 x -> hs_live x ≡ₚ vec_blocks v ++ others -> vec_rep v l (hs_mem x) ->
  vcap v = cap_for (vlen v) -> vlen v + Z.of_nat n <= 513 ->
  (length others + length (hs_frames x) + 2 <= length (hs_fed x))%nat ->
  exists v' x', push_range lo n v (hs_heap x, hs_mem x) = Ret (v', (hs_heap x', hs_mem x')) /\
    client_step x x' (vec_blocks v') others /\ vec_rep v' (l ++ seqZ lo (Z.of_nat n)) (hs_mem x') /\
    vcap v' = cap_for (vlen v').
Proof.
  induction n as [|n IH]; intros x v l lo others Hr Hl Hv Hcap Hn Hroom.
  { exists v, x. split_and!; [done|by constructor|by rewrite app_nil_r|done]. }
  pose proof (vec_blocks_length v) as Hvb. cbn [push_range].
  assert (client_step x x (vec_blocks v) others) as Hrefl by (by constructor).
  destruct (push_run x v l others lo Hr Hl Hv) as (v1 & x1 & E1 & Hst1 & Hv1 & Hcap1);
    [eapply client_room; [exact Hrefl|lia]|destruct Hv; lia|].
  pose proof Hst1 as [Hr1 Hl1 Hf1 Hd1 _].
  assert (vlen v1 = vlen v + 1) as Hlen1 by (destruct Hv, Hv1 as [-> _ _]; rewrite length_app; cbn; lia).
  destruct (IH x1 v1 (l ++ [lo]) (lo + 1) others Hr1 Hl1 Hv1) as (v' & x' & E & Hst & Hv' & Hcap').
  { rewrite Hlen1, cap_for_next by (destruct Hv; lia). by rewrite Hcap1, Hcap. }
  { lia. }
  { by rewrite Hf1, Hd1. }
  exists v', x'. run E1. split_and!; [done|by eapply client_step_trans| |done].
  rewrite Nat2Z.inj_succ, seqZ_cons, Z.pred_succ by lia. rewrite <- app_assoc in Hv'. exact Hv'.
Qed.

(** ** Boxes and arrays *)

Lemma alloc_client x layout :
  hreach off m0 x -> 0 < lsize layout <= 4096 -> room x 1 ->
  exists p x', heap_alloc layout (hs_heap x, hs_mem x) = Ret (p, (hs_heap x', hs_mem x')) /\ (p =? 0) = false /\
    client_step x x' [(p, layout)] (hs_live x).
Proof.
  intros Hr Hs Hroom. destruct (alloc_step off m0 Hlo Hal Hhi x layout Hr Hs Hroom) as (p & h & m & E & Hp & Hr' & Hk).
  by exists p, (mkHsys h m ((p, layout) :: hs_live x) (hs_frames x) (hs_fed x)).
Qed.

Lemma Box_new_run x v :
  hreach off m0 x -> room x 1 ->
  exists p x', Box_new v (hs_heap x, hs_mem x) = Ret (p, (hs_heap x', hs_mem x')) /\
    client_step x x' [(p, mkLayout I32_SIZE 4)] (hs_live x) /\ hs_mem x' !! p = Some v.
Proof.
  intros Hr Hroom. destruct (alloc_client x (mkLayout I32_SIZE 4) Hr ltac:(cbn; unfold I32_SIZE; lia) Hroom)
    as (p & x1 & E & Hp & Hst). pose proof Hst as [Hr1 Hl1 _ _ _].
  assert (vec_rep (mkVec p 1 0) [] (hs_mem x1)) as Hv by (by constructor).
  destruct (push_in_place x1 (mkVec p 1 0) [] (hs_live x) v Hr1 Hl1 Hv eq_refl) as (x' & E' & Hst' & [_ _ Hc]).
  cbn [vptr vlen] in E'. unfold I32_SIZE at 1 in E'. rewrite Z.mul_0_r, Z.add_0_r in E'.
  exists p, x'. unfold Box_new. run E. rewrite Hp. run E'. split_and!; [done|by eapply client_step_trans|].
  specialize (Hc 0%nat v eq_refl). cbn in Hc. by rewrite Z.mul_0_r, Z.add_0_r in Hc.
Qed.

Lemma store_all_run l : forall x v l0 others,
  hreach off m0 x -> hs_live x ≡ₚ vec_blocks v ++ others -> vec_rep v l0 (hs_mem x) ->
  vlen v + Z.of_nat (length l) <= vcap v ->
  exists x', store_all (vptr v + I32_SIZE * vlen v) l (hs_heap x, hs_mem x) = Ret ((), (hs_heap x', hs_mem x')) /\
    client_step x x' (vec_blocks v) others /\
    vec_rep (mkVec (vptr v) (vcap v) (vlen v + Z.of_nat (length l))) (l0 ++ l) (hs_mem x').
Proof.
  induction l as [|z l IH]; intros x v l0 others Hr Hl Hv Hn.
  { exists x. split_and!; [done|by constructor|]. rewrite app_nil_r, Z.add_0_r. by destruct v. }
  cbn [length] in Hn. destruct (push_in_place x v l0 others z Hr Hl Hv) as (x1 & E1 & Hst1 & Hv1); [lia|].
  pose proof Hst1 as [Hr1 Hl1 _ _ _].
  destruct (IH x1 (mkVec (vptr v) (vcap v) (vlen v + 1)) (l0 ++ [z]) others Hr1 Hl1 Hv1) as (x' & E & Hst & Hv'); [cbn; lia|].
  exists x'. cbn [store_all]. run E1. cbn [vptr vlen vcap] in E, Hv'.
  replace (vptr v + I32_SIZE * vlen v + I32_SIZE) with (vptr v + I32_SIZE * (vlen v + 1)) by (unfold I32_SIZE; lia).
  split_and!; [done|..].
  - by eapply client_step_trans.
  - rewrite <- app_assoc in Hv'. cbn [length app] in *.
    by replace (vlen v + Z.of_nat (S (length l))) with (vlen v + 1 + Z.of_nat (length l)) by lia.
Qed.

Lemma vec_macro_run x l :
  hreach off m0 x -> (0 < length l <= 1024)%nat -> room x 1 ->
  exists v x', vec_macro l (hs_heap x, hs_mem x) = Ret (v, (hs_heap x', hs_mem x')) /\
    client_step x x' (vec_blocks v) (hs_live x) /\ vec_rep v l (hs_mem x') /\ vcap v = Z.of_nat (length l).
Proof.
  intros Hr Hn Hroom. set (n := Z.of_nat (length l)).
  destruct (alloc_client x (array_layout n) Hr ltac:(cbn; unfold I32_SIZE; lia) Hroom) as (p & x1 & E & Hp & Hst).
  pose proof Hst as [Hr1 Hl1 _ _ _]. assert (vec_rep (mkVec p n 0) [] (hs_mem x1)) as Hv by (constructor; cbn; done || lia).
  destruct (store_all_run l x1 (mkVec p n 0) [] (hs_live x)) as (x' & E' & Hst' & Hv'); [done| |done|cbn; lia|].
  { rewrite vec_blocks_cons by (cbn; lia). exact Hl1. }
  exists (mkVec p n n), x'. unfold vec_macro. fold n. run E. rewrite Hp.
  cbn [vptr vlen vcap] in E', Hv'. rewrite Z.mul_0_r, Z.add_0_r in E'. run E'.
  split_and!; [done| |exact Hv'|done]. by eapply client_step_trans.
Qed.

(** ** Shared pointers *)

Context `{VecFieldsLaws}.

Record rc_rep (p n : Z) (v : RVec) (m : mem) : Prop := {
  rc_strong : m !! p = Some n;
  rc_weak : m !! (p + 8) = Some 1;
  rc_cap : m !! (p + (16 + cap_at)) = Some (vcap v);
  rc_ptr : m !! (p + (16 + ptr_at)) = Some (vptr v);
  rc_len : m !! (p + (16 + len_at)) = Some (vlen v);
}.

(** A word written into a block of one's own. *)
Definition upd (x : hsys) (a v : Z) : hsys := mkHsys (hs_heap x) (<[a := v]> (hs_mem x)) (hs_live x) (hs_frames x) (hs_fed x).
Lemma store_client x p others k v :
  hreach off m0 x -> hs_live x ≡ₚ (p, rc_layout) :: others -> k ∈ [0; 8; 16; 24; 32] ->
  valid_ptr (p + k) /\ client_step x (upd x (p + k) v) [(p, rc_layout)] others.
Proof.
  intros Hr Hl Hk. assert ((p, rc_layout) ∈ hs_live x) as Hb by (rewrite Hl; left).
  destruct (live_block_ok off m0 Hlo Hal Hhi x _ Hr Hb) as (Hp & He & Hm & _). cbn [fst snd lsize rc_layout] in *.
  assert (0 <= k <= 32 /\ (8 | k)) as [Hk1 Hk2].
  { repeat (apply elem_of_cons in Hk as [->|Hk]; [split; [lia|by apply Z.mod_divide]|]). by apply elem_of_nil in Hk. }
  assert (in_block (p, rc_layout) (p + k)) as Hin by (unfold in_block; cbn; lia). split.
  - split; [lia|]. apply Z.mod_divide; [done|]. apply Z.divide_add_r; [|done].
    apply Z.mod_divide in Hm; [|done]. eapply Z.divide_trans; [|exact Hm]. by exists 2.
  - constructor; cbn; [by apply (write_step off m0 x (p, rc_layout))|done|done|done|by eapply keeps_insert].
Qed.

Lemma vec_fields_cases :
  (forall k, k ∈ [cap_at; ptr_at; len_at] -> 16 + k ∈ [0; 8; 16; 24; 32]) /\
  cap_at <> ptr_at /\ cap_at <> len_at /\ ptr_at <> len_at /\ 0 <= cap_at /\ 0 <= ptr_at /\ 0 <= len_at.
Proof.
  pose proof vec_fields_ok as Hp.
  assert (forall k, k ∈ [cap_at; ptr_at; len_at] -> k = 0 \/ k = 8 \/ k = 16) as Hk.
  { intros k. rewrite Hp. rewrite !elem_of_cons, elem_of_nil. tauto. }
  assert (NoDup [cap_at; ptr_at; len_at]) as Hnd.
  { rewrite Hp. repeat constructor; rewrite ?elem_of_cons, elem_of_nil; lia. }
  repeat apply NoDup_cons in Hnd as [? Hnd]; rewrite !elem_of_cons in *.
  pose proof (Hk cap_at ltac:(set_solver)). pose proof (Hk ptr_at ltac:(set_solver)). pose proof (Hk len_at ltac:(set_solver)).
  split; [|naive_solver lia].
  intros k Hin. destruct (Hk k Hin) as [->|[->| ->]]; set_solver.
Qed.

Lemma rc_rep_strong p n n' v m : rc_rep p n v m -> rc_rep p n' v (<[p := n']> m).
Proof.
  pose proof vec_fields_cases as (_ & _ & _ & _ & ? & ? & ?).
  intros [_ ? ? ? ?]. constructor; rewrite ?lookup_insert_eq, ?lookup_insert_ne by lia; done.
Qed.

Lemma Rc_new_run x v :
  hreach off m0 x -> room x 1 ->
  exists p x', Rc_new v (hs_heap x, hs_mem x) = Ret (p, (hs_heap x', hs_mem x')) /\
    client_step x x' [(p, rc_layout)] (hs_live x) /\ rc_rep p 1 v (hs_mem x').
Proof.
  intros Hr Hroom. pose proof vec_fields_cases as (Hf & ? & ? & ? & ? & ? & ?).
  destruct (alloc_client x rc_layout Hr ltac:(cbn; lia) Hroom) as (p & x0 & E & Hp & Hst0).
  exists p. unfold Rc_new. run E. rewrite Hp. clear E.
  assert (forall y k w, client_step x y [(p, rc_layout)] (hs_live x) -> k ∈ [0; 8; 16; 24; 32] ->
    store (p + k) w (hs_heap y, hs_mem y) = Ret ((), (hs_heap (upd y (p + k) w), hs_mem (upd y (p + k) w))) /\
    client_step x (upd y (p + k) w) [(p, rc_layout)] (hs_live x)) as Hw.
  { intros y k w Hy Hk. destruct (store_client y p (hs_live x) k w) as [Hv Hst]; [by destruct Hy..|done|].
    split; [by apply run_store|by eapply client_step_trans]. }
  destruct (Hw x0 0 1 Hst0 ltac:(set_solver)) as [E1 Hst1]. rewrite Z.add_0_r in E1, Hst1. run E1.
  destruct (Hw _ 8 1 Hst1 ltac:(set_solver)) as [E2 Hst2]. run E2.
  destruct (Hw _ (16 + cap_at) (vcap v) Hst2 ltac:(set_solver)) as [E3 Hst3]. run E3.
  destruct (Hw _ (16 + ptr_at) (vptr v) Hst3 ltac:(set_solver)) as [E4 Hst4]. run E4.
  destruct (Hw _ (16 + len_at) (vlen v) Hst4 ltac:(set_solver)) as [E5 Hst5]. run E5.
  eexists. split; [reflexivity|]. split; [exact Hst5|]. cbn [upd hs_mem].
  constructor; rewrite ?lookup_insert_ne, ?lookup_insert_eq by lia; done.
Qed.

(** The counter can be read and written. *)
Lemma strong_count_run x p n v others :
  hreach off m0 x -> hs_live x ≡ₚ (p, rc_layout) :: others -> rc_rep p n v (hs_mem x) ->
  load p (hs_heap x, hs_mem x) = Ret (n, (hs_heap x, hs_mem x)) /\
  forall n', store p n' (hs_heap x, hs_mem x) = Ret ((), (hs_heap (upd x p n'), hs_mem (upd x p n'))) /\
    client_step x (upd x p n') [(p, rc_layout)] others /\ rc_rep p n' v (hs_mem (upd x p n')).
Proof.
  intros Hr Hl Hrc. assert (0 ∈ [0; 8; 16; 24; 32]) as Hin by set_solver.
  assert (valid_ptr p) as Hp.
  { destruct (store_client x p others 0 0 Hr Hl Hin) as [Hv _]. by rewrite Z.add_0_r in Hv. }
  split; [rewrite run_load by done; unfold rd; by rewrite (rc_strong _ _ _ _ Hrc)|]. intros n'.
  destruct (store_client x p others 0 n' Hr Hl Hin) as [_ Hst]. rewrite Z.add_0_r in Hst.
  split_and!; [by apply run_store|done|by eapply rc_rep_strong].
Qed.

Lemma Rc_clone_run x p n v others :
  hreach off m0 x -> hs_live x ≡ₚ (p, rc_layout) :: others -> rc_rep p n v (hs_mem x) -> 0 < n -> n + 1 < U64_LIM ->
  exists x', Rc_clone p (hs_heap x, hs_mem x) = Ret (p, (hs_heap x', hs_mem x')) /\
    client_step x x' [(p, rc_layout)] others /\ rc_rep p (n + 1) v (hs_mem x').
Proof.
  intros Hr Hl Hrc Hn Hmax. destruct (strong_count_run x p n v others Hr Hl Hrc) as [E1 Hw].
  destruct (Hw (n + 1)) as (E2 & Hst & Hrc'). exists (upd x p (n + 1)). unfold Rc_clone. run E1.
  rewrite (proj2 (Z.eqb_neq n 0)) by lia. cbv zeta. rewrite Z.mod_small by lia. run E2.
  by rewrite (proj2 (Z.eqb_neq (n + 1) 0)) by lia.
Qed.

(** Dropping one of several owners. *)
Lemma Rc_drop_shared x p n v others :
  hreach off m0 x -> hs_live x ≡ₚ (p, rc_layout) :: others -> rc_rep p n v (hs_mem x) -> 1 < n < U64_LIM ->
  exists x', Rc_drop p (hs_heap x, hs_mem x) = Ret ((), (hs_heap x', hs_mem x')) /\
    client_step x x' [(p, rc_layout)] others /\ rc_rep p (n - 1) v (hs_mem x').
Proof.
  intros Hr Hl Hrc Hn. destruct (strong_count_run x p n v others Hr Hl Hrc) as [E1 Hw].
  destruct (Hw (n - 1)) as (E2 & Hst & Hrc'). exists (upd x p (n - 1)). unfold Rc_drop. run E1.
  rewrite Z.mod_small by lia. run E2. pose proof Hst as [Hr' Hl' _ _ _].
  destruct (strong_count_run _ p _ v others Hr' Hl' Hrc') as [E3 _]. run E3.
  by rewrite (proj2 (Z.eqb_neq (n - 1) 0)) by lia.
Qed.

Lemma vec_drop_run x v others :
  hreach off m0 x -> hs_live x ≡ₚ vec_blocks v ++ others ->
  exists x', vec_drop v (hs_heap x, hs_mem x) = Ret ((), (hs_heap x', hs_mem x')) /\ client_step x x' [] others.
Proof.
  intros Hr Hl. unfold vec_drop, vec_blocks in *. destruct (vcap v =? 0); [exists x; split; [done|by constructor]|].
  destruct (dealloc_step off m0 Hlo Hal Hhi x _ _ _ Hr Hl) as (h & m & E & Hr' & Hk).
  by exists (mkHsys h m others (hs_frames x) (hs_fed x)).
Qed.

Lemma load_word x p others k w :
  hreach off m0 x -> hs_live x ≡ₚ (p, rc_layout) :: others -> k ∈ [0; 8; 16; 24; 32] -> hs_mem x !! (p + k) = Some w ->
  load (p + k) (hs_heap x, hs_mem x) = Ret (w, (hs_heap x, hs_mem x)).
Proof.
  intros Hr Hl Hk Hw. destruct (store_client x p others k 0 Hr Hl Hk) as [Hv _].
  rewrite run_load by done. unfold rd. by rewrite Hw.
Qed.

Lemma Rc_weak_drop_run x p others :
  hreach off m0 x -> hs_live x ≡ₚ (p, rc_layout) :: others -> hs_mem x !! (p + 8) = Some 1 ->
  exists x', Rc_weak_drop p (hs_heap x, hs_mem x) = Ret ((), (hs_heap x', hs_mem x')) /\ client_step x x' [] others.
Proof.
  intros Hr Hl Hw. assert (8 ∈ [0; 8; 16; 24; 32]) as Hin by set_solver.
  unfold Rc_weak_drop. run (load_word x p others 8 1 Hr Hl Hin Hw). change ((1 - 1) mod U64_LIM) with 0.
  destruct (store_client x p others 8 0 Hr Hl Hin) as [Hv Hst]. pose proof Hst as [Hr1 Hl1 _ _ _]. cbn [app] in Hl1.
  run (run_store (p + 8) 0 (hs_heap x) (hs_mem x) Hv).
  change (<[p + 8 := 0]> (hs_mem x)) with (hs_mem (upd x (p + 8) 0)).
  change (hs_heap x, hs_mem (upd x (p + 8) 0)) with (hs_heap (upd x (p + 8) 0), hs_mem (upd x (p + 8) 0)).
  run (load_word _ p others 8 0 Hr1 Hl1 Hin (lookup_insert_eq _ _ _)). rewrite Z.eqb_refl.
  destruct (dealloc_step off m0 Hlo Hal Hhi _ _ _ _ Hr1 Hl1) as (h & m & E & Hr' & Hk).
  exists (mkHsys h m others (hs_frames x) (hs_fed x)). split; [exact E|].
  eapply client_step_trans; [exact Hst|]. by constructor.
Qed.

(** The last owner frees the counters and the vector. *)
Lemma Rc_drop_last x p v others :
  hreach off m0 x -> hs_live x ≡ₚ (p, rc_layout) :: vec_blocks v ++ others -> rc_rep p 1 v (hs_mem x) ->
  exists x', Rc_drop p (hs_heap x, hs_mem x) = Ret ((), (hs_heap x', hs_mem x')) /\ client_step x x' [] others.
Proof.
  intros Hr Hl Hrc. pose proof vec_fields_cases as (Hf & _).
  destruct (strong_count_run x p 1 v _ Hr Hl Hrc) as [E1 Hw]. destruct (Hw 0) as (E2 & Hst & Hrc'). clear Hw.
  unfold Rc_drop. run E1. change ((1 - 1) mod U64_LIM) with 0. run E2.
  revert Hst Hrc'. generalize (upd x p 0). intros y Hst Hrc'. pose proof Hst as [Hr1 Hl1 _ _ _]. cbn [app] in Hl1.
  destruct (strong_count_run y p 0 v _ Hr1 Hl1 Hrc') as [E3 _]. run E3. rewrite Z.eqb_refl. unfold Rc_drop_slow.
  run (load_word y p _ _ _ Hr1 Hl1 (Hf cap_at ltac:(set_solver)) (rc_cap _ _ _ _ Hrc')).
  run (load_word y p _ _ _ Hr1 Hl1 (Hf ptr_at ltac:(set_solver)) (rc_ptr _ _ _ _ Hrc')).
  run (load_word y p _ _ _ Hr1 Hl1 (Hf len_at ltac:(set_solver)) (rc_len _ _ _ _ Hrc')).
  replace (mkVec (vptr v) (vcap v) (vlen v)) with v by (by destruct v).
  assert (hs_live y ≡ₚ vec_blocks v ++ (p, rc_layout) :: others) as Hl2 by (rewrite Hl1; by rewrite Permutation_middle).
  destruct (vec_drop_run y v _ Hr1 Hl2) as (z & E4 & Hst4). run E4. pose proof Hst4 as [Hr4 Hl4 _ _ Hk4]. cbn [app] in Hl4.
  destruct (Rc_weak_drop_run z p others Hr4 Hl4) as (x' & E5 & Hst5).
  { rewrite (Hk4 (p, rc_layout)); [exact (rc_weak _ _ _ _ Hrc')|left|unfold in_block; cbn; lia]. }
  exists x'. split; [exact E5|]. eapply client_step_trans; [by eapply client_step_focus|].
  eapply client_step_trans; [eapply (client_step_focus _ _ _ [(p, rc_layout)]); exact Hst4|exact Hst5].
Qed.
End proofs.

(** ** Witness: the first push to a vector, on a heap of one page *)

Module Demo.
#[local] Existing Instances HeapTheorems.Demo.demo_ck HeapTheorems.Demo.demo_layout HeapTheorems.Demo.demo_layout_laws.
#[local] Existing Instances ReferenceApi.phys_frame_api ReferenceApi.phys_frame_laws.
Import HeapTheorems.Demo.

Lemma push_refines_append_witness :
  exists v x', push 7 Vec_new (hs_heap demo_sys1, hs_mem demo_sys1) = Ret (v, (hs_heap x', hs_mem x')) /\
    vcap v = 4 /\ vec_rep v [7] (hs_mem x').
Proof.
  destruct (push_refines_append demo_off ∅ demo_low demo_aligned demo_high demo_sys1 Vec_new [] [] 7 demo_reach1)
    as (v & x' & E & _ & Hv & Hc); [done|by constructor|unfold room; cbn; lia|].
  exists v, x'. split_and!; [exact E|exact Hc|exact Hv].
Defined.
End Demo.
