(* ===== verification/Paging.v ===== *)
(** * Address translation: the page-table walk of [kernel/src/mm/memory.rs]

    [translate_addr] follows the four levels of the active page tables through
    the mapping of physical memory.  What it uses of the [x86_64] crate, the
    CR3 register, the indices of an address and the frame of an entry, are
    operations of a class with the documented behaviour as laws.  A reference to a
    table at an address that is not a multiple of 4096 is undefined behaviour. *)
From S2P Require Import Prelude Machine.

(** [PageTableEntry::frame()] *)
Inductive FrameResult := FrameOk (frame : Z) | FrameNotPresent | HugeFrame.

(** The addresses [VirtAddr] accepts: bits 47 to 63 are equal. *)
Definition canonical (a : Z) : Prop := 0 <= a < 2 ^ 47 \/ U64_LIM - 2 ^ 47 <= a < U64_LIM.

Class TranslationApi := {
  virt_add : Z -> Z -> outcome Z;   (* VirtAddr + u64 *)
  phys_add : Z -> Z -> outcome Z;   (* PhysAddr + u64 *)
  cr3_frame : Z;                    (* the frame of Cr3::read() *)
  p4_index : Z -> Z;
  p3_index : Z -> Z;
  p2_index : Z -> Z;
  p1_index : Z -> Z;
  page_offset : Z -> Z;
  entry_frame : Z -> FrameResult;
}.

(** Sums that are canonical, or physical addresses of 52 bits, are accepted; a
    level-4 frame is a physical page; an index has nine bits; an entry has
    the present bit, the flag [HUGE_PAGE] in bit 7 and the bits 12 to 51 of an
    address.  [frame()] is documented to refuse an entry with [HUGE_PAGE]; it
    does not know the level of the entry. *)
Class TranslationLaws `{TranslationApi} : Prop := {
  virt_add_ok a b : 0 <= a -> 0 <= b -> canonical (a + b) -> virt_add a b = Ret (a + b);
  phys_add_ok a b : 0 <= a -> 0 <= b -> a + b < 2 ^ 52 -> phys_add a b = Ret (a + b);
  cr3_frame_ok : 0 <= cr3_frame < 2 ^ 52 /\ (4096 | cr3_frame);
  p4_index_ok a : p4_index a = a / 2 ^ 39 mod 512;
  p3_index_ok a : p3_index a = a / 2 ^ 30 mod 512;
  p2_index_ok a : p2_index a = a / 2 ^ 21 mod 512;
  p1_index_ok a : p1_index a = a / 2 ^ 12 mod 512;
  page_offset_ok a : page_offset a = a mod 4096;
  entry_frame_ok e : entry_frame e =
    if negb (Z.testbit e 0) then FrameNotPresent
    else if Z.testbit e 7 then HugeFrame
    else FrameOk (Z.land e 0x000ffffffffff000);
}.

Section code.
Context `{TranslationApi}.

(** Read-only code runs on a memory; it has no state of its own. *)
Abbreviation T := (M (() * mem)).

(** [&*(virt.as_ptr() as *const PageTable)]: the type is aligned to 4096. *)
Definition table_ref (virt : Z) : outcome Z :=
  if decide (0 < virt /\ virt mod 4096 = 0) then Ret virt else Undef.

(** [active_level_4_table]: the address of the table. *)
Definition active_level_4_table (physical_memory_offset : Z) : outcome Z :=
  virt ← virt_add physical_memory_offset cr3_frame;
  table_ref virt.

(** One round of the loop: the frame that the entry at [index] names. *)
Definition table_entry (physical_memory_offset frame index : Z) : T Z :=
  virt ← lift (virt_add physical_memory_offset frame);
  table ← lift (table_ref virt);
  load (table + 8 * index).

Fixpoint walk_table (physical_memory_offset : Z) (table_indexes : list Z) (frame : Z) : T (option Z) :=
  match table_indexes with
  | [] => mret (Some frame)
  | index :: rest =>
      entry ← table_entry physical_memory_offset frame index;
      match entry_frame entry with
      | FrameOk frame => walk_table physical_memory_offset rest frame
      | FrameNotPresent => mret None
      | HugeFrame => panic
      end
  end.

Definition translate_addr_inner (addr physical_memory_offset : Z) : T (option Z) :=
  let table_indexes := [p4_index addr; p3_index addr; p2_index addr; p1_index addr] in
  frame ← walk_table physical_memory_offset table_indexes cr3_frame;
  match frame with
  | None => mret None
  | Some frame => r ← lift (phys_add frame (page_offset addr)); mret (Some r)
  end.

Definition translate_addr (addr physical_memory_offset : Z) : T (option Z) :=
  translate_addr_inner addr physical_memory_offset.
End code.

(** ** The architecture's translation, as a specification *)

(** The entry that level [k] (4 down to 1) uses for [addr] in the table at
    physical address [t]. *)
Definition level_entry (m : mem) (off t : Z) (k : Z) (addr : Z) : Z :=
  rd m (off + t + 8 * (addr / 2 ^ (12 + 9 * (k - 1)) mod 512)).
Definition entry_addr (e : Z) : Z := Z.land e 0x000ffffffffff000.
Definition present (e : Z) : bool := Z.testbit e 0.
Definition bit7 (e : Z) : bool := Z.testbit e 7.

(** How the translation of an address ends: at a 4 KiB page, whose entry has a
    memory-type bit in bit 7 (PAT), at a missing entry, at a large page of level 3
    or 2, or at bit 7 of a level-4 entry, which is reserved. *)
Inductive translation := Small (pa : Z) (pat : bool) | Missing | Large (level : Z) | Reserved.

Inductive translates (m : mem) (off addr : Z) : Z -> Z -> translation -> Prop :=
  | tr_missing k t :
      1 <= k -> present (level_entry m off t k addr) = false -> translates m off addr k t Missing
  | tr_page t :
      present (level_entry m off t 1 addr) = true ->
      translates m off addr 1 t
        (Small (entry_addr (level_entry m off t 1 addr) + addr mod 4096) (bit7 (level_entry m off t 1 addr)))
  | tr_large k t :
      k = 2 \/ k = 3 -> present (level_entry m off t k addr) = true -> bit7 (level_entry m off t k addr) = true ->
      translates m off addr k t (Large k)
  | tr_reserved t :
      present (level_entry m off t 4 addr) = true -> bit7 (level_entry m off t 4 addr) = true ->
      translates m off addr 4 t Reserved
  | tr_next k t r :
      1 < k -> present (level_entry m off t k addr) = true -> bit7 (level_entry m off t k addr) = false ->
      translates m off addr (k - 1) (entry_addr (level_entry m off t k addr)) r ->
      translates m off addr k t r.





Section proofs.
Context `{TranslationLaws}.




End proofs.

(** ** Witness: one mapped page *)

Module Demo.
Definition canonicalb (a : Z) : bool := ((0 <=? a) && (a <? 2 ^ 47)) || ((U64_LIM - 2 ^ 47 <=? a) && (a <? U64_LIM)).
Lemma canonicalb_ok a : canonical a -> canonicalb a = true.
Proof.
  unfold canonical, canonicalb. rewrite orb_true_iff, !andb_true_iff, !Z.leb_le, !Z.ltb_lt. lia.
Qed.

#[local] Instance demo_api : TranslationApi := {|
  virt_add a b := if canonicalb (a + b) then Ret (a + b) else Panic;
  phys_add a b := if a + b <? 2 ^ 52 then Ret (a + b) else Panic;
  cr3_frame := 0x1000;
  p4_index a := a / 2 ^ 39 mod 512;
  p3_index a := a / 2 ^ 30 mod 512;
  p2_index a := a / 2 ^ 21 mod 512;
  p1_index a := a / 2 ^ 12 mod 512;
  page_offset a := a mod 4096;
  entry_frame e :=
    if negb (Z.testbit e 0) then FrameNotPresent
    else if Z.testbit e 7 then HugeFrame else FrameOk (Z.land e 0x000ffffffffff000);
|}.
#[local] Instance demo_laws : TranslationLaws.
Proof.
  constructor; try reflexivity.
  - intros a b _ _ Hc. simpl. by rewrite canonicalb_ok.
  - intros a b Ha Hb Hc. unfold phys_add, demo_api. by rewrite (proj2 (Z.ltb_lt _ _)).
  - split; [simpl; lia|by exists 1].
Qed.

Definition demo_off : Z := 2 ^ 40.
Definition demo_va : Z := 0x400123.
(** The tables at 0x1000 to 0x4000 lead to the frame at 0x9000. *)
Definition demo_mem : mem :=
  list_to_map [(demo_off + 0x1000, 0x2007); (demo_off + 0x2000, 0x3007);
               (demo_off + 0x3000 + 8 * 2, 0x4007); (demo_off + 0x4000, 0x9007)].



Lemma demo_translation :
  translate_addr demo_va demo_off ((), demo_mem) = Ret (Some 0x9123, ((), demo_mem)).
Proof. vm_compute. reflexivity. Qed.

(** The same page with the memory-type bit in its entry: the processor translates
    the address, the code panics. *)
Definition pat_mem : mem := <[demo_off + 0x4000 := 0x9087]> demo_mem.
Lemma demo_pat_panics :
  translate_addr demo_va demo_off ((), pat_mem) = Panic /\
  translates pat_mem demo_off demo_va 4 cr3_frame (Small 0x9123 true).
Proof.
  split; [vm_compute; reflexivity|].
  do 3 (apply tr_next; [lia|vm_compute; reflexivity|vm_compute; reflexivity|]).
  apply (tr_page pat_mem demo_off demo_va 0x4000). vm_compute. reflexivity.
Qed.
End Demo.
