(* ===== verification/UserSpace.v ===== *)
(** * User pages: [kernel/src/mm/user.rs]

    Mapping a page of user space to a new frame.  The page tables belong to the
    [x86_64] crate's [Mapper], which is an interface here: its operations in
    one class, what its documentation promises in another. *)
From stdpp Require Import strings.
From S2P Require Import Prelude Machine X86Api Paging GlobalAlloc.

(** Bytes at kernel virtual addresses. *)
Abbreviation bmem := (gmap Z Z).
Definition byte_at (m : bmem) (a : Z) : Z := default 0 (m !! a).

(** [bs] stored from address [a] on. *)
Fixpoint store_bytes (a : Z) (bs : list Z) (m : bmem) : bmem :=
  match bs with
  | [] => m
  | b :: bs => <[a := b]> (store_bytes (a + 1) bs m)
  end.

Lemma store_bytes_lookup a bs m x :
  byte_at (store_bytes a bs m) x =
    if decide (a <= x < a + Z.of_nat (length bs)) then default 0 (bs !! Z.to_nat (x - a)) else byte_at m x.
Proof.
  revert a. induction bs as [|b bs IH]; intros a; cbn [store_bytes length].
  - by rewrite decide_False by lia.
  - unfold byte_at. destruct (decide (x = a)) as [->|Hne].
    + rewrite lookup_insert_eq, decide_True by lia. by rewrite Z.sub_diag.
    + rewrite lookup_insert_ne by done. change (default 0 (store_bytes (a + 1) bs m !! x)) with
        (byte_at (store_bytes (a + 1) bs m) x). rewrite IH.
      destruct (decide (a + 1 <= x < a + 1 + Z.of_nat (length bs))) as [Hin|Hout].
      * rewrite decide_True by lia. replace (Z.to_nat (x - a)) with (S (Z.to_nat (x - (a + 1)))) by lia. done.
      * by rewrite decide_False by lia.
Qed.

(** ** The interface of the mapper *)

Inductive PageTableFlag := PRESENT | WRITABLE | USER_ACCESSIBLE | NO_EXECUTE | NO_CACHE.
#[global] Instance PageTableFlag_eq_dec : EqDecision PageTableFlag.
Proof. solve_decision. Defined.
(** [a | b] is the union of two sets of flags. *)
Abbreviation PageTableFlags := (list PageTableFlag).

Class VirtAddrApi := {
  virt_new : Z -> outcome Z;          (* VirtAddr::new *)
  page_containing : Z -> Z;           (* Page::containing_address, its start *)
}.
Class VirtAddrLaws `{VirtAddrApi} : Prop := {
  virt_new_ok a : canonical a -> virt_new a = Ret a;
  page_containing_ok a : page_containing a = a / 4096 * 4096;
}.

(** A mapper and its frame allocator, on their own state and the memory.
    [map_to] tells whether it succeeded. *)
Class UserMapper (St : Type) := {
  frame_alloc : M (St * bmem) (option Z);
  map_to : Z -> Z -> PageTableFlags -> M (St * bmem) bool;
}.

(** A frame at its kernel address. *)
Definition in_frame (off f a : Z) : Prop := off + f <= a < off + f + 4096.

(** What the mapper and the frame allocator promise: a view of the mapped
    pages and of the frames handed out.  A new frame is new; mapping an
    unmapped page outside the blocked regions succeeds while three more frames
    are left for tables, and mapping a mapped page fails; neither touches the
    frames handed out, and writes to those do not touch the tables. *)
Class UserMapperSpec (St : Type) `{UserMapper St} (off : Z) := {
  us_inv : St * bmem -> Prop;
  us_map : St * bmem -> Z -> option (Z * PageTableFlags);
  us_frames : St * bmem -> list Z;
  us_avail : St * bmem -> nat;
  us_blocked : Z -> Prop;
  us_frame_ok s f : us_inv s -> f ∈ us_frames s ->
    0 <= f /\ (4096 | f) /\ 0 < off + f /\ off + f + 4096 < U64_LIM;
  frame_alloc_ok s : us_inv s ->
    match us_avail s with
    | O => exists s', frame_alloc s = Ret (None, s')
    | S n => exists f s', frame_alloc s = Ret (Some f, s') /\ us_inv s' /\
        us_frames s' = f :: us_frames s /\ (f ∉ us_frames s) /\ us_avail s' = n /\
        (forall pg, us_map s' pg = us_map s pg) /\
        (forall g a, g ∈ us_frames s -> in_frame off g a -> byte_at s'.2 a = byte_at s.2 a)
    end;
  map_to_ok s pg f flags : us_inv s -> f ∈ us_frames s -> us_map s pg = None -> ~ us_blocked pg ->
    (3 <= us_avail s)%nat ->
    exists s', map_to pg f flags s = Ret (true, s') /\ us_inv s' /\
      us_frames s' = us_frames s /\ (us_avail s <= us_avail s' + 3)%nat /\
      (forall pg', us_map s' pg' = if decide (pg' = pg) then Some (f, flags) else us_map s pg') /\
      (forall g a, g ∈ us_frames s -> in_frame off g a -> byte_at s'.2 a = byte_at s.2 a);
  map_to_mapped s pg f flags : us_inv s -> us_map s pg <> None ->
    exists s', map_to pg f flags s = Ret (false, s');
  us_write u m m' f : us_inv (u, m) -> f ∈ us_frames (u, m) ->
    (forall a, ~ in_frame off f a -> byte_at m' a = byte_at m a) ->
    us_inv (u, m') /\ us_frames (u, m') = us_frames (u, m) /\ us_avail (u, m') = us_avail (u, m) /\
    (forall pg, us_map (u, m') pg = us_map (u, m) pg);
}.

(** ** The code *)

(** [BuddyFrameAllocator::allocate_frame] *)
Definition BuddyFrameAllocator_allocate_frame {ck : OverflowChecks} `{PhysFrameApi} : M (KHeap * mem) (option Z) :=
  GlobalAlloc.allocate_frame.

Section code.
Context `{VirtAddrApi} {St : Type} `{UserMapper St}.

Definition map_user_page (vaddr : Z) (flags : PageTableFlags) : M (St * bmem) (string + Z) :=
  let page := page_containing vaddr in
  frame ← frame_alloc;
  match frame with
  | None => mret (inl "Failed to allocate frame"%string)
  | Some phys_addr =>
      ok ← map_to page phys_addr flags;
      if ok : bool then mret (inr phys_addr)
      else mret (inl "Failed to map page"%string)
  end.
End code.

Section proofs.
Context {off : Z} `{VirtAddrLaws} {St : Type} `{UserMapperSpec St off}.

(** A page mapped for user space: a frame of its own, and nothing else moves. *)
Lemma map_user_page_run s va flags :
  us_inv s -> us_map s (va / 4096 * 4096) = None -> ~ us_blocked (va / 4096 * 4096) -> (4 <= us_avail s)%nat ->
  exists f s', map_user_page va flags s = Ret (inr f, s') /\ us_inv s' /\
    us_frames s' = f :: us_frames s /\ (f ∉ us_frames s) /\ (us_avail s <= us_avail s' + 4)%nat /\
    (forall pg, us_map s' pg = if decide (pg = va / 4096 * 4096) then Some (f, flags) else us_map s pg) /\
    (forall g a, g ∈ us_frames s -> in_frame off g a -> byte_at s'.2 a = byte_at s.2 a).
Proof.
  intros Hinv Hmap Hbl Hav. pose proof (frame_alloc_ok s Hinv) as Hal.
  destruct (us_avail s) as [|n] eqn:Hn; [lia|].
  destruct Hal as (f & s1 & Hrun & Hinv1 & Hfr & Hnew & Hn1 & Hm1 & Hb1).
  destruct (map_to_ok s1 (va / 4096 * 4096) f flags Hinv1) as (s2 & Hrun2 & Hinv2 & Hfr2 & Hav2 & Hm2 & Hb2);
    [rewrite Hfr; left|by rewrite Hm1|done|lia|].
  exists f, s2. split_and!; [|done|congruence|done|lia| |].
  - unfold map_user_page. cbv zeta. rewrite page_containing_ok. run Hrun. by run Hrun2.
  - intros pg. rewrite Hm2. by destruct (decide _).
  - intros g a Hg Ha. rewrite (Hb2 g a), (Hb1 g a); [done..| |done]. rewrite Hfr. by right.
Qed.

Lemma map_user_page_mapped s va flags :
  us_inv s -> us_map s (va / 4096 * 4096) <> None -> (1 <= us_avail s)%nat ->
  exists s', map_user_page va flags s = Ret (inl "Failed to map page"%string, s').
Proof.
  intros Hinv Hmap Hav. pose proof (frame_alloc_ok s Hinv) as Hal.
  destruct (us_avail s) as [|n] eqn:Hn; [lia|].
  destruct Hal as (f & s1 & Hrun & Hinv1 & _ & _ & _ & Hm1 & _).
  destruct (map_to_mapped s1 (va / 4096 * 4096) f flags Hinv1) as [s2 E]; [by rewrite Hm1|]. exists s2.
  unfold map_user_page. cbv zeta. rewrite page_containing_ok. run Hrun. by run E.
Qed.

Lemma map_user_page_no_frame s va flags :
  us_inv s -> us_avail s = 0%nat ->
  exists s', map_user_page va flags s = Ret (inl "Failed to allocate frame"%string, s').
Proof.
  intros Hinv Hav. pose proof (frame_alloc_ok s Hinv) as Hal. rewrite Hav in Hal.
  destruct Hal as [s' Hal]. exists s'. unfold map_user_page. by run Hal.
Qed.
End proofs.
