(* ===== verification/Elf.v ===== *)
(** * The ELF loader: [kernel/src/tasks/elf.rs]

    Loads the segments of an executable into user pages and makes the user
    stack.  The structures of the file format come from the [goblin] crate: the
    reading of a header is an operation of a class, the ELF64 layout its law.
    Creating a reference to a structure at an address that is not aligned for
    it is undefined behaviour. *)
From stdpp Require Import strings.
From S2P Require Import Prelude Machine X86Api Paging UserSpace.

Definition USER_STACK_TOP : Z := 0x7FFFFF000.
Definition USER_STACK_PAGES : Z := 16.
Definition USER_STACK_SIZE : Z := USER_STACK_PAGES * 4096.

(** ** The file format *)

Record Header := mkHeader {
  e_ident : list Z; e_entry : Z; e_phoff : Z; e_phentsize : Z; e_phnum : Z;
}.
Record ProgramHeader := mkPhdr {
  p_type : Z; p_flags : Z; p_offset : Z; p_vaddr : Z; p_filesz : Z; p_memsz : Z;
}.

Class GoblinApi := {
  goblin_error : Type;
  size_of_Header : Z;
  size_of_ProgramHeader : Z;
  read_header : list Z -> Header;               (* the first bytes of the file *)
  read_program_header : list Z -> ProgramHeader; (* the bytes from the header on *)
}.

(** Little-endian integers in a list of bytes. *)
Fixpoint le (bs : list Z) : Z := match bs with [] => 0 | b :: bs => b + 256 * le bs end.
Definition field (bs : list Z) (at_ n : nat) : Z := le (take n (drop at_ bs)).

(** The [repr(C)] structures of ELF64. *)
Class GoblinLaws `{GoblinApi} : Prop := {
  header_size_ok : size_of_Header = 64;
  program_header_size_ok : size_of_ProgramHeader = 56;
  read_header_ok bs : 64 <= Z.of_nat (length bs) ->
    read_header bs = mkHeader (take 16 bs) (field bs 24 8) (field bs 32 8) (field bs 54 2) (field bs 56 2);
  read_program_header_ok bs : 56 <= Z.of_nat (length bs) ->
    read_program_header bs =
      mkPhdr (field bs 0 4) (field bs 4 4) (field bs 8 8) (field bs 16 8) (field bs 32 8) (field bs 40 8);
}.

Inductive Error `{GoblinApi} :=
  | MappingFailed (msg : string)
  | InvalidElf (e : goblin_error).

Record ElfLoadResult := mkLoad { entry_point : Z; stack_top : Z }.

(** A slice of bytes: its address and its contents. *)
Record slice := mkSlice { base : Z; contents : list Z }.
Definition slice_len (d : slice) : Z := Z.of_nat (length (contents d)).

(** [&data[a..b]] *)
Definition subslice (d : slice) (a b : Z) : outcome (list Z) :=
  if (a <=? b) && (b <=? slice_len d)
  then Ret (take (Z.to_nat (b - a)) (drop (Z.to_nat a) (contents d)))
  else Panic.

(** A reference to a structure with words at [base + at_]. *)
Definition aligned_ref (d : slice) (at_ : Z) : outcome () :=
  if (base d + at_) mod 8 =? 0 then Ret () else Undef.

(** The lines the loader prints. *)
Inductive LogLine :=
  | LogLoading (entry ph_count : Z)
  | LogSegment (vaddr memsz filesz flags : Z)
  | LogCopy (len page_offset : Z)
  | LogStack (bottom top pages : Z)
  | LogLoaded (entry : Z).

Section code.
Context {ck : OverflowChecks} `{GoblinApi} `{VirtAddrApi} {St : Type} `{UserMapper St}.

(** The loader's state: the mapper with its frames and the memory, and the
    console. *)
Abbreviation L := (M ((St * bmem) * list LogLine)).

Definition us {A} (f : M (St * bmem) A) : L A := fun '(s, log) =>
  match f s with
  | Ret (a, s') => Ret (a, (s', log))
  | Panic => Panic | Undef => Undef | Hang => Hang | OutOfFuel => OutOfFuel
  end.
Definition println (l : LogLine) : L () := fun '(s, log) => Ret ((), (s, log ++ [l])).

(** [ptr::write_bytes] and [ptr::copy_nonoverlapping] to kernel memory. *)
Definition write_memory (ptr : Z) (bs : list Z) : M (St * bmem) () := fun '(s, m) =>
  if decide (0 < ptr /\ ptr + Z.of_nat (length bs) <= U64_LIM)
  then Ret ((), (s, store_bytes ptr bs m)) else Undef.

(** The flags of a segment's pages. *)
Definition segment_flags (p_flags : Z) : PageTableFlags :=
  [PRESENT; USER_ACCESSIBLE; WRITABLE] ++ (if Z.land p_flags 1 =? 0 then [NO_EXECUTE] else []).

(** The copy of the part of the segment that falls in the page. *)
Definition copy_segment (data : slice) (ph : ProgramHeader) (kernel_ptr page_vaddr : Z) : L () :=
  page_end ← lift (add64 page_vaddr 4096);
  seg_file_end ← lift (add64 (p_vaddr ph) (p_filesz ph));
  if (page_vaddr <? seg_file_end) && (p_vaddr ph <? page_end) then
    let copy_start := Z.max (p_vaddr ph) page_vaddr in
    let copy_end := Z.min seg_file_end page_end in
    copy_len ← lift (sub64 copy_end copy_start);
    if 0 <? copy_len then
      into ← lift (sub64 copy_start (p_vaddr ph));
      file_offset ← lift (add64 (p_offset ph) into);
      file_end ← lift (add64 file_offset copy_len);
      src ← lift (subslice data file_offset file_end);
      page_offset ← lift (sub64 copy_start page_vaddr);
      println (LogCopy copy_len page_offset);;
      us (write_memory (kernel_ptr + page_offset) src)
    else mret ()
  else mret ().

(** One round of the page loop of a segment. *)
Definition load_page (data : slice) (off : Z) (ph : ProgramHeader) (flags : PageTableFlags)
    (page_vaddr : Z) : L (Error + ()) :=
  vaddr ← lift (virt_new page_vaddr);
  r ← us (map_user_page vaddr flags);
  match r with
  | inl e => mret (inl (MappingFailed e))
  | inr phys_addr =>
      kernel_ptr ← lift (add64 off phys_addr);
      us (write_memory kernel_ptr (replicate 4096 0));;
      copy_segment data ph kernel_ptr page_vaddr;;
      mret (inr ())
  end.

(** [for page in (start..end).step_by(4096)], [n] rounds from [page] on. *)
Fixpoint for_pages (f : Z -> L (Error + ())) (page : Z) (n : nat) : L (Error + ()) :=
  match n with
  | O => mret (inr ())
  | S n =>
      r ← f page;
      match r with
      | inl e => mret (inl e)
      | inr _ => for_pages f (page + 4096) n
      end
  end.
Definition page_count (start end_ : Z) : nat := Z.to_nat ((end_ - start + 4095) / 4096).

(** The body of the loop over the program headers, for [PT_LOAD]. *)
Definition load_segment (data : slice) (off : Z) (ph : ProgramHeader) : L (Error + ()) :=
  println (LogSegment (p_vaddr ph) (p_memsz ph) (p_filesz ph) (p_flags ph));;
  let start_page := Z.land (p_vaddr ph) (not64 0xFFF) in
  e ← lift (add64 (p_vaddr ph) (p_memsz ph));
  e ← lift (add64 e 0xFFF);
  let end_page := Z.land e (not64 0xFFF) in
  for_pages (load_page data off ph (segment_flags (p_flags ph))) start_page (page_count start_page end_page).

(** [for i in 0..ph_count], [n] rounds from [i] on. *)
Fixpoint load_headers (data : slice) (off ph_offset ph_size i : Z) (n : nat) : L (Error + ()) :=
  match n with
  | O => mret (inr ())
  | S n =>
      step ← lift (mul64 i ph_size);
      ph_start ← lift (add64 ph_offset step);
      ph_end ← lift (add64 ph_start size_of_ProgramHeader);
      if slice_len data <? ph_end then mret (inl (MappingFailed "Program header out of bounds"))
      else
        lift (aligned_ref data ph_start);;
        let ph := read_program_header (drop (Z.to_nat ph_start) (contents data)) in
        r ← (if p_type ph =? 1 then load_segment data off ph else mret (inr ()));
        match r with
        | inl e => mret (inl e)
        | inr _ => load_headers data off ph_offset ph_size (i + 1) n
        end
  end.

(** One round of the stack loop. *)
Definition stack_flags : PageTableFlags := [PRESENT; WRITABLE; USER_ACCESSIBLE; NO_EXECUTE].
Definition load_stack_page (off page_addr : Z) : L (Error + ()) :=
  vaddr ← lift (virt_new page_addr);
  r ← us (map_user_page vaddr stack_flags);
  match r with
  | inl e => mret (inl (MappingFailed e))
  | inr phys_addr =>
      kernel_ptr ← lift (add64 off phys_addr);
      us (write_memory kernel_ptr (replicate 4096 0));;
      mret (inr ())
  end.

Definition elf_magic : list Z := [0x7f; 0x45; 0x4c; 0x46].

Definition load_elf (data : slice) (phys_mem_offset : Z) : L (Error + ElfLoadResult) :=
  if slice_len data <? size_of_Header then mret (inl (MappingFailed "ELF too small for header"))
  else
    lift (aligned_ref data 0);;
    let header := read_header (contents data) in
    magic ← lift (subslice (mkSlice 0 (e_ident header)) 0 4);
    if negb (bool_decide (magic = elf_magic)) then mret (inl (MappingFailed "Invalid ELF magic"))
    else
      class ← lift (index (e_ident header) 4);
      if negb (class =? 2) then mret (inl (MappingFailed "Not a 64-bit ELF"))
      else
        let entry := e_entry header in
        println (LogLoading entry (e_phnum header));;
        r ← load_headers data phys_mem_offset (e_phoff header) (e_phentsize header) 0 (Z.to_nat (e_phnum header));
        match r with
        | inl e => mret (inl e)
        | inr _ =>
            stack_bottom ← lift (sub64 USER_STACK_TOP USER_STACK_SIZE);
            println (LogStack stack_bottom USER_STACK_TOP USER_STACK_PAGES);;
            r ← for_pages (load_stack_page phys_mem_offset) stack_bottom (page_count stack_bottom USER_STACK_TOP);
            match r with
            | inl e => mret (inl e)
            | inr _ =>
                println (LogLoaded entry);;
                mret (inr (mkLoad entry USER_STACK_TOP))
            end
        end.
End code.
