(* ===== verification/ElfProofs.v ===== *)
(** * Loading an executable, page by page

    [kernel/src/tasks/elf.rs] against images of pages: which page is mapped
    with which flags and what its bytes are. *)
From stdpp Require Import strings.
From S2P Require Import Prelude Machine X86Api Paging UserSpace Elf.

(** An image of a user page: its flags, and its bytes by virtual address. *)
Abbreviation image := (Z * (PageTableFlags * (Z -> Z)))%type.

Section loaded.
Context {off : Z} {St : Type} `{UserMapperSpec St off}.

(** [s] is [s0] with the pages of [imgs] added. *)
Record loaded (s0 s : St * bmem) (imgs : list image) : Prop := {
  ld_inv : us_inv s;
  ld_pages : forall pg fl img, (pg, (fl, img)) ∈ imgs -> exists f,
    us_map s pg = Some (f, fl) /\ f ∈ us_frames s /\
    forall k, 0 <= k < 4096 -> byte_at s.2 (off + f + k) = img (pg + k);
  ld_other : forall pg, pg ∉ (fst <$> imgs) -> us_map s pg = us_map s0 pg;
  ld_avail : (us_avail s0 <= us_avail s + 4 * length imgs)%nat;
}.

Lemma loaded_nil s : us_inv s -> loaded s s [].
Proof. intros Hinv. constructor; [done|intros ? ? ? []%elem_of_nil|done|simpl; lia]. Qed.

#[global] Instance loaded_perm s0 s : Proper ((≡ₚ) ==> iff) (loaded s0 s).
Proof.
  assert (forall l l', l ≡ₚ l' -> loaded s0 s l -> loaded s0 s l') as Hp.
  { intros l l' Hl [Hi Hpg Ho Ha]. constructor; [done| | |].
    - intros pg fl img. rewrite <- Hl. apply Hpg.
    - intros pg. rewrite <- Hl. apply Ho.
    - by rewrite <- Hl. }
  intros l l' Hl. split; by apply Hp.
Qed.

Lemma frames_apart s f g a :
  us_inv s -> f ∈ us_frames s -> g ∈ us_frames s -> in_frame off f a -> in_frame off g a -> f = g.
Proof.
  intros Hinv Hf Hg. destruct (us_frame_ok s f Hinv Hf) as (_ & [q ->] & _).
  destruct (us_frame_ok s g Hinv Hg) as (_ & [r ->] & _). unfold in_frame. lia.
Qed.

(** A new page, once its frame holds the image. *)
Lemma loaded_step s0 s imgs pg fl img f u m m2 :
  loaded s0 s imgs -> pg ∉ (fst <$> imgs) -> us_inv (u, m) ->
  us_frames (u, m) = f :: us_frames s -> f ∉ us_frames s -> (us_avail s <= us_avail (u, m) + 4)%nat ->
  (forall pg', us_map (u, m) pg' = if decide (pg' = pg) then Some (f, fl) else us_map s pg') ->
  (forall g a, g ∈ us_frames s -> in_frame off g a -> byte_at m a = byte_at s.2 a) ->
  (forall a, ~ in_frame off f a -> byte_at m2 a = byte_at m a) ->
  (forall k, 0 <= k < 4096 -> byte_at m2 (off + f + k) = img (pg + k)) ->
  loaded s0 (u, m2) ((pg, (fl, img)) :: imgs).
Proof.
  intros [Hi Hpg Ho Ha] Hnew Hinv Hfr Hf Hav Hmap Hb Hout Hin.
  destruct (us_write u m m2 f Hinv) as (Hinv2 & Hfr2 & Hav2 & Hmap2); [rewrite Hfr; left|done|].
  constructor.
  - done.
  - intros pg' fl' img' [[= -> -> ->]|Hin']%elem_of_cons.
    + exists f. rewrite Hmap2, Hmap, decide_True, Hfr2, Hfr by done. split_and!; [done|left|done].
    + destruct (Hpg _ _ _ Hin') as (g & Hg & Hgf & Hbytes). exists g.
      rewrite Hmap2, Hmap, Hfr2, Hfr, decide_False
        by (intros ->; apply Hnew, list_elem_of_fmap; by eexists (_, _)).
      split_and!; [done|by right|]. intros k Hk. simpl. rewrite <- Hbytes by done.
      assert (in_frame off g (off + g + k)) as Hgk by (unfold in_frame; lia).
      rewrite Hout; [by apply (Hb g)|]. intros Hfk. apply Hf.
      rewrite (frames_apart (u, m) f g (off + g + k)); [done|done|rewrite Hfr; left|rewrite Hfr; by right|done|done].
  - intros pg' [Hne Hni]%not_elem_of_cons. rewrite Hmap2, Hmap, decide_False by done. by apply Ho.
  - rewrite Hav2. simpl. lia.
Qed.
End loaded.

(** ** Writing a frame *)

Section writes.
Context {St : Type}.

Lemma run_write_memory ptr bs (u : St) m :
  0 < ptr -> ptr + Z.of_nat (length bs) <= U64_LIM ->
  write_memory ptr bs (u, m) = Ret ((), (u, store_bytes ptr bs m)).
Proof. intros. unfold write_memory. by rewrite decide_True. Qed.

Lemma run_us {A} (f : M (St * bmem) A) s log a s' :
  f s = Ret (a, s') -> us f (s, log) = Ret (a, (s', log)).
Proof. unfold us. by intros ->. Qed.
Lemma run_println l (s : St * bmem) log : println l (s, log) = Ret ((), (s, log ++ [l])).
Proof. reflexivity. Qed.

(** A frame cleared to zero. *)
Lemma zero_frame a m x :
  byte_at (store_bytes a (replicate 4096 0) m) x = if decide (a <= x < a + 4096) then 0 else byte_at m x.
Proof.
  rewrite store_bytes_lookup, length_replicate. change (Z.of_nat 4096) with 4096.
  destruct (decide (a <= x < a + 4096)); [|done]. by rewrite lookup_replicate_2 by lia.
Qed.
End writes.

(** ** Segments *)

(** A segment that fits the file and user space. *)
Record seg_wf (data : slice) (ph : ProgramHeader) : Prop := {
  sw_vaddr : 0 <= p_vaddr ph;
  sw_filesz : 0 <= p_filesz ph <= p_memsz ph;
  sw_offset : 0 <= p_offset ph;
  sw_file : p_offset ph + p_filesz ph <= slice_len data;
  sw_user : p_vaddr ph + p_memsz ph + 4096 <= 2 ^ 47;
}.

(** The bytes a segment gives to user space: the file's, then zeros. *)
Definition seg_byte (data : slice) (ph : ProgramHeader) (x : Z) : Z :=
  if decide (p_vaddr ph <= x < p_vaddr ph + p_filesz ph)
  then default 0 (contents data !! Z.to_nat (p_offset ph + (x - p_vaddr ph))) else 0.

(** A segment in user space, whether or not the file has all of it. *)
Record seg_placed (ph : ProgramHeader) : Prop := {
  sp_vaddr : 0 <= p_vaddr ph;
  sp_filesz : 0 <= p_filesz ph <= p_memsz ph;
  sp_offset : 0 <= p_offset ph < 2 ^ 63;
  sp_user : p_vaddr ph + p_memsz ph + 4096 <= 2 ^ 47;
}.
Lemma seg_wf_placed data ph : seg_wf data ph -> slice_len data < 2 ^ 63 -> seg_placed ph.
Proof. intros [] ?. constructor; lia. Qed.

(** The file has what the copy to [page] reads. *)
Definition page_in_file (data : slice) (ph : ProgramHeader) (page : Z) : Prop :=
  Z.max (p_vaddr ph) page < Z.min (p_vaddr ph + p_filesz ph) (page + 4096) ->
  p_offset ph + (Z.min (p_vaddr ph + p_filesz ph) (page + 4096) - p_vaddr ph) <= slice_len data.
#[global] Instance page_in_file_dec data ph page : Decision (page_in_file data ph page).
Proof. unfold page_in_file. apply _. Defined.
Lemma seg_wf_in_file data ph page : seg_wf data ph -> page_in_file data ph page.
Proof. intros [] ?. lia. Qed.

Section segment.
Context {ck : OverflowChecks} {St : Type}.

Lemma copy_segment_run data ph ptr page (u : St) m log :
  seg_placed ph -> page_in_file data ph page -> 0 <= page -> page + 4096 <= 2 ^ 47 ->
  0 < ptr -> ptr + 4096 < U64_LIM ->
  (forall a, ptr <= a < ptr + 4096 -> byte_at m a = 0) ->
  exists m' log', copy_segment data ph ptr page ((u, m), log) = Ret ((), ((u, m'), log')) /\
    (forall a, ~ ptr <= a < ptr + 4096 -> byte_at m' a = byte_at m a) /\
    (forall k, 0 <= k < 4096 -> byte_at m' (ptr + k) = seg_byte data ph (page + k)).
Proof.
  intros [Hv Hfs Ho Huser] Hfile Hpg Hpg' Hptr Hlim Hzero. unfold page_in_file in Hfile. unfold copy_segment.
  assert (add64 page 4096 = Ret (page + 4096)) as E1 by (apply add64_ok; lia).
  assert (add64 (p_vaddr ph) (p_filesz ph) = Ret (p_vaddr ph + p_filesz ph)) as E2 by (apply add64_ok; lia).
  run (run_lift _ ((u, m), log) _ E1). run (run_lift _ ((u, m), log) _ E2). clear E1 E2.
  set (v := p_vaddr ph) in *. set (n := p_filesz ph) in *.
  destruct (decide (page < v + n /\ v < page + 4096)) as [[Ha Hb]|Hno].
  2: { assert ((page <? v + n) && (v <? page + 4096) = false) as ->.
       { rewrite andb_false_iff, !Z.ltb_ge. lia. }
       exists m, log. split_and!; [done..|]. intros k Hk. rewrite Hzero by lia. unfold seg_byte.
       fold v n. by rewrite decide_False by lia. }
  rewrite (proj2 (Z.ltb_lt _ _) Ha), (proj2 (Z.ltb_lt _ _) Hb). cbv zeta. rewrite andb_true_l. cbv iota.
  set (cs := Z.max v page). set (ce := Z.min (v + n) (page + 4096)).
  assert (sub64 ce cs = Ret (ce - cs)) as E1 by (apply sub64_ok; lia).
  run (run_lift _ ((u, m), log) _ E1). clear E1.
  destruct (decide (0 < ce - cs)) as [Hpos|Hneg].
  2: { rewrite (proj2 (Z.ltb_ge _ _)) by lia. exists m, log. split_and!; [done..|].
       intros k Hk. rewrite Hzero by lia. unfold seg_byte. fold v n. by rewrite decide_False by lia. }
  rewrite (proj2 (Z.ltb_lt _ _)) by lia.
  assert (sub64 cs v = Ret (cs - v)) as E1 by (apply sub64_ok; lia).
  assert (add64 (p_offset ph) (cs - v) = Ret (p_offset ph + (cs - v))) as E2 by (apply add64_ok; lia).
  assert (add64 (p_offset ph + (cs - v)) (ce - cs) = Ret (p_offset ph + (ce - v))) as E3.
  { rewrite add64_ok by lia. f_equal. lia. }
  set (src := take (Z.to_nat (ce - cs)) (drop (Z.to_nat (p_offset ph + (cs - v))) (contents data))).
  assert (subslice data (p_offset ph + (cs - v)) (p_offset ph + (ce - v)) = Ret src) as E4.
  { unfold subslice. rewrite (proj2 (Z.leb_le _ _)), (proj2 (Z.leb_le _ (slice_len data))) by lia.
    unfold src. do 2 f_equal. lia. }
  assert (sub64 cs page = Ret (cs - page)) as E5 by (apply sub64_ok; lia).
  run (run_lift _ ((u, m), log) _ E1). run (run_lift _ ((u, m), log) _ E2).
  run (run_lift _ ((u, m), log) _ E3). run (run_lift _ ((u, m), log) _ E4).
  run (run_lift _ ((u, m), log) _ E5). run (run_println (LogCopy (ce - cs) (cs - page)) (u, m) log).
  assert (Z.of_nat (length src) = ce - cs) as Hsrc.
  { unfold src. rewrite length_take, length_drop. unfold slice_len in *. lia. }
  eexists (store_bytes (ptr + (cs - page)) src m), _. split.
  { apply run_us, run_write_memory; lia. }
  split.
  - intros a Ha'. rewrite store_bytes_lookup, decide_False by lia. done.
  - intros k Hk. rewrite store_bytes_lookup, Hsrc. unfold seg_byte. fold v n.
    destruct (decide (ptr + (cs - page) <= ptr + k < ptr + (cs - page) + (ce - cs))) as [Hin|Hout].
    + rewrite decide_True by lia. unfold src. rewrite lookup_take_lt, lookup_drop by lia. do 2 f_equal. lia.
    + rewrite Hzero by lia. by rewrite decide_False by lia.
Qed.

(** A copy that reads past the end of the file: the slice panics. *)
Lemma copy_segment_panics data ph ptr page (u : St) m log :
  seg_placed ph -> ~ page_in_file data ph page -> 0 <= page -> page + 4096 <= 2 ^ 47 ->
  copy_segment data ph ptr page ((u, m), log) = Panic.
Proof.
  intros [Hv Hfs Ho Hu] Hfile Hpg Hpg'. set (v := p_vaddr ph) in *. set (n := p_filesz ph) in *.
  assert (Z.max v page < Z.min (v + n) (page + 4096) /\
    slice_len data < p_offset ph + (Z.min (v + n) (page + 4096) - v)) as (Ha & Hlen).
  { unfold page_in_file in Hfile. fold v n in Hfile.
    destruct (decide (Z.max v page < Z.min (v + n) (page + 4096))), (decide (slice_len data < p_offset ph +
      (Z.min (v + n) (page + 4096) - v))); [done|..]; exfalso; apply Hfile; intros ?; lia. }
  clear Hfile. unfold copy_segment. fold v n.
  assert (add64 page 4096 = Ret (page + 4096)) as E1 by (apply add64_ok; lia).
  assert (add64 v n = Ret (v + n)) as E2 by (apply add64_ok; lia).
  run (run_lift _ ((u, m), log) _ E1). run (run_lift _ ((u, m), log) _ E2).
  rewrite (proj2 (Z.ltb_lt page _)), (proj2 (Z.ltb_lt v _)) by lia. cbv zeta. rewrite andb_true_l. cbv iota.
  set (cs := Z.max v page). set (ce := Z.min (v + n) (page + 4096)).
  assert (sub64 ce cs = Ret (ce - cs)) as E3 by (apply sub64_ok; lia).
  run (run_lift _ ((u, m), log) _ E3). destruct (Z.ltb_spec 0 (ce - cs)); [|lia].
  assert (sub64 cs v = Ret (cs - v)) as E4 by (apply sub64_ok; lia).
  assert (add64 (p_offset ph) (cs - v) = Ret (p_offset ph + (cs - v))) as E5 by (apply add64_ok; lia).
  assert (add64 (p_offset ph + (cs - v)) (ce - cs) = Ret (p_offset ph + (ce - v))) as E6
    by (rewrite add64_ok by lia; f_equal; lia).
  run (run_lift _ ((u, m), log) _ E4). run (run_lift _ ((u, m), log) _ E5).
  run (run_lift _ ((u, m), log) _ E6). unfold mbind, M_bind, subslice.
  rewrite (proj2 (Z.leb_gt _ (slice_len data))) by lia. by rewrite andb_false_r.
Qed.
End segment.
