(* ===== verification/ElfLoad.v ===== *)
(** * The loops of the ELF loader

    [load_elf] of [kernel/src/tasks/elf.rs] from the single page up: the pages
    of a segment, the segments of a file, the user stack. *)
From stdpp Require Import strings.
From S2P Require Import Prelude Machine X86Api Paging UserSpace Elf ElfProofs.

(** The pages from [start] on. *)
Definition page_list (start : Z) (n : nat) : list Z := (fun i => start + 4096 * Z.of_nat i) <$> seq 0 n.

Lemma page_list_S start n : page_list start (S n) = start :: page_list (start + 4096) n.
Proof.
  unfold page_list. rewrite <- cons_seq, <- fmap_S_seq. simpl. f_equal; [lia|].
  rewrite <- list_fmap_compose. apply list_fmap_ext. intros _ i _. simpl. lia.
Qed.
Lemma page_list_elem start n pg :
  pg ∈ page_list start n <-> exists i, (i < n)%nat /\ pg = start + 4096 * Z.of_nat i.
Proof. unfold page_list. rewrite list_elem_of_fmap. setoid_rewrite elem_of_seq. naive_solver lia. Qed.
Lemma length_page_list start n : length (page_list start n) = n.
Proof. unfold page_list. by rewrite length_fmap, length_seq. Qed.

(** ** The pages and images of a segment *)

Definition seg_pages (ph : ProgramHeader) : list Z :=
  let start := p_vaddr ph / 4096 * 4096 in
  page_list start (page_count start ((p_vaddr ph + p_memsz ph + 4095) / 4096 * 4096)).
Definition seg_images (data : slice) (ph : ProgramHeader) : list image :=
  (fun pg => (pg, (segment_flags (p_flags ph), seg_byte data ph))) <$> seg_pages ph.

Lemma seg_images_pages data ph : (fst <$> seg_images data ph) = seg_pages ph.
Proof. unfold seg_images. rewrite <- list_fmap_compose. apply list_fmap_id. Qed.

(** The pages cover the segment. *)
Lemma seg_pages_cover ph x :
  0 <= p_vaddr ph -> p_vaddr ph <= x < p_vaddr ph + p_memsz ph -> x / 4096 * 4096 ∈ seg_pages ph.
Proof.
  intros Hv Hx. unfold seg_pages. apply page_list_elem. set (v := p_vaddr ph) in *. set (n := p_memsz ph) in *.
  assert (v / 4096 <= x / 4096) by (apply Z.div_le_mono; lia).
  assert (x / 4096 < (v + n + 4095) / 4096).
  { apply Z.lt_le_trans with (x / 4096 + 1); [lia|].
    replace (x / 4096 + 1) with ((x + 4096) / 4096) by (replace (x + 4096) with (x + 1 * 4096) by lia; rewrite Z.div_add; lia).
    apply Z.div_le_mono; lia. }
  exists (Z.to_nat (x / 4096 - v / 4096)). split; [|rewrite Z2Nat.id by lia; ring]. unfold page_count.
  replace ((v + n + 4095) / 4096 * 4096 - v / 4096 * 4096 + 4095)
    with (4095 + ((v + n + 4095) / 4096 - v / 4096) * 4096) by lia.
  rewrite Z.div_add by lia. change (4095 / 4096) with 0. apply Z2Nat.inj_lt; lia.
Qed.

(** The integers from [i] on. *)
Fixpoint zseq (i : Z) (n : nat) : list Z := match n with O => [] | S n => i :: zseq (i + 1) n end.
Lemma zseq_elem i n j : j ∈ zseq i n <-> i <= j < i + Z.of_nat n.
Proof.
  revert i. induction n as [|n IH]; intros i; simpl; [rewrite elem_of_nil; lia|].
  rewrite elem_of_cons, IH. lia.
Qed.

Section load.
Context {ck : OverflowChecks} {off : Z} `{GoblinApi} `{VirtAddrLaws} {St : Type} `{UserMapperSpec St off}.

(** A page that can be mapped. *)
Record page_free (s0 : St * bmem) (pg : Z) : Prop := {
  pf_aligned : pg / 4096 * 4096 = pg;
  pf_low : 0 <= pg;
  pf_high : pg + 4096 <= 2 ^ 47;
  pf_unmapped : us_map s0 pg = None;
  pf_allowed : ~ us_blocked pg;
}.

(** [f] loads page [pg] with the image [mk pg], whatever was loaded before. *)
Definition loads (s0 : St * bmem) (f : Z -> M ((St * bmem) * list LogLine) (Error + ()))
    (mk : Z -> PageTableFlags * (Z -> Z)) : Prop :=
  forall pg s log imgs, loaded s0 s imgs -> page_free s0 pg -> pg ∉ (fst <$> imgs) ->
    (4 * S (length imgs) <= us_avail s0)%nat ->
    exists s' log', f pg (s, log) = Ret (inr (), (s', log')) /\ loaded s0 s' ((pg, mk pg) :: imgs).

(** Mapping and clearing a page, then filling it by [fill]. *)
Lemma map_and_fill s0 s imgs pg fl log :
  loaded s0 s imgs -> page_free s0 pg -> pg ∉ (fst <$> imgs) -> (4 * S (length imgs) <= us_avail s0)%nat ->
  exists f u m, virt_new pg = Ret pg /\ map_user_page pg fl s = Ret (inr f, (u, m)) /\
    add64 off f = Ret (off + f) /\ 0 < off + f /\ off + f + 4096 < U64_LIM /\
    us (write_memory (off + f) (replicate 4096 0)) ((u, m), log) =
      Ret ((), ((u, store_bytes (off + f) (replicate 4096 0) m), log)) /\
    forall m2 img,
      (forall a, ~ off + f <= a < off + f + 4096 -> byte_at m2 a = byte_at (store_bytes (off + f) (replicate 4096 0) m) a) ->
      (forall k, 0 <= k < 4096 -> byte_at m2 (off + f + k) = img (pg + k)) ->
      loaded s0 (u, m2) ((pg, (fl, img)) :: imgs).
Proof.
  intros Hld [Hal Hlo Hhi Hun Hbl] Hnew Hav. pose proof Hld as [Hinv _ Hoth Hava].
  assert (us_map s (pg / 4096 * 4096) = None) as Hun' by (rewrite Hal, Hoth; done).
  destruct (map_user_page_run s pg fl Hinv Hun') as (f & [u m] & Hrun & Hi & Hfr & Hf & Hav' & Hm & Hb);
    [by rewrite Hal|lia|].
  destruct (us_frame_ok (u, m) f Hi) as (H0f & _ & Hpos & Hlim); [rewrite Hfr; left|].
  rewrite Hal in Hm. exists f, u, m. split_and!; try done.
  - apply virt_new_ok. unfold canonical. lia.
  - apply add64_ok. lia.
  - apply run_us, run_write_memory; [done|]. rewrite length_replicate. lia.
  - intros m2 img Hout Hin. eapply loaded_step; try done. intros a Ha. unfold in_frame in Ha.
    rewrite Hout, zero_frame, decide_False; done.
Qed.

Lemma load_page_run data ph fl s0 pg s log imgs :
  seg_placed ph -> page_in_file data ph pg -> loaded s0 s imgs -> page_free s0 pg -> pg ∉ (fst <$> imgs) ->
  (4 * S (length imgs) <= us_avail s0)%nat ->
  exists s' log', load_page data off ph fl pg (s, log) = Ret (inr (), (s', log')) /\
    loaded s0 s' ((pg, (fl, seg_byte data ph)) :: imgs).
Proof.
  intros Hwf Hfile Hld Hpf Hnew Hav. pose proof Hpf as [_ Hlo Hhi _ _].
  destruct (map_and_fill s0 s imgs pg fl log Hld Hpf Hnew Hav)
    as (f & u & m & Ev & Em & Ea & Hpos & Hlim & Ew & Hfill).
  destruct (copy_segment_run data ph (off + f) pg u (store_bytes (off + f) (replicate 4096 0) m) log Hwf Hfile)
    as (m2 & log2 & Ec & Hout & Hin); [done..| |].
  { intros a Ha. by rewrite zero_frame, decide_True. }
  exists (u, m2), log2. split; [|by apply Hfill].
  unfold load_page. run (run_lift _ (s, log) _ Ev). run (run_us _ s log _ _ Em).
  run (run_lift _ ((u, m), log) _ Ea). run Ew. by run Ec.
Qed.
Lemma load_page_loads data ph fl s0 :
  seg_wf data ph -> slice_len data < 2 ^ 63 ->
  loads s0 (load_page data off ph fl) (fun _ => (fl, seg_byte data ph)).
Proof.
  intros Hwf Hlen pg s log imgs. apply load_page_run; [by eapply seg_wf_placed|by apply seg_wf_in_file].
Qed.

(** A page whose copy reads past the end of the file. *)
Lemma load_page_panics data ph fl s0 pg s log imgs :
  seg_placed ph -> ~ page_in_file data ph pg -> loaded s0 s imgs -> page_free s0 pg -> pg ∉ (fst <$> imgs) ->
  (4 * S (length imgs) <= us_avail s0)%nat -> load_page data off ph fl pg (s, log) = Panic.
Proof.
  intros Hwf Hfile Hld Hpf Hnew Hav. pose proof Hpf as [_ Hlo Hhi _ _].
  destruct (map_and_fill s0 s imgs pg fl log Hld Hpf Hnew Hav) as (f & u & m & Ev & Em & Ea & _ & _ & Ew & _).
  unfold load_page. run (run_lift _ (s, log) _ Ev). run (run_us _ s log _ _ Em).
  run (run_lift _ ((u, m), log) _ Ea). run Ew. apply run_bind_panic. by apply copy_segment_panics.
Qed.

Lemma load_stack_page_loads s0 : loads s0 (load_stack_page off) (fun _ => (stack_flags, fun _ => 0)).
Proof.
  intros pg s log imgs Hld Hpf Hnew Hav.
  destruct (map_and_fill s0 s imgs pg stack_flags log Hld Hpf Hnew Hav)
    as (f & u & m & Ev & Em & Ea & Hpos & Hlim & Ew & Hfill).
  eexists (u, _), log. split.
  - unfold load_stack_page. run (run_lift _ (s, log) _ Ev). run (run_us _ s log _ _ Em).
    run (run_lift _ ((u, m), log) _ Ea). by run Ew.
  - apply Hfill; [done|]. intros k Hk. by rewrite zero_frame, decide_True by lia.
Qed.

(** The loop loads all its pages. *)
Lemma for_pages_run s0 f mk start n s log imgs :
  loads s0 f mk -> loaded s0 s imgs ->
  Forall (page_free s0) (page_list start n) -> NoDup (page_list start n ++ (fst <$> imgs)) ->
  (4 * (n + length imgs) <= us_avail s0)%nat ->
  exists s' log', for_pages f start n (s, log) = Ret (inr (), (s', log')) /\
    loaded s0 s' (((fun pg => (pg, mk pg)) <$> page_list start n) ++ imgs).
Proof.
  intros Hf. revert start s log imgs. induction n as [|n IH]; intros start s log imgs Hld Hpf Hnd Hav.
  { by exists s, log. }
  rewrite page_list_S in *. apply Forall_cons in Hpf as [Hp Hpf]. simpl in Hnd.
  apply NoDup_cons in Hnd as [Hni Hnd]. rewrite elem_of_app in Hni.
  destruct (Hf start s log imgs Hld Hp) as (s1 & log1 & E & Hld1); [tauto|lia|].
  destruct (IH (start + 4096) s1 log1 ((start, mk start) :: imgs) Hld1 Hpf) as (s2 & log2 & E2 & Hld2).
  { simpl. rewrite <- Permutation_middle. apply NoDup_cons. split; [|done]. rewrite elem_of_app. tauto. }
  { simpl. lia. }
  exists s2, log2. split; [cbn [for_pages]; by run E|].
  rewrite <- Permutation_middle in Hld2. done.
Qed.

(** ** Segments *)

Lemma load_segment_run s0 data ph s log imgs :
  seg_wf data ph -> slice_len data < 2 ^ 63 -> loaded s0 s imgs ->
  Forall (page_free s0) (seg_pages ph) -> NoDup (seg_pages ph ++ (fst <$> imgs)) ->
  (4 * (length (seg_pages ph) + length imgs) <= us_avail s0)%nat ->
  exists s' log', load_segment data off ph (s, log) = Ret (inr (), (s', log')) /\
    loaded s0 s' (seg_images data ph ++ imgs).
Proof.
  intros Hwf Hlen Hld Hpf Hnd Hav. pose proof Hwf as [Hv Hfs Ho Hfile Huser].
  unfold load_segment. run (run_println (LogSegment (p_vaddr ph) (p_memsz ph) (p_filesz ph) (p_flags ph)) s log).
  cbv zeta. set (log1 := log ++ _).
  assert (add64 (p_vaddr ph) (p_memsz ph) = Ret (p_vaddr ph + p_memsz ph)) as E1 by (apply add64_ok; lia).
  assert (add64 (p_vaddr ph + p_memsz ph) 0xFFF = Ret (p_vaddr ph + p_memsz ph + 4095)) as E2 by (apply add64_ok; lia).
  run (run_lift _ (s, log1) _ E1). run (run_lift _ (s, log1) _ E2).
  change 0xFFF with (2 ^ 12 - 1). rewrite !(land_not_ones _ 12) by (unfold is_u64; lia).
  change (2 ^ 12) with 4096. unfold seg_pages in Hpf, Hnd, Hav. cbv zeta in Hpf, Hnd, Hav.
  rewrite length_page_list in Hav.
  exact (for_pages_run s0 _ _ _ _ s log1 imgs (load_page_loads data ph _ s0 Hwf Hlen) Hld Hpf Hnd Hav).
Qed.

(** ** Program headers *)

Section headers.
Context (data : slice) (ph_offset ph_size : Z).

Definition phdr (i : Z) : ProgramHeader :=
  read_program_header (drop (Z.to_nat (ph_offset + i * ph_size)) (contents data)).
Definition phdr_images (i : Z) : list image :=
  if p_type (phdr i) =? 1 then seg_images data (phdr i) else [].

(** A header inside the file, at an aligned address, with a good segment. *)
Record phdr_wf (i : Z) : Prop := {
  pw_in_file : ph_offset + i * ph_size + size_of_ProgramHeader <= slice_len data;
  pw_aligned : (base data + (ph_offset + i * ph_size)) mod 8 = 0;
  pw_segment : p_type (phdr i) = 1 -> seg_wf data (phdr i);
}.

Lemma load_headers_run s0 i n s log imgs :
  0 <= i -> 0 <= ph_offset -> 0 <= ph_size -> 0 <= size_of_ProgramHeader -> slice_len data < 2 ^ 63 ->
  Forall phdr_wf (zseq i n) -> loaded s0 s imgs ->
  Forall (page_free s0) (fst <$> mjoin (phdr_images <$> zseq i n)) ->
  NoDup (fst <$> mjoin (phdr_images <$> zseq i n) ++ imgs) ->
  (4 * length (mjoin (phdr_images <$> zseq i n) ++ imgs) <= us_avail s0)%nat ->
  exists s' log', load_headers data off ph_offset ph_size i n (s, log) = Ret (inr (), (s', log')) /\
    loaded s0 s' (mjoin (phdr_images <$> zseq i n) ++ imgs).
Proof.
  intros Hi Hpo Hps Hsz Hlen. revert i Hi s log imgs. induction n as [|n IH]; intros i Hi s log imgs Hwf Hld Hpf Hnd Hav.
  { by exists s, log. }
  cbn [zseq] in *. rewrite fmap_cons in *. cbn [mjoin list_join] in *.
  change (list_join (phdr_images <$> zseq (i + 1) n)) with (mjoin (phdr_images <$> zseq (i + 1) n)) in *.
  set (rest := mjoin (phdr_images <$> zseq (i + 1) n)) in *.
  apply Forall_cons in Hwf as [[Hin Hal Hseg] Hwf].
  rewrite fmap_app in Hpf. apply Forall_app in Hpf as [Hpf1 Hpf2].
  rewrite <- app_assoc, fmap_app in Hnd. rewrite !length_app in Hav.
  assert (exists s1 log1, (if p_type (phdr i) =? 1 then load_segment data off (phdr i) else mret (inr ())) (s, log)
    = Ret (inr (), (s1, log1)) /\ loaded s0 s1 (phdr_images i ++ imgs)) as (s1 & log1 & E & Hld1).
  { unfold phdr_images in *. destruct (Z.eqb_spec (p_type (phdr i)) 1) as [Ht|_]; [|by exists s, log].
    rewrite seg_images_pages in Hpf1, Hnd. apply load_segment_run; auto.
    - apply NoDup_app in Hnd as (Hn1 & Hd & Hn2). rewrite fmap_app in Hd, Hn2.
      apply NoDup_app in Hn2 as (_ & _ & Hn2). apply NoDup_app. split_and!; [done| |done].
      intros pg Hpg Hpg'. apply (Hd pg Hpg). apply elem_of_app. by right.
    - rewrite <- (seg_images_pages data), length_fmap. lia. }
  destruct (IH (i + 1) ltac:(lia) s1 log1 (phdr_images i ++ imgs) Hwf Hld1 Hpf2) as (s2 & log2 & E2 & Hld2).
  { rewrite fmap_app, fmap_app. rewrite fmap_app in Hnd.
    by rewrite Permutation_app_swap_app. }
  { change (mjoin (phdr_images <$> zseq (i + 1) n)) with rest. rewrite !length_app. lia. }
  exists s2, log2. split; [|by rewrite <- app_assoc, Permutation_app_swap_app].
  cbn [load_headers].
  assert (mul64 i ph_size = Ret (i * ph_size)) as E3 by (apply mul64_ok; nia).
  assert (add64 ph_offset (i * ph_size) = Ret (ph_offset + i * ph_size)) as E4 by (apply add64_ok; nia).
  assert (add64 (ph_offset + i * ph_size) size_of_ProgramHeader =
    Ret (ph_offset + i * ph_size + size_of_ProgramHeader)) as E5 by (apply add64_ok; nia).
  run (run_lift _ (s, log) _ E3). run (run_lift _ (s, log) _ E4). run (run_lift _ (s, log) _ E5).
  rewrite (proj2 (Z.ltb_ge _ _)) by lia.
  assert (aligned_ref data (ph_offset + i * ph_size) = Ret ()) as E6 by (unfold aligned_ref; by rewrite Hal).
  run (run_lift _ (s, log) _ E6). cbv zeta. fold (phdr i). by run E.
Qed.
End headers.
End load.
