(* ===== verification/ElfTheorems.v ===== *)
(** * What the ELF loader guarantees

    [load_elf] of [kernel/src/tasks/elf.rs] on every well-formed executable. *)
From stdpp Require Import strings.
From S2P Require Import Prelude Machine X86Api Paging UserSpace Elf ElfProofs ElfLoad.

Section theorems.
Context {ck : OverflowChecks} {off : Z} `{GoblinLaws} `{VirtAddrLaws} {St : Type} `{UserMapperSpec St off}.

Definition header_of (data : slice) : Header := read_header (contents data).
Definition phdr_of (data : slice) (i : Z) : ProgramHeader :=
  phdr data (e_phoff (header_of data)) (e_phentsize (header_of data)) i.
Definition phdr_indices (data : slice) : list Z := zseq 0 (Z.to_nat (e_phnum (header_of data))).
Definition elf_images (data : slice) : list image :=
  mjoin (phdr_images data (e_phoff (header_of data)) (e_phentsize (header_of data)) <$> phdr_indices data).

Definition stack_pages : list Z := page_list (USER_STACK_TOP - USER_STACK_SIZE) 16.
Definition stack_images : list image := (fun pg => (pg, (stack_flags, fun _ => 0))) <$> stack_pages.

(** A file with an ELF64 header, at an aligned address. *)
Record elf_header_wf (data : slice) : Prop := {
  ew_base : base data mod 8 = 0;
  ew_bytes : Forall (fun b => 0 <= b < 256) (contents data);
  ew_len : 64 <= slice_len data < 2 ^ 63;
  ew_magic : take 4 (contents data) = elf_magic;
  ew_class : contents data !! 4%nat = Some 2;
}.

(** A file the loader accepts: its program headers are inside the file, their
    segments inside the file and inside user space. *)
Record elf_wf (data : slice) : Prop := {
  ew_header : elf_header_wf data;
  ew_headers : Forall (phdr_wf data (e_phoff (header_of data)) (e_phentsize (header_of data))) (phdr_indices data);
}.

(** Room for it: its pages and those of the stack are distinct, not mapped
    yet, and there are frames enough for them and for the page tables. *)
Record elf_room (s : St * bmem) (data : slice) : Prop := {
  er_inv : us_inv s;
  er_free : Forall (page_free s) (fst <$> stack_images ++ elf_images data);
  er_distinct : NoDup (fst <$> stack_images ++ elf_images data);
  er_frames : (4 * length (stack_images ++ elf_images data) <= us_avail s)%nat;
}.

(** The byte a user program reads at [x], and the flags of its page. *)
Definition user_byte (s : St * bmem) (x : Z) : option (PageTableFlags * Z) :=
  match us_map s (x / 4096 * 4096) with
  | Some (f, fl) => Some (fl, byte_at s.2 (off + f + x mod 4096))
  | None => None
  end.

(** ** Lemmas *)

Lemma le_nonneg bs : Forall (fun b => 0 <= b < 256) bs -> 0 <= le bs.
Proof. induction 1; simpl; lia. Qed.
Lemma field_nonneg bs a n : Forall (fun b => 0 <= b < 256) bs -> 0 <= field bs a n.
Proof. intros Hb. apply le_nonneg, Forall_take, Forall_drop, Hb. Qed.

Lemma header_nonneg data :
  elf_header_wf data -> 0 <= e_phoff (header_of data) /\ 0 <= e_phentsize (header_of data).
Proof.
  intros [_ Hb Hlen _ _]. unfold header_of. rewrite read_header_ok by apply Hlen.
  split; by apply field_nonneg.
Qed.

Lemma loaded_user_byte s0 s imgs pg fl img x :
  loaded s0 s imgs -> (pg, (fl, img)) ∈ imgs -> x / 4096 * 4096 = pg -> user_byte s x = Some (fl, img x).
Proof.
  intros Hld Hin Hpg. destruct (ld_pages _ _ _ Hld _ _ _ Hin) as (f & Hm & _ & Hb).
  unfold user_byte. rewrite Hpg, Hm. pose proof (Z.mod_pos_bound x 4096 ltac:(lia)) as Hr.
  rewrite Hb by done. do 3 f_equal. rewrite <- Hpg. pose proof (Z.div_mod x 4096 ltac:(lia)). lia.
Qed.

Lemma stack_cover x : USER_STACK_TOP - USER_STACK_SIZE <= x < USER_STACK_TOP -> x / 4096 * 4096 ∈ stack_pages.
Proof.
  unfold stack_pages, USER_STACK_TOP, USER_STACK_SIZE, USER_STACK_PAGES. intros Hx. apply page_list_elem.
  exists (Z.to_nat (x / 4096 - 8388591)). assert (8388591 <= x / 4096 < 8388607).
  { split; [apply Z.div_le_lower_bound; lia|apply Z.div_lt_upper_bound; lia]. }
  split; [lia|]. rewrite Z2Nat.id by lia. lia.
Qed.

(** The magic number and the class of the file. *)
Lemma load_elf_ident data (s : St * bmem) log :
  64 <= slice_len data -> base data mod 8 = 0 ->
  load_elf data off (s, log) =
    (if negb (bool_decide (take 4 (contents data) = elf_magic)) then mret (inl (MappingFailed "Invalid ELF magic"))
     else
       class ← lift (index (e_ident (header_of data)) 4);
       if negb (class =? 2) then mret (inl (MappingFailed "Not a 64-bit ELF"))
       else
         println (LogLoading (e_entry (header_of data)) (e_phnum (header_of data)));;
         r ← load_headers data off (e_phoff (header_of data)) (e_phentsize (header_of data)) 0
               (Z.to_nat (e_phnum (header_of data)));
         match r with
         | inl e => mret (inl e)
         | inr _ =>
             stack_bottom ← lift (sub64 USER_STACK_TOP USER_STACK_SIZE);
             println (LogStack stack_bottom USER_STACK_TOP USER_STACK_PAGES);;
             r ← for_pages (load_stack_page off) stack_bottom (page_count stack_bottom USER_STACK_TOP);
             match r with
             | inl e => mret (inl e)
             | inr _ => println (LogLoaded (e_entry (header_of data)));;
                        mret (inr (mkLoad (e_entry (header_of data)) USER_STACK_TOP))
             end
         end) (s, log).
Proof.
  intros Hlen Hbase. unfold load_elf.
  rewrite header_size_ok, (proj2 (Z.ltb_ge _ _)) by lia.
  assert (aligned_ref data 0 = Ret ()) as E1 by (unfold aligned_ref; by rewrite Z.add_0_r, Hbase).
  run (run_lift _ (s, log) _ E1). cbv zeta. fold (header_of data).
  assert (subslice (mkSlice 0 (e_ident (header_of data))) 0 4 = Ret (take 4 (contents data))) as E2.
  { unfold header_of. rewrite read_header_ok by done. unfold subslice, slice_len in *.
    cbn [contents e_ident]. rewrite length_take.
    rewrite (proj2 (Z.leb_le 0 4)), (proj2 (Z.leb_le 4 _)) by lia. cbn [andb].
    change (Z.to_nat (4 - 0)) with 4%nat. change (Z.to_nat 0) with 0%nat.
    by rewrite drop_0, take_take. }
  by run (run_lift _ (s, log) _ E2).
Qed.

(** The checks before the first program header pass. *)
Lemma load_elf_start data (s : St * bmem) log :
  elf_header_wf data ->
  load_elf data off (s, log) =
    (r ← load_headers data off (e_phoff (header_of data)) (e_phentsize (header_of data)) 0
           (Z.to_nat (e_phnum (header_of data)));
     match r with
     | inl e => mret (inl e)
     | inr _ =>
         stack_bottom ← lift (sub64 USER_STACK_TOP USER_STACK_SIZE);
         println (LogStack stack_bottom USER_STACK_TOP USER_STACK_PAGES);;
         r ← for_pages (load_stack_page off) stack_bottom (page_count stack_bottom USER_STACK_TOP);
         match r with
         | inl e => mret (inl e)
         | inr _ => println (LogLoaded (e_entry (header_of data)));;
                    mret (inr (mkLoad (e_entry (header_of data)) USER_STACK_TOP))
         end
     end) (s, log ++ [LogLoading (e_entry (header_of data)) (e_phnum (header_of data))]).
Proof.
  intros [Hbase Hb Hlen Hmagic Hclass]. rewrite (load_elf_ident data s log) by (done || lia).
  rewrite bool_decide_true by done. cbn [negb].
  assert (index (e_ident (header_of data)) 4 = Ret 2) as E3.
  { apply index_ok. unfold header_of. rewrite read_header_ok by apply Hlen. cbn [e_ident].
    by rewrite lookup_take_lt by lia. }
  run (run_lift _ (s, log) _ E3). rewrite Z.eqb_refl. cbn [negb].
  by run (run_println (LogLoading (e_entry (header_of data)) (e_phnum (header_of data))) s log).
Qed.

(** The pages of the segments and of the stack are mapped and filled. *)
Lemma load_elf_loads data (s : St * bmem) log :
  elf_wf data -> elf_room s data ->
  exists s' log', load_elf data off (s, log) =
      Ret (inr (mkLoad (e_entry (header_of data)) USER_STACK_TOP), (s', log')) /\
    loaded s s' (stack_images ++ elf_images data).
Proof.
  intros [Hwf Hhd] [Hinv Hfree Hnd Hav]. rewrite (load_elf_start data s log Hwf).
  pose proof Hwf as [_ _ Hlen _ _]. destruct (header_nonneg data Hwf) as [Hpo Hps].
  set (log0 := log ++ _). rewrite fmap_app in Hfree. apply Forall_app in Hfree as [Hfs Hfe].
  destruct (load_headers_run data (e_phoff (header_of data)) (e_phentsize (header_of data)) s 0
    (Z.to_nat (e_phnum (header_of data))) s log0 []) as (s1 & log1 & E1 & Hld1);
    [lia|done|done|rewrite program_header_size_ok; lia|lia|done|by apply loaded_nil|done| | |].
  { rewrite app_nil_r. rewrite fmap_app in Hnd. by apply NoDup_app in Hnd as (_ & _ & ?). }
  { rewrite app_nil_r. rewrite length_app in Hav. unfold elf_images, phdr_indices in Hav. lia. }
  rewrite app_nil_r in Hld1. change (loaded s s1 (elf_images data)) in Hld1. run E1. cbv iota.
  assert (sub64 USER_STACK_TOP USER_STACK_SIZE = Ret (USER_STACK_TOP - USER_STACK_SIZE)) as E2 by (by apply sub64_ok).
  run (run_lift _ (s1, log1) _ E2).
  run (run_println (LogStack (USER_STACK_TOP - USER_STACK_SIZE) USER_STACK_TOP USER_STACK_PAGES) s1 log1).
  set (log2 := log1 ++ _). unfold stack_images in Hfs, Hnd, Hav. rewrite <- list_fmap_compose in Hfs.
  destruct (for_pages_run s _ _ (USER_STACK_TOP - USER_STACK_SIZE) 16 s1 log2 (elf_images data)
    (load_stack_page_loads s) Hld1) as (s2 & log3 & E3 & Hld2).
  { by rewrite list_fmap_id in Hfs. }
  { rewrite fmap_app, <- list_fmap_compose, list_fmap_id in Hnd. done. }
  { rewrite length_app, length_fmap in Hav. unfold stack_pages in Hav. by rewrite length_page_list in Hav. }
  change (page_count (USER_STACK_TOP - USER_STACK_SIZE) USER_STACK_TOP) with 16%nat. run E3. cbv iota.
  run (run_println (LogLoaded (e_entry (header_of data))) s2 log3).
  eexists s2, _. split; [done|exact Hld2].
Qed.

(** The image of the page of an address in a segment or in the stack. *)
Lemma segment_page data i x : let ph := phdr_of data i in
  elf_wf data -> 0 <= i < e_phnum (header_of data) -> p_type ph = 1 -> p_vaddr ph <= x < p_vaddr ph + p_memsz ph ->
  (x / 4096 * 4096, (segment_flags (p_flags ph), seg_byte data ph)) ∈ stack_images ++ elf_images data.
Proof.
  intros ph [_ Hhd] Hi Hty Hx. assert (i ∈ phdr_indices data) as Hii by (apply zseq_elem; lia).
  rewrite Forall_forall in Hhd. destruct (Hhd i Hii) as [_ _ Hseg].
  change (phdr data _ _ i) with ph in Hseg. destruct (Hseg Hty) as [Hv _ _ _ _].
  apply elem_of_app. right. unfold elf_images. apply list_elem_of_join. exists (seg_images data ph). split.
  - unfold seg_images. apply list_elem_of_fmap. eexists. split; [reflexivity|]. by apply seg_pages_cover.
  - apply list_elem_of_fmap. exists i. split; [|done]. unfold phdr_images. change (phdr data _ _ i) with ph.
    by rewrite Hty.
Qed.
Lemma stack_page data x : USER_STACK_TOP - USER_STACK_SIZE <= x < USER_STACK_TOP ->
  (x / 4096 * 4096, (stack_flags, fun _ => 0)) ∈ stack_images ++ elf_images data.
Proof.
  intros Hx. apply elem_of_app. left. apply list_elem_of_fmap. eexists. split; [reflexivity|]. by apply stack_cover.
Qed.

Lemma loaded_segment s s' data i x : let ph := phdr_of data i in
  elf_wf data -> loaded s s' (stack_images ++ elf_images data) ->
  0 <= i < e_phnum (header_of data) -> p_type ph = 1 -> p_vaddr ph <= x < p_vaddr ph + p_memsz ph ->
  user_byte s' x = Some (segment_flags (p_flags ph),
    if decide (x < p_vaddr ph + p_filesz ph)
    then default 0 (contents data !! Z.to_nat (p_offset ph + (x - p_vaddr ph))) else 0).
Proof.
  intros ph Hwf Hld Hi Hty Hx.
  rewrite (loaded_user_byte s s' _ _ _ _ x Hld (segment_page data i x Hwf Hi Hty Hx) eq_refl). fold ph.
  unfold seg_byte. do 2 f_equal. destruct (decide (x < p_vaddr ph + p_filesz ph));
    [by rewrite decide_True by lia|by rewrite decide_False by lia].
Qed.
Lemma loaded_stack s s' data x :
  loaded s s' (stack_images ++ elf_images data) -> USER_STACK_TOP - USER_STACK_SIZE <= x < USER_STACK_TOP ->
  user_byte s' x = Some (stack_flags, 0).
Proof. intros Hld Hx. by rewrite (loaded_user_byte s s' _ _ _ _ x Hld (stack_page data x Hx) eq_refl). Qed.

(** C13: loading a well-formed executable into room for it succeeds and returns
    the entry point of the header and the top of the stack.  Afterwards user space
    holds, at every address of every loadable segment, the byte of the file, or
    zero past the file's part, in a page that is user-accessible and not
    executable unless the segment asks for it; the sixteen stack pages are zero
    and not executable; and no other page of the address space has changed. *)
Theorem load_elf_correct data (s : St * bmem) log :
  elf_wf data -> elf_room s data ->
  exists s' log',
    load_elf data off (s, log) =
      Ret (inr (mkLoad (e_entry (header_of data)) USER_STACK_TOP), (s', log')) /\
    (forall i x, let ph := phdr_of data i in
      0 <= i < e_phnum (header_of data) -> p_type ph = 1 -> p_vaddr ph <= x < p_vaddr ph + p_memsz ph ->
      user_byte s' x = Some (segment_flags (p_flags ph),
        if decide (x < p_vaddr ph + p_filesz ph)
        then default 0 (contents data !! Z.to_nat (p_offset ph + (x - p_vaddr ph))) else 0)) /\
    (forall x, USER_STACK_TOP - USER_STACK_SIZE <= x < USER_STACK_TOP ->
      user_byte s' x = Some (stack_flags, 0)) /\
    (forall pg, pg ∉ (fst <$> stack_images ++ elf_images data) -> us_map s' pg = us_map s pg).
Proof.
  intros Hwf Hroom. destruct (load_elf_loads data s log Hwf Hroom) as (s2 & log' & E & Hld2).
  exists s2, log'. split; [done|]. split_and!.
  - intros i x ph. by apply (loaded_segment s).
  - intros x. by apply (loaded_stack s s2 data).
  - intros pg Hpg. by apply (ld_other _ _ _ Hld2).
Qed.

End theorems.

(** ** Witnesses: a mapper that keeps its pages in a list, and a small file *)

Module Demo.
#[local] Instance demo_ck : OverflowChecks := true.

#[local] Instance demo_virt : VirtAddrApi := {|
  virt_new a := if Paging.Demo.canonicalb a then Ret a else Panic;
  page_containing a := a / 4096 * 4096;
|}.
#[local] Instance demo_virt_laws : VirtAddrLaws.
Proof.
  constructor; [|reflexivity]. intros a Ha. unfold virt_new, demo_virt. by rewrite Paging.Demo.canonicalb_ok.
Qed.

#[local] Instance demo_goblin : GoblinApi := {|
  goblin_error := unit;
  size_of_Header := 64;
  size_of_ProgramHeader := 56;
  read_header bs := mkHeader (take 16 bs) (field bs 24 8) (field bs 32 8) (field bs 54 2) (field bs 56 2);
  read_program_header bs :=
    mkPhdr (field bs 0 4) (field bs 4 4) (field bs 8 8) (field bs 16 8) (field bs 32 8) (field bs 40 8);
|}.
#[local] Instance demo_goblin_laws : GoblinLaws.
Proof. constructor; reflexivity. Qed.

(** Frames are numbered from 1; [dfree] are left; tables take none. *)
Record dmapper := mkD { dmap : list (Z * (Z * PageTableFlags)); dnext : nat; dfree : nat }.
Fixpoint dframes (n : nat) : list Z :=
  match n with O => [] | S k => 4096 * Z.of_nat n :: dframes k end.
Fixpoint dlookup (l : list (Z * (Z * PageTableFlags))) (pg : Z) : option (Z * PageTableFlags) :=
  match l with [] => None | (q, v) :: l => if decide (pg = q) then Some v else dlookup l pg end.

#[local] Instance dmapper_ops : UserMapper dmapper := {|
  frame_alloc := fun '(d, m) =>
    match dfree d with
    | O => Ret (None, (d, m))
    | S n => Ret (Some (4096 * Z.of_nat (S (dnext d))), (mkD (dmap d) (S (dnext d)) n, m))
    end;
  map_to pg f flags := fun '(d, m) =>
    match dlookup (dmap d) pg with
    | Some _ => Ret (false, (d, m))
    | None => Ret (true, (mkD ((pg, (f, flags)) :: dmap d) (dnext d) (dfree d), m))
    end;
|}.

Definition demo_off : Z := 2 ^ 40.

Lemma dframes_elem n f : f ∈ dframes n <-> exists k, (1 <= k <= n)%nat /\ f = 4096 * Z.of_nat k.
Proof.
  induction n as [|n IH]; cbn [dframes]; [rewrite elem_of_nil; naive_solver lia|].
  rewrite elem_of_cons, IH. split.
  - intros [->|(k & ? & ->)]; [exists (S n)|exists k]; lia.
  - intros (k & Hk & ->). destruct (decide (k = S n)) as [->|]; [by left|right; exists k; lia].
Qed.

#[local] Instance dmapper_spec : UserMapperSpec dmapper demo_off.
Proof.
  refine {| us_inv s := (dnext s.1 + dfree s.1 <= 1000)%nat;
            us_map s := dlookup (dmap s.1); us_frames s := dframes (dnext s.1);
            us_avail s := dfree s.1; us_blocked _ := False |}.
  - intros [d m] f Hi (k & Hk & ->)%dframes_elem. simpl in *. unfold demo_off.
    split_and!; [lia|exists (Z.of_nat k); lia|lia|lia].
  - intros [d m] Hi. simpl in *. destruct (dfree d) as [|n] eqn:Hn; [by eexists|].
    eexists _, _. split; [done|]. cbn [fst snd dnext dfree dmap]. split_and!; try done; [lia|].
    intros (k & Hk & E)%dframes_elem. lia.
  - intros [d m] pg f flags Hi Hf Hm _ Hav. simpl in *. rewrite Hm. eexists. split; [done|].
    cbn [fst snd dnext dfree dmap dlookup]. split_and!; try done. lia.
  - intros [d m] pg f flags Hi Hm. simpl in *. destruct (dlookup (dmap d) pg); [by eexists|done].
  - done.
Defined.

Definition le_bytes (n : nat) (v : Z) : list Z := (fun i => v / 256 ^ Z.of_nat i mod 256) <$> seq 0 n.
(** One segment of four bytes of file and eight of memory at 0x400000. *)
Definition demo_file : list Z :=
  [0x7f; 0x45; 0x4c; 0x46; 2; 1; 1; 0] ++ replicate 8 0 ++ le_bytes 2 2 ++ le_bytes 2 62 ++ le_bytes 4 1 ++
  le_bytes 8 0x400000 ++ le_bytes 8 64 ++ le_bytes 8 0 ++ le_bytes 4 0 ++ le_bytes 2 64 ++ le_bytes 2 56 ++
  le_bytes 2 1 ++ le_bytes 2 0 ++ le_bytes 2 0 ++ le_bytes 2 0 ++
  le_bytes 4 1 ++ le_bytes 4 5 ++ le_bytes 8 120 ++ le_bytes 8 0x400000 ++ le_bytes 8 0 ++ le_bytes 8 4 ++
  le_bytes 8 8 ++ le_bytes 8 4096 ++ [0xeb; 0xfe; 0x90; 0x90].
Definition demo_data : slice := mkSlice 0x1000 demo_file.
Definition demo_state : dmapper * bmem := (mkD [] 0 100, ∅).

Lemma demo_header_wf : elf_header_wf demo_data.
Proof.
  constructor; [reflexivity|by_decide|vm_compute; split; congruence|reflexivity|reflexivity].
Qed.

Lemma demo_wf : elf_wf demo_data.
Proof.
  constructor; [exact demo_header_wf|].
  assert (phdr_indices demo_data = [0]) as -> by reflexivity. constructor; [|constructor].
  constructor; [vm_compute; congruence|reflexivity|]. intros _.
  constructor; vm_compute; try split; congruence.
Qed.

Lemma demo_room : elf_room demo_state demo_data.
Proof.
  assert ((fst <$> stack_images ++ elf_images demo_data) =
    page_list 0x7FFFEF000 16 ++ [0x400000]) as E by (vm_compute; reflexivity).
  constructor; [simpl; lia| | |vm_compute; lia].
  - rewrite E. apply Forall_forall. intros pg Hpg.
    assert (exists q, pg = q * 4096 /\ 0 <= q <= 8388606) as (q & -> & Hq).
    { apply elem_of_app in Hpg as [(i & Hi & ->)%page_list_elem| ->%list_elem_of_singleton];
        [exists (8388591 + Z.of_nat i)|exists 1024]; lia. }
    constructor; [by rewrite Z.div_mul|lia|lia|reflexivity|intros []].
  - rewrite E. by_decide.
Qed.

Lemma load_elf_correct_witness :
  exists s' log', load_elf demo_data demo_off (demo_state, []) =
    Ret (inr (mkLoad 0x400000 USER_STACK_TOP), (s', log')).
Proof.
  destruct (load_elf_correct demo_data demo_state [] demo_wf demo_room) as (s' & log' & E & _).
  exists s', log'. exact E.
Defined.
End Demo.
