(* ===== verification/ElfRefusals.v ===== *)
(** * Files the ELF loader refuses

    [load_elf] of [kernel/src/tasks/elf.rs] on files that are not well-formed:
    which of its checks fails first, at any program header, and what has been
    loaded by then. *)
From stdpp Require Import strings.
From S2P Require Import Prelude Machine X86Api Paging UserSpace Elf ElfProofs ElfLoad ElfTheorems.

Section refusals.
Context {ck : OverflowChecks} {off : Z} `{GoblinLaws} `{VirtAddrLaws} {St : Type} `{UserMapperSpec St off}.



(** ** The loops up to the failure *)





(** ** Segments that fail *)





End refusals.

(** ** Witnesses: a file with two program headers *)

Module Demo.
Import ElfTheorems.Demo.
#[local] Existing Instances demo_ck demo_virt demo_virt_laws demo_goblin demo_goblin_laws dmapper_ops dmapper_spec.





End Demo.
