(* ===== verification/MemoryBoot.v ===== *)
(** * From the boot memory map to the heap: [kernel/src/main.rs]

    [main] gives every frame the boot frame allocator still has to the buddy
    allocator of the heap.  This file models that step and shows what the heap
    owns after it. *)
From Stdlib Require Import Sorting.Sorted.
From S2P Require Import Prelude Machine X86Api Buddy BuddySpec BuddyProofs BuddySystem.
From S2P Require Import BootFrames BootFramesProofs BootInit BootSystem.
From S2P Require Import Slub SlubRep GlobalAlloc PageProvider HeapRep HeapProofs HeapSystem HeapTheorems BootTheorems Paging UserSpace.

Section code.
Context {ck : OverflowChecks} `{SlabLayout} `{PhysFrameApi} `{VirtAddrApi}.

(** [phys_mem_offset + phys_addr.as_u64()] *)
Definition virt_add (a b : Z) : outcome Z := c ← add64 a b; virt_new c.

(** The loop over the frames. *)
Fixpoint add_frames (phys_mem_offset : Z) (frames : list Z) : M (KHeap * mem) () :=
  match frames with
  | [] => mret ()
  | phys_addr :: frames =>
      virt_addr ← lift (virt_add phys_mem_offset phys_addr);
      GlobalAlloc.add_frame virt_addr;;
      add_frames phys_mem_offset frames
  end.

(** [frame_allocator] is only read. *)
Definition boot_heap (frame_allocator : BootInfoFrameAllocator) (phys_mem_offset : Z) : M (KHeap * mem) () :=
  init_heap phys_mem_offset;;
  frames ← lift (usable_frames frame_allocator);
  add_frames phys_mem_offset frames.
End code.

Section proofs.
Context {ck : OverflowChecks} `{SlabLayoutLaws} `{PhysFrameLaws} `{VirtAddrLaws}.

(** A frame beyond the managed gigabyte changes nothing. *)
Lemma add_frame_ignored off fed h m S live frames a :
  heap_rep off fed h m S live frames -> off + MAX_PAGES * Buddy.PAGE_SIZE <= a ->
  GlobalAlloc.add_frame a (h, m) = Ret ((), (h, m)).
Proof.
  intros Hrep Ha. destruct (hr_provider _ _ _ _ _ _ _ Hrep) as (p & Hp & [_ Hoff _ (L & [Hc _] & _)]).
  assert (h = unlocked (caches h) (Some p)) as -> by (destruct h; simpl in *; by subst).
  unfold GlobalAlloc.add_frame. apply run_locked_provider_unit. unfold on_frames.
  assert (Buddy.add_frame a (frame_allocator p, m) = Ret ((), (frame_allocator p, m))) as ->.
  { unfold Buddy.add_frame. run (run_out_of_range _ _ _ a Hc). rewrite Hoff, (proj2 (Z.leb_le _ a)) by lia.
    by rewrite orb_true_r. }
  by destruct p.
Qed.

Lemma virt_add_ok a b : 0 <= a -> 0 <= b -> a + b < 2 ^ 47 -> virt_add a b = Ret (a + b).
Proof.
  intros. unfold virt_add. rewrite add64_ok by lia. cbn. apply virt_new_ok. unfold canonical. lia.
Qed.

(** The pages of frame addresses. *)
Definition frame_pages (l : list Z) (x : Z) : Prop := 0 <= x < MAX_PAGES /\ Buddy.PAGE_SIZE * x ∈ l.

Lemma add_frames_run off m0 l : forall h m fed,
  0 < off -> (4096 | off) -> (forall f, f ∈ l -> off + f < 2 ^ 47) ->
  off + MAX_PAGES * Buddy.PAGE_SIZE < U64_LIM ->
  hreach off m0 (mkHsys h m [] [] fed) -> NoDup l ->
  (forall f, f ∈ l -> 0 <= f < PHYS_LIM /\ (4096 | f) /\ f / 4096 ∉ fed) ->
  exists h' m' fed', add_frames off l (h, m) = Ret ((), (h', m')) /\
    hreach off m0 (mkHsys h' m' [] [] fed') /\ (forall x, x ∈ fed' <-> x ∈ fed \/ frame_pages l x).
Proof.
  induction l as [|f l IH]; intros h m fed Hoff Hal Hcan Hhi Hr Hnd Hl.
  - exists h, m, fed. split_and!; [done..|]. intros x. unfold frame_pages. set_solver.
  - destruct (Hl f ltac:(left)) as ([Hf0 Hf1] & [k ->] & Hnew). rewrite Z.div_mul in Hnew by done.
    apply NoDup_cons in Hnd as [Hfl Hnd].
    assert (virt_add off (k * 4096) = Ret (BuddyProofs.addr off k)) as E1.
    { specialize (Hcan (k * 4096) ltac:(left)). rewrite virt_add_ok by lia.
      unfold BuddyProofs.addr, Buddy.PAGE_SIZE. f_equal. lia. }
    destruct (hreach_inv off m0 _ ltac:(lia) Hal Hhi Hr) as [S Hinv]. unfold hinv in Hinv. cbn in Hinv.
    cbn [add_frames]. run (run_lift _ (h, m) _ E1).
    assert (forall x, frame_pages ((k * 4096) :: l) x <-> frame_pages l x \/ (x = k /\ k < MAX_PAGES)) as Hfp.
    { intros x. unfold frame_pages. rewrite elem_of_cons. change Buddy.PAGE_SIZE with 4096.
      split; [intros [Hx [E|?]]; [right; lia|by left]|intros [[? ?]|[-> ?]]; [by auto|split; [lia|left; lia]]]. }
    destruct (decide (k < MAX_PAGES)) as [Hk|Hk].
    + assert (good_frame off k) as Hg.
      { unfold good_frame. constructor; [unfold MAX_ORDER; lia|by exists k; rewrite Z.mul_1_r|lia| |].
        - change (bsz 0) with 1. lia.
        - unfold Buddy.PAGE_SIZE. lia. }
      destruct (heap_add_frame_ok off fed h m S [] [] k Hinv Hg Hnew) as (h1 & m1 & E2 & _). run E2.
      destruct (IH h1 m1 (k :: fed)) as (h' & m' & fed' & E & Hr' & Hfed); [done|done| |done| |done| |].
      { intros f Hf. apply Hcan. by right. }
      { eapply hreach_step; [exact Hr|]. by apply h_add_frame. }
      { intros f Hf. destruct (Hl f ltac:(by right)) as (? & Hd & Hn). split; [done|]. split; [done|].
        rewrite elem_of_cons. intros [E|?]; [|done]. destruct Hd as [q ->]. rewrite Z.div_mul in E by done. by subst. }
      exists h', m', fed'. split_and!; [done|done|]. intros x. rewrite Hfed, Hfp, elem_of_cons. naive_solver.
    + rewrite (run_bind _ _ _ _ _ (add_frame_ignored off fed h m S [] [] (BuddyProofs.addr off k) Hinv
        ltac:(unfold BuddyProofs.addr, Buddy.PAGE_SIZE; lia))).
      destruct (IH h m fed) as (h' & m' & fed' & E & Hr' & Hfed); [done|done| |done|done|done| |].
      { intros f Hf. apply Hcan. by right. }
      { intros f Hf. apply Hl. by right. }
      exists h', m', fed'. split_and!; [done|done|]. intros x. rewrite Hfed, Hfp. naive_solver.
Qed.

Lemma sorted_NoDup (l : list Z) : StronglySorted Z.lt l -> NoDup l.
Proof.
  induction 1 as [|a l _ IH Hf]; constructor; [|done]. intros Ha. rewrite Forall_forall in Hf. specialize (Hf a Ha). lia.
Qed.

Lemma free_byte_bounds s f : boot_inv s -> free_byte (active s) f -> 0 <= f < PHYS_LIM.
Proof.
  intros Hinv (r & Hr & Hf). pose proof (proj1 (Forall_forall _ _) (rs_wf _ (bi_ranges _ Hinv)) r Hr) as [].
  unfold in_range in Hf. lia.
Qed.

(** A frame the boot allocator hands out was free. *)
Lemma allocated_frame_free s f s1 :
  boot_inv s -> BootFrames.allocate_frame s = Ret (Some f, s1) -> free_byte (active s) f /\ (4096 | f).
Proof.
  intros Hinv Ha. destruct (allocate_aligned_run s 1 12 Hinv) as (res & s2 & E2 & Hres);
    [unfold request_ok, BootFrames.PAGE_SIZE; lia|].
  change (BootFrames.allocate_frame s) with (allocate_contiguous_aligned 1 (2 ^ 12) s) in Ha.
  rewrite Ha in E2. simplify_eq. destruct Hres as (r & _ & Hfr & _ & [_ Hfb _ _ _]).
  destruct (round_up_spec (2 ^ 12) (start r)) as [_ Hd]; [done|]. rewrite <- Hfr in Hd.
  split; [|exact Hd]. apply Hfb. unfold BootFrames.PAGE_SIZE. lia.
Qed.

(** Without blocks and frames in use every page of the heap is free. *)
Lemma idle_heap_free off m x :
  0 <= off -> (4096 | off) -> off + MAX_PAGES * Buddy.PAGE_SIZE < U64_LIM ->
  hreach off m x -> hs_live x = [] -> hs_frames x = [] ->
  exists p L, data (page_allocator (hs_heap x)) = Some p /\ buddy_rep (frame_allocator p) (hs_mem x) L /\
    forall y, y ∈ hs_fed x <-> BuddySpec.free_page L y.
Proof.
  intros Hlo Hal Hhi Hr Hl Hf. destruct (hreach_inv off m x Hlo Hal Hhi Hr) as [S Hinv].
  pose proof (pages_used_bound _ _ _ _ _ _ _ Hinv) as Hlen.
  destruct (hr_provider _ _ _ _ _ _ _ Hinv) as (p & Hp & [_ _ _ (L & HL & _ & Hfed)]).
  exists p, L. rewrite Hp. split_and!; [done|done|]. intros y. rewrite Hfed.
  destruct (mjoin (groups S (hs_live x) (hs_frames x))); [set_solver|]. rewrite Hl, Hf in Hlen. simpl in Hlen. lia.
Qed.

(** The heap is fed exactly the free frames of the first gigabyte. *)
Lemma boot_heap_run s off m :
  boot_inv s -> 0 < off -> (4096 | off) -> off + MAX_PAGES * Buddy.PAGE_SIZE < U64_LIM ->
  (forall f, free_byte (active s) f -> off + f < 2 ^ 47) ->
  exists h' m' fed, boot_heap s off (heap_new, m) = Ret ((), (h', m')) /\ hreach off m (mkHsys h' m' [] [] fed) /\
    (forall x, x ∈ fed <-> 0 <= x < MAX_PAGES /\ free_byte (active s) (Buddy.PAGE_SIZE * x)).
Proof.
  intros Hinv Hoff Hal Hhi Hcan. destruct (usable_frames_run s Hinv) as (l & El & Hsort & Hl).
  set (h0 := mkHeap SlubAllocator_new (mkMutex false (Some (mkPages (set_offset off (new BITMAP_STORAGE)))))).
  assert (init_heap off (heap_new, m) = Ret ((), (h0, m))) as E0 by reflexivity.
  destruct (add_frames_run off m l h0 m []) as (h' & m' & fed & E & Hr & Hfed); [done|done| |done| |by apply sorted_NoDup| |].
  { intros f [_ Hf]%Hl. by apply Hcan. }
  { apply hreach_init. exists h0. by split. }
  { intros f [Hd Hf]%Hl. split; [by eapply free_byte_bounds|]. split; [done|apply not_elem_of_nil]. }
  exists h', m', fed. split_and!; [|done|].
  - unfold boot_heap. run E0. run (run_lift _ (h0, m) _ El). exact E.
  - intros x. rewrite Hfed. unfold frame_pages. rewrite elem_of_nil, Hl.
    assert (BootFrames.PAGE_SIZE | Buddy.PAGE_SIZE * x) by (exists x; unfold BootFrames.PAGE_SIZE, Buddy.PAGE_SIZE; lia). tauto.
Qed.

(** C12: giving the memory to the heap.  From the boot frame allocator's state the
    step returns, without panic, a reachable heap that owns, all of it free,
    exactly the frames of the first gigabyte that were free there; frames beyond
    are ignored.  The boot allocator is not told: a frame it hands out afterwards
    is at the same time a free page of the heap. *)
Theorem boot_heap_owns_free_frames s off m :
  boot_inv s -> 0 < off -> (4096 | off) -> off + MAX_PAGES * Buddy.PAGE_SIZE < U64_LIM ->
  (forall f, free_byte (active s) f -> off + f < 2 ^ 47) ->
  exists h' m' fed p L, boot_heap s off (heap_new, m) = Ret ((), (h', m')) /\
    hreach off m (mkHsys h' m' [] [] fed) /\
    data (page_allocator h') = Some p /\ buddy_rep (frame_allocator p) m' L /\
    (forall x, BuddySpec.free_page L x <-> 0 <= x < MAX_PAGES /\ free_byte (active s) (Buddy.PAGE_SIZE * x)) /\
    (forall f s1, BootFrames.allocate_frame s = Ret (Some f, s1) -> f < MAX_PAGES * Buddy.PAGE_SIZE ->
      BuddySpec.free_page L (f / Buddy.PAGE_SIZE)).
Proof.
  intros Hinv Hoff Hal Hhi Hcan. destruct (boot_heap_run s off m Hinv Hoff Hal Hhi Hcan) as (h' & m' & fed & E & Hr & Hfed).
  destruct (idle_heap_free off m _ ltac:(lia) Hal Hhi Hr eq_refl eq_refl) as (p & L & Hp & HL & Hfree). cbn [hs_fed] in Hfree.
  assert (forall x, BuddySpec.free_page L x <-> 0 <= x < MAX_PAGES /\ free_byte (active s) (Buddy.PAGE_SIZE * x)) as Hown
    by (intros x; by rewrite <- Hfree, Hfed).
  exists h', m', fed, p, L. split_and!; [done..|].
  intros f s1 Ha Hf. apply Hown.
  destruct (allocated_frame_free s f s1 Hinv Ha) as [Hfb [q ->]]. pose proof (free_byte_bounds s _ Hinv Hfb).
  change Buddy.PAGE_SIZE with 4096 in Hf |- *. rewrite Z.div_mul by done. split; [lia|]. by rewrite Z.mul_comm.
Qed.
End proofs.

(** ** Witness: the memory map of the boot allocator's witness *)

Module Demo.
Import ReferenceApi.
#[local] Existing Instances BootTheorems.Demo.demo_checks HeapTheorems.Demo.demo_layout HeapTheorems.Demo.demo_layout_laws.
#[local] Instance demo_virt : VirtAddrApi := {| virt_new := Ret; page_containing := fun a => a / 4096 * 4096 |}.
#[local] Instance demo_virt_laws : VirtAddrLaws.
Proof. by constructor. Qed.

Lemma boot_heap_owns_free_frames_witness :
  exists h' m', boot_heap BootTheorems.Demo.demo_state (2 ^ 40) (heap_new, ∅) = Ret ((), (h', m')).
Proof.
  destruct (boot_heap_owns_free_frames BootTheorems.Demo.demo_state (2 ^ 40) ∅ BootTheorems.Demo.demo_inv)
    as (h' & m' & _ & _ & _ & E & _); [lia|by exists 268435456|reflexivity| |].
  - intros f Hf. assert (active BootTheorems.Demo.demo_state = BootTheorems.Demo.demo_ranges) as Ea by reflexivity.
    rewrite Ea in Hf. destruct Hf as (r & Hr & Hf). unfold BootTheorems.Demo.demo_ranges in Hr.
    apply elem_of_cons in Hr as [->|Hr]; [|apply list_elem_of_singleton in Hr as ->]; unfold in_range in Hf; simpl in Hf; lia.
  - exists h', m'. exact E.
Defined.
End Demo.
