(* ===== verification/Spawn.v ===== *)
(** * Creating and starting the first task: [Task::from_elf] of
    [kernel/src/tasks/task.rs] and the end of [kernel/src/main.rs]

    An executable is loaded, a task made of it, given to the scheduler and
    entered.  The kernel's heap, from which the task's kernel stack and the
    scheduler's vector come, is an interface next to the mapper's, on the same
    state; [KernelPages] gives both from the code of [kernel/src/mm]. *)
From stdpp Require Import strings.
From S2P Require Import Prelude Machine X86Api Paging UserSpace Elf ElfProofs Cpu Drivers Gdt Tasks.

(** ** The heap *)

(** A block of at most a page comes out of the free pages; it is apart from the
    frames handed out, it changes no mapping, and writes to it do neither. *)
Class GlobalBoxSpec (St : Type) `{UserMapperSpec St off} `{GlobalBox (St * bmem)} := {
  box_live : St -> list (Z * GlobalAlloc.Layout);   (* the blocks allocated *)
  box_alloc_ok s size align : us_inv s -> 0 < size <= 4096 -> (1 <= us_avail s)%nat ->
    exists p s', box_alloc size align s = Ret (p, s') /\ 0 < p /\ p + size < U64_LIM /\
      box_live s'.1 = (p, GlobalAlloc.mkLayout size align) :: box_live s.1 /\
      (forall f a, f ∈ us_frames s -> in_frame off f a -> ~ (p <= a < p + size)) /\
      forall m', (forall a, ~ (p <= a < p + size) -> byte_at m' a = byte_at s'.2 a) ->
        us_inv (s'.1, m') /\ us_frames (s'.1, m') = us_frames s /\
        (us_avail s <= us_avail (s'.1, m') + 1)%nat /\
        (forall pg, us_map (s'.1, m') pg = us_map s pg) /\
        (forall f a, f ∈ us_frames s -> in_frame off f a -> byte_at m' a = byte_at s.2 a);
}.

(** ** [Task::from_elf] *)

Section code.
Context {ck : OverflowChecks} `{GoblinApi} `{VirtAddrApi} {St : Type} `{UserMapper St} `{GlobalBox (St * bmem)}.

(** [Box::new([0u8; n])]: a failed allocation aborts. *)
Definition box_zeroed (n : Z) : M (St * bmem) Z :=
  p ← box_alloc n 1;
  if p =? 0 then panic
  else write_memory p (replicate (Z.to_nat n) 0);; mret p.

Abbreviation L := (M ((St * bmem) * list LogLine)).
Abbreviation TL := (M (Z * ((St * bmem) * list LogLine))).

(** [NEXT_TASK_ID.fetch_add(1)] wraps. *)
Definition fetch_next_id : TL Z := fun '(n, s) => Ret (n, ((n + 1) mod U64_LIM, s)).
Definition on_loader {A} (f : L A) : TL A := fun '(n, s) =>
  match f s with
  | Ret (a, s') => Ret (a, (n, s'))
  | Panic => Panic | Undef => Undef | Hang => Hang | OutOfFuel => OutOfFuel
  end.

Definition from_elf (sel : Selectors) (elf_data : slice) (phys_mem_offset : Z) : TL (Error + Task) :=
  id ← fetch_next_id;
  r ← on_loader (load_elf elf_data phys_mem_offset);
  match r with
  | inl e => mret (inl e)
  | inr (mkLoad entry_point stack_top) =>
      kernel_stack ← on_loader (us (box_zeroed KERNEL_STACK_SIZE));
      let context := new_user sel entry_point stack_top in
      mret (inr (mkTask id Ready context kernel_stack))
  end.

(** ** The end of [main] *)

(** The machine: the loader's state, the task counter, the registers, and the
    scheduler with the devices. *)
Record machine := mkMachine {
  m_loader : St * bmem;
  next_task_id : Z;
  m_regs : regfile;
  m_kernel : kernel;
  m_mem : mem;
}.

(** A line of the loader as it is printed. *)
Definition render (l : LogLine) : list output :=
  match l with
  | LogLoading entry n => [Text "Loading ELF: entry=0x"; Hex entry; Text ", "; Dec n; Text " program headers"; Text newline]
  | LogSegment v ms fs fl => [Text "  LOAD: vaddr=0x"; Hex v; Text ", memsz=0x"; Hex ms; Text ", filesz=0x"; Hex fs;
                              Text ", flags=0x"; Hex fl; Text newline]
  | LogCopy n o => [Text "      Copying "; Dec n; Text " bytes at offset "; Dec o; Text " in page"; Text newline]
  | LogStack b t n => [Text "  Allocating stack: 0x"; Hex b; Text " - 0x"; Hex t; Text " ("; Dec n; Text " pages)"; Text newline]
  | LogLoaded entry => [Text "  ELF loaded successfully, entry=0x"; Hex entry; Text newline]
  end.

(** Rust's [Debug] of the loader's error. *)
Class ErrorDebug := error_debug : Error -> string.
Context {edbg : ErrorDebug} `{CalleeFrame}.

Definition on_kernel {A} (f : M (kernel * mem) A) : M machine A := fun ms =>
  match f (m_kernel ms, m_mem ms) with
  | Ret (a, (k, m)) => Ret (a, mkMachine (m_loader ms) (next_task_id ms) (m_regs ms) k m)
  | Panic => Panic | Undef => Undef | Hang => Hang | OutOfFuel => OutOfFuel
  end.
Definition on_cpu {A} (f : M ((regfile * kernel) * mem) A) : M machine A := fun ms =>
  match f ((m_regs ms, m_kernel ms), m_mem ms) with
  | Ret (a, ((c, k), m)) => Ret (a, mkMachine (m_loader ms) (next_task_id ms) c k m)
  | Panic => Panic | Undef => Undef | Hang => Hang | OutOfFuel => OutOfFuel
  end.
(** A method of the scheduler that uses the heap. *)
Definition on_sched_heap {A} (f : M (Scheduler * (St * bmem)) A) : M machine A := fun ms =>
  let k := m_kernel ms in
  match f (scheduler k, m_loader ms) with
  | Ret (a, (s, h)) =>
      Ret (a, mkMachine h (next_task_id ms) (m_regs ms)
        (mkKernel s (sched_locked k) (tss_rsp0_ptr k) (dev k)) (m_mem ms))
  | Panic => Panic | Undef => Undef | Hang => Hang | OutOfFuel => OutOfFuel
  end.
Definition say (frags : list output) : M machine () := on_kernel (on_dev (serial_println frags)).

(** [Task::from_elf] with its output on the console. *)
Definition main_from_elf (sel : Selectors) (data : slice) (off : Z) : M machine (Error + Task) := fun ms =>
  match from_elf sel data off (next_task_id ms, (m_loader ms, [])) with
  | Ret (r, (n, (s, log))) =>
      (on_kernel (on_dev (serial_print (mjoin (render <$> log))));; mret r)
        (mkMachine s n (m_regs ms) (m_kernel ms) (m_mem ms))
  | Panic => Panic | Undef => Undef | Hang => Hang | OutOfFuel => OutOfFuel
  end.

Definition main_run_user (sel : Selectors) (HELLO_ELF : slice) (phys_mem_offset : Z) : M machine () :=
  say [Text "Creating user tasks..."];;
  say [Text "Embedded hello.elf: "; Dec (slice_len HELLO_ELF); Text " bytes"];;
  say [Text "About to load ELF..."];;
  r ← main_from_elf sel HELLO_ELF phys_mem_offset;
  match r with
  | inl e => say [Text "Failed to load ELF: "; Text (error_debug e)];; panic
  | inr elf_task =>
      say [Text "ELF Task "; Dec (id elf_task); Text " created (entry=0x"; Hex (rip (context elf_task)); Text ")"];;
      on_kernel lock;;
      on_sched_heap (add_task elf_task);;
      k ← on_kernel get_self;
      say [Text "Total tasks: "; Dec (Z.of_nat (task_count (scheduler k)))];;
      on_kernel (on_sched start);;
      on_kernel unlock;;
      say [Text "Switching to first task..."];;
      on_cpu switch_to_first_task
  end.
End code.
