(* ===== verification/KernelPages.v ===== *)
(** * The kernel's own frames and heap under the loader

    The loader and the first task are verified against two interfaces, a mapper
    with its frame allocator and a heap.  Here both are the kernel's: frames
    come from [BuddyFrameAllocator] of [kernel/src/mm/user.rs] and blocks from
    [GlobalAlloc] of [kernel/src/mm/allocator.rs], two clients of the same page
    allocator.  Only the walk of the page tables, code of the [x86_64] crate,
    stays an interface; it asks the same frame allocator for its tables.

    The allocator sees memory as words and the loader as bytes.  Whenever the
    allocator runs, the words of the user frames and of the live blocks are those
    of the bytes the loader and the boxes have written there. *)
From S2P Require Import Prelude Machine X86Api Buddy BuddyProofs Slub SlubRep SlubProofs GlobalAlloc.
From S2P Require Import PageProvider HeapRep HeapProofs HeapSystem Tasks UserSpace Spawn.

(** ** The page tables *)

(** [n] frames in a row. *)
Fixpoint take_frames {S} (alloc : M S (option Z)) (n : nat) : M S bool :=
  match n with
  | O => mret true
  | S n => f ← alloc; match f with Some _ => take_frames alloc n | None => mret false end
  end.

(** [Mapper::map_to] of the [x86_64] crate, with the frame allocator it is given. *)
Class PageTables (T : Type) :=
  pt_map_to : forall S : Type, M S (option Z) -> Z -> Z -> PageTableFlags -> M (T * S) bool.

(** Mapping an unmapped page takes one frame for each table missing on the way,
    at most three; mapping a mapped page fails at once. *)
Class PageTablesSpec (T : Type) `{PageTables T} := {
  pt_inv : T -> Prop;
  pt_map : T -> Z -> option (Z * PageTableFlags);
  pt_blocked : Z -> Prop;
  pt_missing : T -> Z -> nat;
  pt_missing_le t pg : (pt_missing t pg <= 3)%nat;
  pt_map_to_ok S (alloc : M S (option Z)) t s pg f flags s' :
    pt_inv t -> pt_map t pg = None -> ~ pt_blocked pg -> 0 <= f -> (4096 | f) ->
    take_frames alloc (pt_missing t pg) s = Ret (true, s') ->
    exists t', pt_map_to S alloc pg f flags (t, s) = Ret (true, (t', s')) /\ pt_inv t' /\
      forall pg', pt_map t' pg' = if decide (pg' = pg) then Some (f, flags) else pt_map t pg';
  pt_map_to_mapped S (alloc : M S (option Z)) t s pg f flags :
    pt_inv t -> pt_map t pg <> None -> pt_map_to S alloc pg f flags (t, s) = Ret (false, (t, s));
}.

(** ** The state *)

(** The heap with its books, the page tables and the frames of user pages. *)
Record kstate (T : Type) := mkKs { ks_sys : hsys; ks_tables : T; ks_user : list Z }.
Arguments mkKs {T} ks_sys ks_tables ks_user.
Arguments ks_sys {T} k.
Arguments ks_tables {T} k.
Arguments ks_user {T} k.

(** The word at an address, least significant byte first, and the addresses of
    [n] words. *)
Definition word_at (m : bmem) (a : Z) : Z := foldr (fun i w => byte_at m (a + i) + 256 * w) 0 (seqZ 0 8).
Definition word_addrs (a : Z) (n : Z) : list Z := (fun i => a + 8 * i) <$> seqZ 0 n.

Section code.
Context {ck : OverflowChecks} `{SlabLayout} `{PhysFrameApi} (off : Z) {T : Type} `{PageTables T}.

(** [BuddyFrameAllocator], with the frame noted as taken. *)
Definition sys_frame : M hsys (option Z) := fun x =>
  match BuddyFrameAllocator_allocate_frame (hs_heap x, hs_mem x) with
  | Ret (r, (h, m)) =>
      Ret (r, mkHsys h m (hs_live x) (match r with Some f => off + f :: hs_frames x | None => hs_frames x end) (hs_fed x))
  | Panic => Panic | Undef => Undef | Hang => Hang | OutOfFuel => OutOfFuel
  end.
Definition sys_alloc (layout : Layout) : M hsys Z := fun x =>
  match heap_alloc layout (hs_heap x, hs_mem x) with
  | Ret (p, (h, m)) =>
      Ret (p, mkHsys h m (if p =? 0 then hs_live x else (p, layout) :: hs_live x) (hs_frames x) (hs_fed x))
  | Panic => Panic | Undef => Undef | Hang => Hang | OutOfFuel => OutOfFuel
  end.
Definition sys_dealloc (p : Z) (layout : Layout) : M hsys () := fun x =>
  match heap_dealloc p layout (hs_heap x, hs_mem x) with
  | Ret (_, (h, m)) =>
      Ret ((), mkHsys h m (filter (fun b => b.1 <> p) (hs_live x)) (hs_frames x) (hs_fed x))
  | Panic => Panic | Undef => Undef | Hang => Hang | OutOfFuel => OutOfFuel
  end.

(** The memory of the clients, and the heap with its words brought up to date. *)
Definition client_words (k : kstate T) : list Z :=
  mjoin ((fun f => word_addrs (off + f) 512) <$> ks_user k) ++
  mjoin ((fun b => word_addrs b.1 (lsize b.2 / 8)) <$> hs_live (ks_sys k)).
Definition sync (k : kstate T) (m : bmem) : hsys :=
  let x := ks_sys k in
  mkHsys (hs_heap x) (foldr (fun a w => <[a := word_at m a]> w) (hs_mem x) (client_words k))
    (hs_live x) (hs_frames x) (hs_fed x).

Definition on_sys {A} (f : M hsys A) : M (kstate T * bmem) A := fun '(k, m) =>
  match f (sync k m) with
  | Ret (a, x) => Ret (a, (mkKs x (ks_tables k) (ks_user k), m))
  | Panic => Panic | Undef => Undef | Hang => Hang | OutOfFuel => OutOfFuel
  end.

(** A frame for a user page. *)
Definition user_frame : M (kstate T * bmem) (option Z) := fun '(k, m) =>
  match sys_frame (sync k m) with
  | Ret (r, x) => Ret (r, (mkKs x (ks_tables k) (match r with Some f => f :: ks_user k | None => ks_user k end), m))
  | Panic => Panic | Undef => Undef | Hang => Hang | OutOfFuel => OutOfFuel
  end.
Definition table_map_to (pg f : Z) (flags : PageTableFlags) : M (kstate T * bmem) bool := fun '(k, m) =>
  match pt_map_to hsys sys_frame pg f flags (ks_tables k, sync k m) with
  | Ret (b, (t, x)) => Ret (b, (mkKs x t (ks_user k), m))
  | Panic => Panic | Undef => Undef | Hang => Hang | OutOfFuel => OutOfFuel
  end.

#[local] Instance kernel_mapper : UserMapper (kstate T) := {|
  frame_alloc := user_frame;
  map_to := table_map_to;
|}.
#[local] Instance kernel_box : GlobalBox (kstate T * bmem) := {|
  box_alloc size align := on_sys (sys_alloc (mkLayout size align));
  box_dealloc p size align := on_sys (sys_dealloc p (mkLayout size align));
|}.
End code.

(** ** The contracts *)

Lemma filter_ext_in (P Q : Z -> Prop) `{forall y, Decision (P y), forall y, Decision (Q y)} (l : list Z) :
  (forall y, y ∈ l -> P y <-> Q y) -> filter P l = filter Q l.
Proof.
  intros HPQ. induction l as [|y l IH]; [done|]. pose proof (HPQ y ltac:(left)).
  rewrite !filter_cons, IH by (intros z Hz; apply HPQ; by right). by destruct (decide (P y)), (decide (Q y)); try tauto.
Qed.

(** Taking one element out of a predicate. *)
Lemma filter_remove (P Q : Z -> Prop) `{forall y, Decision (P y), forall y, Decision (Q y)} (l : list Z) x :
  NoDup l -> (forall y, y ∈ l -> Q y <-> P y /\ y <> x) ->
  (length (filter P l) <= S (length (filter Q l)))%nat /\
  (x ∈ l -> P x -> length (filter P l) = S (length (filter Q l))).
Proof.
  intros Hnd HPQ. induction l as [|y l IH]; [split; [simpl; lia|by intros []%elem_of_nil]|].
  apply NoDup_cons in Hnd as [Hy Hnd]. destruct (IH Hnd) as [IH1 IH2]; [intros z Hz; apply HPQ; by right|].
  assert (x = y -> length (filter P l) = length (filter Q l)) as Hsame.
  { intros ->. f_equal. apply filter_ext_in. intros z Hz. rewrite (HPQ z) by (by right). split; [|tauto].
    intros Hp. split; [done|]. by intros ->. }
  pose proof (HPQ y ltac:(left)) as Hq. rewrite !filter_cons.
  destruct (decide (P y)) as [Hp|Hp], (decide (Q y)) as [Hq'|Hq']; cbn [length]; try tauto.
  - split; [lia|]. intros [->|Hx]%elem_of_cons Hpx; [tauto|]. by rewrite IH2.
  - destruct (decide (x = y)) as [->|Hne]; [|exfalso; apply Hq', Hq; auto]. rewrite Hsame by done. split; [lia|done].
  - split; [done|]. intros [->|Hx]%elem_of_cons Hpx; [done|]. auto.
Qed.

Section contracts.
Context {ck : OverflowChecks} `{SlabLayoutLaws} `{PhysFrameLaws} (off : Z) {T : Type} `{PageTablesSpec T}.
Hypotheses (Hlow : 0 <= off) (Haligned : (4096 | off)) (Hhigh : off + MAX_PAGES * Buddy.PAGE_SIZE < U64_LIM).

(** The pages added that neither hold a block nor were taken as a frame. *)
Definition page_unused (live : list block) (frames : list Z) (y : Z) : Prop :=
  addr off y ∉ used_pages live frames.
#[local] Instance page_unused_dec live frames y : Decision (page_unused live frames y).
Proof. unfold page_unused. apply _. Defined.
Definition free_count (x : hsys) : nat := length (filter (page_unused (hs_live x) (hs_frames x)) (hs_fed x)).

Lemma unused_exists m0 x : hreach off m0 x -> (1 <= free_count x)%nat ->
  exists y, y ∈ hs_fed x /\ addr off y ∉ used_pages (hs_live x) (hs_frames x).
Proof.
  intros _ Hn. unfold free_count in Hn. destruct (filter _ (hs_fed x)) as [|y l] eqn:E; [simpl in Hn; lia|].
  assert (y ∈ filter (page_unused (hs_live x) (hs_frames x)) (hs_fed x)) as [Hu Hy]%list_elem_of_filter
    by (rewrite E; left). by exists y.
Qed.

(** The latest frame holds no block and is none of the other frames. *)
Lemma frame_unused fed h m S live frames f :
  heap_rep off fed h m S live (f :: frames) -> f ∉ used_pages live frames.
Proof.
  intros Hrep [Hb|Hf]%elem_of_app.
  - apply list_elem_of_fmap in Hb as (b & -> & Hb). pose proof (hr_sizes _ _ _ _ _ _ _ Hrep b Hb).
    assert (HeapRep.in_block b b.1) as Ha by (unfold HeapRep.in_block; lia).
    apply (live_not_frame _ _ _ _ _ _ _ _ _ Hrep Hb Ha). exists (page_of b). split; [left|].
    by eapply block_in_page.
  - destruct Hrep as [_ _ _ _ (p & _ & Hinv)]. destruct (pages_inv_pages _ _ _ _ _ Hinv) as [Hnd _].
    rewrite groups_join in Hnd. apply NoDup_app in Hnd as (_ & _ & Hnd).
    apply NoDup_app in Hnd as (_ & _ & [Hnd _]%NoDup_cons). done.
Qed.

(** A frame is given exactly while a page is unused, and it was unused. *)
Lemma sys_frame_ok m0 x : hreach off m0 x ->
  match free_count x with
  | O => exists x', sys_frame off x = Ret (None, x')
  | S n => exists f x', sys_frame off x = Ret (Some f, x') /\ hreach off m0 x' /\
      hs_frames x' = off + f :: hs_frames x /\ free_count x' = n /\
      0 <= f /\ (4096 | f) /\ off + f ∉ hs_frames x
  end.
Proof.
  intros Hr. destruct (hreach_inv off m0 x Hlow Haligned Hhigh Hr) as [S Hinv]. unfold hinv in Hinv.
  destruct (heap_allocate_frame_ok _ _ _ _ _ _ _ Hinv) as (r & h' & m' & Hrun & Hrep & _ & Hsome & Hnone).
  assert (sys_frame off x = Ret (r, mkHsys h' m' (hs_live x)
    (match r with Some f => off + f :: hs_frames x | None => hs_frames x end) (hs_fed x))) as E.
  { unfold sys_frame, BuddyFrameAllocator_allocate_frame. by rewrite Hrun. }
  destruct r as [f|].
  - destruct (Hsome f eq_refl) as (y & -> & Hy).
    assert (addr off y = off + 4096 * y) as Ha by (unfold addr, Buddy.PAGE_SIZE; lia).
    destruct (heap_pages _ _ _ _ _ _ _ Hrep) as (p & L & _ & _ & _ & _ & _ & Hin).
    assert (y ∈ hs_fed x) as Hfed.
    { destruct (Hin (off + 4096 * y)) as (z & Hz & E'); [unfold used_pages; rewrite elem_of_app; right; left|].
      assert (z = y) as ->; [|done]. unfold addr, Buddy.PAGE_SIZE in E'. lia. }
    pose proof (frame_unused _ _ _ _ _ _ _ Hrep) as Hun. rewrite <- Ha in Hun.
    destruct (filter_remove (page_unused (hs_live x) (hs_frames x))
      (page_unused (hs_live x) (off + 4096 * y :: hs_frames x)) (hs_fed x) y) as [_ Hcount]; [by eapply hreach_fed| |].
    { intros z _. unfold page_unused, used_pages. rewrite !elem_of_app, elem_of_cons, <- Ha, (inj_iff (addr off)). tauto. }
    unfold free_count at 1. rewrite Hcount by done. eexists _, _. split; [exact E|]. split_and!.
    + eapply hreach_step; [exact Hr|]. destruct x. by eapply (h_frame _ _ _ _ _ _ (Some _)).
    + done.
    + done.
    + lia.
    + by exists y; lia.
    + intros Hf. apply Hun. unfold used_pages. rewrite elem_of_app, Ha. by right.
  - destruct (free_count x) as [|n] eqn:Hn; [by eexists|]. exfalso.
    destruct (unused_exists m0 x Hr) as (y & Hy & Hu); [lia|].
    apply Hu. rewrite <- (used_pages_groups _ _ _ _ _ _ _ _ Hinv). by apply Hnone.
Qed.

(** [n] frames are given while [n] pages are unused. *)
Lemma take_frames_ok m0 n x : hreach off m0 x -> (n <= free_count x)%nat ->
  exists x', take_frames (sys_frame off) n x = Ret (true, x') /\ hreach off m0 x' /\
    (forall g, g ∈ hs_frames x -> g ∈ hs_frames x') /\ free_count x = (free_count x' + n)%nat.
Proof.
  revert x. induction n as [|n IH]; intros x Hr Hn; [exists x; split_and!; [done..|lia]|].
  pose proof (sys_frame_ok m0 x Hr) as Hf. destruct (free_count x) as [|c] eqn:Hc; [lia|].
  destruct Hf as (f & x1 & E & Hr1 & Hfr & Hc1 & _).
  destruct (IH x1 Hr1) as (x2 & E2 & Hr2 & Hsub & Hc2); [lia|].
  exists x2. split_and!; [|done| |lia].
  - cbn [take_frames]. by run E.
  - intros g Hg. apply Hsub. rewrite Hfr. by right.
Qed.

(** A block of at most a page is given while a page is unused; it takes one page
    at most. *)
Lemma sys_alloc_ok m0 x layout : hreach off m0 x -> 0 < lsize layout <= 4096 -> (1 <= free_count x)%nat ->
  exists p x', sys_alloc layout x = Ret (p, x') /\ hreach off m0 x' /\ 0 < p /\ p + lsize layout < U64_LIM /\
    hs_live x' = (p, layout) :: hs_live x /\ hs_frames x' = hs_frames x /\
    (forall a, p <= a < p + lsize layout -> ~ in_pages (hs_frames x) a) /\
    (free_count x <= free_count x' + 1)%nat.
Proof.
  intros Hr Hs Hn. destruct (hreach_inv off m0 x Hlow Haligned Hhigh Hr) as [S Hinv]. unfold hinv in Hinv.
  destruct (heap_alloc_ok _ _ _ _ _ _ _ layout Hinv) as (p & h' & m' & S' & Hrun & [_ Hres]); [lia|].
  destruct (unused_exists m0 x Hr Hn) as (y & Hy & Hu).
  destruct Hres as [(_ & _ & Hfull)|[Hpos Hrep]].
  { exfalso. apply Hu. rewrite <- (used_pages_groups _ _ _ _ _ _ _ _ Hinv). by apply Hfull. }
  assert (sys_alloc layout x = Ret (p, mkHsys h' m' ((p, layout) :: hs_live x) (hs_frames x) (hs_fed x))) as E.
  { unfold sys_alloc. rewrite Hrun. by rewrite (proj2 (Z.eqb_neq p 0)) by lia. }
  eexists _, _. split; [exact E|]. cbn [hs_live hs_frames].
  destruct (live_block_aligned _ _ _ _ _ _ _ (p, layout) Hrep) as (_ & Hend & _); [left|]. simpl in Hend.
  split_and!; [|done|done|done|done| |].
  - eapply hreach_step; [exact Hr|]. destruct x as [h m live frames fed]. cbn [hs_heap hs_mem hs_live hs_frames hs_fed] in *.
    pose proof (h_alloc off h m live frames fed layout p h' m' (proj1 Hs) Hrun) as Hst.
    by rewrite (proj2 (Z.eqb_neq p 0)) in Hst by lia.
  - intros a Ha. by apply (live_not_frame _ _ _ _ _ _ _ (p, layout) a Hrep); [left|].
  - unfold free_count. cbn [hs_live hs_frames hs_fed].
    destruct (heap_pages _ _ _ _ _ _ _ Hrep) as (_ & _ & _ & _ & _ & _ & _ & Hin).
    destruct (Hin (page_of (p, layout))) as (z & _ & Hz); [unfold used_pages; left|].
    destruct (filter_remove (page_unused (hs_live x) (hs_frames x))
      (page_unused ((p, layout) :: hs_live x) (hs_frames x)) (hs_fed x) z) as [Hc _]; [by eapply hreach_fed| |lia].
    intros y' _. unfold page_unused, used_pages. rewrite fmap_cons, Hz. cbn [app].
    rewrite elem_of_cons, (inj_iff (addr off)). tauto.
Qed.

(** ** The instances *)

#[local] Instance contract_mapper : UserMapper (kstate T) := kernel_mapper off.
#[local] Instance contract_box : GlobalBox (kstate T * bmem) := kernel_box off.

(** A reachable heap, and user pages in frames taken from it. *)
Definition kstate_inv (s : kstate T * bmem) : Prop :=
  (exists m0, hreach off m0 (ks_sys s.1)) /\ pt_inv (ks_tables s.1) /\
  forall f, f ∈ ks_user s.1 -> off + f ∈ hs_frames (ks_sys s.1) /\ 0 <= f /\ (4096 | f).

(** What the clients write never reaches the allocator's own memory. *)
Lemma write_words_reach m0 h w live frames fed m l :
  hreach off m0 (mkHsys h w live frames fed) ->
  (forall a, a ∈ l -> (exists b, b ∈ live /\ HeapRep.in_block b a) \/ in_pages frames a) ->
  hreach off m0 (mkHsys h (foldr (fun a w => <[a := word_at m a]> w) w l) live frames fed).
Proof.
  intros Hr Hl. induction l as [|a l IH]; [done|]. cbn [foldr]. eapply hreach_step.
  - apply IH. intros b Hb. apply Hl. by right.
  - apply h_write, Hl. left.
Qed.

Lemma word_addrs_elem a n x : x ∈ word_addrs a n -> a <= x /\ x + 8 <= a + 8 * n.
Proof. intros (i & -> & Hi%elem_of_seqZ)%list_elem_of_fmap. lia. Qed.

Lemma sync_ok m0 (k : kstate T) m : hreach off m0 (ks_sys k) ->
  (forall f, f ∈ ks_user k -> off + f ∈ hs_frames (ks_sys k)) ->
  hreach off m0 (sync off k m) /\ hs_live (sync off k m) = hs_live (ks_sys k) /\
  hs_frames (sync off k m) = hs_frames (ks_sys k) /\ free_count (sync off k m) = free_count (ks_sys k).
Proof.
  intros Hr Hus. split_and!; [|done..]. apply write_words_reach; [by destruct (ks_sys k)|].
  intros a [(l & Hl & (f & -> & Hf)%list_elem_of_fmap)%list_elem_of_join|
            (l & Hl & (b & -> & Hb)%list_elem_of_fmap)%list_elem_of_join]%elem_of_app;
    apply word_addrs_elem in Hl.
  - right. exists (off + f). split; [by apply Hus|]. unfold in_page. lia.
  - left. exists b. split; [done|]. unfold HeapRep.in_block. pose proof (Z.mul_div_le (lsize b.2) 8). lia.
Qed.

Lemma kstate_frame_ok s f : kstate_inv s -> f ∈ ks_user s.1 ->
  0 <= f /\ (4096 | f) /\ 0 < off + f /\ off + f + 4096 < U64_LIM.
Proof.
  intros ((m0 & Hr) & _ & Hus) Hf. destruct (Hus f Hf) as (Hin & H0' & Hd).
  destruct (hreach_inv off m0 _ Hlow Haligned Hhigh Hr) as [S [_ _ _ _ (p & _ & Hinv)]].
  destruct (pages_inv_pages _ _ _ _ _ Hinv) as [_ Hok]. rewrite Forall_forall in Hok.
  destruct (Hok (off + f)) as [? _ ?]; [|done]. rewrite groups_join, !elem_of_app. auto.
Qed.

Lemma kernel_frame_alloc_ok s : kstate_inv s ->
  match free_count (ks_sys s.1) with
  | O => exists s', frame_alloc s = Ret (None, s')
  | S n => exists f s', frame_alloc s = Ret (Some f, s') /\ kstate_inv s' /\
      ks_user s'.1 = f :: ks_user s.1 /\ (f ∉ ks_user s.1) /\ free_count (ks_sys s'.1) = n /\
      (forall pg, pt_map (ks_tables s'.1) pg = pt_map (ks_tables s.1) pg) /\
      (forall g a, g ∈ ks_user s.1 -> in_frame off g a -> byte_at s'.2 a = byte_at s.2 a)
  end.
Proof.
  destruct s as [k m]. intros ((m0 & Hr) & Ht & Hus). cbn [fst snd] in *.
  destruct (sync_ok m0 k m Hr) as (Hsr & _ & Hsf & Hsc); [intros f Hf; by apply Hus|].
  pose proof (sys_frame_ok m0 _ Hsr) as Hf. cbn [frame_alloc contract_mapper kernel_mapper]. unfold user_frame.
  rewrite Hsc in Hf. rewrite Hsf in Hf. destruct (free_count (ks_sys k)) as [|n].
  { destruct Hf as [x' ->]. by eexists. }
  destruct Hf as (f & x' & -> & Hr' & Hfr & Hn & H0' & Hd & Hnew). eexists f, _. split; [reflexivity|].
  cbn [fst snd ks_sys ks_tables ks_user]. split_and!; [|done| |done|done|done].
  - split_and!; [by exists m0|done|]. cbn [ks_user ks_sys fst]. rewrite Hfr.
    intros g [->|Hg]%elem_of_cons; [split_and!; [left|done..]|].
    destruct (Hus g Hg) as (? & ? & ?). split_and!; [by right|done..].
  - intros Hin. by destruct (Hus f Hin).
Qed.

Lemma kernel_map_to_ok s pg f flags : kstate_inv s -> f ∈ ks_user s.1 ->
  pt_map (ks_tables s.1) pg = None -> ~ pt_blocked pg -> (3 <= free_count (ks_sys s.1))%nat ->
  exists s', map_to pg f flags s = Ret (true, s') /\ kstate_inv s' /\
    ks_user s'.1 = ks_user s.1 /\ (free_count (ks_sys s.1) <= free_count (ks_sys s'.1) + 3)%nat /\
    (forall pg', pt_map (ks_tables s'.1) pg' =
       if decide (pg' = pg) then Some (f, flags) else pt_map (ks_tables s.1) pg') /\
    (forall g a, g ∈ ks_user s.1 -> in_frame off g a -> byte_at s'.2 a = byte_at s.2 a).
Proof.
  destruct s as [[x t us] m]. intros ((m0 & Hr) & Ht & Hus) Hf Hmap Hbl Hn. cbn [fst snd ks_sys ks_tables ks_user] in *.
  pose proof (pt_missing_le t pg) as Hle.
  destruct (sync_ok m0 (mkKs x t us) m Hr) as (Hsr & _ & Hsf & Hsc); [intros g Hg; by apply Hus|].
  destruct (take_frames_ok m0 (pt_missing t pg) _ Hsr) as (x' & E & Hr' & Hsub & Hc); [cbn [ks_sys] in Hsc; lia|].
  rewrite Hsc in Hc. rewrite Hsf in Hsub. cbn [ks_sys] in Hc, Hsub.
  destruct (Hus f Hf) as (_ & H0' & Hd).
  destruct (pt_map_to_ok hsys (sys_frame off) t (sync off (mkKs x t us) m) pg f flags x' Ht Hmap Hbl H0' Hd E) as (t' & E' & Ht' & Hm').
  eexists. split; [cbn [map_to contract_mapper kernel_mapper]; unfold table_map_to; cbn [ks_tables];
    rewrite E'; reflexivity|].
  cbn [fst snd ks_sys ks_tables ks_user]. split_and!; [|done|lia|done|done].
  split_and!; [by exists m0|done|]. intros g Hg. destruct (Hus g Hg). split; [by apply Hsub|done].
Qed.

Lemma kernel_map_to_mapped s pg f flags : kstate_inv s -> pt_map (ks_tables s.1) pg <> None ->
  exists s', map_to pg f flags s = Ret (false, s').
Proof.
  destruct s as [k m]. intros (_ & Ht & _) Hm. cbn [map_to contract_mapper kernel_mapper].
  unfold table_map_to. cbn [fst] in *. rewrite pt_map_to_mapped by done. by eexists.
Qed.

(** The loader's interface from the kernel's frame allocator. *)
#[local] Instance kernel_mapper_spec : UserMapperSpec (kstate T) off := {|
  us_inv := kstate_inv;
  us_map s := pt_map (ks_tables s.1);
  us_frames s := ks_user s.1;
  us_avail s := free_count (ks_sys s.1);
  us_blocked := pt_blocked;
  us_frame_ok := kstate_frame_ok;
  frame_alloc_ok := kernel_frame_alloc_ok;
  map_to_ok := kernel_map_to_ok;
  map_to_mapped := kernel_map_to_mapped;
  us_write u m m' f Hi _ _ := conj Hi (conj eq_refl (conj eq_refl (fun _ => eq_refl)));
|}.

(** The interface of [Box] and [Vec] from the kernel's heap. *)
#[local] Instance kernel_box_spec : GlobalBoxSpec (kstate T).
Proof.
  refine {| box_live k := hs_live (ks_sys k) |}.
  intros [[x t us] m] size align ((m0 & Hr) & Ht & Hus) Hs Hn. cbn [us_avail kernel_mapper_spec fst ks_sys ks_tables ks_user] in *.
  destruct (sync_ok m0 (mkKs x t us) m Hr) as (Hsr & _ & Hsf & Hsc); [intros g Hg; by apply Hus|].
  destruct (sys_alloc_ok m0 _ (mkLayout size align) Hsr Hs) as (p & x' & E & Hr' & Hp & Hend & Hl & Hfr & Hapart & Hc);
    [by rewrite Hsc|]. rewrite Hsf in Hfr, Hapart. rewrite Hsc in Hc. cbn [ks_sys] in Hfr, Hapart, Hc.
  assert (forall f a, f ∈ us -> in_frame off f a -> ~ (p <= a < p + size)) as Hap.
  { intros f a Hf Ha Hpa. apply (Hapart a Hpa). exists (off + f). split; [by apply Hus|done]. }
  exists p, (mkKs x' t us, m). split_and!; [|done|done|exact Hl|done|].
  - cbn [box_alloc contract_box kernel_box]. unfold on_sys. by rewrite E.
  - intros m' Hm'. cbn [fst snd us_inv us_frames us_avail us_map kernel_mapper_spec ks_sys ks_tables ks_user] in *.
    split_and!; [|done|done|done|].
    + split_and!; [by exists m0|done|]. cbn [fst ks_user ks_sys]. by rewrite Hfr.
    + intros f a Hf Ha. apply Hm'. by eapply Hap.
Defined.
End contracts.
