(* ===== verification/SpawnTheorems.v ===== *)
(** * The kernel enters the user program

    [Task::from_elf] and the end of [main] on a well-formed executable: from
    the bytes of the file to the first instruction in user mode, first against
    the interfaces of the mapper and the heap, then on the kernel's own frame
    allocator and heap. *)
From stdpp Require Import strings.
From S2P Require Import GlobalAlloc HeapSystem HeapTheorems KernelPages.
From S2P Require Import Prelude Machine X86Api Paging UserSpace Elf ElfProofs ElfLoad ElfTheorems.
From S2P Require Import Cpu Drivers Gdt Tasks TasksProofs SwitchProofs TasksTheorems Spawn.

Section proofs.
Context {ck : OverflowChecks} {off : Z} `{GoblinLaws} `{VirtAddrLaws} {St : Type} `{GlobalBoxSpec St off}.

(** User space as the program finds it: the segments of the file and a zeroed
    stack. *)
Record program_loaded (s : St * bmem) (data : slice) : Prop := {
  pl_segments i x : let ph := phdr_of data i in
    0 <= i < e_phnum (header_of data) -> p_type ph = 1 -> p_vaddr ph <= x < p_vaddr ph + p_memsz ph ->
    user_byte s x = Some (segment_flags (p_flags ph),
      if decide (x < p_vaddr ph + p_filesz ph)
      then default 0 (contents data !! Z.to_nat (p_offset ph + (x - p_vaddr ph))) else 0);
  pl_stack x : USER_STACK_TOP - USER_STACK_SIZE <= x < USER_STACK_TOP -> user_byte s x = Some (stack_flags, 0);
}.

(** Two pages more, for the kernel stack and the scheduler's vector. *)
Definition spawn_room (s : St * bmem) (data : slice) : Prop :=
  elf_room s data /\ (4 * length (stack_images ++ elf_images data) + 2 <= us_avail s)%nat.

(** User space is what it was, and at most [n] pages are gone. *)
Record kept (n : nat) (s s' : St * bmem) : Prop := {
  kp_inv : us_inv s';
  kp_frames : us_frames s' = us_frames s;
  kp_avail : (us_avail s <= us_avail s' + n)%nat;
  kp_map pg : us_map s' pg = us_map s pg;
  kp_bytes f a : f ∈ us_frames s -> in_frame off f a -> byte_at s'.2 a = byte_at s.2 a;
}.

Lemma kept_trans n1 n2 s1 s2 s3 : kept n1 s1 s2 -> kept n2 s2 s3 -> kept (n1 + n2) s1 s3.
Proof.
  intros [? Hf1 ? Hm1 Hb1] [? Hf2 ? Hm2 Hb2]. constructor; [done|congruence|lia|intros pg; congruence|].
  intros f a Hf Ha. rewrite (Hb2 f), (Hb1 f); [done..| |done]. by rewrite Hf1.
Qed.

(** A block allocated and filled with any bytes. *)
Lemma box_alloc_kept s size align :
  us_inv s -> 0 < size <= 4096 -> (1 <= us_avail s)%nat ->
  exists p s', box_alloc size align s = Ret (p, s') /\ 0 < p /\ p + size < U64_LIM /\
    box_live s'.1 = (p, GlobalAlloc.mkLayout size align) :: box_live s.1 /\
    forall m', (forall a, ~ (p <= a < p + size) -> byte_at m' a = byte_at s'.2 a) -> kept 1 s (s'.1, m').
Proof.
  intros Hinv Hs Hav. destruct (box_alloc_ok s size align Hinv Hs Hav) as (p & s' & E & Hp & Hend & Hl & _ & Hw).
  exists p, s'. split_and!; [done..|]. intros m' Hm'. destruct (Hw m' Hm') as (? & ? & ? & ? & ?). by constructor.
Qed.

(** The kernel stack: a zeroed block. *)
Lemma box_zeroed_run s n :
  us_inv s -> 0 < n <= 4096 -> (1 <= us_avail s)%nat ->
  exists p s', box_zeroed n s = Ret (p, s') /\ 0 < p /\ p + n < U64_LIM /\ kept 1 s s' /\
    box_live s'.1 = (p, GlobalAlloc.mkLayout n 1) :: box_live s.1.
Proof.
  intros Hinv Hn Hav. destruct (box_alloc_kept s n 1 Hinv Hn Hav) as (p & [u m] & E & Hp & Hend & Hl & Hw).
  set (m' := store_bytes p (replicate (Z.to_nat n) 0) m).
  exists p, (u, m'). split_and!; [|done|done|apply Hw|done].
  - unfold box_zeroed. run E. rewrite (proj2 (Z.eqb_neq p 0)) by lia.
    assert (write_memory p (replicate (Z.to_nat n) 0) (u, m) = Ret ((), (u, m'))) as E2.
    { unfold write_memory. rewrite length_replicate, decide_True by lia. done. }
    by run E2.
  - intros a Ha. unfold m'. rewrite store_bytes_lookup, length_replicate. by rewrite decide_False by lia.
Qed.

(** The first task of the scheduler: its vector is allocated. *)
Lemma add_first_task t s :
  us_inv s -> (1 <= us_avail s)%nat ->
  exists p s', add_task t (Scheduler_new, s) = Ret ((), (mkSched [t] 0 false (mkRaw p 4), s')) /\ 0 < p /\
    kept 1 s s' /\ box_live s'.1 = (p, GlobalAlloc.mkLayout (TASK_SIZE * 4) 8) :: box_live s.1.
Proof.
  intros Hinv Hav. destruct (box_alloc_kept s (TASK_SIZE * 4) 8 Hinv) as (p & [u m] & E & Hp & _ & Hl & Hw);
    [unfold TASK_SIZE; lia|done|]. exists p, (u, m). split_and!; [|done|by apply Hw|done].
  assert (grow_tasks (mkRaw 8 0) s = Ret (mkRaw p 4, (u, m))) as E2.
  { unfold grow_tasks. cbn [raw_cap]. change (2 ^ 63 - 1 <? _) with false. cbv iota zeta. rewrite Z.eqb_refl.
    run E. by rewrite (proj2 (Z.eqb_neq p 0)) by lia. }
  unfold add_task. cbn [Scheduler_new tasks buffer length]. change (Z.of_nat 0 =? raw_cap (mkRaw 8 0)) with true.
  cbv iota. by rewrite E2.
Qed.

(** The bytes of the loaded pages survive what keeps user space. *)
Lemma user_byte_kept n s0 s s' imgs x :
  loaded s0 s imgs -> (x / 4096 * 4096 ∈ (fst <$> imgs)) -> kept n s s' -> user_byte s' x = user_byte s x.
Proof.
  intros Hld ([pg [fl img]] & Hx & Hin)%list_elem_of_fmap [_ _ _ Hmap Hby]. simpl in Hx.
  destruct (ld_pages _ _ _ Hld _ _ _ Hin) as (f & Hf & Hfr & _). rewrite <- Hx in Hf.
  unfold user_byte. rewrite Hmap, Hf. do 2 f_equal. apply (Hby f); [done|]. unfold in_frame.
  pose proof (Z.mod_pos_bound x 4096). lia.
Qed.

Lemma kept_program_loaded n data s0 s s' :
  elf_wf data -> elf_room s0 data -> loaded s0 s (stack_images ++ elf_images data) -> kept n s s' ->
  program_loaded s' data.
Proof.
  intros Hwf Hroom Hld Hk. constructor.
  - intros i x ph Hi Hty Hx. rewrite (user_byte_kept n s0 s s' (stack_images ++ elf_images data) x Hld); [| |done].
    + by apply (loaded_segment s0).
    + apply list_elem_of_fmap. eexists. split; [|by apply segment_page]. done.
  - intros x Hx. rewrite (user_byte_kept n s0 s s' (stack_images ++ elf_images data) x Hld); [| |done].
    + by apply (loaded_stack s0 s data).
    + apply list_elem_of_fmap. eexists. split; [|by apply (stack_page data)]. done.
Qed.

Lemma from_elf_run sel data n (s : St * bmem) log :
  elf_wf data -> spawn_room s data ->
  exists ks s' log', from_elf sel data off (n, (s, log)) =
      Ret (inr (mkTask n Ready (new_user sel (e_entry (header_of data)) USER_STACK_TOP) ks),
           ((n + 1) mod U64_LIM, (s', log'))) /\
    0 < ks /\ ks + KERNEL_STACK_SIZE < U64_LIM /\
    exists s1, loaded s s1 (stack_images ++ elf_images data) /\ kept 1 s1 s' /\
      box_live s'.1 = (ks, GlobalAlloc.mkLayout KERNEL_STACK_SIZE 1) :: box_live s1.1.
Proof.
  intros Hwf [Hroom Hav]. destruct (load_elf_loads data s log Hwf Hroom) as (s1 & log1 & E1 & Hld).
  pose proof (ld_avail _ _ _ Hld) as Hav1.
  destruct (box_zeroed_run s1 KERNEL_STACK_SIZE (ld_inv _ _ _ Hld)) as (ks & s2 & E2 & Hp & Hend & Hk & Hl);
    [unfold KERNEL_STACK_SIZE; lia|lia|].
  exists ks, s2, log1. split_and!; [|done|done|by exists s1]. unfold from_elf.
  assert (fetch_next_id (n, (s, log)) = Ret (n, ((n + 1) mod U64_LIM, (s, log)))) as E0 by done. run E0.
  assert (on_loader (load_elf data off) ((n + 1) mod U64_LIM, (s, log)) =
    Ret (inr (mkLoad (e_entry (header_of data)) USER_STACK_TOP), ((n + 1) mod U64_LIM, (s1, log1)))) as E1'
    by (unfold on_loader; by rewrite E1). run E1'. cbv iota.
  assert (on_loader (us (box_zeroed KERNEL_STACK_SIZE)) ((n + 1) mod U64_LIM, (s1, log1)) =
    Ret (ks, ((n + 1) mod U64_LIM, (s2, log1)))) as E2' by (unfold on_loader, us; by rewrite E2). by run E2'.
Qed.

(** ** The end of [main] *)

Context {edbg : ErrorDebug} `{CalleeFrameLaws}.

Abbreviation with_dev d ms := (mkMachine (m_loader ms) (next_task_id ms) (m_regs ms)
  (mkKernel (scheduler (m_kernel ms)) (sched_locked (m_kernel ms)) (tss_rsp0_ptr (m_kernel ms)) d) (m_mem ms)).

Lemma run_print frags (ms : @machine St) : serial_ready (dev (m_kernel ms)) = true ->
  exists d, on_kernel (on_dev (serial_print frags)) ms = Ret ((), with_dev d ms) /\ serial_ready d = true.
Proof.
  intros Hs. eexists. split; [|by instantiate (1 := mkDev true _ _ _)]. unfold on_kernel.
  by rewrite (run_on_dev _ _ _ _ _ (run_serial_print frags _ Hs)).
Qed.
Lemma run_say frags (ms : @machine St) : serial_ready (dev (m_kernel ms)) = true ->
  exists d, say frags ms = Ret ((), with_dev d ms) /\ serial_ready d = true.
Proof. apply run_print. Qed.

Lemma run_on_kernel {A} (f : M (kernel * mem) A) (ms : @machine St) a k m :
  f (m_kernel ms, m_mem ms) = Ret (a, (k, m)) ->
  on_kernel f ms = Ret (a, mkMachine (m_loader ms) (next_task_id ms) (m_regs ms) k m).
Proof. unfold on_kernel. by intros ->. Qed.

Lemma run_on_sched_heap {A} (f : M (Scheduler * (St * bmem)) A) ld n c sch lk tss d m a sch' ld' :
  f (sch, ld) = Ret (a, (sch', ld')) ->
  on_sched_heap f (mkMachine ld n c (mkKernel sch lk tss d) m) =
    Ret (a, mkMachine ld' n c (mkKernel sch' lk tss d) m).
Proof. unfold on_sched_heap. cbn [m_kernel scheduler m_loader]. by intros ->. Qed.

Lemma main_from_elf_run sel data (ms : @machine St) :
  elf_wf data -> spawn_room (m_loader ms) data -> serial_ready (dev (m_kernel ms)) = true ->
  exists ks s' d, main_from_elf sel data off ms =
      Ret (inr (mkTask (next_task_id ms) Ready (new_user sel (e_entry (header_of data)) USER_STACK_TOP) ks),
        mkMachine s' ((next_task_id ms + 1) mod U64_LIM) (m_regs ms)
          (mkKernel (scheduler (m_kernel ms)) (sched_locked (m_kernel ms)) (tss_rsp0_ptr (m_kernel ms)) d) (m_mem ms)) /\
    0 < ks /\ ks + KERNEL_STACK_SIZE < U64_LIM /\ serial_ready d = true /\
    exists s1, loaded (m_loader ms) s1 (stack_images ++ elf_images data) /\ kept 1 s1 s' /\
      box_live s'.1 = (ks, GlobalAlloc.mkLayout KERNEL_STACK_SIZE 1) :: box_live s1.1.
Proof.
  intros Hwf Hroom Hs. unfold main_from_elf.
  destruct (from_elf_run sel data (next_task_id ms) (m_loader ms) [] Hwf Hroom) as (ks & s' & log & E & Hks & Hke & Hpl).
  rewrite E. set (ms1 := mkMachine _ _ _ _ _).
  destruct (run_print (mjoin (render <$> log)) ms1 Hs) as (d & Ed & Hd). exists ks, s', d.
  split_and!; [|done..]. by run Ed.
Qed.

Ltac see := cbn [m_loader next_task_id m_regs m_kernel m_mem scheduler sched_locked tss_rsp0_ptr dev].
Ltac step_say := edestruct run_say as (? & E & ?); [|run E; clear E]; [done|]; see.

Ltac step_kernel := erewrite run_bind; [|apply run_on_kernel; reflexivity]; cbv beta; see.

(** The end of [main] against the interfaces. *)
Lemma main_run_user_run sel data (ms : @machine St) :
  elf_wf data -> spawn_room (m_loader ms) data ->
  serial_ready (dev (m_kernel ms)) = true -> scheduler (m_kernel ms) = Scheduler_new ->
  sched_locked (m_kernel ms) = false -> tss_rsp0_ptr (m_kernel ms) = 0 -> stack_room (m_regs ms RSP) 5 ->
  exists ms' ks buf, main_run_user sel data off ms = Ret ((), ms') /\
    let t := mkTask (next_task_id ms) Running (new_user sel (e_entry (header_of data)) USER_STACK_TOP) ks in
    m_regs ms' RIP = e_entry (header_of data) /\ m_regs ms' RSP = USER_STACK_TOP /\
    m_regs ms' CS = Z.lor (user_code sel) 3 /\ m_regs ms' SS = Z.lor (user_data sel) 3 /\
    Z.land (m_regs ms' RFLAGS) IF = IF /\
    scheduler (m_kernel ms') = mkSched [t] 0 true (mkRaw buf 4) /\ sched_locked (m_kernel ms') = false /\
    next_task_id ms' = (next_task_id ms + 1) mod U64_LIM /\ 0 < ks /\ 0 < buf /\
    program_loaded (m_loader ms') data /\ us_inv (m_loader ms') /\
    exists rest, box_live (m_loader ms').1 =
      (buf, GlobalAlloc.mkLayout (TASK_SIZE * 4) 8) :: (ks, GlobalAlloc.mkLayout KERNEL_STACK_SIZE 1) :: rest.
Proof.
  intros Hwf Hroom Hs Hsch Hul Hnull Hst. unfold main_run_user. destruct ms as [ld n c [sch lk tss dv] m].
  cbn [m_kernel dev scheduler sched_locked tss_rsp0_ptr m_regs m_loader next_task_id] in *. subst sch lk tss.
  do 3 step_say. edestruct (main_from_elf_run sel data) as (ks & s' & d & E & Hks & Hke & Hd & s1 & Hld & Hk1 & Hl1);
    [exact Hwf| | |run E; clear E]; [done|done|]. see. step_say. set (t := mkTask n Ready _ ks). step_kernel.
  cbn [m_loader] in Hld. destruct Hroom as [Hroom Hav]. pose proof (ld_avail _ _ _ Hld). pose proof (kp_avail _ _ _ Hk1).
  destruct (add_first_task t s' (kp_inv _ _ _ Hk1)) as (buf & s2 & E & Hbuf & Hk2 & Hl2); [lia|].
  erewrite run_bind; [|apply run_on_sched_heap, E]. clear E. cbv beta. see.
  step_kernel. step_say. do 2 step_kernel. step_say. set (k1 := mkKernel _ false 0 _).
  destruct (switch_to_first_task_run c k1 m (with_state Running t)) as
    (c' & m' & Es & H1' & H2' & H3' & H4' & H5' & _); [done| |done|done|done|].
  { split; [cbn; lia|]. constructor; [|constructor]. split; cbn; [lia|done]. }
  eexists _, ks, buf. split; [unfold on_cpu; cbn [m_regs m_kernel m_mem]; by rewrite Es|]. cbn [m_regs m_kernel m_loader next_task_id].
  split_and!; try done; [by rewrite H3'| |apply Hk2|].
  - eapply kept_program_loaded; [done|exact Hroom|exact Hld|by eapply kept_trans].
  - exists (box_live s1.1). by rewrite Hl2, Hl1.
Qed.
End proofs.

(** ** On the kernel's heap *)

Section kernel.
Context {ck : OverflowChecks} `{Slub.SlabLayoutLaws} `{PhysFrameLaws} {off : Z} {T : Type} `{PageTablesSpec T}.
Context `{GoblinLaws} `{VirtAddrLaws} {edbg : ErrorDebug} `{CalleeFrameLaws}.
Hypotheses (Hlow : 0 <= off) (Haligned : (4096 | off)) (Hhigh : off + Buddy.MAX_PAGES * Buddy.PAGE_SIZE < U64_LIM).
#[local] Instance spawn_mapper : UserMapper (kstate T) := kernel_mapper off.
#[local] Instance spawn_box : GlobalBox (kstate T * bmem) := kernel_box off.
#[local] Instance spawn_mapper_spec : UserMapperSpec (kstate T) off := kernel_mapper_spec off Hlow Haligned Hhigh.
#[local] Instance spawn_box_spec : GlobalBoxSpec (kstate T) := kernel_box_spec off Hlow Haligned Hhigh.

(** The heap gives no block of more than a page, so the scheduler's vector stops
    at sixteen tasks: adding the seventeenth panics. *)
Lemma seventeenth_task_panics t s (h : kstate T * bmem) :
  length (tasks s) = 16%nat -> raw_cap (buffer s) = 16 -> add_task t (s, h) = Panic.
Proof.
  intros Hlen Hcap. destruct h as [k m].
  assert (box_alloc (TASK_SIZE * 32) 8 (k, m) = Ret (0, (mkKs (sync off k m) (ks_tables k) (ks_user k), m))) as E.
  { cbn [box_alloc spawn_box kernel_box]. unfold on_sys, sys_alloc.
    by rewrite heap_alloc_too_large by (unfold TASK_SIZE; simpl; lia). }
  assert (grow_tasks (buffer s) (k, m) = Panic) as Hg.
  { unfold grow_tasks. rewrite Hcap. change (2 ^ 63 - 1 <? _) with false. cbv iota zeta.
    change (16 =? 0) with false. cbv iota. change (Z.max 4 _) with 32. unfold mbind, M_bind. by rewrite E. }
  unfold add_task. rewrite Hlen, Hcap. change (Z.of_nat 16 =? 16) with true. cbv iota. by rewrite Hg.
Qed.

(** C10: the kernel reaches user mode in the program.  On a well-formed executable
    with room for it, before any task was made and with the heap in a reachable
    state, the end of [main] creates the task with the next identifier, makes it
    the only task of the started scheduler, running, releases the scheduler's
    lock, and ends in user code at the entry point of the file: with the stack
    pointer at the top of a zeroed stack, in the user segments with interrupts
    enabled, and with the bytes of every segment of the file in user memory.
    User pages, page tables, the kernel stack and the scheduler's vector all
    come from the kernel's page allocator, which is in a reachable state again,
    with the vector and the kernel stack as its two new blocks. *)
Theorem main_enters_program sel data (ms : @machine (kstate T)) :
  elf_wf data -> spawn_room (m_loader ms) data ->
  serial_ready (dev (m_kernel ms)) = true -> scheduler (m_kernel ms) = Scheduler_new ->
  sched_locked (m_kernel ms) = false -> tss_rsp0_ptr (m_kernel ms) = 0 -> stack_room (m_regs ms RSP) 5 ->
  exists ms' ks buf, main_run_user sel data off ms = Ret ((), ms') /\
    let t := mkTask (next_task_id ms) Running (new_user sel (e_entry (header_of data)) USER_STACK_TOP) ks in
    m_regs ms' RIP = e_entry (header_of data) /\ m_regs ms' RSP = USER_STACK_TOP /\
    m_regs ms' CS = Z.lor (user_code sel) 3 /\ m_regs ms' SS = Z.lor (user_data sel) 3 /\
    Z.land (m_regs ms' RFLAGS) IF = IF /\
    scheduler (m_kernel ms') = mkSched [t] 0 true (mkRaw buf 4) /\ sched_locked (m_kernel ms') = false /\
    next_task_id ms' = (next_task_id ms + 1) mod U64_LIM /\ program_loaded (m_loader ms') data /\
    (exists m0, hreach off m0 (ks_sys (m_loader ms').1)) /\
    exists rest, hs_live (ks_sys (m_loader ms').1) =
      (buf, mkLayout (TASK_SIZE * 4) 8) :: (ks, mkLayout KERNEL_STACK_SIZE 1) :: rest.
Proof.
  intros Hwf Hroom Hs Hsch Hul Hnull Hst.
  destruct (main_run_user_run sel data ms Hwf Hroom Hs Hsch Hul Hnull Hst)
    as (ms' & ks & buf & E & H1' & H2' & H3' & H4' & H5' & H6' & H7' & H8' & _ & _ & H9' & [Hr _] & Hl).
  exists ms', ks, buf. by split_and!.
Qed.
End kernel.

(** ** Witness: the executable of the loader's witness, started *)

Module Demo.
Import HeapTheorems.Demo.
#[local] Existing Instances ElfTheorems.Demo.demo_ck ElfTheorems.Demo.demo_virt ElfTheorems.Demo.demo_virt_laws
  ElfTheorems.Demo.demo_goblin ElfTheorems.Demo.demo_goblin_laws HeapTheorems.Demo.demo_layout
  HeapTheorems.Demo.demo_layout_laws ReferenceApi.phys_frame_api ReferenceApi.phys_frame_laws.
Import ReferenceFrame.

(** Page tables as a list; the first page needs three tables. *)
Abbreviation dtables := (list (Z * (Z * PageTableFlags))).
Definition dmissing (t : dtables) : nat := match t with [] => 3 | _ => 0 end.
#[local] Instance demo_tables : PageTables dtables := fun S alloc pg f flags '(t, s) =>
  match ElfTheorems.Demo.dlookup t pg with
  | Some _ => Ret (false, (t, s))
  | None =>
      match take_frames alloc (dmissing t) s with
      | Ret (true, s') => Ret (true, ((pg, (f, flags)) :: t, s'))
      | Ret (false, s') => Ret (false, (t, s'))
      | Panic => Panic | Undef => Undef | Hang => Hang | OutOfFuel => OutOfFuel
      end
  end.
#[local] Instance demo_tables_spec : PageTablesSpec dtables.
Proof.
  refine {| pt_inv _ := True; pt_map := ElfTheorems.Demo.dlookup; pt_blocked _ := False; pt_missing t _ := dmissing t |}.
  - intros [|] _; simpl; lia.
  - intros S alloc t s pg f flags s' _ Hm _ _ _ E. unfold pt_map_to, demo_tables. rewrite Hm, E.
    eexists. split; [done|]. done.
  - intros S alloc t s pg f flags _ Hm. unfold pt_map_to, demo_tables. by destruct (ElfTheorems.Demo.dlookup t pg).
Defined.

(** The heap after [n] pages were added, from page 8 on. *)
Fixpoint fed_heap (n : nat) : KHeap * mem :=
  match n with
  | O => (demo_heap0, ∅)
  | S n => final (GlobalAlloc.add_frame (BuddyProofs.addr demo_off (Z.of_nat (8 + n))) (fed_heap n)) (fed_heap n)
  end.
Fixpoint fed_pages (n : nat) : list Z := match n with O => [] | S n => Z.of_nat (8 + n) :: fed_pages n end.
Definition fed_sys (n : nat) : hsys := mkHsys (fed_heap n).1 (fed_heap n).2 [] [] (fed_pages n).

Lemma fed_pages_elem n x : x ∈ fed_pages n -> 8 <= x < Z.of_nat (8 + n).
Proof. induction n as [|n IH]; [by intros ?%elem_of_nil|]. intros [->|Hx%IH]%elem_of_cons; lia. Qed.

Lemma fed_sys_reach n : (n <= 1000)%nat -> hreach demo_off ∅ (fed_sys n).
Proof.
  induction n as [|n IH]; intros Hn; [exact demo_reach0|]. specialize (IH ltac:(lia)).
  destruct (hreach_inv demo_off ∅ _ demo_low demo_aligned demo_high IH) as [S Hinv].
  assert (BuddySystem.good_frame demo_off (Z.of_nat (8 + n))) as Hg.
  { constructor; [unfold Buddy.MAX_ORDER; lia|apply Z.divide_1_l|lia|..];
      unfold Buddy.MAX_PAGES, Buddy.PAGE_SIZE, demo_off; [change (BuddySpec.bsz 0) with 1|]; lia. }
  assert (Z.of_nat (8 + n) ∉ fed_pages n) as Hnew by (intros Hx%fed_pages_elem; lia).
  destruct (HeapProofs.heap_add_frame_ok demo_off _ _ _ S [] [] _ Hinv Hg Hnew) as (h & m & E & _).
  cbn [hs_heap hs_mem fed_sys] in E.
  assert (fed_sys (Datatypes.S n) = mkHsys h m [] [] (fed_pages (Datatypes.S n))) as ->.
  { unfold fed_sys. cbn [fed_heap]. destruct (fed_heap n) as [h0 m1]. cbn [fst snd] in E. by rewrite E. }
  eapply hreach_step; [exact IH|]. by apply h_add_frame.
Qed.

#[local] Instance demo_mapper : UserMapper (kstate dtables) := kernel_mapper demo_off.
#[local] Instance demo_box : GlobalBox (kstate dtables * bmem) := kernel_box demo_off.
#[local] Instance demo_mapper_spec : UserMapperSpec (kstate dtables) demo_off :=
  kernel_mapper_spec demo_off demo_low demo_aligned demo_high.
#[local] Instance demo_debug : ErrorDebug := fun _ => "MappingFailed".

Definition demo_loader : kstate dtables * bmem := (mkKs (fed_sys 100) [] [], ∅).
Definition demo_sel : Selectors := mkSelectors 0x08 0x10 0x23 0x1B 0x28.
Definition demo_machine : @machine (kstate dtables) :=
  mkMachine demo_loader 1 (fun r => if decide (r = RSP) then 0x80000 else 0)
    (mkKernel Scheduler_new false 0 (mkDev true [] 0xFEE00000 [])) ∅.

Lemma fed_free n : free_count demo_off (fed_sys n) = n.
Proof.
  unfold free_count. cbn [hs_live hs_frames hs_fed fed_sys]. induction n as [|n IH]; [done|].
  cbn [fed_pages]. rewrite filter_cons, decide_True; [cbn [length]; by rewrite IH|].
  unfold page_unused. apply not_elem_of_nil.
Qed.

Lemma demo_pages_at : (fst <$> stack_images ++ elf_images ElfTheorems.Demo.demo_data) =
  page_list 0x7FFFEF000 16 ++ [0x400000].
Proof. vm_compute. reflexivity. Qed.

Lemma demo_spawn_room : spawn_room demo_loader ElfTheorems.Demo.demo_data.
Proof.
  assert (length (stack_images ++ elf_images ElfTheorems.Demo.demo_data) = 17%nat) as Hlen by (vm_compute; reflexivity).
  assert (us_avail demo_loader = 100%nat) as Hav by (exact (fed_free 100)).
  split; [|rewrite Hlen, Hav; lia]. constructor; [|..|rewrite Hlen, Hav; lia].
  - split; [exists ∅; apply fed_sys_reach; lia|]. split; [done|]. by intros f ?%elem_of_nil.
  - rewrite demo_pages_at. apply Forall_forall. intros pg Hpg.
    assert (exists q, pg = q * 4096 /\ 0 <= q <= 8388606) as (q & -> & Hq).
    { apply elem_of_app in Hpg as [(i & Hi & ->)%page_list_elem| ->%list_elem_of_singleton];
        [exists (8388591 + Z.of_nat i)|exists 1024]; lia. }
    constructor; [by rewrite Z.div_mul|lia|lia|reflexivity|intros []].
  - rewrite demo_pages_at. by_decide.
Qed.

Lemma main_enters_program_witness :
  exists ms', main_run_user demo_sel ElfTheorems.Demo.demo_data demo_off demo_machine = Ret ((), ms') /\
    m_regs ms' RIP = 0x400000 /\ m_regs ms' CS = 0x23 /\ next_task_id ms' = 2 /\
    (length (hs_live (ks_sys (m_loader ms').1)) >= 2)%nat.
Proof.
  destruct (main_enters_program demo_low demo_aligned demo_high demo_sel ElfTheorems.Demo.demo_data demo_machine)
    as (ms' & ks & buf & E & H1 & _ & H2 & _ & _ & _ & _ & H3 & _ & _ & rest & Hl);
    [exact ElfTheorems.Demo.demo_wf|exact demo_spawn_room
    |reflexivity|reflexivity|reflexivity|reflexivity|split; [|split]; reflexivity|].
  exists ms'. split; [exact E|]. split; [exact H1|]. split; [exact H2|]. split; [exact H3|].
  rewrite Hl. cbn [length]. lia.
Defined.
End Demo.
