(* ===== verification/Events.v ===== *)
(** * The event queue and the input interrupts: [kernel/src/events.rs],
    [kernel/src/drivers/keyboard.rs] and [kernel/src/drivers/mouse.rs]

    Interrupt handlers decode bytes of the PS/2 port and push events to a
    bounded queue, which is built at its first use, on the kernel heap.  The
    queue ([crossbeam_queue]) and the two decoders ([pc_keyboard],
    [ps2_mouse]) are libraries and come in as interfaces. *)
From stdpp Require Import strings.
From S2P Require Import Prelude Machine Slub GlobalAlloc HeapRep Drivers.

(** ** The libraries *)

Inductive KeyState := Down | Up | SingleShotState.

(** [pc_keyboard::Keyboard] and its key codes. *)
Class KeyboardApi := {
  KeyCode : Type;
  keyboard : Type;
  keyboard_new : keyboard;
  DecodeError : Type;
  add_byte : keyboard -> Z -> keyboard * (DecodeError + option (KeyCode * KeyState));
}.

(** [ps2_mouse::Mouse]: [process_packet] tells the state it calls the completion
    handler with, if it calls it. *)
Class MouseApi := {
  MouseState : Type;
  mouse : Type;
  mouse_new : mouse;
  MouseError : Type;
  set_on_complete : mouse -> mouse;
  mouse_init : mouse -> mouse * (MouseError + ());
  process_packet : mouse -> Z -> mouse * option MouseState;
}.

(** ** Events *)

Inductive KeyboardEvent `{KeyboardApi} :=
  | KeyPressed (code : KeyCode)
  | KeyReleased (code : KeyCode)
  | SingleShot (code : KeyCode).

Inductive Event `{KeyboardApi} `{MouseApi} :=
  | EvKeyboard (e : KeyboardEvent)
  | EvMouse (s : MouseState).

Definition EVENT_QUEUE_SIZE : Z := 128.

(** [crossbeam_queue::ArrayQueue<Event>], whose buffer comes from the heap. *)
Class ArrayQueueApi `{KeyboardApi} `{MouseApi} := {
  queue : Type;
  aq_layout : Z -> Layout;
  aq_new : Z -> M (KHeap * mem) queue;
  aq_push : queue -> Event -> queue * (Event + ());
  aq_pop : queue -> queue * option Event;
  aq_is_empty : queue -> bool;
}.

(** Its documentation: a queue of fixed capacity, allocated on construction,
    first in first out; pushing to a full queue gives the element back. *)
Class ArrayQueueLaws {ck : OverflowChecks} `{SlabLayout} `{ArrayQueueApi}
    (aq_elems : queue -> list Event) (aq_capacity : queue -> Z) : Prop := {
  aq_layout_ok cap : 0 < cap -> 0 < lsize (aq_layout cap);
  aq_new_ok cap h m p h1 m1 : 0 < cap ->
    heap_alloc (aq_layout cap) (h, m) = Ret (p, (h1, m1)) -> p <> 0 ->
    exists q m2, aq_new cap (h, m) = Ret (q, (h1, m2)) /\
      aq_elems q = [] /\ aq_capacity q = cap /\ mem_frame (in_block (p, aq_layout cap)) m1 m2;
  aq_new_fails cap h m st : 0 < cap ->
    heap_alloc (aq_layout cap) (h, m) = Ret (0, st) -> aq_new cap (h, m) = Panic;
  aq_new_hangs cap h m : 0 < cap ->
    heap_alloc (aq_layout cap) (h, m) = Hang -> aq_new cap (h, m) = Hang;
  aq_push_ok q e : Z.of_nat (length (aq_elems q)) < aq_capacity q ->
    exists q', aq_push q e = (q', inr ()) /\ aq_elems q' = aq_elems q ++ [e] /\ aq_capacity q' = aq_capacity q;
  aq_push_full q e : aq_capacity q <= Z.of_nat (length (aq_elems q)) ->
    exists q', aq_push q e = (q', inl e) /\ aq_elems q' = aq_elems q /\ aq_capacity q' = aq_capacity q;
  aq_pop_ok q : exists q', aq_pop q = (q', head (aq_elems q)) /\
    aq_elems q' = tail (aq_elems q) /\ aq_capacity q' = aq_capacity q;
  aq_empty_ok q : aq_is_empty q = match aq_elems q with [] => true | _ => false end;
}.

(** Rust's derived [Debug] of an event. *)
Class EventDebug `{KeyboardApi} `{MouseApi} := event_debug : Event -> string.

(** ** State *)

(** [spin::Lazy]: a value being initialised makes every other access spin. *)
Inductive Lazy (A : Type) := Uninit | Running | Ready (a : A).
Arguments Uninit {A}.
Arguments Running {A}.
Arguments Ready {A} a.

(** [EVENT_QUEUE], [KEYBOARD] and [MOUSE] with the devices and the heap. *)
Record io `{ArrayQueueApi} := mkIo {
  dev : devices;
  kheap : KHeap;
  memory : mem;
  event_queue : Lazy queue;
  keyboard_lazy : Lazy (Mutex keyboard);
  mouse_static : mouse;
}.

Section code.
Context {ck : OverflowChecks} `{SlabLayout} `{ArrayQueueApi} {dbg : EventDebug}.

Definition io_new (d : devices) (h : KHeap) (m : mem) : io := mkIo _ _ _ d h m Uninit Uninit mouse_new.

Definition set_dev (d : devices) (s : io) : io :=
  mkIo _ _ _ d (kheap s) (memory s) (event_queue s) (keyboard_lazy s) (mouse_static s).
Definition set_heap (h : KHeap) (m : mem) (s : io) : io :=
  mkIo _ _ _ (dev s) h m (event_queue s) (keyboard_lazy s) (mouse_static s).
Definition set_queue (q : Lazy queue) (s : io) : io :=
  mkIo _ _ _ (dev s) (kheap s) (memory s) q (keyboard_lazy s) (mouse_static s).
Definition set_keyboard (k : Lazy (Mutex keyboard)) (s : io) : io :=
  mkIo _ _ _ (dev s) (kheap s) (memory s) (event_queue s) k (mouse_static s).
Definition set_mouse (k : mouse) (s : io) : io :=
  mkIo _ _ _ (dev s) (kheap s) (memory s) (event_queue s) (keyboard_lazy s) k.

Abbreviation IO := (M io).
Definition modify (f : io -> io) : IO () := s ← get; put (f s).

Definition io_dev {A} (f : D A) : IO A := fun s =>
  match f (dev s) with
  | Ret (a, d) => Ret (a, set_dev d s)
  | Panic => Panic | Undef => Undef | Hang => Hang | OutOfFuel => OutOfFuel
  end.
Definition io_heap {A} (f : M (KHeap * mem) A) : IO A := fun s =>
  match f (kheap s, memory s) with
  | Ret (a, (h, m)) => Ret (a, set_heap h m s)
  | Panic => Panic | Undef => Undef | Hang => Hang | OutOfFuel => OutOfFuel
  end.

(** ** [events.rs] *)

(** A dereference of [EVENT_QUEUE]. *)
Definition EVENT_QUEUE : IO queue :=
  s ← get;
  match event_queue s with
  | Ready q => mret q
  | Running => hang
  | Uninit =>
      modify (set_queue Running);;
      q ← io_heap (aq_new EVENT_QUEUE_SIZE);
      modify (set_queue (Ready q));;
      mret q
  end.

Definition push_event (event : Event) : IO () :=
  q ← EVENT_QUEUE;
  let '(q', r) := aq_push q event in
  modify (set_queue (Ready q'));;
  match r with
  | inl _ => io_dev (serial_println [Text "[WARNING] Event queue full, dropping event: "; Text (event_debug event)])
  | inr _ => mret ()
  end.

Definition pop_event : IO (option Event) :=
  q ← EVENT_QUEUE;
  let '(q', r) := aq_pop q in
  modify (set_queue (Ready q'));;
  mret r.

Definition has_events : IO bool :=
  q ← EVENT_QUEUE;
  mret (negb (aq_is_empty q)).

(** ** [keyboard.rs] *)

(** [KEYBOARD.lock()], [KEYBOARD] built at its first use. *)
Definition lock_keyboard : IO keyboard :=
  s ← get;
  match keyboard_lazy s with
  | Running => hang
  | Uninit => modify (set_keyboard (Ready (mkMutex true keyboard_new)));; mret keyboard_new
  | Ready k =>
      if locked k then hang
      else modify (set_keyboard (Ready (mkMutex true (data k))));; mret (data k)
  end.

Definition key_event (e : KeyCode * KeyState) : KeyboardEvent :=
  match e.2 with
  | Down => KeyPressed e.1
  | Up => KeyReleased e.1
  | SingleShotState => SingleShot e.1
  end.

(** The scancode is what the port 0x60 delivers; the guard of the keyboard is
    dropped at the end. *)
Definition keyboard_interrupt_handler (scancode : Z) : IO () :=
  k ← lock_keyboard;
  let '(k', r) := add_byte k scancode in
  modify (set_keyboard (Ready (mkMutex true k')));;
  match r with
  | inr (Some e) => push_event (EvKeyboard (key_event e))
  | _ => mret ()
  end;;
  io_dev end_interrupt;;
  modify (set_keyboard (Ready (mkMutex false k'))).

(** ** [mouse.rs] *)

Definition handle_on_complete (state : MouseState) : IO () := push_event (EvMouse state).

Definition mouse_interrupt_handler (data : Z) : IO () :=
  s ← get;
  let '(k, r) := process_packet (mouse_static s) data in
  modify (set_mouse k);;
  match r with
  | Some state => handle_on_complete state
  | None => mret ()
  end;;
  io_dev end_interrupt.

Definition init_mouse : IO () :=
  s ← get;
  let '(k, r) := mouse_init (set_on_complete (mouse_static s)) in
  modify (set_mouse k);;
  match r with
  | inr _ => mret ()
  | inl _ => panic
  end.

(** [drivers::init] *)
Definition drivers_init : IO () := io_dev init_serial;; init_mouse.

Lemma run_modify f s : modify f s = Ret ((), f s).
Proof. reflexivity. Qed.
Lemma run_io_dev {A} (f : D A) s a d : f (dev s) = Ret (a, d) -> io_dev f s = Ret (a, set_dev d s).
Proof. unfold io_dev. by intros ->. Qed.
Lemma run_io_heap {A} (f : M (KHeap * mem) A) s a h m :
  f (kheap s, memory s) = Ret (a, (h, m)) -> io_heap f s = Ret (a, set_heap h m s).
Proof. unfold io_heap. by intros ->. Qed.
End code.
