(* ===== verification/EventsTheorems.v ===== *)
(** * Correctness of the event queue and the input interrupts

    The handlers and the queue operations refine a plain bounded list of events
    next to the states of the two decoders. *)
From stdpp Require Import strings.
From S2P Require Import Prelude Machine X86Api Buddy Slub SlubRep GlobalAlloc HeapRep HeapProofs HeapSystem HeapTheorems.
From S2P Require Import Drivers Events.

(** ** The reference: a bounded list *)

Section reference.
Context `{KeyboardApi} `{MouseApi}.

Inductive InputOp := KeyIrq (scancode : Z) | MouseIrq (byte : Z) | PopEvent | HasEvents.
Inductive InputRes := Done | Popped (e : option Event) | Has (b : bool).

Record input := mkInput { pending : list Event; decoder : keyboard; mouse_decoder : mouse }.

(** The event a byte completes. *)
Definition key_of (k : keyboard) (b : Z) : option Event :=
  match (add_byte k b).2 with inr (Some e) => Some (EvKeyboard (key_event e)) | _ => None end.
Definition mouse_of (k : mouse) (b : Z) : option Event := EvMouse <$> (process_packet k b).2.

Definition fits (q : list Event) : bool := bool_decide (Z.of_nat (length q) < EVENT_QUEUE_SIZE).
Definition offer (q : list Event) (o : option Event) : list Event :=
  match o with Some e => if fits q then q ++ [e] else q | None => q end.

Definition ref_step (o : InputOp) (a : input) : InputRes * input :=
  match o with
  | KeyIrq b => (Done, mkInput (offer (pending a) (key_of (decoder a) b))
                         (add_byte (decoder a) b).1 (mouse_decoder a))
  | MouseIrq b => (Done, mkInput (offer (pending a) (mouse_of (mouse_decoder a) b))
                           (decoder a) (process_packet (mouse_decoder a) b).1)
  | PopEvent => (Popped (head (pending a)), mkInput (tail (pending a)) (decoder a) (mouse_decoder a))
  | HasEvents => (Has (negb (bool_decide (pending a = []))), a)
  end.

Fixpoint ref_run (os : list InputOp) (a : input) : list InputRes * input :=
  match os with
  | [] => ([], a)
  | o :: os => let '(r, a) := ref_step o a in let '(rs, a) := ref_run os a in (r :: rs, a)
  end.

(** The interrupts among the operations, each to be acknowledged. *)
Definition is_irq (o : InputOp) : bool := match o with KeyIrq _ | MouseIrq _ => true | _ => false end.
Definition acks (lapic : Z) (os : list InputOp) : list (Z * Z) :=
  replicate (length (filter (fun o => is_irq o = true) os)) (lapic + 0xB0, 0).
End reference.

Section proofs.
Context {ck : OverflowChecks} `{SlabLayout} `{ArrayQueueApi} {dbg : EventDebug}.

Definition do_op (o : InputOp) : M io InputRes :=
  match o with
  | KeyIrq b => keyboard_interrupt_handler b;; mret Done
  | MouseIrq b => mouse_interrupt_handler b;; mret Done
  | PopEvent => e ← pop_event; mret (Popped e)
  | HasEvents => b ← has_events; mret (Has b)
  end.
Fixpoint do_ops (os : list InputOp) : M io (list InputRes) :=
  match os with
  | [] => mret []
  | o :: os => r ← do_op o; rs ← do_ops os; mret (r :: rs)
  end.

Context (aq_elems : queue -> list Event) (aq_capacity : queue -> Z) {laws : ArrayQueueLaws aq_elems aq_capacity}.

(** The heap serves the buffer of the queue. *)
Definition heap_ready (h : KHeap) (m : mem) : Prop :=
  exists p st, heap_alloc (aq_layout EVENT_QUEUE_SIZE) (h, m) = Ret (p, st) /\ p <> 0.

(** What the statics stand for. *)
Definition queue_rep (s : io) (q : list Event) : Prop :=
  match event_queue s with
  | Uninit => q = [] /\ heap_ready (kheap s) (memory s)
  | Running => False
  | Ready x => aq_elems x = q /\ aq_capacity x = EVENT_QUEUE_SIZE
  end.
Definition keyboard_rep (s : io) (k : keyboard) : Prop :=
  match keyboard_lazy s with
  | Uninit => k = keyboard_new
  | Running => False
  | Ready x => x = mkMutex false k
  end.

Record input_rep (s : io) (a : input) : Prop := {
  ir_serial : serial_ready (dev s) = true;
  ir_queue : queue_rep s (pending a);
  ir_keyboard : keyboard_rep s (decoder a);
  ir_mouse : mouse_static s = mouse_decoder a;
}.

(** ** The operations of the queue *)

(** Forcing the queue gives a queue with the pending events. *)
Lemma force_queue s q : queue_rep s q ->
  exists x h m, EVENT_QUEUE s = Ret (x, set_queue (Ready x) (set_heap h m s)) /\
    aq_elems x = q /\ aq_capacity x = EVENT_QUEUE_SIZE.
Proof.
  unfold queue_rep, EVENT_QUEUE. intros Hq. run (run_get s). destruct (event_queue s) as [| |x] eqn:E; [|done|].
  - destruct Hq as [-> (p & [h1 m1] & Ha & Hp)].
    destruct (aq_new_ok EVENT_QUEUE_SIZE (kheap s) (memory s) p h1 m1) as (x & m2 & En & He & Hc & _); [done..|].
    exists x, h1, m2. split; [|done]. run (run_modify (set_queue Running) s).
    by run (run_io_heap (aq_new EVENT_QUEUE_SIZE) (set_queue Running s) x h1 m2 En).
  - exists x, (kheap s), (memory s). split; [|done]. unfold set_queue, set_heap. destruct s; simpl in *. by subst.
Qed.

(** [s'] is [s] with another queue and heap and more output. *)
Definition queue_step (s s' : io) (q' : list Event) (frags : list output) : Prop :=
  (exists x, event_queue s' = Ready x /\ aq_elems x = q' /\ aq_capacity x = EVENT_QUEUE_SIZE) /\
  keyboard_lazy s' = keyboard_lazy s /\ mouse_static s' = mouse_static s /\
  dev s' = mkDev (serial_ready (dev s)) (console (dev s) ++ frags) (lapic_address (dev s)) (mmio (dev s)).

Definition warning (q : list Event) (o : option Event) : list output :=
  match o with
  | Some e => if fits q then [] else
      [Text "[WARNING] Event queue full, dropping event: "; Text (event_debug e); Text newline]
  | None => []
  end.

Lemma devices_same d : d = mkDev (serial_ready d) (console d ++ []) (lapic_address d) (mmio d).
Proof. rewrite app_nil_r. by destruct d. Qed.

Lemma push_event_run s q e : queue_rep s q -> serial_ready (dev s) = true ->
  exists s', push_event e s = Ret ((), s') /\ queue_step s s' (offer q (Some e)) (warning q (Some e)).
Proof.
  intros Hq Hs. destruct (force_queue s q Hq) as (x & h & m & E & He & Hc). unfold push_event. run E.
  unfold offer, warning, fits. case_bool_decide as Hf; rewrite <- He in Hf.
  - destruct (aq_push_ok x e) as (x' & -> & He' & Hc'); [lia|]. eexists. split; [reflexivity|].
    split; [|split_and!; [done|done|apply devices_same]]. exists x'. rewrite He', He. split_and!; [done|done|congruence].
  - destruct (aq_push_full x e) as (x' & -> & He' & Hc'); [lia|].
    set (s1 := set_queue (Ready x') (set_queue (Ready x) (set_heap h m s))).
    exists (set_dev (mkDev true (console (dev s) ++ [Text "[WARNING] Event queue full, dropping event: ";
      Text (event_debug e); Text newline]) (lapic_address (dev s)) (mmio (dev s))) s1). split.
    + run (run_modify (set_queue (Ready x')) (set_queue (Ready x) (set_heap h m s))).
      by apply run_io_dev, run_serial_print.
    + split; [|split_and!; [done..|by rewrite Hs]]. exists x'. rewrite He', He. split_and!; [done|done|congruence].
Qed.

(** An event, if there is one. *)
Lemma push_option_run s q (o : option Event) : queue_rep s q -> serial_ready (dev s) = true ->
  exists s', match o with Some e => push_event e | None => mret () end s = Ret ((), s') /\
    queue_rep s' (offer q o) /\ keyboard_lazy s' = keyboard_lazy s /\ mouse_static s' = mouse_static s /\
    dev s' = mkDev (serial_ready (dev s)) (console (dev s) ++ warning q o) (lapic_address (dev s)) (mmio (dev s)).
Proof.
  intros Hq Hs. destruct o as [e|].
  - destruct (push_event_run s q e Hq Hs) as (s' & E & (x & Hx & Hq') & Hr). exists s'.
    split; [done|]. split; [|done]. unfold queue_rep. by rewrite Hx.
  - exists s. split_and!; [done..|apply devices_same].
Qed.

(** ** The interrupts *)

Lemma lock_keyboard_run s k : keyboard_rep s k ->
  lock_keyboard s = Ret (k, set_keyboard (Ready (mkMutex true k)) s).
Proof.
  unfold keyboard_rep, lock_keyboard. intros Hk. run (run_get s).
  destruct (keyboard_lazy s) as [| |x]; [by subst|done|by subst].
Qed.

Definition op_output (o : InputOp) (a : input) : list output :=
  match o with
  | KeyIrq b => warning (pending a) (key_of (decoder a) b)
  | MouseIrq b => warning (pending a) (mouse_of (mouse_decoder a) b)
  | _ => []
  end.

(** [o] done: the results and the state of the reference, its output and its
    acknowledgement. *)
Definition op_done (o : InputOp) (s : io) (a : input) (s' : io) : Prop :=
  input_rep s' (ref_step o a).2 /\
  dev s' = mkDev true (console (dev s) ++ op_output o a) (lapic_address (dev s))
    (mmio (dev s) ++ acks (lapic_address (dev s)) [o]).

Lemma keyboard_irq_run s a b : input_rep s a ->
  exists s', keyboard_interrupt_handler b s = Ret ((), s') /\ op_done (KeyIrq b) s a s'.
Proof.
  intros [Hs Hq Hk Hm]. unfold keyboard_interrupt_handler. run (lock_keyboard_run s _ Hk).
  unfold op_done, op_output, ref_step, key_of. destruct (add_byte (decoder a) b) as [k' r]. cbn [fst snd].
  set (s1 := set_keyboard (Ready (mkMutex true k')) (set_keyboard (Ready (mkMutex true (decoder a))) s)).
  run (run_modify (set_keyboard (Ready (mkMutex true k'))) (set_keyboard (Ready (mkMutex true (decoder a))) s)).
  change (set_keyboard _ (set_keyboard _ s)) with s1.
  set (o := match r with inr (Some e) => Some (EvKeyboard (key_event e)) | _ => None end).
  destruct (push_option_run s1 (pending a) o Hq Hs) as (s2 & E2 & Hq2 & Hk2 & Hm2 & Hd2).
  replace (match r with inr (Some e) => push_event (EvKeyboard (key_event e)) | _ => mret () end)
    with (match o with Some e => push_event e | None => mret () end) by (by destruct r as [|[]]).
  run E2. run (run_io_dev _ s2 _ _ (run_end_interrupt (dev s2))).
  eexists. split; [reflexivity|]. rewrite Hd2. cbn [dev s1 set_keyboard]. rewrite Hs. split; [|done].
  constructor; [done|exact Hq2|done|by rewrite <- Hm].
Qed.

Lemma mouse_irq_run s a b : input_rep s a ->
  exists s', mouse_interrupt_handler b s = Ret ((), s') /\ op_done (MouseIrq b) s a s'.
Proof.
  intros [Hs Hq Hk Hm]. unfold mouse_interrupt_handler. run (run_get s). rewrite Hm.
  unfold op_done, op_output, ref_step, mouse_of. destruct (process_packet (mouse_decoder a) b) as [k' r]. cbn [fst snd].
  run (run_modify (set_mouse k') s).
  destruct (push_option_run (set_mouse k' s) (pending a) (EvMouse <$> r) Hq Hs) as (s2 & E2 & Hq2 & Hk2 & Hm2 & Hd2).
  replace (match r with Some state => handle_on_complete state | None => mret () end)
    with (match EvMouse <$> r with Some e => push_event e | None => mret () end) by (by destruct r).
  run E2. rewrite (run_io_dev _ s2 _ _ (run_end_interrupt (dev s2))).
  eexists. split; [reflexivity|]. rewrite Hd2. cbn [dev set_mouse]. rewrite Hs. split; [|done].
  constructor; [done|exact Hq2| |exact Hm2]. unfold keyboard_rep in *. cbn [keyboard_lazy set_dev]. by rewrite Hk2.
Qed.

(** What reading the queue leaves. *)
Lemma queue_read_done s a x x' h m q' :
  input_rep s a -> aq_elems x' = q' -> aq_capacity x' = EVENT_QUEUE_SIZE ->
  let s' := set_queue (Ready x') (set_queue (Ready x) (set_heap h m s)) in
  input_rep s' (mkInput q' (decoder a) (mouse_decoder a)) /\
  dev s' = mkDev true (console (dev s) ++ []) (lapic_address (dev s)) (mmio (dev s) ++ []).
Proof.
  intros [Hs Hq Hk Hm] He Hc. split; [by constructor|]. cbn. rewrite !app_nil_r, <- Hs. by destruct (dev s).
Qed.

Lemma do_op_run s a o : input_rep s a ->
  exists s', do_op o s = Ret ((ref_step o a).1, s') /\ op_done o s a s'.
Proof.
  intros Ha. destruct o as [b|b| |]; unfold do_op.
  - destruct (keyboard_irq_run s a b Ha) as (s' & E & Hd). exists s'. split; [by run E|done].
  - destruct (mouse_irq_run s a b Ha) as (s' & E & Hd). exists s'. split; [by run E|done].
  - pose proof Ha as [_ Hq _ _]. destruct (force_queue s _ Hq) as (x & h & m & E & He & Hc).
    destruct (aq_pop_ok x) as (x' & Ep & He' & Hc'). rewrite He in Ep, He'.
    assert (pop_event s = Ret (head (pending a), set_queue (Ready x') (set_queue (Ready x) (set_heap h m s)))) as E'.
    { unfold pop_event. run E. by rewrite Ep. }
    eexists. split; [by run E'|]. apply (queue_read_done s a x x' h m); [done|done|congruence].
  - pose proof Ha as [_ Hq _ _]. destruct (force_queue s _ Hq) as (x & h & m & E & He & Hc).
    assert (has_events s = Ret (negb (bool_decide (pending a = [])), set_queue (Ready x) (set_heap h m s))) as E'.
    { unfold has_events. run E. rewrite aq_empty_ok, He. by destruct (pending a). }
    eexists. split; [by run E'|]. destruct a as [q k ms]. exact (queue_read_done s _ x x h m q Ha He Hc).
Qed.

Fixpoint ops_output (os : list InputOp) (a : input) : list output :=
  match os with
  | [] => []
  | o :: os => op_output o a ++ ops_output os (ref_step o a).2
  end.

Lemma do_ops_run os : forall s a, input_rep s a ->
  exists s', do_ops os s = Ret ((ref_run os a).1, s') /\ input_rep s' (ref_run os a).2 /\
    dev s' = mkDev true (console (dev s) ++ ops_output os a) (lapic_address (dev s))
      (mmio (dev s) ++ acks (lapic_address (dev s)) os).
Proof.
  induction os as [|o os IH]; intros s a Ha.
  - exists s. split_and!; [done..|]. unfold acks. simpl. rewrite !app_nil_r, <- (ir_serial s a Ha). by destruct (dev s).
  - destruct (do_op_run s a o Ha) as (s1 & E1 & Ha1 & Hd1).
    destruct (IH s1 (ref_step o a).2 Ha1) as (s2 & E2 & Ha2 & Hd2).
    exists s2. cbn [do_ops ref_run ops_output]. destruct (ref_step o a) as [r a1]. cbn [fst snd] in *.
    destruct (ref_run os a1) as [rs a2]. split_and!; [by run E1; run E2|done|].
    rewrite Hd2, Hd1. cbn [console lapic_address mmio]. rewrite <- !app_assoc. do 2 f_equal.
    unfold acks. rewrite <- replicate_add, <- length_app. do 2 f_equal. by rewrite <- filter_app.
Qed.

(** The queue never holds more than its capacity. *)
Lemma offer_bound q o : Z.of_nat (length q) <= EVENT_QUEUE_SIZE -> Z.of_nat (length (offer q o)) <= EVENT_QUEUE_SIZE.
Proof.
  intros Hq. destruct o as [e|]; [|done]. cbn [offer]. unfold fits. case_bool_decide; [|done].
  rewrite length_app. simpl. lia.
Qed.
Lemma ref_run_bound os : forall a, Z.of_nat (length (pending a)) <= EVENT_QUEUE_SIZE ->
  Z.of_nat (length (pending (ref_run os a).2)) <= EVENT_QUEUE_SIZE.
Proof.
  induction os as [|o os IH]; intros a Ha; [done|]. cbn [ref_run].
  specialize (IH (ref_step o a).2). destruct (ref_step o a) as [r a1] eqn:E. cbn [snd] in IH.
  destruct (ref_run os a1). apply IH.
  destruct o; injection E as <- <-; cbn [pending]; [by apply offer_bound..| |done]. destruct (pending a); simpl in *; lia.
Qed.
End proofs.

Section theorem.
Context {ck : OverflowChecks} `{SlabLayoutLaws} `{PhysFrameLaws}.
Context {kbd : KeyboardApi} {ms : MouseApi} {aq : ArrayQueueApi} {dbg : EventDebug}.
Context (aq_elems : queue -> list Event) (aq_capacity : queue -> Z) {laws : ArrayQueueLaws aq_elems aq_capacity}.

(** C21: the input path refines a bounded first-in first-out list.  From a state
    in which the queue has not been built yet, over a reachable heap with a page
    to spare, any sequence of keyboard and mouse interrupts, pops and tests
    returns, without panic or deadlock, exactly the results of the reference:
    events come out in the order of their completing bytes, an event is dropped
    only when 128 are pending, with a warning on the console, and every interrupt
    is acknowledged exactly once. *)
Theorem input_refines_bounded_fifo off m x (s : io) os :
  0 <= off -> (4096 | off) -> off + MAX_PAGES * Buddy.PAGE_SIZE < U64_LIM ->
  hreach off m x -> kheap s = hs_heap x -> memory s = hs_mem x ->
  (length (hs_live x) + length (hs_frames x) < length (hs_fed x))%nat ->
  lsize (aq_layout EVENT_QUEUE_SIZE) <= 4096 ->
  serial_ready (dev s) = true -> event_queue s = Uninit -> keyboard_lazy s = Uninit ->
  let ref := ref_run os (mkInput [] keyboard_new (mouse_static s)) in
  exists s', do_ops os s = Ret (ref.1, s') /\ input_rep aq_elems aq_capacity s' ref.2 /\
    Z.of_nat (length (pending ref.2)) <= EVENT_QUEUE_SIZE /\
    console (dev s') = console (dev s) ++ ops_output os (mkInput [] keyboard_new (mouse_static s)) /\
    mmio (dev s') = mmio (dev s) ++ acks (lapic_address (dev s)) os.
Proof.
  intros Hlo Hal Hhi Hr Hh Hm Hroom Hsz Hs Hq Hk ref.
  pose proof (aq_layout_ok EVENT_QUEUE_SIZE ltac:(done)) as Hpos.
  destruct (heap_room off m x (aq_layout EVENT_QUEUE_SIZE) Hlo Hal Hhi Hr) as (p & h' & m' & S' & E & Hp & _);
    [lia|done|].
  assert (input_rep aq_elems aq_capacity s (mkInput [] keyboard_new (mouse_static s))) as Ha.
  { constructor; [done| | |done].
    - unfold queue_rep. rewrite Hq, Hh, Hm. split; [done|]. exists p, (h', m'). split; [done|lia].
    - unfold keyboard_rep. by rewrite Hk. }
  destruct (do_ops_run aq_elems aq_capacity os s _ Ha) as (s' & E' & Ha' & Hd). exists s'.
  split_and!; [done|done|by apply ref_run_bound|by rewrite Hd..].
Qed.

Lemma heap_alloc_held h mm layout :
  length (caches h) = 8%nat -> locked (page_allocator h) = true -> 0 < lsize layout <= 4096 ->
  heap_alloc layout (h, mm) = Hang.
Proof.
  intros Hc Hl Hs. unfold heap_alloc. cbv zeta. destruct (Z.ltb_spec 2048 (lsize layout)).
  - rewrite (proj2 (Z.leb_le _ Slub.PAGE_SIZE)) by (change Slub.PAGE_SIZE with 4096; lia).
    apply run_bind_hang. unfold lock_provider. run (run_get_self h mm). by rewrite Hl.
  - destruct (alloc_index_class (lsize layout)) as (sz & Hi & _); [lia|].
    apply lookup_lt_Some in Hi. change (length cache_sizes) with 8%nat in Hi. rewrite <- Hc in Hi.
    destruct (lookup_lt_is_Some_2 _ _ Hi) as [c Hci].
    assert (lock_cache (alloc_index (lsize layout)) (h, mm) = if locked c then Hang else
      Ret ((), (mkHeap (<[alloc_index (lsize layout) := mkMutex true (data c)]> (caches h)) (page_allocator h), mm))) as E.
    { unfold lock_cache. run (run_get_self h mm). run (run_lift c (h, mm) _ (index_ok _ _ _ Hci)). by destruct (locked c). }
    destruct (locked c); [by apply run_bind_hang|]. run E. apply run_bind_hang. unfold lock_provider.
    run (run_get_self (mkHeap (<[alloc_index (lsize layout) := mkMutex true (data c)]> (caches h)) (page_allocator h)) mm).
    cbn [page_allocator]. by rewrite Hl.
Qed.

(** The first event cannot be queued while the interrupted code holds the page
    allocator's mutex: building the queue spins on it for ever. *)
Lemma first_event_deadlocks (s : io) e :
  event_queue s = Uninit -> length (caches (kheap s)) = 8%nat -> locked (page_allocator (kheap s)) = true ->
  lsize (aq_layout EVENT_QUEUE_SIZE) <= 4096 -> push_event e s = Hang.
Proof.
  intros Hq Hc Hl Hsz. pose proof (aq_layout_ok EVENT_QUEUE_SIZE ltac:(done)) as Hpos.
  assert (heap_alloc (aq_layout EVENT_QUEUE_SIZE) (kheap s, memory s) = Hang) as Hh by (apply heap_alloc_held; (done || lia)).
  unfold push_event. apply run_bind_hang. unfold EVENT_QUEUE. run (run_get s). rewrite Hq.
  run (run_modify (set_queue Running) s). apply run_bind_hang. unfold io_heap. cbn [kheap memory set_queue].
  by rewrite (aq_new_hangs EVENT_QUEUE_SIZE _ _ ltac:(done) Hh).
Qed.
End theorem.

(** ** Witness: scancodes below 128 press a key, the others release it *)

Module Demo.
#[local] Existing Instances HeapTheorems.Demo.demo_ck HeapTheorems.Demo.demo_layout HeapTheorems.Demo.demo_layout_laws.
#[local] Existing Instances ReferenceApi.phys_frame_api ReferenceApi.phys_frame_laws.

#[local] Instance demo_keyboard : KeyboardApi := {|
  KeyCode := Z; keyboard := (); keyboard_new := (); DecodeError := Empty_set;
  add_byte := fun _ b => ((), inr (Some (if b <? 128 then (b, Down) else (b - 128, Up))));
|}.
#[local] Instance demo_mouse : MouseApi := {|
  MouseState := Z; mouse := nat; mouse_new := 0%nat; MouseError := Empty_set;
  set_on_complete := fun k => k; mouse_init := fun k => (k, inr ());
  process_packet := fun k b => if decide (k = 2%nat) then (0%nat, Some b) else (S k, None);
|}.
#[local] Instance demo_queue : ArrayQueueApi := {|
  queue := list Event * Z;
  aq_layout := fun cap => mkLayout (16 * cap) 8;
  aq_new := fun cap st => match heap_alloc (mkLayout (16 * cap) 8) st with
    | Ret (p, st') => if p =? 0 then Panic else Ret (([], cap), st')
    | Panic => Panic | Undef => Undef | Hang => Hang | OutOfFuel => OutOfFuel end;
  aq_push := fun '(q, cap) e =>
    if Z.of_nat (length q) <? cap then ((q ++ [e], cap), inr ()) else ((q, cap), inl e);
  aq_pop := fun '(q, cap) => ((tail q, cap), head q);
  aq_is_empty := fun '(q, _) => match q with [] => true | _ => false end;
|}.
Definition demo_elems (q : list Event * Z) : list Event := q.1.
Definition demo_capacity (q : list Event * Z) : Z := q.2.
#[local] Instance demo_queue_laws : ArrayQueueLaws demo_elems demo_capacity.
Proof.
  constructor.
  - simpl. lia.
  - intros cap h m p h1 m1 _ E Hp. exists ([], cap), m1. cbn [aq_new demo_queue] in *. cbn [aq_layout demo_queue] in E.
    rewrite E, (proj2 (Z.eqb_neq p 0)) by done. split_and!; [done..|apply mem_frame_refl].
  - intros cap h m st _ E. cbn [aq_new demo_queue aq_layout] in *. by rewrite E.
  - intros cap h m _ E. cbn [aq_new demo_queue aq_layout] in *. by rewrite E.
  - intros [q cap] e Hl. simpl in *. rewrite (proj2 (Z.ltb_lt _ _)) by done. by eexists.
  - intros [q cap] e Hl. simpl in *. rewrite (proj2 (Z.ltb_ge _ _)) by done. by eexists.
  - intros [q cap]. by eexists.
  - by intros [q cap].
Qed.
#[local] Instance demo_debug : EventDebug := fun _ => "KeyboardEvent(..)".

Definition demo_io : io :=
  io_new (mkDev true [] 0xFEE00000 []) HeapTheorems.Demo.demo1.1 HeapTheorems.Demo.demo1.2.

Lemma input_refines_bounded_fifo_witness :
  exists s', do_ops [KeyIrq 30; MouseIrq 1; KeyIrq 158; PopEvent; HasEvents] demo_io =
    Ret ([Done; Done; Done; Popped (Some (EvKeyboard (KeyPressed 30))); Has true], s') /\
  mmio (dev s') = [(0xFEE000B0, 0); (0xFEE000B0, 0); (0xFEE000B0, 0)].
Proof.
  destruct (input_refines_bounded_fifo (aq := demo_queue) demo_elems demo_capacity
    HeapTheorems.Demo.demo_off ∅ HeapTheorems.Demo.demo_sys1 demo_io
    [KeyIrq 30; MouseIrq 1; KeyIrq 158; PopEvent; HasEvents] HeapTheorems.Demo.demo_low
    HeapTheorems.Demo.demo_aligned HeapTheorems.Demo.demo_high HeapTheorems.Demo.demo_reach1
    eq_refl eq_refl ltac:(vm_compute; lia) ltac:(vm_compute; discriminate) eq_refl eq_refl eq_refl) as (s' & E & _ & _ & _ & Hm).
  exists s'. split; [exact E|exact Hm].
Defined.
End Demo.
