(* ===== verification/Interrupts.v ===== *)
(** * Interrupts and exceptions: [kernel/src/interrupts.rs],
    [kernel/src/drivers/exit.rs], [kernel/src/drivers/pit.rs], the stacks of
    [kernel/src/gdt.rs] and the panic handler of [kernel/src/main.rs]

    The descriptor table, the handlers of the exceptions, which report and stop
    the machine, and the stacks they run on. *)
From stdpp Require Import strings.
From S2P Require Import Prelude Drivers Gdt Paging UserSpace.

(** ** [exit.rs] *)

Inductive QemuExitCode := Success | Failed.
Definition exit_value (c : QemuExitCode) : Z := match c with Success => 0x11 | Failed => 0x13 end.
Definition exit_name (c : QemuExitCode) : string := match c with Success => "Success" | Failed => "Failed" end.
Definition newlines : string := (newline ++ newline)%string.

(** A function that does not return ends in a loop for ever; its value is the
    list of port writes (port, value) made before the loop. *)
Definition exit_qemu (exit_code : QemuExitCode) : D (list (Z * Z)) :=
  serial_println [Text newlines; Text "Exiting QEMU with code "; Text (exit_name exit_code); Text newlines];;
  mret [(0xf4, Z.shiftr (exit_value exit_code) 1)].

(** ** The handlers of the exceptions *)

(** The frame the processor pushes, and Rust's formatting of it and of the
    error code of a page fault. *)
Record InterruptStackFrame := mkFrame {
  instruction_pointer : Z; code_segment : Z; cpu_flags : Z; stack_pointer : Z; stack_segment : Z;
}.
Class FrameDebug := {
  frame_debug : InterruptStackFrame -> string;
  page_fault_debug : Z -> string;
  virt_debug : Z -> string;
}.

Section handlers.
Context `{FrameDebug}.

Definition divide_by_zero_handler (stack_frame : InterruptStackFrame) : D (list (Z * Z)) :=
  serial_println [Text "EXCEPTION: DIVIDE BY ZERO"; Text newline; Text (frame_debug stack_frame)];;
  exit_qemu Failed.

Definition double_fault_handler (stack_frame : InterruptStackFrame) (error_code : Z) : D (list (Z * Z)) :=
  serial_println [Text "EXCEPTION: DOUBLE FAULT"; Text newline; Text (frame_debug stack_frame)];;
  exit_qemu Failed.

(** [cr2] is the register [Cr2]. *)
Definition page_fault_handler (cr2 : Z) (stack_frame : InterruptStackFrame) (error_code : Z) : D (list (Z * Z)) :=
  serial_println [Text "EXCEPTION: PAGE FAULT"];;
  serial_println [Text "Accessed Address: "; Text (virt_debug cr2)];;
  serial_println [Text "Error Code: "; Text (page_fault_debug error_code)];;
  serial_println [Text (frame_debug stack_frame)];;
  exit_qemu Failed.

Definition general_protection_fault_handler (stack_frame : InterruptStackFrame) (error_code : Z) : D (list (Z * Z)) :=
  serial_println [Text "EXCEPTION: GENERAL PROTECTION FAULT"];;
  serial_println [Text "Error Code: "; Dec error_code];;
  serial_println [Text (frame_debug stack_frame)];;
  exit_qemu Failed.
End handlers.

(** The panic handler; [info] is the formatted message. *)
Definition panic_handler (info : string) : D (list (Z * Z)) :=
  serial_println [Text "[failed]"; Text newline];;
  serial_println [Text "Error: "; Text info; Text newline];;
  exit_qemu Failed.

(** ** [pit.rs] *)

Definition timer_interrupt_handler (stack_frame : InterruptStackFrame) : D () :=
  let cs := code_segment stack_frame in
  let from_usermode := Z.land cs 3 =? 3 in
  (if from_usermode then serial_print [Text "u"] else serial_print [Text "."]);;
  end_interrupt.

(** ** The stacks of the task state segment *)

Definition STACK_SIZE : Z := 4096 * 5.
Definition DOUBLE_FAULT_IST_INDEX : Z := 0.
Definition PAGE_FAULT_IST_INDEX : Z := 1.
Definition GENERAL_PROTECTION_FAULT_IST_INDEX : Z := 2.

Record TaskStateSegment := mkTss {
  interrupt_stack_table : list Z;   (* seven entries *)
  privilege_stack_table : list Z;   (* three entries *)
}.

(** Where the linker puts the four static stacks. *)
Record stack_addrs := mkStacks {
  df_stack : Z; pf_stack : Z; gp_stack : Z; kernel_stack0 : Z;
}.

Section tss.
Context {ck : OverflowChecks} `{VirtAddrApi}.

(** [VirtAddr::from_ptr(&STACK) + STACK_SIZE] *)
Definition stack_end (stack : Z) : outcome Z :=
  stack_start ← virt_new stack;
  e ← add64 stack_start STACK_SIZE;
  virt_new e.

Definition set_entry (l : list Z) (i v : Z) : outcome (list Z) := index_set l (Z.to_nat i) v.

(** The initialiser of [TSS]. *)
Definition TSS (st : stack_addrs) : outcome TaskStateSegment :=
  let ist := replicate 7 0 in
  let privilege := replicate 3 0 in
  e ← stack_end (df_stack st);
  ist ← set_entry ist DOUBLE_FAULT_IST_INDEX e;
  e ← stack_end (pf_stack st);
  ist ← set_entry ist PAGE_FAULT_IST_INDEX e;
  e ← stack_end (gp_stack st);
  ist ← set_entry ist GENERAL_PROTECTION_FAULT_IST_INDEX e;
  e ← stack_end (kernel_stack0 st);
  privilege ← set_entry privilege 0 e;
  Ret (mkTss ist privilege).
End tss.

(** ** The descriptor table *)

Inductive HandlerFn :=
  | H_double_fault | H_general_protection_fault | H_page_fault | H_divide_by_zero
  | H_timer_interrupt_entry | H_keyboard_interrupt | H_mouse_interrupt.
#[global] Instance HandlerFn_eq_dec : EqDecision HandlerFn.
Proof. solve_decision. Defined.

Record idt_entry := mkEntry { handler : HandlerFn; stack_index : option Z }.

(** The vectors of the exceptions, fixed by the architecture. *)
Definition DIVIDE_ERROR : Z := 0.
Definition DOUBLE_FAULT : Z := 8.
Definition GENERAL_PROTECTION_FAULT : Z := 13.
Definition PAGE_FAULT : Z := 14.

(** The initialiser of [IDT]. *)
Definition IDT : gmap Z idt_entry :=
  let idt := ∅ in
  let idt := <[DOUBLE_FAULT := mkEntry H_double_fault (Some DOUBLE_FAULT_IST_INDEX)]> idt in
  let idt := <[GENERAL_PROTECTION_FAULT :=
    mkEntry H_general_protection_fault (Some GENERAL_PROTECTION_FAULT_IST_INDEX)]> idt in
  let idt := <[PAGE_FAULT := mkEntry H_page_fault (Some PAGE_FAULT_IST_INDEX)]> idt in
  let idt := <[DIVIDE_ERROR := mkEntry H_divide_by_zero None]> idt in
  let idt := <[vector Timer := mkEntry H_timer_interrupt_entry None]> idt in
  let idt := <[vector Keyboard := mkEntry H_keyboard_interrupt None]> idt in
  <[vector Mouse := mkEntry H_mouse_interrupt None]> idt.

(** ** Loading the tables *)

(** The registers that [gdt::init] and [interrupts::init] load. *)
Record cpu_tables `{GdtApi} := mkTables {
  gdtr : option gdt; cs_reg : Z; ss_reg : Z; ds_reg : Z; tr_reg : option Z; idtr : option (gmap Z idt_entry);
}.

Section load.
Context `{GdtApi} (tss_addr : Z).

Definition load_gdt (t : cpu_tables) : cpu_tables :=
  mkTables _ (Some (GDT tss_addr).1) (cs_reg t) (ss_reg t) (ds_reg t) (tr_reg t) (idtr t).
Definition set_cs (v : Z) (t : cpu_tables) : cpu_tables := mkTables _ (gdtr t) v (ss_reg t) (ds_reg t) (tr_reg t) (idtr t).
Definition set_ss (v : Z) (t : cpu_tables) : cpu_tables := mkTables _ (gdtr t) (cs_reg t) v (ds_reg t) (tr_reg t) (idtr t).
Definition set_ds (v : Z) (t : cpu_tables) : cpu_tables := mkTables _ (gdtr t) (cs_reg t) (ss_reg t) v (tr_reg t) (idtr t).
Definition load_tss (v : Z) (t : cpu_tables) : cpu_tables :=
  mkTables _ (gdtr t) (cs_reg t) (ss_reg t) (ds_reg t) (Some v) (idtr t).

Definition gdt_init (t : cpu_tables) : cpu_tables :=
  let t := load_gdt t in
  let t := set_cs (code (GDT tss_addr).2) t in
  let t := set_ss (data (GDT tss_addr).2) t in
  let t := set_ds (data (GDT tss_addr).2) t in
  load_tss (tss (GDT tss_addr).2) t.

Definition interrupts_init (t : cpu_tables) : cpu_tables :=
  mkTables _ (gdtr t) (cs_reg t) (ss_reg t) (ds_reg t) (tr_reg t) (Some IDT).
End load.
