(* ===== verification/HostRunner.v ===== *)
(** * Building and running the kernel: [build.rs] and [src/main.rs]

    The build script makes a disk image of the kernel; the runner starts QEMU
    on it and reports how the kernel ended.  The file system, the firmware
    download, the image builder and QEMU are parameters; the kernel's side of
    the report is [exit_qemu] of [kernel/src/drivers/exit.rs]. *)
From stdpp Require Import strings.
From S2P Require Import Prelude Drivers Interrupts.

(** A program of the host: lines of standard output. *)
Abbreviation HostM := (M (list (list output))).
Definition host_println (line : list output) : HostM () := out ← get; put (out ++ [line]).
Definition unwrap_host {A} (o : option A) : HostM A := match o with Some a => mret a | None => panic end.

(** ** [build.rs] *)

(** [PathBuf::join] with a relative path. *)
Fixpoint ends_with_slash (s : string) : bool :=
  match s with
  | EmptyString => false
  | String c EmptyString => bool_decide (c = Ascii.ascii_of_nat 47)
  | String _ s => ends_with_slash s
  end.
Definition path_join (a b : string) : string :=
  match a with
  | EmptyString => b
  | _ => if ends_with_slash a then (a ++ b)%string else (a ++ "/" ++ b)%string
  end.

(** The environment variables, and whether the image of a kernel at a path can
    be written. *)
Class BuildEnv := {
  env_var : string -> option string;
  create_disk_image : string -> string -> option ();
}.

Definition build_main `{BuildEnv} : HostM () :=
  out_dir ← unwrap_host (env_var "OUT_DIR");
  kernel ← unwrap_host (env_var "CARGO_BIN_FILE_KERNEL_kernel");
  let uefi_path := path_join out_dir "uefi.img" in
  unwrap_host (create_disk_image kernel uefi_path);;
  host_println [Text "cargo:rustc-env=UEFI_PATH="; Text uefi_path].

(** ** [src/main.rs] *)

(** The firmware files, and a run of QEMU with some arguments: it may not
    start; its exit code is missing when a signal ended it. *)
Class HostEnv := {
  UEFI_PATH : string;
  fetch_firmware : option (string * string);
  run_qemu : list string -> option (option Z);
}.

Definition qemu_args `{HostEnv} (code vars : string) : list string :=
  ["-m"; "256M"; "-serial"; "stdio";
   "-device"; "isa-debug-exit,iobase=0xf4,iosize=0x04";
   "-drive"; ("format=raw,file=" ++ UEFI_PATH)%string;
   "-drive"; ("if=pflash,format=raw,unit=0,file=" ++ code ++ ",readonly=on")%string;
   "-drive"; ("if=pflash,format=raw,unit=1,file=" ++ vars ++ ",snapshot=on")%string].

Definition host_main `{HostEnv} : HostM () :=
  host_println [Text "kernel binary at: "; Text UEFI_PATH];;
  host_println [Text "Downloading OVMF firmware..."];;
  prebuilt ← unwrap_host fetch_firmware;
  host_println [Text "Starting QEMU..."];;
  let '(code, vars) := prebuilt in
  status ← unwrap_host (run_qemu (qemu_args code vars));
  match status with
  | Some code =>
      if code =? 0x11 then host_println [Text "QEMU exited with success."]
      else host_println [Text "QEMU exited with failure code: "; Dec code]
  | None => host_println [Text "QEMU terminated by signal"]
  end.

(** ** The report *)

(** QEMU with the debug-exit device: the guest's first write to its port ends
    the machine with twice the value plus one, in a byte. *)
Definition debug_exit_args : list string := ["-device"; "isa-debug-exit,iobase=0xf4,iosize=0x04"].
Definition first_exit (writes : list (Z * Z)) : option Z := snd <$> head (filter (fun w => w.1 = 0xf4) writes).
Class QemuRuns `{HostEnv} (guest : list (Z * Z)) : Prop :=
  qemu_debug_exit args v : (exists l r, args = l ++ debug_exit_args ++ r) -> first_exit guest = Some v ->
    run_qemu args = Some (Some (Z.lor (Z.shiftl v 1) 1 mod 256)).

(** The lines of a run that starts QEMU. *)
Definition report_lines `{HostEnv} (last : list output) : list (list output) :=
  [[Text "kernel binary at: "; Text UEFI_PATH]; [Text "Downloading OVMF firmware..."]; [Text "Starting QEMU..."]; last].
Definition report_of (c : QemuExitCode) : list output :=
  match c with
  | Success => [Text "QEMU exited with success."]
  | Failed => [Text "QEMU exited with failure code: "; Dec 19]
  end.

Lemma host_main_run `{HostEnv} files st out :
  fetch_firmware = Some files -> run_qemu (qemu_args files.1 files.2) = Some st ->
  host_main out = Ret ((), out ++ report_lines
    match st with
    | Some code => if code =? 0x11 then [Text "QEMU exited with success."]
                   else [Text "QEMU exited with failure code: "; Dec code]
    | None => [Text "QEMU terminated by signal"]
    end).
Proof.
  intros Hf Hq. destruct files as [code vars]. simpl in Hq. unfold host_main, host_println, unwrap_host. rewrite Hf.
  unfold mbind, M_bind, get, put. cbn -[qemu_args Z.eqb]. rewrite Hq. cbn -[Z.eqb]. rewrite <- !app_assoc.
  destruct st as [c|]; [destruct (c =? 0x11)|]; rewrite <- ?app_assoc; reflexivity.
Qed.

(** C37: the runner reports what the kernel said.  Whatever the kernel printed
    before, when it ends through [exit_qemu] the device it writes to is the one
    the runner configured, and the runner's last line tells success exactly for
    [QemuExitCode::Success] and the failure code of [Failed] otherwise; in
    particular a panic is reported as a failure. *)
Theorem host_reports_exit `{HostEnv} files c d out info :
  fetch_firmware = Some files -> serial_ready d = true ->
  (exists w d', exit_qemu c d = Ret (w, d') /\
    (QemuRuns w -> host_main out = Ret ((), out ++ report_lines (report_of c)))) /\
  (report_of c = report_of Success <-> c = Success) /\
  (exists w d', panic_handler info d = Ret (w, d') /\
    (QemuRuns w -> host_main out = Ret ((), out ++ report_lines (report_of Failed)))).
Proof.
  intros Hf Hs.
  assert (forall args, exists l r, qemu_args (fst args) (snd args) = l ++ debug_exit_args ++ r) as Hargs.
  { intros [code vars]. eexists ["-m"; "256M"; "-serial"; "stdio"], _. reflexivity. }
  assert (forall k w, w = [(0xf4, Z.shiftr (exit_value k) 1)] -> QemuRuns w ->
    host_main out = Ret ((), out ++ report_lines (report_of k))) as Hrep.
  { intros k w -> Hq. rewrite (host_main_run files _ out Hf (Hq _ (Z.shiftr (exit_value k) 1) (Hargs files) eq_refl)).
    by destruct k. }
  split_and!.
  - eexists _, _. split; [|intros Hq; eapply (Hrep c); [reflexivity|exact Hq]].
    unfold exit_qemu, serial_println. by run (run_serial_print [Text newlines; Text "Exiting QEMU with code ";
      Text (exit_name c); Text newlines; Text newline] d Hs).
  - destruct c; split; done.
  - eexists _, _. split; [|intros Hq; eapply (Hrep Failed); [reflexivity|exact Hq]].
    unfold panic_handler, exit_qemu, serial_println.
    run (run_serial_print [Text "[failed]"; Text newline; Text newline] d Hs).
    do 2 match goal with |- context [mbind _ (serial_print ?fr) ?s] => run (run_serial_print fr s eq_refl) end.
    reflexivity.
Qed.

(** ** Witness: QEMU that honours the device *)

Module Demo.
#[local] Instance demo_host : HostEnv := {|
  UEFI_PATH := "target/uefi.img";
  fetch_firmware := Some ("code.fd", "vars.fd");
  run_qemu := fun _ => Some (Some 17);
|}.
#[local] Instance demo_qemu : QemuRuns [(0xf4, 8)].
Proof. intros args v _ [= <-]. reflexivity. Qed.

Lemma host_reports_exit_witness :
  host_main [] = Ret ((), report_lines [Text "QEMU exited with success."]).
Proof.
  destruct (host_reports_exit (H := demo_host) ("code.fd", "vars.fd") Success (mkDev true [] 0 []) [] "" eq_refl eq_refl)
    as ((w & d' & E & H) & _ & _).
  assert (w = [(0xf4, 8)]) as ->; [|exact (H demo_qemu)].
  vm_compute in E. by injection E as <- _.
Defined.
End Demo.
