(* ===== verification/Graphics.v ===== *)
(** * The framebuffer: [kernel/src/graphics.rs]

    The screen and its back buffer, which takes a run of frames of the boot
    frame allocator, and the test picture that [main] paints.  Pixel memory is
    a map from the addresses of 32-bit words; a null or misaligned pointer or
    an overlapping copy is undefined behaviour. *)
From S2P Require Import Prelude X86Api BootFrames BootFramesProofs BootSystem.

(** [PhysAddr + u64] *)
Class PhysAddrApi := phys_add : Z -> Z -> outcome Z.
Class PhysAddrLaws `{PhysAddrApi} : Prop := {
  phys_add_ok a b : 0 <= a -> 0 <= b -> a + b < PHYS_LIM -> phys_add a b = Ret (a + b);
  phys_add_high a b : 0 <= a -> 0 <= b -> PHYS_LIM <= a + b < U64_LIM -> phys_add a b = Panic;
}.

(** The framebuffer the boot loader hands over. *)
Record FrameBufferInfo := mkInfo { info_width : Z; info_height : Z; info_stride : Z }.
Record FrameBuffer := mkFb { fb_buffer : Z; fb_info : FrameBufferInfo }.

Record Framebuffer := mkFramebuffer {
  front_buffer : Z;
  back_buffer : Z;
  width : Z;
  height : Z;
  stride : Z;
}.

(** ** Pixel memory *)

Abbreviation pix := (gmap Z Z).
Definition pixel (m : pix) (a : Z) : Z := default 0 (m !! a).
Definition u32_ptr (a : Z) : Prop := 0 < a < U64_LIM /\ a mod 4 = 0.
#[global] Instance u32_ptr_dec a : Decision (u32_ptr a).
Proof. unfold u32_ptr. apply _. Defined.

Fixpoint fill (p : Z) (n : nat) (v : Z) (m : pix) : pix :=
  match n with O => m | S k => <[p + 4 * Z.of_nat k := v]> (fill p k v m) end.
Fixpoint copy (src dst : Z) (n : nat) (m : pix) : pix :=
  match n with
  | O => m
  | S k => <[dst + 4 * Z.of_nat k := pixel m (src + 4 * Z.of_nat k)]> (copy src dst k m)
  end.

Section code.
Context {ck : OverflowChecks} `{PhysFrameApi} `{PhysAddrApi}.

Abbreviation G := (M (BootInfoFrameAllocator * pix)).

Definition on_boot {A} (f : F A) : G A := fun '(s, m) =>
  match f s with
  | Ret (a, s') => Ret (a, (s', m))
  | Panic => Panic | Undef => Undef | Hang => Hang | OutOfFuel => OutOfFuel
  end.

(** [ptr::write_bytes(p, 0, n)], [ptr::copy_nonoverlapping] and a store, of
    [u32]. *)
Definition zero_u32 (p n : Z) : G () := fun '(s, m) =>
  if decide (u32_ptr p) then Ret ((), (s, fill p (Z.to_nat n) 0 m)) else Undef.
Definition copy_nonoverlapping (src dst n : Z) : G () := fun '(s, m) =>
  if decide (u32_ptr src /\ u32_ptr dst /\ (src + 4 * n <= dst \/ dst + 4 * n <= src))
  then Ret ((), (s, copy src dst (Z.to_nat n) m)) else Undef.
Definition store_u32 (p v : Z) : G () := fun '(s, m) =>
  if decide (u32_ptr p) then Ret ((), (s, <[p := v]> m)) else Undef.

Definition Framebuffer_new (fb : FrameBuffer) (phys_mem_offset : Z) : G Framebuffer :=
  let info := fb_info fb in
  let front_buffer := fb_buffer fb in
  let width := info_width info in
  let height := info_height info in
  let stride := info_stride info in
  size ← lift (mul64 stride height);
  buffer_size ← lift (mul64 size 4);
  up ← lift (add64 buffer_size 4095);
  let pages_needed := up / 4096 in
  frame ← on_boot (allocate_contiguous pages_needed);
  match frame with
  | None => panic
  | Some phys_addr =>
      virt_addr ← lift (phys_add phys_addr phys_mem_offset);
      let back_buffer := virt_addr in
      n ← lift (mul64 stride height);
      zero_u32 back_buffer n;;
      mret (mkFramebuffer front_buffer back_buffer width height stride)
  end.

Definition flip (self : Framebuffer) : G () :=
  n ← lift (mul64 (stride self) (height self));
  copy_nonoverlapping (back_buffer self) (front_buffer self) n.

Definition get_back_buffer_ptr (self : Framebuffer) : Z := back_buffer self.

(** The loops of [main]: row [y], from column [x] on, [n] pixels; [n] rows. *)
Fixpoint paint_row (self : Framebuffer) (back y x : Z) (n : nat) : G () :=
  match n with
  | O => mret ()
  | S n =>
      row ← lift (mul64 y (stride self));
      offset ← lift (add64 row x);
      store_u32 (back + 4 * offset) 0x00FF00;;
      paint_row self back y (x + 1) n
  end.
Fixpoint paint_rows (self : Framebuffer) (back y : Z) (n : nat) : G () :=
  match n with
  | O => mret ()
  | S n =>
      paint_row self back y 0 (Z.to_nat (width self));;
      paint_rows self back (y + 1) n
  end.
Definition paint (self : Framebuffer) : G () :=
  let back_buffer := get_back_buffer_ptr self in
  paint_rows self back_buffer 0 (Z.to_nat (height self)).

(** The graphics part of [main]. *)
Definition test_graphics (fb : FrameBuffer) (phys_mem_offset : Z) : G Framebuffer :=
  framebuffer ← Framebuffer_new fb phys_mem_offset;
  flip framebuffer;;
  paint framebuffer;;
  flip framebuffer;;
  mret framebuffer.
End code.

(** ** Pixel memory behaves *)

(** [m'] is [m] with the value [v] in the cells [P] of the buffer at [p]. *)
Record set_cells (p : Z) (P : Z -> Prop) (v : Z) (m m' : pix) : Prop := {
  sc_in k : P k -> m' !! (p + 4 * k) = Some v;
  sc_out a : (forall k, P k -> a <> p + 4 * k) -> m' !! a = m !! a;
  sc_either a : m' !! a = Some v \/ m' !! a = m !! a;
}.

Lemma set_cells_compose p (P Q R : Z -> Prop) v m m1 m2 :
  set_cells p P v m m1 -> set_cells p Q v m1 m2 -> (forall k, R k <-> P k \/ Q k) -> set_cells p R v m m2.
Proof.
  intros [Pi Po Pe] [Qi Qo Qe] HR. constructor.
  - intros k [Hk|Hk]%HR; [|by apply Qi]. destruct (Qe (p + 4 * k)) as [?|E]; [done|]. rewrite E. by apply Pi.
  - intros a Ha. rewrite Qo, Po; [done|..]; intros k Hk; apply Ha, HR; auto.
  - intros a. destruct (Qe a) as [?|E]; [by left|]. rewrite E. apply Pe.
Qed.
Lemma set_cells_none p (P : Z -> Prop) v m : (forall k, ~ P k) -> set_cells p P v m m.
Proof. intros HP. constructor; [intros k []%HP|done|by right]. Qed.
Lemma set_cells_one p (P : Z -> Prop) k v m : (forall j, P j <-> j = k) -> set_cells p P v m (<[p + 4 * k := v]> m).
Proof.
  intros HP. constructor.
  - intros j ->%HP. by rewrite lookup_insert_eq.
  - intros a Ha. rewrite lookup_insert_ne; [done|]. intros <-. by apply (Ha k); [apply HP|].
  - intros a. destruct (decide (a = p + 4 * k)) as [->|Hne];
      [left; by rewrite lookup_insert_eq|right; by rewrite lookup_insert_ne].
Qed.

Lemma fill_cells p n v m : set_cells p (fun k => 0 <= k < Z.of_nat n) v m (fill p n v m).
Proof.
  induction n as [|n IH]; [apply set_cells_none; lia|]. cbn [fill].
  eapply set_cells_compose; [exact IH|apply (set_cells_one p (fun j => j = Z.of_nat n)); done|]. intros k. lia.
Qed.

Lemma copy_lookup src dst n m a :
  src + 4 * Z.of_nat n <= dst \/ dst + 4 * Z.of_nat n <= src ->
  (forall k, 0 <= k < Z.of_nat n -> copy src dst n m !! (dst + 4 * k) = Some (pixel m (src + 4 * k))) /\
  ((forall k, 0 <= k < Z.of_nat n -> a <> dst + 4 * k) -> copy src dst n m !! a = m !! a).
Proof.
  induction n as [|n IH]; intros Hd; [split; [lia|done]|]. destruct IH as [IH1 IH2]; [lia|]. cbn [copy]. split.
  - intros k Hk. destruct (decide (k = Z.of_nat n)) as [->|Hne]; [by rewrite lookup_insert_eq|].
    rewrite lookup_insert_ne by lia. apply IH1. lia.
  - intros Ha. rewrite lookup_insert_ne by (intros E; apply (Ha (Z.of_nat n)); lia). apply IH2. intros k Hk. apply Ha. lia.
Qed.
