(* ===== verification/GraphicsTheorems.v ===== *)
(** * Correctness of the framebuffer *)
From S2P Require Import Prelude X86Api BootFrames BootFramesProofs BootInit BootSystem Graphics.

Section proofs.
Context {ck : OverflowChecks} `{PhysFrameLaws} `{PhysAddrLaws}.

Definition GREEN : Z := 0x00FF00.

(** A buffer of [n] pixels at [p]. *)
Record buffer_ok (p n : Z) : Prop := {
  bo_pos : 0 < p;
  bo_end : p + 4 * n < U64_LIM;
  bo_aligned : p mod 4 = 0;
}.
Lemma buffer_ptr p n k : buffer_ok p n -> 0 <= k <= n -> u32_ptr (p + 4 * k).
Proof.
  intros [Hp He Ha] Hk. split; [lia|]. rewrite (Z.mul_comm 4 k), Z.mod_add by done. done.
Qed.

(** Sizes a screen has: no computation of an index overflows. *)
Record screen_ok (w h st : Z) : Prop := {
  sk_width : 0 <= w <= st;
  sk_height : 0 <= h;
  sk_size : 0 < st * h;
  sk_bytes : st * h * 4 + 4096 < 2 ^ 63;
}.

Lemma index_bound w h st x y : screen_ok w h st -> 0 <= y < h -> 0 <= x < st ->
  0 <= y * st /\ 0 <= y * st + x < st * h /\ y * st < U64_LIM.
Proof. intros [] ? ?. nia. Qed.

Lemma paint_row_run fb s y n : forall x m,
  screen_ok (width fb) (height fb) (stride fb) -> buffer_ok (back_buffer fb) (stride fb * height fb) ->
  0 <= y < height fb -> 0 <= x -> x + Z.of_nat n <= width fb ->
  exists m', paint_row fb (back_buffer fb) y x n (s, m) = Ret ((), (s, m')) /\
    set_cells (back_buffer fb) (fun k => y * stride fb + x <= k < y * stride fb + x + Z.of_nat n) GREEN m m'.
Proof.
  induction n as [|n IH]; intros x m Hs Hb Hy Hx Hn.
  - exists m. split; [done|]. apply set_cells_none. lia.
  - pose proof (sk_width _ _ _ Hs). destruct (index_bound _ _ _ x y Hs Hy) as (? & ? & ?); [lia|].
    pose proof (sk_bytes _ _ _ Hs). cbn [paint_row].
    assert (mul64 y (stride fb) = Ret (y * stride fb)) as E1 by (apply mul64_ok; lia).
    assert (add64 (y * stride fb) x = Ret (y * stride fb + x)) as E2 by (apply add64_ok; lia).
    run (run_lift _ (s, m) _ E1). run (run_lift _ (s, m) _ E2).
    set (m1 := <[back_buffer fb + 4 * (y * stride fb + x) := GREEN]> m).
    assert (store_u32 (back_buffer fb + 4 * (y * stride fb + x)) 0x00FF00 (s, m) = Ret ((), (s, m1))) as E3.
    { unfold store_u32. rewrite decide_True; [done|]. eapply buffer_ptr; [exact Hb|lia]. }
    run E3. destruct (IH (x + 1) m1) as (m' & E & Hc); [done|done|done|lia|lia|].
    exists m'. split; [done|]. eapply set_cells_compose; [|exact Hc|].
    + apply (set_cells_one _ (fun j => j = y * stride fb + x)). done.
    + intros k. cbv beta. lia.
Qed.

(** The cells of [n] rows from [y] on. *)
Definition in_rows (fb : Framebuffer) (y : Z) (n : nat) (k : Z) : Prop :=
  exists r, y <= r < y + Z.of_nat n /\ r * stride fb <= k < r * stride fb + width fb.

Lemma paint_rows_run fb s n : forall y m,
  screen_ok (width fb) (height fb) (stride fb) -> buffer_ok (back_buffer fb) (stride fb * height fb) ->
  0 <= y -> y + Z.of_nat n <= height fb ->
  exists m', paint_rows fb (back_buffer fb) y n (s, m) = Ret ((), (s, m')) /\
    set_cells (back_buffer fb) (in_rows fb y n) GREEN m m'.
Proof.
  induction n as [|n IH]; intros y m Hs Hb Hy Hn.
  - exists m. split; [done|]. apply set_cells_none. intros k (r & ? & ?). lia.
  - pose proof (sk_width _ _ _ Hs). cbn [paint_rows].
    destruct (paint_row_run fb s y (Z.to_nat (width fb)) 0 m) as (m1 & E1 & Hc1); [done|done|lia..|].
    destruct (IH (y + 1) m1) as (m2 & E2 & Hc2); [done|done|lia|lia|].
    exists m2. split; [by run E1|]. eapply set_cells_compose; [exact Hc1|exact Hc2|]. intros k. unfold in_rows. split.
    + intros (r & Hr & Hk). destruct (decide (r = y)) as [->|]; [left; lia|right; exists r; lia].
    + intros [Hk|(r & Hr & Hk)]; [exists y; lia|exists r; lia].
Qed.

Lemma flip_run fb s m :
  screen_ok (width fb) (height fb) (stride fb) ->
  buffer_ok (back_buffer fb) (stride fb * height fb) -> buffer_ok (front_buffer fb) (stride fb * height fb) ->
  back_buffer fb + 4 * (stride fb * height fb) <= front_buffer fb \/
    front_buffer fb + 4 * (stride fb * height fb) <= back_buffer fb ->
  flip fb (s, m) = Ret ((), (s, copy (back_buffer fb) (front_buffer fb) (Z.to_nat (stride fb * height fb)) m)).
Proof.
  intros Hs Hb Hf Hd. pose proof (sk_size _ _ _ Hs). pose proof (sk_bytes _ _ _ Hs). unfold flip.
  assert (mul64 (stride fb) (height fb) = Ret (stride fb * height fb)) as E1 by (apply mul64_ok; lia).
  run (run_lift _ (s, m) _ E1). unfold copy_nonoverlapping. rewrite decide_True; [done|].
  pose proof (buffer_ptr _ _ 0 Hb ltac:(lia)) as Hb'. pose proof (buffer_ptr _ _ 0 Hf ltac:(lia)) as Hf'.
  rewrite Z.mul_0_r, Z.add_0_r in Hb', Hf'. done.
Qed.

(** ** The back buffer *)

Definition pages_for (n : Z) : Z := (n * 4 + 4095) / 4096.

Lemma pages_for_bounds n : 0 < n -> n * 4 <= pages_for n * 4096 < n * 4 + 4096.
Proof. intros Hn. unfold pages_for. pose proof (Z.div_mod (n * 4 + 4095) 4096). pose proof (Z.mod_pos_bound (n * 4 + 4095) 4096). lia. Qed.

(** The allocation of the pages of a back buffer. *)
Lemma back_buffer_alloc s n :
  boot_inv s -> 0 < n -> n * 4 + 4096 < 2 ^ 63 ->
  exists res s', allocate_contiguous (pages_for n) s = Ret (res, s') /\
    match res with
    | Some f => (4096 | f) /\ 0 <= f /\ f + pages_for n * 4096 <= PHYS_LIM /\ taken s f (pages_for n * PAGE_SIZE) s'
    | None => True
    end.
Proof.
  intros Hinv Hn Hb. pose proof (pages_for_bounds n Hn) as Hp.
  destruct (allocate_aligned_run s (pages_for n) 12 Hinv) as (res & s' & E & Hres).
  { unfold request_ok. change PAGE_SIZE with 4096. lia. }
  exists res, s'. split; [exact E|]. destruct res as [f|]; [|done].
  destruct Hres as (r & Hr & Hf & Hfit & Htk). unfold fits in Hfit. rewrite <- Hf in Hfit.
  pose proof (proj1 (Forall_forall _ _) (rs_wf _ (bi_ranges _ Hinv)) r Hr) as [].
  destruct (round_up_spec (2 ^ 12) (start r)) as [Hlo Hdiv]; [done|]. rewrite <- Hf in *.
  change PAGE_SIZE with 4096 in *. change (2 ^ 12) with 4096 in *. split_and!; [done|lia|lia|done].
Qed.

Lemma Framebuffer_new_run fb off s m s' res :
  screen_ok (info_width (fb_info fb)) (info_height (fb_info fb)) (info_stride (fb_info fb)) ->
  let n := info_stride (fb_info fb) * info_height (fb_info fb) in
  allocate_contiguous (pages_for n) s = Ret (res, s') -> 0 < off -> off mod 4 = 0 ->
  match res with
  | None => Framebuffer_new fb off (s, m) = Panic
  | Some f => (4096 | f) -> 0 <= f ->
      (f + off < PHYS_LIM -> Framebuffer_new fb off (s, m) =
        Ret (mkFramebuffer (fb_buffer fb) (f + off) (info_width (fb_info fb)) (info_height (fb_info fb))
               (info_stride (fb_info fb)), (s', fill (f + off) (Z.to_nat n) 0 m))) /\
      (PHYS_LIM <= f + off < U64_LIM -> Framebuffer_new fb off (s, m) = Panic)
  end.
Proof.
  intros [_ _ Hn Hb] n Ha Hoff Hal. unfold Framebuffer_new. cbv zeta.
  assert (mul64 (info_stride (fb_info fb)) (info_height (fb_info fb)) = Ret n) as E1 by (apply mul64_ok; lia).
  assert (mul64 n 4 = Ret (n * 4)) as E2 by (apply mul64_ok; unfold n; lia).
  assert (add64 (n * 4) 4095 = Ret (n * 4 + 4095)) as E3 by (apply add64_ok; unfold n; lia).
  assert (on_boot (allocate_contiguous (pages_for n)) (s, m) = Ret (res, (s', m))) as E4
    by (unfold on_boot; by rewrite Ha).
  run (run_lift _ (s, m) _ E1). run (run_lift _ (s, m) _ E2). run (run_lift _ (s, m) _ E3).
  fold (pages_for n). run E4. destruct res as [f|]; [|done]. intros [k Hk] Hf. split; intros Hv.
  - run (run_lift _ (s', m) _ (phys_add_ok f off Hf ltac:(lia) Hv)). run (run_lift _ (s', m) _ E1).
    assert (zero_u32 (f + off) n (s', m) = Ret ((), (s', fill (f + off) (Z.to_nat n) 0 m))) as E5.
    { unfold zero_u32. rewrite decide_True; [done|]. unfold PHYS_LIM in Hv. split; [lia|].
      rewrite Hk, Z.add_comm. replace (k * 4096) with (k * 1024 * 4) by lia. by rewrite Z.mod_add. }
    by run E5.
  - unfold mbind, M_bind, lift. by rewrite (phys_add_high f off) by lia.
Qed.

Lemma row_unique st r y x w :
  0 <= x < st -> w <= st -> r * st <= y * st + x < r * st + w -> r = y.
Proof. intros Hx Hw Hr. destruct (Z.lt_trichotomy r y) as [?|[?|?]]; [|done|]; exfalso; nia. Qed.

(** What the two flips around the painting leave in memory. *)
Lemma picture_memory (F : Framebuffer) m m3 :
  let n := stride F * height F in
  let m1 := fill (back_buffer F) (Z.to_nat n) 0 m in
  let m2 := copy (back_buffer F) (front_buffer F) (Z.to_nat n) m1 in
  let m4 := copy (back_buffer F) (front_buffer F) (Z.to_nat n) m3 in
  screen_ok (width F) (height F) (stride F) ->
  back_buffer F + 4 * n <= front_buffer F \/ front_buffer F + 4 * n <= back_buffer F ->
  set_cells (back_buffer F) (in_rows F 0 (Z.to_nat (height F))) GREEN m2 m3 ->
  (forall x y, 0 <= x < stride F -> 0 <= y < height F ->
    pixel m4 (front_buffer F + 4 * (y * stride F + x)) = if decide (x < width F) then GREEN else 0) /\
  (forall a, ~ (front_buffer F <= a < front_buffer F + 4 * n) ->
    ~ (back_buffer F <= a < back_buffer F + 4 * n) -> m4 !! a = m !! a).
Proof.
  destruct F as [front back w h st]. cbn [front_buffer back_buffer width height stride]. cbv zeta. set (n := st * h). intros Hs Hd Hc.
  pose proof (sk_size _ _ _ Hs) as Hn. pose proof (sk_width _ _ _ Hs) as Hw. fold n in Hn. split.
  - intros x y Hx Hy. destruct (index_bound w h st x y Hs Hy Hx) as (_ & Hi & _). fold n in Hi.
    destruct (copy_lookup back front (Z.to_nat n) m3 0) as [Hin _]; [lia|].
    unfold pixel. rewrite Hin by lia. cbn [default]. unfold pixel. case_decide as Hxw.
    + rewrite (sc_in _ _ _ _ _ Hc (y * st + x)); [done|]. exists y. cbn. lia.
    + rewrite (sc_out _ _ _ _ _ Hc); [|intros k (r & Hr & Hk) E; cbn [width height stride] in Hr, Hk;
        assert (k = y * st + x) as -> by lia; apply Hxw;
        rewrite (row_unique st r y x w) in Hk by lia; lia].
      destruct (copy_lookup back front (Z.to_nat n) (fill back (Z.to_nat n) 0 m) (back + 4 * (y * st + x)))
        as [_ Hout]; [lia|].
      rewrite Hout by (intros k Hk; lia).
      by rewrite (sc_in _ _ _ _ _ (fill_cells back (Z.to_nat n) 0 m)) by lia.
  - intros a Hnf Hnb. destruct (copy_lookup back front (Z.to_nat n) m3 a) as [_ Ho3]; [lia|].
    destruct (copy_lookup back front (Z.to_nat n) (fill back (Z.to_nat n) 0 m) a) as [_ Ho1]; [lia|].
    rewrite Ho3 by (intros k Hk; lia).
    rewrite (sc_out _ _ _ _ _ Hc); [|intros k (r & Hr & Hk) E; cbn [width height stride] in Hr, Hk; apply Hnb;
      destruct (index_bound w h st (k - r * st) r Hs ltac:(lia) ltac:(lia)) as (_ & Hi & _); fold n in Hi; lia].
    rewrite Ho1 by (intros k Hk; lia).
    rewrite (sc_out _ _ _ _ _ (fill_cells back (Z.to_nat n) 0 m)); [done|]. intros k Hk. lia.
Qed.

(** The steps of the graphics part, one by one. *)
Lemma graphics_run fb off s m f s' :
  let w := info_width (fb_info fb) in let h := info_height (fb_info fb) in
  let st := info_stride (fb_info fb) in let front := fb_buffer fb in let n := st * h in
  let F := mkFramebuffer front (f + off) w h st in
  screen_ok w h st -> 0 < off -> off mod 4 = 0 -> buffer_ok front n ->
  front + 4 * n <= off \/ off + PHYS_LIM <= front ->
  allocate_contiguous (pages_for n) s = Ret (Some f, s') -> (4096 | f) -> 0 <= f -> f + pages_for n * 4096 <= PHYS_LIM ->
  f + off < PHYS_LIM ->
  exists m1 m2 m3 m4, Framebuffer_new fb off (s, m) = Ret (F, (s', m1)) /\ flip F (s', m1) = Ret ((), (s', m2)) /\
    paint F (s', m2) = Ret ((), (s', m3)) /\ flip F (s', m3) = Ret ((), (s', m4)) /\
    (forall x y, 0 <= x < st -> 0 <= y < h ->
      pixel m4 (front + 4 * (y * st + x)) = if decide (x < w) then GREEN else 0) /\
    (forall a, ~ (front <= a < front + 4 * n) ->
      ~ (f + off <= a < f + off + pages_for n * PAGE_SIZE) -> m4 !! a = m !! a).
Proof.
  intros w h st front n F Hs Hoff Hal Hfr Hdis Ha Hdiv Hf Hend Hv.
  pose proof (sk_size _ _ _ Hs) as Hn. pose proof (sk_bytes _ _ _ Hs) as Hby.
  fold n in Hn, Hby. pose proof (pages_for_bounds n Hn) as Hpg.
  pose proof (Framebuffer_new_run fb off s m s' (Some f) Hs Ha Hoff Hal) as Hnew.
  destruct (Hnew Hdiv Hf) as [Hok _]. specialize (Hok Hv).
  assert (buffer_ok (back_buffer F) (stride F * height F)) as Hbk.
  { destruct Hdiv as [k ->]. unfold PHYS_LIM in *. constructor; cbn; [lia|fold n; lia|].
    rewrite Z.add_comm. replace (k * 4096) with (k * 1024 * 4) by lia. by rewrite Z.mod_add. }
  set (m1 := fill (f + off) (Z.to_nat n) 0 m). set (m2 := copy (f + off) front (Z.to_nat n) m1).
  assert (f + off + 4 * n <= front \/ front + 4 * n <= f + off) as Hd by lia.
  destruct (paint_rows_run F s' (Z.to_nat h) 0 m2 Hs Hbk) as (m3 & Ep & Hc); [lia|pose proof (sk_height _ _ _ Hs); cbn; lia|].
  set (m4 := copy (f + off) front (Z.to_nat n) m3). exists m1, m2, m3, m4. split_and!.
  - exact Hok.
  - exact (flip_run F s' m1 Hs Hbk Hfr Hd).
  - exact Ep.
  - exact (flip_run F s' m3 Hs Hbk Hfr Hd).
  - exact (proj1 (picture_memory F m m3 Hs Hd Hc)).
  - intros a Hnf Hnb. change PAGE_SIZE with 4096 in Hnb.
    apply (proj2 (picture_memory F m m3 Hs Hd Hc)); cbn; fold n; [done|lia].
Qed.

(** C29: the graphics part of the boot sequence.  Whatever the free memory, the
    request for the back buffer returns; without a run of pages large enough the
    kernel panics, and so it does when the direct map of the run lies beyond the
    52 bits of a physical address, which the code adds with.  Otherwise the back
    buffer is a run that was free and is now taken, large enough for the screen,
    and after the two flips every visible pixel of the screen is green, the
    padding at the end of each row is black, and no memory outside the screen and
    that run has changed. *)
Theorem framebuffer_shows_picture fb off s m :
  let w := info_width (fb_info fb) in let h := info_height (fb_info fb) in
  let st := info_stride (fb_info fb) in let front := fb_buffer fb in let n := st * h in
  boot_inv s -> screen_ok w h st -> 0 < off -> off mod 4 = 0 -> buffer_ok front n ->
  front + 4 * n <= off \/ off + PHYS_LIM <= front ->
  exists res s', allocate_contiguous (pages_for n) s = Ret (res, s') /\
    match res with
    | None => test_graphics fb off (s, m) = Panic
    | Some f => taken s f (pages_for n * PAGE_SIZE) s' /\ n * 4 <= pages_for n * PAGE_SIZE /\
        (PHYS_LIM <= f + off < U64_LIM -> test_graphics fb off (s, m) = Panic) /\
        (f + off < PHYS_LIM -> exists m',
          test_graphics fb off (s, m) = Ret (mkFramebuffer front (f + off) w h st, (s', m')) /\
          (forall x y, 0 <= x < st -> 0 <= y < h ->
            pixel m' (front + 4 * (y * st + x)) = if decide (x < w) then GREEN else 0) /\
          (forall a, ~ (front <= a < front + 4 * n) ->
            ~ (f + off <= a < f + off + pages_for n * PAGE_SIZE) -> m' !! a = m !! a))
    end.
Proof.
  intros w h st front n Hinv Hs Hoff Hal Hfr Hdis.
  pose proof (sk_size _ _ _ Hs) as Hn. pose proof (sk_bytes _ _ _ Hs) as Hby. fold n in Hn, Hby.
  pose proof (pages_for_bounds n Hn) as Hpg.
  destruct (back_buffer_alloc s n Hinv Hn) as (res & s' & Ha & Hres); [lia|].
  exists res, s'. split; [done|]. pose proof (Framebuffer_new_run fb off s m s' res Hs Ha Hoff Hal) as Hnew.
  destruct res as [f|]; [|unfold test_graphics, mbind, M_bind; by rewrite Hnew].
  destruct Hres as (Hdiv & Hf & Hend & Htk). destruct (Hnew Hdiv Hf) as [_ Hhigh].
  split_and!; [done|change PAGE_SIZE with 4096; lia| |].
  { intros Hv. unfold test_graphics, mbind, M_bind. by rewrite Hhigh. }
  intros Hv. destruct (graphics_run fb off s m f s' Hs Hoff Hal Hfr Hdis Ha Hdiv Hf Hend Hv)
    as (m1 & m2 & m3 & m4 & E1 & E2 & E3 & E4 & Hpix & Hrest).
  exists m4. split_and!; [|done|done]. unfold test_graphics. run E1. run E2. run E3. by run E4.
Qed.
End proofs.

(** ** Witness: a screen of 2 by 2 visible pixels with one pixel of padding *)

Module Demo.
Import ReferenceApi.
#[local] Instance demo_ck : OverflowChecks := true.
#[local] Instance demo_phys : PhysAddrApi := fun a b => if decide (a + b < PHYS_LIM) then Ret (a + b) else Panic.
#[local] Instance demo_phys_laws : PhysAddrLaws.
Proof. split; intros a b ? ? ?; unfold phys_add, demo_phys; [by rewrite decide_True|by rewrite decide_False by lia]. Qed.

Definition demo_map : list MemoryRegion := [mkRegion 4096 653312 true].
Lemma screen_map_ok : memory_map_ok demo_map.
Proof. constructor; repeat constructor; unfold region_ok, PHYS_LIM; simpl; lia || done. Qed.
Definition demo_state : BootInfoFrameAllocator :=
  mkBoot (mkRange 4096 651264 :: replicate 255 empty_range) 1 0 647168.
Lemma screen_inv : boot_inv demo_state.
Proof.
  destruct (init_spec demo_map screen_map_ok) as (s & Hs & Hinv & _).
  assert (init demo_map = Ret demo_state) as E by (vm_compute; reflexivity). rewrite E in Hs. by simplify_eq.
Qed.
Definition demo_fb : FrameBuffer := mkFb 0x1000000 (mkInfo 2 2 3).

Lemma framebuffer_shows_picture_witness :
  exists s' m', test_graphics demo_fb (2 ^ 40) (demo_state, ∅) =
      Ret (mkFramebuffer 0x1000000 (2 ^ 40 + 4096) 2 2 3, (s', m')) /\
    pixel m' (0x1000000 + 16) = GREEN /\ pixel m' (0x1000000 + 20) = 0.
Proof.
  destruct (framebuffer_shows_picture demo_fb (2 ^ 40) demo_state ∅ screen_inv ltac:(split; cbn; lia) ltac:(lia)
    eq_refl ltac:(split; cbn; lia || done) ltac:(cbn; lia)) as (res & s' & E & Hres).
  assert (res = Some 4096) as ->.
  { destruct (allocate_contiguous _ demo_state) as [[r s1]| | | |] eqn:E' in E; try discriminate E.
    assert (match allocate_contiguous (pages_for 6) demo_state with Ret (r, _) => r = Some 4096 | _ => False end) as Ev
      by (vm_compute; reflexivity).
    cbn in E'. change (3 * 2) with 6 in E'. rewrite E' in Ev. by simplify_eq. }
  destruct Hres as (_ & _ & _ & Hok). destruct (Hok ltac:(unfold PHYS_LIM; lia)) as (m' & E1 & Hp & _).
  exists s', m'. split; [exact E1|]. split; [exact (Hp 1 1 ltac:(cbn; lia) ltac:(cbn; lia))|].
  exact (Hp 2 1 ltac:(cbn; lia) ltac:(cbn; lia)).
Defined.
End Demo.
