(* ===== verification/Acpi.v ===== *)
(** * ACPI: [kernel/src/drivers/acpi.rs]

    The callbacks through which the [acpi] crate reaches memory and the I/O
    ports, and reading the tables.  Memory is a map from addresses to bytes,
    multi-byte values are little-endian; the ports are the sequence of writes
    to them, and what a port reads is a parameter. *)
From S2P Require Import Prelude UserSpace.

(** ** Reading the tables *)

Record AcpiHandler := mkHandler { physical_memory_offset : Z }.
Definition AcpiHandler_new (physical_memory_offset : Z) : AcpiHandler := mkHandler physical_memory_offset.

Record PhysicalMapping := mkMapping {
  physical_start : Z; virtual_start : Z; region_length : Z; mapped_length : Z;
}.

Definition map_physical_region {ck : OverflowChecks} (self : AcpiHandler) (physical_address size : Z) :
    outcome PhysicalMapping :=
  virtual_address ← add64 (physical_memory_offset self) physical_address;
  match nonnull virtual_address with
  | None => Panic
  | Some ptr => Ret (mkMapping physical_address ptr size size)
  end.

(** The model of interrupts the tables describe. *)
Inductive InterruptModel :=
  | ModelUnknown
  | ModelApic (io_apics : list Z) (local_apic_address : Z).

(** The [acpi] crate: tables from their root pointer, read through a handler,
    and the interrupt model they hold; both can fail. *)
Class AcpiApi := {
  AcpiTables : Type;
  from_rsdp : (Z -> Z -> outcome PhysicalMapping) -> Z -> option AcpiTables;
  interrupt_model : AcpiTables -> option InterruptModel;
}.

Definition unwrap {A} (o : option A) : outcome A := match o with Some a => Ret a | None => Panic end.

Definition read_acpi_tables {ck : OverflowChecks} `{AcpiApi} (rsdp_addr physical_memory_offset : Z) : outcome AcpiTables :=
  let handler := AcpiHandler_new physical_memory_offset in
  unwrap (from_rsdp (map_physical_region handler) rsdp_addr).

(** ** The callbacks *)

(** A write to a port: port, width in bytes, value. *)
Record acpi_world := mkWorld { bytes : bmem; port_writes : list (Z * nat * Z) }.
Class PortRead := port_read : list (Z * nat * Z) -> Z -> nat -> Z.

Abbreviation W := (M acpi_world).

(** The bytes of a value of [n] bytes, lowest first, and the value of bytes. *)
Definition to_le (n : nat) (v : Z) : list Z := (fun i => v / 256 ^ Z.of_nat i mod 256) <$> seq 0 n.
Fixpoint of_le (bs : list Z) : Z := match bs with [] => 0 | b :: bs => b + 256 * of_le bs end.
Definition load_bytes (m : bmem) (a : Z) (n : nat) : list Z := (fun i => byte_at m (a + Z.of_nat i)) <$> seq 0 n.

(** A volatile access of [n] bytes: a null or misaligned pointer is undefined. *)
Definition aligned_to (n : nat) (a : Z) : bool := (0 <? a) && (a mod Z.of_nat n =? 0).
Definition volatile_read (n : nat) (a : Z) : W Z :=
  w ← get; if aligned_to n a then mret (of_le (load_bytes (bytes w) a n)) else undef.
Definition volatile_write (n : nat) (a v : Z) : W () :=
  w ← get;
  if aligned_to n a then put (mkWorld (store_bytes a (to_le n v) (bytes w)) (port_writes w)) else undef.

Definition port_in `{PortRead} (n : nat) (port : Z) : W Z := w ← get; mret (port_read (port_writes w) port n).
Definition port_out (n : nat) (port v : Z) : W () :=
  w ← get; put (mkWorld (bytes w) (port_writes w ++ [(port, n, v)])).

(** [Handler], the trait of the [acpi] crate; a PCI address and a mutex handle
    are opaque. *)
Class Handler (Self : Type) := {
  unmap_physical_region : PhysicalMapping -> W ();
  nanos_since_boot : Self -> W Z;
  breakpoint : Self -> W ();
  handle_debug {Object : Type} : Self -> Object -> W ();
  handle_fatal_error : Self -> Z -> Z -> Z -> W ();
  create_mutex {Handle : Type} : Self -> W Handle;
  acquire {Handle AmlError : Type} : Self -> Handle -> Z -> W (AmlError + ());
  release {Handle : Type} : Self -> Handle -> W ();
  stall : Self -> Z -> W ();
  sleep : Self -> Z -> W ();
  read_io_u16 : Self -> Z -> W Z;
  read_io_u32 : Self -> Z -> W Z;
  read_io_u8 : Self -> Z -> W Z;
  read_pci_u16 {PciAddress : Type} : Self -> PciAddress -> Z -> W Z;
  read_pci_u32 {PciAddress : Type} : Self -> PciAddress -> Z -> W Z;
  read_pci_u8 {PciAddress : Type} : Self -> PciAddress -> Z -> W Z;
  read_u16 : Self -> Z -> W Z;
  read_u32 : Self -> Z -> W Z;
  read_u64 : Self -> Z -> W Z;
  read_u8 : Self -> Z -> W Z;
  write_io_u16 : Self -> Z -> Z -> W ();
  write_io_u32 : Self -> Z -> Z -> W ();
  write_io_u8 : Self -> Z -> Z -> W ();
  write_pci_u16 {PciAddress : Type} : Self -> PciAddress -> Z -> Z -> W ();
  write_pci_u32 {PciAddress : Type} : Self -> PciAddress -> Z -> Z -> W ();
  write_pci_u8 {PciAddress : Type} : Self -> PciAddress -> Z -> Z -> W ();
  write_u16 : Self -> Z -> Z -> W ();
  write_u32 : Self -> Z -> Z -> W ();
  write_u64 : Self -> Z -> Z -> W ();
  write_u8 : Self -> Z -> Z -> W ();
}.

#[global] Instance AcpiHandler_Handler `{PortRead} : Handler AcpiHandler := {
  unmap_physical_region _ := mret ();
  nanos_since_boot _ := mret 0;
  breakpoint _ := panic;
  handle_debug _ _ _ := mret ();
  handle_fatal_error _ _ _ _ := panic;
  create_mutex _ _ := panic;
  acquire _ _ _ _ _ := panic;
  release _ _ _ := panic;
  stall _ _ := panic;
  sleep _ _ := panic;
  read_io_u16 _ port := port_in 2 port;
  read_io_u32 _ port := port_in 4 port;
  read_io_u8 _ port := port_in 1 port;
  read_pci_u16 _ _ _ _ := panic;
  read_pci_u32 _ _ _ _ := panic;
  read_pci_u8 _ _ _ _ := panic;
  read_u16 _ adress := volatile_read 2 adress;
  read_u32 _ adress := volatile_read 4 adress;
  read_u64 _ adress := volatile_read 8 adress;
  read_u8 _ adress := volatile_read 1 adress;
  write_io_u16 _ port value := port_out 2 port value;
  write_io_u32 _ port value := port_out 4 port value;
  write_io_u8 _ port value := port_out 1 port value;
  write_pci_u16 _ _ _ _ _ := panic;
  write_pci_u32 _ _ _ _ _ := panic;
  write_pci_u8 _ _ _ _ _ := panic;
  write_u16 _ address value := volatile_write 2 address value;
  write_u32 _ address value := volatile_write 4 address value;
  write_u64 _ address value := volatile_write 8 address value;
  write_u8 _ address value := volatile_write 1 address value;
}.

(** ** Memory behaves *)

Lemma to_le_S n v : to_le (S n) v = v mod 256 :: to_le n (v / 256).
Proof.
  unfold to_le. cbn [seq]. rewrite fmap_cons, <- fmap_S_seq, <- list_fmap_compose.
  change (Z.of_nat 0) with 0. rewrite Z.pow_0_r, Z.div_1_r. f_equal. apply list_fmap_ext. intros i x _.
  unfold compose. rewrite Z.div_div by (try apply Z.pow_pos_nonneg; lia).
  by rewrite Nat2Z.inj_succ, Z.pow_succ_r by lia.
Qed.
Lemma to_le_length n v : length (to_le n v) = n.
Proof. unfold to_le. by rewrite length_fmap, length_seq. Qed.

Lemma of_le_to_le n v : 0 <= v < 256 ^ Z.of_nat n -> of_le (to_le n v) = v.
Proof.
  revert v. induction n as [|n IH]; intros v Hv; [cbn in *; lia|].
  rewrite Nat2Z.inj_succ, Z.pow_succ_r in Hv by lia. rewrite to_le_S. cbn [of_le].
  rewrite IH by (split; [apply Z.div_pos; lia|apply Z.div_lt_upper_bound; lia]).
  pose proof (Z.div_mod v 256). lia.
Qed.

Lemma load_store_bytes m a bs : load_bytes (store_bytes a bs m) a (length bs) = bs.
Proof.
  unfold load_bytes. apply list_eq. intros i. rewrite list_lookup_fmap.
  destruct (decide (i < length bs)%nat) as [Hi|Hi].
  - rewrite lookup_seq_lt by lia. cbn [fmap option_fmap option_map]. rewrite store_bytes_lookup, decide_True by lia.
    replace (Z.to_nat (a + Z.of_nat (0 + i) - a)) with i by lia.
    by destruct (lookup_lt_is_Some_2 bs i Hi) as [b ->].
  - by rewrite lookup_seq_ge, lookup_ge_None_2 by lia.
Qed.

Lemma load_store_bytes_other m a bs b n :
  b + Z.of_nat n <= a \/ a + Z.of_nat (length bs) <= b ->
  load_bytes (store_bytes a bs m) b n = load_bytes m b n.
Proof.
  intros Hd. unfold load_bytes. apply list_fmap_ext. intros i x [-> Hi]%lookup_seq.
  rewrite store_bytes_lookup. by rewrite decide_False by lia.
Qed.

(** The aligned accesses of [n] bytes the callbacks make. *)
Lemma volatile_write_run n a v w : aligned_to n a = true ->
  volatile_write n a v w = Ret ((), mkWorld (store_bytes a (to_le n v) (bytes w)) (port_writes w)).
Proof. intros Ha. unfold volatile_write. run (run_get w). by rewrite Ha. Qed.
Lemma volatile_read_run n a w : aligned_to n a = true ->
  volatile_read n a w = Ret (of_le (load_bytes (bytes w) a n), w).
Proof. intros Ha. unfold volatile_read. run (run_get w). by rewrite Ha. Qed.

(** The width of an access, with its two callbacks. *)
Definition access `{PortRead} (h : AcpiHandler) (n : nat) : option ((Z -> W Z) * (Z -> Z -> W ())) :=
  match n with
  | 1%nat => Some (read_u8 h, write_u8 h)
  | 2%nat => Some (read_u16 h, write_u16 h)
  | 4%nat => Some (read_u32 h, write_u32 h)
  | 8%nat => Some (read_u64 h, write_u64 h)
  | _ => None
  end.
Lemma access_volatile `{PortRead} h n rd wr :
  access h n = Some (rd, wr) -> rd = volatile_read n /\ wr = volatile_write n.
Proof. do 9 (destruct n as [|n]; [by intros [= <- <-]|]). done. Qed.

(** The memory callbacks of the ACPI handler.  Through every width, a value
    of that width written to an aligned address is read back unchanged, at every
    other width a read of memory the write does not overlap sees what it saw
    before, and neither touches a port; a misaligned or null address is undefined
    behaviour. *)
Theorem acpi_write_read_roundtrip `{PortRead} (h : AcpiHandler) n rd wr a v w :
  access h n = Some (rd, wr) ->
  (aligned_to n a = true -> 0 <= v < 256 ^ Z.of_nat n ->
    exists w', wr a v w = Ret ((), w') /\ port_writes w' = port_writes w /\ rd a w' = Ret (v, w') /\
      forall k rd' wr' b, access h k = Some (rd', wr') -> aligned_to k b = true ->
        b + Z.of_nat k <= a \/ a + Z.of_nat n <= b ->
        exists x, rd' b w = Ret (x, w) /\ rd' b w' = Ret (x, w')) /\
  (aligned_to n a = false -> wr a v w = Undef /\ rd a w = Undef).
Proof.
  intros [-> ->]%access_volatile. split.
  - intros Ha Hv. eexists. split; [by apply volatile_write_run|]. split; [done|]. split.
    + rewrite volatile_read_run by done. cbn [bytes]. rewrite <- (to_le_length n v) at 2.
      by rewrite load_store_bytes, of_le_to_le.
    + intros k rd' wr' b [-> ->]%access_volatile Hb Hd. eexists.
      split; [by apply volatile_read_run|]. rewrite volatile_read_run by done. cbn [bytes].
      by rewrite load_store_bytes_other by (by rewrite to_le_length).
  - intros Ha. unfold volatile_write, volatile_read. split; run (run_get w); by rewrite Ha.
Qed.

Module Demo.
#[local] Instance demo_ports : PortRead := fun _ _ _ => 0xFF.
Lemma acpi_write_read_roundtrip_witness :
  exists w', write_u32 (AcpiHandler_new 0) 0x1000 0xDEADBEEF (mkWorld ∅ []) = Ret ((), w') /\
    read_u32 (AcpiHandler_new 0) 0x1000 w' = Ret (0xDEADBEEF, w').
Proof.
  destruct (acpi_write_read_roundtrip (AcpiHandler_new 0) 4 _ _ 0x1000 0xDEADBEEF (mkWorld ∅ []) eq_refl) as [Hok _].
  destruct (Hok eq_refl ltac:(lia)) as (w' & E & _ & E' & _). exists w'. split; [exact E|exact E'].
Defined.
End Demo.
