(* ===== verification/Apic.v ===== *)
(** * Setting up the APICs: [kernel/src/drivers/apic.rs]

    The ACPI tables tell the addresses of the two APICs, which are then mapped
    and their registers written. *)
From stdpp Require Import strings.
From S2P Require Import Prelude X86Api Paging UserSpace Drivers Acpi.

(** ** [apic.rs] *)

Section code.
Context {ck : OverflowChecks} `{MmioRead} `{PhysFrameApi} `{VirtAddrApi} `{AcpiApi} {St : Type} `{UserMapper St}.

(** The mapper with its frame allocator, and the devices. *)
Abbreviation A := (M ((St * bmem) * devices)).

Definition on_mapper {R} (f : M (St * bmem) R) : A R := fun '(w, d) =>
  match f w with
  | Ret (r, w') => Ret (r, (w', d))
  | Panic => Panic | Undef => Undef | Hang => Hang | OutOfFuel => OutOfFuel
  end.
Definition on_devices {R} (f : D R) : A R := fun '(w, d) =>
  match f d with
  | Ret (r, d') => Ret (r, (w, d'))
  | Panic => Panic | Undef => Undef | Hang => Hang | OutOfFuel => OutOfFuel
  end.

Definition apic_flags : PageTableFlags := [PRESENT; WRITABLE; NO_CACHE].

Definition map_apic (physical_address : Z) : A Z :=
  frame ← lift (containing_address physical_address);
  va ← lift (virt_new physical_address);
  let page := page_containing va in
  ok ← on_mapper (map_to page frame apic_flags);
  if ok : bool then mret page else panic.

Definition set_lapic_address (p : Z) : D () :=
  d ← get; put (mkDev (serial_ready d) (console d) p (mmio d)).

Definition init_local_apic (local_apic_addr : Z) : A () :=
  lapic_pointer ← map_apic local_apic_addr;
  on_devices (set_lapic_address lapic_pointer);;
  on_devices (init_timer lapic_pointer);;
  on_devices (init_keyboard lapic_pointer);;
  on_devices (init_mouse lapic_pointer).

Definition init_io_apic (ioapic_address : Z) : A () :=
  ioapic_pointer ← map_apic ioapic_address;
  on_devices (write_volatile (u32_at ioapic_pointer 0) 0x12);;
  on_devices (write_volatile (u32_at ioapic_pointer 4) (vector Keyboard));;
  on_devices (write_volatile (u32_at ioapic_pointer 0) 0x13);;
  on_devices (write_volatile (u32_at ioapic_pointer 4) 0);;
  on_devices (write_volatile (u32_at ioapic_pointer 0) 0x28);;
  on_devices (write_volatile (u32_at ioapic_pointer 4) (vector Mouse));;
  on_devices (write_volatile (u32_at ioapic_pointer 0) 0x29);;
  on_devices (write_volatile (u32_at ioapic_pointer 4) 0).

Definition apic_init (rsdp_addr physical_memory_offset : Z) : A () :=
  tables ← lift (read_acpi_tables rsdp_addr physical_memory_offset);
  model ← lift (unwrap (interrupt_model tables));
  match model with
  | ModelApic io_apics local_apic_address =>
      io_apic_address ← lift (index io_apics 0);
      init_io_apic io_apic_address;;
      init_local_apic local_apic_address
  | ModelUnknown => panic
  end.

(** The step of [main]; [rsdp_addr] is the field of the boot information. *)
Definition main_apic (rsdp_addr : option Z) (phys_mem_offset : Z) : A () :=
  on_devices (serial_println [Text "Initializing APIC..."]);;
  rsdp ← lift (unwrap rsdp_addr);
  apic_init rsdp phys_mem_offset.
End code.
