(* ===== verification/ApicTheorems.v ===== *)
(** * Interrupts reach their handlers

    What the programmed registers of the APICs mean, which entry of the
    descriptor table each vector selects, and what the exceptions do. *)
From stdpp Require Import strings.
From S2P Require Import Prelude X86Api Gdt Paging UserSpace Drivers Interrupts Acpi Apic.

(** ** The devices *)

(** The I/O APIC: a write to its first register selects an internal register,
    a write to the window at 16 stores the selected one. *)
Definition ioapic_write (base : Z) (st : Z * gmap Z Z) (w : Z * Z) : Z * gmap Z Z :=
  if decide (w.1 = base) then (w.2, st.2)
  else if decide (w.1 = base + 16) then (st.1, <[st.1 := w.2]> st.2) else st.
Definition ioapic_regs (base : Z) (ws : list (Z * Z)) : gmap Z Z := (foldl (ioapic_write base) (0, ∅) ws).2.

(** The redirection entry of an interrupt line: its low and high word. *)
Definition redirection (base : Z) (ws : list (Z * Z)) (irq : Z) : option Z * option Z :=
  (ioapic_regs base ws !! (0x10 + 2 * irq), ioapic_regs base ws !! (0x11 + 2 * irq)).

(** A plain register holds what was last written to it. *)
Definition last_write (ws : list (Z * Z)) (a : Z) : option Z :=
  foldl (fun o w => if decide (w.1 = a) then Some w.2 else o) None ws.

(** The fields of a local vector entry or redirection entry. *)
Definition entry_vector (v : Z) : Z := Z.land v 0xFF.
Definition entry_masked (v : Z) : bool := Z.testbit v 16.
Definition entry_periodic (v : Z) : bool := Z.testbit v 17.

Lemma ioapic_write_select b st v : ioapic_write b st (b, v) = (v, st.2).
Proof. unfold ioapic_write. cbn [fst snd]. by rewrite decide_True. Qed.
Lemma ioapic_write_window b st v : ioapic_write b st (b + 16, v) = (st.1, <[st.1 := v]> st.2).
Proof. unfold ioapic_write. cbn [fst snd]. by rewrite decide_False, decide_True by lia. Qed.
Lemma ioapic_write_others b ws st :
  Forall (fun w => w.1 <> b /\ w.1 <> b + 16) ws -> foldl (ioapic_write b) st ws = st.
Proof.
  induction 1 as [|w ws [H1' H2'] _ IH]; [done|]. cbn [foldl]. unfold ioapic_write at 2.
  by rewrite (decide_False (P := w.1 = b)), (decide_False (P := w.1 = b + 16)) by done.
Qed.

(** A register keeps what was written to it until the next write. *)
Lemma last_write_here ws a v ws' :
  Forall (fun w => w.1 <> a) ws' -> last_write (ws ++ (a, v) :: ws') a = Some v.
Proof.
  intros Hf. unfold last_write. rewrite foldl_app. cbn [foldl fst snd]. rewrite decide_True by done.
  induction Hf as [|w ws' Hw _ IH]; [done|]. cbn [foldl]. by rewrite decide_False by done.
Qed.

Lemma cons_middle_app {A} (l : list A) x r : l ++ x :: r = (l ++ [x]) ++ r.
Proof. by rewrite <- app_assoc. Qed.

Lemma run_on_mapper {St R} (f : M (St * bmem) R) w d r w' :
  f w = Ret (r, w') -> on_mapper f (w, d) = Ret (r, (w', d)).
Proof. unfold on_mapper. by intros ->. Qed.
Lemma run_on_devices {St R} (f : D R) (w : St * bmem) d r d' :
  f d = Ret (r, d') -> on_devices f (w, d) = Ret (r, (w, d')).
Proof. unfold on_devices. by intros ->. Qed.

Section apic.
Context {ck : OverflowChecks} `{MmioRead} `{PhysFrameLaws} `{VirtAddrLaws} `{AcpiApi} {St : Type} `{UserMapper St}.

Definition apic_page (a : Z) : Prop := 0 <= a < 2 ^ 47 /\ (4096 | a).

Lemma map_apic_run a w d ok w' :
  apic_page a -> map_to a a apic_flags w = Ret (ok, w') ->
  map_apic a (w, d) = if ok : bool then Ret (a, (w', d)) else Panic.
Proof.
  intros [Ha [k ->]] Hm. unfold map_apic.
  assert (k * 4096 / 4096 * 4096 = k * 4096) as Ek by (by rewrite Z.div_mul).
  assert (containing_address (k * 4096) = Ret (k * 4096)) as E1.
  { rewrite containing_address_ok by lia. by rewrite Ek. }
  assert (virt_new (k * 4096) = Ret (k * 4096)) as E2 by (apply virt_new_ok; unfold canonical; lia).
  run (run_lift _ (w, d) _ E1). run (run_lift _ (w, d) _ E2). cbv zeta. rewrite page_containing_ok, Ek.
  run (run_on_mapper _ _ d _ _ Hm). by destruct ok.
Qed.

Definition io_writes (p : Z) : list (Z * Z) :=
  [(p, 0x12); (p + 16, vector Keyboard); (p, 0x13); (p + 16, 0);
   (p, 0x28); (p + 16, vector Mouse); (p, 0x29); (p + 16, 0)].
Definition lapic_writes (p : Z) (svr : Z) : list (Z * Z) :=
  [(p + 0xF0, Z.lor svr 0x100); (p + 0x320, 0x20020); (p + 0x3E0, 3); (p + 0x380, 2500000);
   (p + 0x360, vector Keyboard); (p + 0x350, vector Mouse)].

Lemma init_io_apic_run a w d w' :
  apic_page a -> map_to a a apic_flags w = Ret (true, w') ->
  init_io_apic a (w, d) =
    Ret ((), (w', mkDev (serial_ready d) (console d) (lapic_address d) (mmio d ++ io_writes a))).
Proof.
  intros Ha Hm. unfold init_io_apic. pose proof (map_apic_run a w d true w' Ha Hm) as E. cbv iota in E. run E.
  destruct d as [sr co la mm]. unfold u32_at, io_writes. rewrite !Z.mul_0_r, !Z.add_0_r.
  unfold on_devices, write_volatile, mbind, M_bind, get, put. cbn -[Z.add vector]. by rewrite <- !app_assoc.
Qed.

Lemma init_local_apic_run a w d w' :
  apic_page a -> map_to a a apic_flags w = Ret (true, w') -> serial_ready d = true ->
  init_local_apic a (w, d) =
    Ret ((), (w', mkDev true (console d ++ [Text "Local APIC timer initialized"; Text newline]) a
      (mmio d ++ lapic_writes a (mmio_read (mmio d) (a + 0xF0))))).
Proof.
  intros Ha Hm Hs. unfold init_local_apic. pose proof (map_apic_run a w d true w' Ha Hm) as E. cbv iota in E. run E.
  destruct d as [sr co la mm]. simpl in Hs. subst sr. unfold lapic_writes.
  unfold on_devices, set_lapic_address, init_timer, init_keyboard, init_mouse, serial_println, serial_print,
    read_volatile, write_volatile, mbind, M_bind, get, put.
  cbn -[Z.add vector mmio_read]. by rewrite <- !app_assoc.
Qed.

(** ** What the registers hold afterwards *)

Lemma ioapic_configured a b ws svr irq :
  apic_page a -> apic_page b -> a <> b -> irq = 1 \/ irq = 12 ->
  redirection a (ws ++ io_writes a ++ lapic_writes b svr) irq =
    (Some (if decide (irq = 1) then vector Keyboard else vector Mouse), Some 0).
Proof.
  intros [_ Ha] [_ Hb] Hne Hirq. unfold redirection, ioapic_regs. rewrite !foldl_app.
  destruct (foldl _ _ ws) as [sel regs].
  rewrite (ioapic_write_others a (lapic_writes b svr)).
  - unfold io_writes. cbn [foldl]. rewrite !ioapic_write_select, !ioapic_write_window. cbn [fst snd].
    destruct Hirq as [-> | ->]; [rewrite decide_True by done|rewrite decide_False by done]; f_equal;
      by rewrite ?lookup_insert_eq, ?lookup_insert_ne, ?lookup_insert_eq, ?lookup_insert_ne, ?lookup_insert_eq by done.
  - destruct Ha as [k ->], Hb as [l ->]. assert (k <> l) by congruence. unfold lapic_writes.
    repeat constructor; cbn [fst]; lia.
Qed.

Lemma apic_init_run rsdp off tables io ios local w d w1 w2 :
  from_rsdp (map_physical_region (AcpiHandler_new off)) rsdp = Some tables ->
  interrupt_model tables = Some (ModelApic (io :: ios) local) -> apic_page io -> apic_page local ->
  map_to io io apic_flags w = Ret (true, w1) -> map_to local local apic_flags w1 = Ret (true, w2) ->
  serial_ready d = true ->
  apic_init rsdp off (w, d) = Ret ((), (w2, mkDev true (console d ++ [Text "Local APIC timer initialized"; Text newline]) local
    ((mmio d ++ io_writes io) ++ lapic_writes local (mmio_read (mmio d ++ io_writes io) (local + 0xF0))))).
Proof.
  intros Ht Hm Hio Hlo E1 E2 Hs.
  assert (read_acpi_tables rsdp off = Ret tables) as Er by (unfold read_acpi_tables; by rewrite Ht).
  unfold apic_init. run (run_lift _ (w, d) _ Er). rewrite Hm. cbn [unwrap].
  run (run_lift _ (w, d) (Ret (ModelApic (io :: ios) local)) eq_refl). cbv iota.
  run (run_lift _ (w, d) (index (io :: ios) 0) eq_refl). run (init_io_apic_run io w d w1 Hio E1).
  exact (init_local_apic_run local w1 (mkDev (serial_ready d) (console d) (lapic_address d) (mmio d ++ io_writes io)) w2 Hlo E2 Hs).
Qed.

(** C24: after [apic::init] the interrupts of the kernel's devices arrive at
    their handlers.  The tables naming an I/O APIC and a local APIC on two pages
    the mapper can map, both are mapped uncached at their own addresses; the
    keyboard's line 1 and the mouse's line 12 are redirected, unmasked, to CPU 0
    with their vectors, the timer fires periodically and unmasked with the vector
    of the timer, and the local APIC is enabled; the descriptor table has the
    handler of the device at each of the three vectors; and [end_interrupt]
    writes the end-of-interrupt register of the local APIC just mapped.  The step
    of [main] does the same with the address the boot loader found, and panics
    when there is none. *)
Theorem apic_init_routes_interrupts rsdp off tables io ios local w d w1 w2 :
  from_rsdp (map_physical_region (AcpiHandler_new off)) rsdp = Some tables ->
  interrupt_model tables = Some (ModelApic (io :: ios) local) ->
  apic_page io -> apic_page local -> io <> local ->
  map_to io io apic_flags w = Ret (true, w1) -> map_to local local apic_flags w1 = Ret (true, w2) ->
  serial_ready d = true ->
  exists d', apic_init rsdp off (w, d) = Ret ((), (w2, d')) /\
    (exists k m t, redirection io (mmio d') 1 = (Some k, Some 0) /\ redirection io (mmio d') 12 = (Some m, Some 0) /\
      last_write (mmio d') (lapic_reg local LvtT) = Some t /\ entry_periodic t = true /\
      Forall (fun v => entry_masked v = false) [k; m; t] /\
      (handler <$> IDT !! entry_vector k) = Some H_keyboard_interrupt /\
      (handler <$> IDT !! entry_vector m) = Some H_mouse_interrupt /\
      (handler <$> IDT !! entry_vector t) = Some H_timer_interrupt_entry) /\
    (exists svr, last_write (mmio d') (lapic_reg local Svr) = Some svr /\ Z.testbit svr 8 = true) /\
    (exists d'', end_interrupt d' = Ret ((), d'') /\ last_write (mmio d'') (lapic_reg local Eoi) = Some 0) /\
    (exists d0, main_apic (Some rsdp) off (w, d) = Ret ((), (w2, d0)) /\ mmio d0 = mmio d' /\ lapic_address d0 = local) /\
    main_apic None off (w, d) = Panic.
Proof.
  intros Ht Hm Hio Hlo Hne E1 E2 Hs.
  set (svr := mmio_read (mmio d ++ io_writes io) (local + 0xF0)).
  assert (forall frags, exists d1, on_devices (serial_println frags) (w, d) = Ret ((), (w, d1)) /\
    mmio d1 = mmio d /\ serial_ready d1 = true) as Hpr.
  { intros frags. exists (mkDev true (console d ++ frags ++ [Text newline]) (lapic_address d) (mmio d)).
    unfold on_devices, serial_println. by rewrite run_serial_print. }
  eexists. split; [exact (apic_init_run rsdp off tables io ios local w d w1 w2 Ht Hm Hio Hlo E1 E2 Hs)|].
  cbn [mmio]. fold svr. rewrite <- app_assoc. split_and!.
  - exists (vector Keyboard), (vector Mouse), 0x20020.
    rewrite !(ioapic_configured io local) by auto. split_and!; [done|done| |done|by repeat constructor|done..].
    change (lapic_reg local LvtT) with (local + 0x320).
    unfold lapic_writes. rewrite app_assoc, (cons_middle_app _ (_, Z.lor svr 0x100)). apply last_write_here. repeat constructor; cbn [fst]; lia.
  - exists (Z.lor svr 0x100). split; [|by rewrite Z.lor_spec, orb_true_r].
    change (lapic_reg local Svr) with (local + 0xF0).
    rewrite app_assoc. apply last_write_here. repeat constructor; cbn [fst]; lia.
  - eexists. split; [reflexivity|]. apply last_write_here. constructor.
  - destruct (Hpr [Text "Initializing APIC..."]) as (d1 & E & Hmm & Hs1). eexists. unfold main_apic. run E.
    run (run_lift _ (w, d1) (unwrap (Some rsdp)) eq_refl).
    split; [exact (apic_init_run rsdp off tables io ios local w d1 w1 w2 Ht Hm Hio Hlo E1 E2 Hs1)|].
    cbn [mmio lapic_address]. rewrite Hmm, <- app_assoc. done.
  - destruct (Hpr [Text "Initializing APIC..."]) as (d1 & E & _). unfold main_apic. by run E.
Qed.
End apic.

(** ** Exceptions *)

Section exceptions.
Context {ck : OverflowChecks} `{VirtAddrLaws} `{FrameDebug}.

(** What an exception with this stack frame, error code and CR2 runs. *)
Definition report (h : HandlerFn) (cr2 : Z) (fr : InterruptStackFrame) (err : Z) : option (D (list (Z * Z))) :=
  match h with
  | H_double_fault => Some (double_fault_handler fr err)
  | H_general_protection_fault => Some (general_protection_fault_handler fr err)
  | H_page_fault => Some (page_fault_handler cr2 fr err)
  | H_divide_by_zero => Some (divide_by_zero_handler fr)
  | _ => None
  end.

(** The stack a handler is meant to run on. *)
Definition fault_stack (st : stack_addrs) (h : HandlerFn) : option Z :=
  match h with
  | H_double_fault => Some (df_stack st)
  | H_page_fault => Some (pf_stack st)
  | H_general_protection_fault => Some (gp_stack st)
  | _ => None
  end.

(** QEMU's exit status for a value written to its exit port. *)
Definition qemu_status (v : Z) : Z := Z.lor (Z.shiftl v 1) 1.

Definition stack_ok (a : Z) : Prop := 0 <= a /\ a + STACK_SIZE < 2 ^ 47.

Lemma stack_end_ok a : stack_ok a -> stack_end a = Ret (a + STACK_SIZE).
Proof.
  intros [Hlo Hhi]. unfold STACK_SIZE in *. unfold stack_end.
  assert (virt_new a = Ret a) as -> by (apply virt_new_ok; unfold canonical; lia). cbn [mbind outcome_bind].
  assert (add64 a STACK_SIZE = Ret (a + STACK_SIZE)) as -> by (apply add64_ok; unfold STACK_SIZE; lia).
  cbn [mbind outcome_bind]. apply virt_new_ok. unfold canonical, STACK_SIZE. lia.
Qed.

Lemma TSS_ok st :
  stack_ok (df_stack st) -> stack_ok (pf_stack st) -> stack_ok (gp_stack st) -> stack_ok (kernel_stack0 st) ->
  TSS st = Ret (mkTss [df_stack st + STACK_SIZE; pf_stack st + STACK_SIZE; gp_stack st + STACK_SIZE; 0; 0; 0; 0]
    [kernel_stack0 st + STACK_SIZE; 0; 0]).
Proof. intros H1' H2' H3' H4'. unfold TSS. by rewrite !stack_end_ok by done. Qed.

(** The entries of the table. *)
Lemma IDT_entries v e : IDT !! v = Some e ->
  (v, e) ∈ [(0, mkEntry H_divide_by_zero None); (8, mkEntry H_double_fault (Some 0));
            (13, mkEntry H_general_protection_fault (Some 2)); (14, mkEntry H_page_fault (Some 1));
            (32, mkEntry H_timer_interrupt_entry None); (33, mkEntry H_keyboard_interrupt None);
            (44, mkEntry H_mouse_interrupt None)].
Proof.
  unfold IDT. cbv zeta.
  repeat (intros [[<- <-]|[_ Hv]]%lookup_insert_Some; [set_solver|revert Hv]). by rewrite lookup_empty.
Qed.

(** Every exception the kernel handles is reported and stops the machine.
    The handler in the descriptor table prints the interrupted frame, touches no
    device register and leaves QEMU with the status of [QemuExitCode::Failed];
    a double fault, a page fault and a protection fault each run on the top of a
    stack of their own, by the index the table and the task state segment agree
    on, and an entry from user mode runs on the top of the kernel stack. *)
Theorem exceptions_stop_machine st d cr2 fr err :
  serial_ready d = true ->
  stack_ok (df_stack st) -> stack_ok (pf_stack st) -> stack_ok (gp_stack st) -> stack_ok (kernel_stack0 st) ->
  exists t, TSS st = Ret t /\ privilege_stack_table t !! 0%nat = Some (kernel_stack0 st + STACK_SIZE) /\
  forall v e f, IDT !! v = Some e -> report (handler e) cr2 fr err = Some f ->
    v ∈ [DIVIDE_ERROR; DOUBLE_FAULT; GENERAL_PROTECTION_FAULT; PAGE_FAULT] /\
    (i ← stack_index e; interrupt_stack_table t !! Z.to_nat i) =
      ((fun a => a + STACK_SIZE) <$> fault_stack st (handler e)) /\
    exists out code, f d = Ret ([(0xf4, code)], mkDev true (console d ++ out) (lapic_address d) (mmio d)) /\
      qemu_status code = exit_value Failed /\ Text (frame_debug fr) ∈ out.
Proof.
  intros Hs H1' H2' H3' H4'. eexists. split; [by apply TSS_ok|]. split; [done|].
  intros v e f He%IDT_entries Hf. destruct d as [sr co la mm]. simpl in Hs. subst sr.
  repeat (apply elem_of_cons in He as [He|He]; [injection He as -> ->|]); [..|by apply elem_of_nil in He];
    cbn [handler report] in Hf; try discriminate Hf; injection Hf as <-;
    (split; [unfold DIVIDE_ERROR, DOUBLE_FAULT, GENERAL_PROTECTION_FAULT, PAGE_FAULT; set_solver|]);
    (split; [reflexivity|]); eexists _, 9;
    (split; [unfold divide_by_zero_handler, double_fault_handler, general_protection_fault_handler,
      page_fault_handler, exit_qemu, serial_println, serial_print, mbind, M_bind, get, put; cbn;
      rewrite <- ?app_assoc; reflexivity|]); (split; [reflexivity|set_solver]).
Qed.
End exceptions.

(** ** Witnesses *)

Module Demo.
#[local] Existing Instances ReferenceApi.phys_frame_api ReferenceApi.phys_frame_laws.
#[local] Instance demo_ck : OverflowChecks := true.
#[local] Instance demo_mmio : MmioRead := fun _ _ => 0xFF.
#[local] Instance demo_virt : VirtAddrApi := {| virt_new := Ret; page_containing := fun a => a / 4096 * 4096 |}.
#[local] Instance demo_virt_laws : VirtAddrLaws.
Proof. by constructor. Qed.
#[local] Instance demo_acpi : AcpiApi := {|
  AcpiTables := ();
  from_rsdp := fun _ _ => Some ();
  interrupt_model := fun _ => Some (ModelApic [0xFEC00000] 0xFEE00000);
|}.
(** A mapper that keeps the list of mapped pages. *)
#[local] Instance demo_mapper : UserMapper (list Z) := {|
  frame_alloc := fun s => Ret (None, s);
  map_to := fun pg _ _ '(l, m) => if decide (pg ∈ l) then Ret (false, (l, m)) else Ret (true, (pg :: l, m));
|}.
Definition demo_dev : devices := mkDev true [] 0 [].

Lemma apic_init_routes_interrupts_witness :
  exists d', apic_init (St := list Z) 0xE0000 (2 ^ 40) (([], ∅), demo_dev) =
      Ret ((), (([0xFEE00000; 0xFEC00000], ∅), d')) /\
    redirection 0xFEC00000 (mmio d') 1 = (Some 33, Some 0).
Proof.
  destruct (apic_init_routes_interrupts 0xE0000 (2 ^ 40) (tt : @AcpiTables demo_acpi) 0xFEC00000 [] 0xFEE00000 ([], ∅) demo_dev
    ([0xFEC00000], ∅) ([0xFEE00000; 0xFEC00000], ∅) eq_refl eq_refl ltac:(split; [lia|by exists 1043456])
    ltac:(split; [lia|by exists 1043968]) ltac:(done) eq_refl eq_refl eq_refl) as (d' & E & _).
  exists d'. split; [exact E|]. vm_compute in E. injection E as <-. by_decide.
Defined.

#[local] Instance demo_debug : FrameDebug := {|
  frame_debug := fun _ => "InterruptStackFrame"; page_fault_debug := fun _ => "(empty)"; virt_debug := fun _ => "VirtAddr";
|}.
Lemma exceptions_stop_machine_witness :
  exists t, TSS (mkStacks 0x200000 0x210000 0x220000 0x230000) = Ret t /\
    interrupt_stack_table t !! 1%nat = Some 0x215000.
Proof.
  destruct (exceptions_stop_machine (mkStacks 0x200000 0x210000 0x220000 0x230000) demo_dev 0x1234
    (mkFrame 0x400000 0x23 0x202 0x7FFFFF000 0x1B) 4 eq_refl) as (t & E & _ & Hall);
    [split; cbn; unfold STACK_SIZE; lia..|].
  exists t. split; [exact E|].
  exact (proj1 (proj2 (Hall 14 (mkEntry H_page_fault (Some 1)) _ ltac:(vm_compute; reflexivity) eq_refl))).
Defined.
End Demo.
