(* ===== verification/KernelInit.v ===== *)
(** * Initialisation of the kernel: [kernel/src/lib.rs], with the [init]
    functions of [drivers], [gdt], [interrupts] and [tasks]

    [kernel::init] runs before anything else in [main]: the console, the mouse,
    the segments, the interrupt table, the registers of system calls.  The
    state is the devices and input drivers, the task state segment (built when
    the segment table is first used), the table registers and the control
    registers of the processor. *)
From stdpp Require Import strings.
From S2P Require Import Prelude Machine X86Api Cpu Drivers Gdt Tasks TasksProofs Syscall SyscallTheorems Slub GlobalAlloc.
From S2P Require Import HeapRep Paging UserSpace Events EventsTheorems Interrupts ApicTheorems.

Section code.
Context {ck : OverflowChecks} `{GdtApi} `{VirtAddrApi} `{ArrayQueueApi}.

Record ksys := mkKsys {
  k_io : io;
  k_tss : Lazy TaskStateSegment;
  k_tables : cpu_tables;
  k_control : control;
}.
Abbreviation K := (M ksys).

Definition on_io {A} (f : M io A) : K A := fun s =>
  match f (k_io s) with
  | Ret (a, i) => Ret (a, mkKsys i (k_tss s) (k_tables s) (k_control s))
  | Panic => Panic | Undef => Undef | Hang => Hang | OutOfFuel => OutOfFuel
  end.
Definition on_tables (f : cpu_tables -> cpu_tables) : K () :=
  s ← get; put (mkKsys (k_io s) (k_tss s) (f (k_tables s)) (k_control s)).

(** Where the linker puts the statics: the stacks, [TSS], [syscall_handler]. *)
Record image := mkImage { img_stacks : stack_addrs; img_tss : Z; img_syscall_handler : Z }.

(** [&TSS] in the initialiser of [GDT]. *)
Definition force_tss (img : image) : K () :=
  s ← get;
  match k_tss s with
  | Ready _ => mret ()
  | Running => hang
  | Uninit =>
      t ← lift (TSS (img_stacks img));
      put (mkKsys (k_io s) (Ready t) (k_tables s) (k_control s))
  end.

(** [gdt::init]: the first use of [GDT] builds it. *)
Definition kernel_gdt_init (img : image) : K () :=
  force_tss img;;
  on_tables (gdt_init (img_tss img)).

(** [tasks::init]; [f] is what [CpuId] reports. *)
Definition tasks_init (img : image) (f : features) : K () :=
  s ← get;
  ctl ← on_io (io_dev (init_syscalls (GDT (img_tss img)).2 (img_syscall_handler img) f (k_control s)));
  s ← get;
  put (mkKsys (k_io s) (k_tss s) (k_tables s) ctl).

(** [kernel::init] *)
Definition kernel_init (img : image) (f : features) : K () :=
  on_io drivers_init;;
  kernel_gdt_init img;;
  on_tables interrupts_init;;
  tasks_init img f.

(** A kernel that has just been loaded: no console, no heap, and whatever the
    boot loader left in the registers. *)
Definition kernel_loaded (m : mem) (t : cpu_tables) (c : control) : ksys :=
  mkKsys (io_new devices_new heap_new m) Uninit t c.

Lemma run_on_io {A} (f : M io A) s a i :
  f (k_io s) = Ret (a, i) -> on_io f s = Ret (a, mkKsys i (k_tss s) (k_tables s) (k_control s)).
Proof. unfold on_io. by intros ->. Qed.
End code.

Section proofs.
Context {ck : OverflowChecks} `{GdtLaws} `{VirtAddrLaws} `{ArrayQueueApi}.

Definition stacks_ok (st : stack_addrs) : Prop :=
  stack_ok (df_stack st) /\ stack_ok (pf_stack st) /\ stack_ok (gp_stack st) /\ stack_ok (kernel_stack0 st).

(** The state [kernel::init] leaves. *)
Definition tss_built (st : stack_addrs) : TaskStateSegment :=
  mkTss [df_stack st + STACK_SIZE; pf_stack st + STACK_SIZE; gp_stack st + STACK_SIZE; 0; 0; 0; 0]
    [kernel_stack0 st + STACK_SIZE; 0; 0].
Definition kernel_ready (img : image) (f : features) (m : mem) (c : control) (k : mouse) : ksys :=
  mkKsys (mkIo _ _ _ (mkDev true (syscall_report (img_syscall_handler img)) 0 []) heap_new m Uninit Uninit k)
    (Ready (tss_built (img_stacks img)))
    (let sel := (GDT (img_tss img)).2 in
     mkTables _ (Some (GDT (img_tss img)).1) (code sel) (Gdt.data sel) (Gdt.data sel) (Some (tss sel)) (Some IDT))
    (mkControl (init_cr0 (cr0 c)) (init_cr4 f (cr4 c)) (Z.lor (efer c) (bit 0)) (img_syscall_handler img) IF star_of_gdt).

Lemma kernel_init_run img f m t c k :
  stacks_ok (img_stacks img) -> Events.mouse_init (set_on_complete mouse_new) = (k, inr ()) ->
  kernel_init img f (kernel_loaded m t c) = Ret ((), kernel_ready img f m c k).
Proof.
  intros (H1' & H2' & H3' & H4') Hk. unfold kernel_init.
  set (i1 := mkIo _ _ _ (mkDev true [] 0 []) heap_new m Uninit Uninit k : io).
  assert (drivers_init (k_io (kernel_loaded m t c)) = Ret ((), i1)) as E1.
  { unfold drivers_init, Events.init_mouse, mbind, M_bind, io_dev. cbn.
    change (init_serial devices_new) with (Ret ((), mkDev true [] 0 [])). cbn. by rewrite Hk. }
  run (run_on_io drivers_init (kernel_loaded m t c) () i1 E1).
  assert (kernel_gdt_init img (mkKsys i1 Uninit t c) =
    Ret ((), mkKsys i1 (Ready (tss_built (img_stacks img))) (gdt_init (img_tss img) t) c)) as E2.
  { unfold kernel_gdt_init, force_tss, mbind, M_bind, get, lift. cbn. by rewrite TSS_ok. }
  change (mkKsys i1 _ _ _) with (mkKsys i1 Uninit t c). run E2. unfold on_tables at 1, tasks_init, mbind, M_bind, get.
  unfold on_io, io_dev, put. cbn [k_io k_tss k_tables k_control dev i1].
  pose proof (init_syscalls_run (img_tss img) (img_syscall_handler img) f c (mkDev true [] 0 []) eq_refl) as E3.
  destruct (init_syscalls _ _ _ _ _) as [[ctl d]| | | |]; try discriminate E3. injection E3 as -> ->. reflexivity.
Qed.

(** C25: [kernel::init] leaves a consistent processor.  From a freshly loaded
    kernel, whatever the boot loader left in the registers, it returns; the
    console is up and nothing was allocated, as there is no heap yet.  The
    segment registers hold selectors of the table that is loaded; [syscall] will
    load exactly these and [sysretq] the selectors every new task is created
    with; interrupts are masked on entry; every vector whose entry names a stack
    of the task state segment finds there the top of the stack meant for its
    handler, and entries from user mode the top of the kernel stack.  If the
    mouse does not answer, [kernel::init] panics. *)
Theorem kernel_init_consistent img f m t c :
  stacks_ok (img_stacks img) ->
  let sel := (GDT (img_tss img)).2 in
  match Events.mouse_init (set_on_complete mouse_new) with
  | (_, inl _) => kernel_init img f (kernel_loaded m t c) = Panic
  | (k, inr _) => exists s d ts,
      kernel_init img f (kernel_loaded m t c) = Ret ((), s) /\
      k_io s = mkIo _ _ _ d heap_new m Uninit Uninit k /\ serial_ready d = true /\
      gdtr (k_tables s) = Some (GDT (img_tss img)).1 /\ idtr (k_tables s) = Some IDT /\
      tr_reg (k_tables s) = Some (tss sel) /\ ds_reg (k_tables s) = ss_reg (k_tables s) /\
      (let syscall_cs := Z.land (Z.shiftr (star (k_control s)) 32) 0xFFFC in
       cs_reg (k_tables s) = syscall_cs /\ ss_reg (k_tables s) = syscall_cs + 8) /\
      (forall e sp, let ctx := new_user sel e sp in
        Z.lor (Z.shiftr (star (k_control s)) 48 + 16) 3 = cs ctx /\
        Z.lor (Z.shiftr (star (k_control s)) 48 + 8) 3 = ss ctx) /\
      lstar (k_control s) = img_syscall_handler img /\ sfmask (k_control s) = IF /\
      Z.testbit (efer (k_control s)) 0 = true /\
      k_tss s = Ready ts /\ privilege_stack_table ts !! 0%nat = Some (kernel_stack0 (img_stacks img) + STACK_SIZE) /\
      (forall v e i, IDT !! v = Some e -> stack_index e = Some i -> exists b,
        fault_stack (img_stacks img) (handler e) = Some b /\
        interrupt_stack_table ts !! Z.to_nat i = Some (b + STACK_SIZE))
  end.
Proof.
  intros Hst sel. destruct (Events.mouse_init (set_on_complete mouse_new)) as [k [err|[]]] eqn:Hk.
  - unfold kernel_init. apply run_bind_panic. unfold on_io, drivers_init, Events.init_mouse, mbind, M_bind, io_dev. cbn.
    change (init_serial devices_new) with (Ret ((), mkDev true [] 0 [])). cbn. by rewrite Hk.
  - destruct (star_selectors (img_tss img)) as (E1 & E2 & E3). eexists _, _, _.
    split; [exact (kernel_init_run img f m t c k Hst Hk)|].
    cbn [k_io k_tables k_control k_tss kernel_ready gdtr idtr tr_reg ds_reg ss_reg cs_reg star lstar sfmask efer].
    split_and!; try reflexivity; [by rewrite E1|by rewrite E2|exact E3| |].
    { rewrite Z.lor_spec. by rewrite orb_true_r. }
    intros v e i He%IDT_entries Hi.
    repeat (apply elem_of_cons in He as [He|He]; [injection He as -> ->|]); [..|by apply elem_of_nil in He];
      simplify_eq/=; eexists; (split; [reflexivity|reflexivity]).
Qed.
End proofs.

(** ** Witness *)

Module Demo.
#[local] Existing Instances ReferenceGdt.gdt_api ReferenceGdt.gdt_laws EventsTheorems.Demo.demo_keyboard
  EventsTheorems.Demo.demo_mouse EventsTheorems.Demo.demo_queue.
#[local] Instance demo_checks : OverflowChecks := true.
#[local] Instance demo_virt : VirtAddrApi := {| virt_new := Ret; page_containing := fun a => a / 4096 * 4096 |}.
#[local] Instance demo_virt_laws : VirtAddrLaws.
Proof. by constructor. Qed.

Definition demo_image : image := mkImage (mkStacks 0x200000 0x210000 0x220000 0x230000) 0x240000 0x100000.
Definition demo_tables : cpu_tables := mkTables _ None 0x38 0x30 0x30 None None.
Definition demo_control : control := mkControl 0x80000011 0x20 0x500 0 0 0.

Lemma kernel_init_consistent_witness :
  exists s, kernel_init demo_image (mkFeatures (Some true) None None) (kernel_loaded ∅ demo_tables demo_control) = Ret ((), s) /\
    cs_reg (k_tables s) = Z.land (Z.shiftr (star (k_control s)) 32) 0xFFFC.
Proof.
  destruct (kernel_init_consistent demo_image (mkFeatures (Some true) None None) ∅ demo_tables demo_control)
    as (s & d & ts & E & _ & _ & _ & _ & _ & _ & [Hcs _] & _).
  - unfold stacks_ok, stack_ok, STACK_SIZE. cbn. lia.
  - exists s. split; [exact E|exact Hcs].
Defined.
End Demo.
