(* ===== verification/MainBoot.v ===== *)
(** * The first half of [main]: [kernel/src/main.rs] up to the APICs

    [main] initialises the kernel, collects the free memory, shows a picture,
    gives the memory to the heap and tries the heap out.  The parts are those of
    the other files; here they run one after the other on one state. *)
From stdpp Require Import strings.
From S2P Require Import Prelude Machine X86Api Buddy BootFrames BootFramesProofs BootInit BootSystem Drivers Gdt Syscall SyscallTheorems.
From S2P Require Import Slub SlubRep GlobalAlloc HeapRep HeapSystem Collections CollectionsTheorems.
From S2P Require Import Paging UserSpace MemoryBoot Events EventsTheorems Interrupts Graphics GraphicsTheorems Acpi KernelInit.

(** ** Trying the heap out *)

(** How [{:p}] shows a pointer to a slice: its address, its length. *)
Class SlicePointerFmt := fmt_slice_pointer : Z -> Z -> list output.

Section demo.
Context {ck : OverflowChecks} `{SlabLayout} `{ArrayQueueApi} `{VecFields} `{SlicePointerFmt}.

Definition print_line (frags : list output) : M io () := io_dev (serial_println frags).

(** The shared vector. *)
Definition shared_vec : M io Z :=
  v ← io_heap (vec_macro [1; 2; 3]);
  reference_counted ← io_heap (Rc_new v);
  cloned_reference ← io_heap (Rc_clone reference_counted);
  n ← io_heap (strong_count cloned_reference);
  print_line [Text "current reference count is "; Dec n];;
  io_heap (Rc_drop reference_counted);;
  n ← io_heap (strong_count cloned_reference);
  print_line [Text "reference count is "; Dec n; Text " now"];;
  mret cloned_reference.

(** The three values that stay alive: the box, the vector, the shared pointer. *)
Definition heap_demo : M io (Z * RVec * Z) :=
  heap_value ← io_heap (Box_new 41);
  print_line [Text "heap_value at 0x"; Hex heap_value];;
  vec ← io_heap (push_range 0 500 Vec_new);
  print_line (Text "vec at " :: fmt_slice_pointer (vptr vec) (vlen vec));;
  cloned_reference ← shared_vec;
  mret (heap_value, vec, cloned_reference).
End demo.

Section demo_proofs.
Context {ck : OverflowChecks} `{SlabLayoutLaws} `{PhysFrameLaws} `{ArrayQueueApi} `{VecFieldsLaws} `{SlicePointerFmt}.
Context (off : Z) (m0 : mem).
Context (Hlo : 0 <= off) (Hal : (4096 | off)) (Hhi : off + MAX_PAGES * Buddy.PAGE_SIZE < U64_LIM).

(** The state of the drivers with another heap and console. *)
Definition io_with (s : io) (d : devices) (x : hsys) : io :=
  mkIo _ _ _ d (hs_heap x) (hs_mem x) (event_queue s) (keyboard_lazy s) (mouse_static s).
Lemma run_heap {A} (f : M (KHeap * mem) A) s d x a x' :
  f (hs_heap x, hs_mem x) = Ret (a, (hs_heap x', hs_mem x')) ->
  io_heap f (io_with s d x) = Ret (a, io_with s d x').
Proof. intros E. by rewrite (run_io_heap _ (io_with s d x) _ _ _ E). Qed.
Definition printed (d : devices) (frags : list output) : devices :=
  mkDev true (console d ++ frags ++ [Text newline]) (lapic_address d) (mmio d).
Lemma run_print_line s d x frags : serial_ready d = true ->
  print_line frags (io_with s d x) = Ret ((), io_with s (printed d frags) x).
Proof. intros Hd. apply (run_io_dev _ (io_with s d x)), run_serial_println, Hd. Qed.

(** What the demonstration leaves on the heap: the values, in four blocks, next
    to the blocks that were there. *)
Record demo_heap (x : hsys) (others : list block) (p : Z) (vec : RVec) (rc : Z) (v : RVec) : Prop := {
  dh_reach : hreach off m0 x;
  dh_live : hs_live x ≡ₚ [(rc, rc_layout); (vptr v, array_layout 3); (vptr vec, array_layout 512);
                          (p, mkLayout I32_SIZE 4)] ++ others;
  dh_box : hs_mem x !! p = Some 41;
  dh_vec : vec_rep vec (seqZ 0 500) (hs_mem x);
  dh_rc : rc_rep rc 1 v (hs_mem x);
  dh_inner : vec_rep v [1; 2; 3] (hs_mem x);
}.
Definition demo_report (p : Z) (vec : RVec) : list output :=
  [Text "heap_value at 0x"; Hex p; Text newline] ++
  (Text "vec at " :: fmt_slice_pointer (vptr vec) 500) ++ [Text newline] ++
  [Text "current reference count is "; Dec 2; Text newline;
   Text "reference count is "; Dec 1; Text " now"; Text newline].

Lemma vec_rep_keeps v l bs m m' :
  vec_rep v l m -> keeps bs m m' -> vec_blocks v ⊆ bs -> vec_rep v l m'.
Proof.
  intros [Hlen Hcap Hc] Hk Hin. constructor; [done|done|]. intros i z Hi. pose proof (lookup_lt_Some _ _ _ Hi).
  rewrite (Hk (vptr v, array_layout (vcap v))); [by apply Hc| |unfold in_block; cbn; unfold I32_SIZE; lia].
  apply Hin. rewrite vec_blocks_cons by lia. left.
Qed.

Lemma sub_app_r {A} (l1 l2 : list A) : l2 ⊆ l1 ++ l2.
Proof. intros a Ha. apply elem_of_app. by right. Qed.

Lemma shared_vec_run s d x :
  hreach off m0 x -> serial_ready d = true -> room x 2 ->
  exists rc v x', shared_vec (io_with s d x) =
    Ret (rc, io_with s (printed (printed d [Text "current reference count is "; Dec 2])
      [Text "reference count is "; Dec 1; Text " now"]) x') /\
    client_step off m0 x x' [(rc, rc_layout); (vptr v, array_layout 3)] (hs_live x) /\
    rc_rep rc 1 v (hs_mem x') /\ vec_rep v [1; 2; 3] (hs_mem x') /\ vcap v = 3.
Proof.
  intros Hr Hd Hroom.
  destruct (vec_macro_run off m0 Hlo Hal Hhi x [1; 2; 3] Hr) as (v & x3 & E3 & St3 & Hv & Hcap); [cbn; lia|unfold room in *; lia|].
  cbn in Hcap. rewrite vec_blocks_cons, Hcap in St3 by lia. pose proof St3 as [Hr3 Hl3 _ _ _].
  destruct (Rc_new_run off m0 Hlo Hal Hhi x3 v Hr3) as (rc & x4 & E4 & St4 & Hrc4);
    [eapply client_room; [exact St3|unfold room in Hroom; cbn; lia]|]. pose proof St4 as [Hr4 Hl4 _ _ _].
  destruct (Rc_clone_run off m0 Hlo Hal Hhi x4 rc 1 v _ Hr4 Hl4 Hrc4) as (x5 & E5 & St5 & Hrc5); [lia|lia|].
  pose proof St5 as [Hr5 Hl5 _ _ _]. destruct (strong_count_run off m0 Hlo Hal Hhi x5 rc 2 v _ Hr5 Hl5 Hrc5) as [E6 _].
  destruct (Rc_drop_shared off m0 Hlo Hal Hhi x5 rc 2 v _ Hr5 Hl5 Hrc5) as (x7 & E7 & St7 & Hrc7); [lia|].
  pose proof St7 as [Hr7 Hl7 _ _ _]. destruct (strong_count_run off m0 Hlo Hal Hhi x7 rc 1 v _ Hr7 Hl7 Hrc7) as [E8 _].
  exists rc, v, x7. assert (client_step off m0 x3 x7 [(rc, rc_layout)] (hs_live x3)) as St37
    by (eapply client_step_trans; [|exact St7]; by eapply client_step_trans).
  split_and!; [|..|done].
  - unfold shared_vec. run (run_heap _ s d _ _ _ E3). run (run_heap _ s d _ _ _ E4). run (run_heap _ s d _ _ _ E5).
    run (run_heap _ s d _ _ _ E6). run (run_print_line s d x5 [Text "current reference count is "; Dec 2] Hd).
    run (run_heap _ s _ _ _ _ E7). run (run_heap _ s _ _ _ _ E8).
    by run (run_print_line s (printed d [Text "current reference count is "; Dec 2]) x7
      [Text "reference count is "; Dec 1; Text " now"] eq_refl).
  - eapply client_step_trans; [exact St3|].
    eapply (client_step_focus off m0 Hlo Hal Hhi _ _ [(rc, rc_layout)] [(vptr v, array_layout 3)] (hs_live x)).
    destruct St37 as [? Hl ? ? Hk]. constructor; [done|by rewrite Hl, Hl3|done|done|].
    eapply keeps_mono; [|exact Hk]. rewrite Hl3. done.
  - done.
  - eapply vec_rep_keeps; [exact Hv|exact (cl_keeps _ _ _ _ _ _ St37)|].
    rewrite vec_blocks_cons, Hcap, Hl3 by lia. set_solver.
Qed.

Lemma heap_demo_run s d x :
  hreach off m0 x -> serial_ready d = true -> room x 4 ->
  exists p vec rc v x', heap_demo (io_with s d x) =
      Ret ((p, vec, rc), io_with s (mkDev true (console d ++ demo_report p vec) (lapic_address d) (mmio d)) x') /\
    demo_heap x' (hs_live x) p vec rc v /\
    hs_frames x' = hs_frames x /\ hs_fed x' = hs_fed x /\ keeps (hs_live x) (hs_mem x) (hs_mem x').
Proof.
  intros Hr Hd Hroom. unfold room in Hroom.
  destruct (Box_new_run off m0 Hlo Hal Hhi x 41 Hr) as (p & x1 & E1 & St1 & Hp); [unfold room; lia|].
  pose proof St1 as [Hr1 Hl1 Hf1 Hd1 Hk1]. set (box := (p, mkLayout I32_SIZE 4)) in *.
  pose proof (Permutation_length Hl1) as Hn1. cbn in Hn1.
  destruct (push_range_run off m0 Hlo Hal Hhi 500 x1 Vec_new [] 0 (hs_live x1) Hr1) as (vec & x2 & E2 & St2 & Hv2 & Hc2);
    [done|by constructor|done|change (vlen Vec_new) with 0; lia|rewrite Hf1, Hd1; lia|]. change (Z.of_nat 500) with 500 in Hv2.
  assert (vlen vec = 500) as Hlen by (destruct Hv2 as [-> _ _]; reflexivity).
  rewrite Hlen in Hc2. change (cap_for 500) with 512 in Hc2. rewrite vec_blocks_cons, Hc2 in St2 by lia.
  pose proof St2 as [Hr2 Hl2 Hf2 Hd2 Hk2]. pose proof (Permutation_length Hl2) as Hn2. cbn in Hn2.
  set (vd := printed (printed d [Text "heap_value at 0x"; Hex p]) (Text "vec at " :: fmt_slice_pointer (vptr vec) 500)).
  destruct (shared_vec_run s vd x2 Hr2 eq_refl) as (rc & v & x3 & E3 & St3 & Hrc & Hv3 & Hcap3);
    [unfold room; rewrite Hf2, Hd2, Hf1, Hd1; lia|].
  pose proof St3 as [Hr3 Hl3 Hf3 Hd3 Hk3].
  assert (keeps (hs_live x1) (hs_mem x1) (hs_mem x3)) as K13.
  { eapply keeps_trans; [exact Hk2|]. eapply keeps_mono; [|exact Hk3]. rewrite Hl2. apply sub_app_r. }
  exists p, vec, rc, v, x3. split_and!; [| |by rewrite Hf3, Hf2, Hf1|by rewrite Hd3, Hd2, Hd1|].
  - unfold heap_demo. run (run_heap _ s d _ _ _ E1). run (run_print_line s d x1 [Text "heap_value at 0x"; Hex p] Hd).
    run (run_heap _ s _ _ _ _ E2). rewrite Hlen.
    run (run_print_line s (printed d [Text "heap_value at 0x"; Hex p]) x2 (Text "vec at " :: fmt_slice_pointer (vptr vec) 500) eq_refl).
    fold vd. run E3. unfold vd, printed, demo_report. cbn [console lapic_address mmio]. by rewrite <- !app_assoc.
  - constructor; [done| | | |done|done].
    + rewrite Hl3, Hl2, Hl1. done.
    + rewrite (K13 box p); [done|rewrite Hl1; left|unfold in_block, box, I32_SIZE; cbn; lia].
    + eapply vec_rep_keeps; [exact Hv2|exact Hk3|]. rewrite vec_blocks_cons, Hc2, Hl2 by lia.
      intros b Hb. apply elem_of_app. by left.
  - eapply keeps_trans; [exact Hk1|]. eapply keeps_mono; [|exact K13]. rewrite Hl1. apply sub_app_r.
Qed.
End demo_proofs.

(** ** [main] *)

(** What the boot loader hands over, of [BootInfo]. *)
Record BootInfo := mkBootInfo {
  physical_memory_offset : option Z;
  memory_regions : list MemoryRegion;
  framebuffer : option FrameBuffer;
  rsdp_addr : option Z;
}.

(** [OffsetPageTable]: the level-4 table and the offset. *)
Record OffsetPageTable := mkOffsetTable { level_4_table : Z; table_offset : Z }.

Section main.
Context {ck : OverflowChecks} `{GdtApi} `{VirtAddrApi} `{SlabLayout} `{PhysFrameApi} `{Graphics.PhysAddrApi} `{TranslationApi}.
Context `{ArrayQueueApi} `{VecFields} `{SlicePointerFmt}.

(** [memory::init] *)
Definition memory_init (physical_memory_offset : Z) : outcome OffsetPageTable :=
  level_4_table ← active_level_4_table physical_memory_offset;
  Ret (mkOffsetTable level_4_table physical_memory_offset).

(** The kernel's state and the pixels. *)
Record mstate := mkM { m_sys : ksys; m_pix : pix }.
Abbreviation B := (M mstate).
Definition on_sys {A} (f : M ksys A) : B A := fun s =>
  match f (m_sys s) with
  | Ret (a, k) => Ret (a, mkM k (m_pix s))
  | Panic => Panic | Undef => Undef | Hang => Hang | OutOfFuel => OutOfFuel
  end.
(** A call with [&mut frame_allocator]. *)
Definition on_graphics {A} (fa : BootInfoFrameAllocator) (f : M (BootInfoFrameAllocator * pix) A)
    : B (A * BootInfoFrameAllocator) := fun s =>
  match f (fa, m_pix s) with
  | Ret (a, (fa', p)) => Ret ((a, fa'), mkM (m_sys s) p)
  | Panic => Panic | Undef => Undef | Hang => Hang | OutOfFuel => OutOfFuel
  end.
Definition m_print (frags : list output) : B () := on_sys (on_io (print_line frags)).

(** The variables of [main] that later code uses. *)
Record locals := mkLocals {
  l_offset : Z; l_mapper : OffsetPageTable; l_frames : BootInfoFrameAllocator; l_fb : Framebuffer; l_demo : Z * RVec * Z;
}.

(** From [Framebuffer::new] on. *)
Definition picture_and_heap (phys_mem_offset : Z) (mapper : OffsetPageTable) (frame_allocator : BootInfoFrameAllocator)
    (buffer : FrameBuffer) : B locals :=
  r ← on_graphics frame_allocator (Framebuffer_new buffer phys_mem_offset);
  let '(fb, frame_allocator) := r in
  m_print [Text "Testing graphics..."];;
  on_graphics frame_allocator (flip fb);;
  on_graphics frame_allocator (paint fb);;
  on_graphics frame_allocator (flip fb);;
  m_print [Text "Initializing heap..."];;
  on_sys (on_io (io_heap (boot_heap frame_allocator phys_mem_offset)));;
  demo ← on_sys (on_io heap_demo);
  mret (mkLocals phys_mem_offset mapper frame_allocator fb demo).

(** [main] up to the line that announces the APICs. *)
Definition main_boot (img : image) (cpu : features) (boot_info : BootInfo) : B locals :=
  on_sys (kernel_init img cpu);;
  m_print [Text "Hello World!"];;
  o ← lift (unwrap (physical_memory_offset boot_info));
  phys_mem_offset ← lift (virt_new o);
  mapper ← lift (memory_init phys_mem_offset);
  frame_allocator ← lift (BootFrames.init (memory_regions boot_info));
  m_print [Text "Initializing graphics..."];;
  buffer ← lift (unwrap (framebuffer boot_info));
  picture_and_heap phys_mem_offset mapper frame_allocator buffer.
End main.

Section main_proofs.
Context {ck : OverflowChecks} `{GdtLaws} `{VirtAddrLaws} `{SlabLayoutLaws} `{PhysFrameLaws} `{Graphics.PhysAddrLaws}.
Context `{TranslationLaws} `{ArrayQueueApi} `{VecFieldsLaws} `{SlicePointerFmt}.

Definition screen_cells (fb : FrameBuffer) : Z := info_stride (fb_info fb) * info_height (fb_info fb).

(** A boot loader that keeps its contract: memory regions that do not overlap,
    a direct map below the top of the lower half, a screen outside it. *)
Record boot_info_ok (bi : BootInfo) (off : Z) (fb : FrameBuffer) : Prop := {
  bo_offset : physical_memory_offset bi = Some off;
  bo_low : 0 < off;
  bo_aligned : (4096 | off);
  bo_gigabyte : off + MAX_PAGES * Buddy.PAGE_SIZE < 2 ^ 47;
  bo_tables : off + cr3_frame < 2 ^ 47;
  bo_regions : memory_map_ok (memory_regions bi);
  bo_mapped : forall r, r ∈ memory_regions bi -> usable r = true -> off + region_end r < 2 ^ 47;
  bo_fb : framebuffer bi = Some fb;
  bo_screen : screen_ok (info_width (fb_info fb)) (info_height (fb_info fb)) (info_stride (fb_info fb));
  bo_buffer : buffer_ok (fb_buffer fb) (screen_cells fb);
  bo_apart : fb_buffer fb + 4 * screen_cells fb <= off \/ off + PHYS_LIM <= fb_buffer fb;
}.

Lemma run_on_sys {A} (f : M ksys A) s a k : f (m_sys s) = Ret (a, k) -> on_sys f s = Ret (a, mkM k (m_pix s)).
Proof. unfold on_sys. by intros ->. Qed.
Lemma run_on_graphics {A} fa (f : M (BootInfoFrameAllocator * pix) A) s a fa' p :
  f (fa, m_pix s) = Ret (a, (fa', p)) -> on_graphics fa f s = Ret ((a, fa'), mkM (m_sys s) p).
Proof. unfold on_graphics. by intros ->. Qed.

(** The state after [kernel::init], with another console, heap and screen. *)
Definition booted (K : ksys) (d : devices) (x : hsys) (px : pix) : mstate :=
  mkM (mkKsys (io_with (k_io K) d x) (k_tss K) (k_tables K) (k_control K)) px.
Lemma run_booted {A} (f : M io A) K d x px a d' x' :
  f (io_with (k_io K) d x) = Ret (a, io_with (k_io K) d' x') ->
  on_sys (on_io f) (booted K d x px) = Ret (a, booted K d' x' px).
Proof. intros E. by rewrite (run_on_sys _ _ _ _ (run_on_io f (m_sys (booted K d x px)) _ _ E)). Qed.
Lemma run_m_print K d x px frags : serial_ready d = true ->
  m_print frags (booted K d x px) = Ret ((), booted K (printed d frags) x px).
Proof. intros Hd. by apply run_booted, run_print_line. Qed.

(** Free memory lies in the usable regions. *)
Lemma free_below map s f top :
  memory_map_ok map -> active s ≡ₚ collected map -> (forall r, r ∈ map -> usable r = true -> region_end r < top) ->
  free_byte (active s) f -> f < top.
Proof.
  intros Hm Ha Htop (r & Hr & Hf). rewrite Ha in Hr. unfold collected in Hr. apply list_elem_of_lookup_1 in Hr as [i [Hi _]%lookup_take_Some].
  apply list_elem_of_lookup_2, list_elem_of_omap in Hi as (g & Hg & Hgr).
  pose proof (proj1 (Forall_forall _ _) (mm_regions _ Hm) g Hg) as Hok.
  destruct (region_range_wf g r Hok Hgr) as (_ & _ & He).
  assert (usable g = true) as Hu by (unfold region_range in Hgr; by destruct (usable g)).
  specialize (Htop g Hg Hu). unfold in_range in Hf. lia.
Qed.

(** What is on the console before the heap is tried out. *)
Definition boot_report (img : image) : list output :=
  syscall_report (img_syscall_handler img) ++
  [Text "Hello World!"; Text newline; Text "Initializing graphics..."; Text newline;
   Text "Testing graphics..."; Text newline; Text "Initializing heap..."; Text newline].
Definition booted_heap (m : mem) : hsys := mkHsys heap_new m [] [] [].
Definition boot_dev (out : list output) : devices := mkDev true out 0 [].

Lemma init_frames_ok bi off fb : boot_info_ok bi off fb ->
  exists s0, BootFrames.init (memory_regions bi) = Ret s0 /\ boot_inv s0 /\ forall f, free_byte (active s0) f -> off + f < 2 ^ 47.
Proof.
  intros Hbi. destruct (init_spec (memory_regions bi) (bo_regions _ _ _ Hbi)) as (s0 & E & Hinv & _ & Ha).
  exists s0. split_and!; [done|done|]. intros f Hf.
  pose proof (free_below (memory_regions bi) s0 f (2 ^ 47 - off) (bo_regions _ _ _ Hbi) Ha) as Hb.
  enough (f < 2 ^ 47 - off) by lia. apply Hb; [|done]. intros r Hr Hu. pose proof (bo_mapped _ _ _ Hbi r Hr Hu). lia.
Qed.

Lemma memory_init_ok off : 0 < off -> (4096 | off) -> off + cr3_frame < 2 ^ 47 ->
  memory_init off = Ret (mkOffsetTable (off + cr3_frame) off).
Proof.
  intros Ho Hal Hc. unfold memory_init, active_level_4_table. destruct cr3_frame_ok as [Hr Hd].
  rewrite (Paging.virt_add_ok off cr3_frame) by (try (unfold canonical; left); lia).
  cbn [mbind outcome_bind]. unfold table_ref. rewrite decide_True; [done|]. split; [lia|].
  apply Z.mod_divide; [done|]. by apply Z.divide_add_r.
Qed.

(** The heap gets the frames the back buffer left. *)
Lemma boot_heap_demo_run off s1 m i d :
  boot_inv s1 -> 0 < off -> (4096 | off) -> off + MAX_PAGES * Buddy.PAGE_SIZE < U64_LIM ->
  (forall f, free_byte (active s1) f -> off + f < 2 ^ 47) -> serial_ready d = true ->
  (exists l, NoDup l /\ length l = 4%nat /\ forall y, y ∈ l -> 0 <= y < MAX_PAGES /\ free_byte (active s1) (Buddy.PAGE_SIZE * y)) ->
  exists x1 p vec rc v x,
    io_heap (boot_heap s1 off) (io_with i d (booted_heap m)) = Ret ((), io_with i d x1) /\
    heap_demo (io_with i d x1) =
      Ret ((p, vec, rc), io_with i (mkDev true (console d ++ demo_report p vec) (lapic_address d) (mmio d)) x) /\
    demo_heap off m x [] p vec rc v /\ hs_frames x = [] /\
    (forall y, y ∈ hs_fed x <-> 0 <= y < MAX_PAGES /\ free_byte (active s1) (Buddy.PAGE_SIZE * y)).
Proof.
  intros Hinv Hoff Hal Hhi Hcan Hd (l & Hnd & Hlen & Hl).
  destruct (boot_heap_run s1 off m Hinv Hoff Hal Hhi Hcan) as (h & mh & fed & E & Hr & Hfed).
  set (x1 := mkHsys h mh [] [] fed) in *.
  assert (4 <= length fed)%nat as Hroom.
  { rewrite <- Hlen. apply submseteq_length, NoDup_submseteq; [done|]. intros y Hy. by apply Hfed, Hl. }
  destruct (heap_demo_run off m ltac:(lia) Hal Hhi i d x1 Hr Hd) as (p & vec & rc & v & x & Ed & Hdh & Hfr & Hfd & _);
    [unfold room; cbn; lia|].
  exists x1, p, vec, rc, v, x. split_and!; [by apply (run_heap _ i d (booted_heap m) () x1)|done|done|by rewrite Hfr|].
  intros y. by rewrite Hfd, <- Hfed.
Qed.

(** Up to the request for the back buffer. *)
Lemma main_boot_start img cpu bi off fb m t c k px s0 :
  stacks_ok (img_stacks img) -> Events.mouse_init (set_on_complete mouse_new) = (k, inr ()) -> boot_info_ok bi off fb ->
  BootFrames.init (memory_regions bi) = Ret s0 ->
  let K := kernel_ready img cpu m c k in
  main_boot img cpu bi (mkM (kernel_loaded m t c) px) =
    picture_and_heap off (mkOffsetTable (off + cr3_frame) off) s0 fb
      (booted K (printed (printed (boot_dev (syscall_report (img_syscall_handler img))) [Text "Hello World!"])
       [Text "Initializing graphics..."]) (booted_heap m) px).
Proof.
  intros Hst Hk Hbi E0 K. unfold main_boot.
  pose proof (kernel_init_run img cpu m t c k Hst Hk) as E1. run (run_on_sys _ (mkM (kernel_loaded m t c) px) _ _ E1).
  change (mkM (kernel_ready img cpu m c k) _) with
    (booted K (boot_dev (syscall_report (img_syscall_handler img))) (booted_heap m) px).
  run (run_m_print K (boot_dev (syscall_report (img_syscall_handler img))) (booted_heap m) px [Text "Hello World!"] eq_refl).
  set (d1 := printed _ _). set (st := booted K d1 (booted_heap m) px).
  pose proof (bo_low _ _ _ Hbi) as Hoff. pose proof (bo_gigabyte _ _ _ Hbi) as Hg. unfold MAX_PAGES, Buddy.PAGE_SIZE in Hg.
  assert (unwrap (physical_memory_offset bi) = Ret off) as E2 by (by rewrite (bo_offset _ _ _ Hbi)).
  run (run_lift _ st _ E2). assert (virt_new off = Ret off) as E3 by (apply virt_new_ok; unfold canonical; lia).
  run (run_lift _ st _ E3). run (run_lift _ st _ (memory_init_ok off Hoff (bo_aligned _ _ _ Hbi) (bo_tables _ _ _ Hbi))).
  run (run_lift _ st _ E0). run (run_m_print K d1 (booted_heap m) px [Text "Initializing graphics..."] eq_refl).
  assert (unwrap (framebuffer bi) = Ret fb) as E4 by (by rewrite (bo_fb _ _ _ Hbi)).
  by run (run_lift _ (booted K (printed d1 [Text "Initializing graphics..."]) (booted_heap m) px) _ E4).
Qed.

(** The picture and the heap, once the back buffer has its frames. *)
Lemma picture_and_heap_run bi off fb mapper K d m px s0 f s1 :
  boot_info_ok bi off fb -> (forall a, free_byte (active s0) a -> off + a < 2 ^ 47) -> serial_ready d = true ->
  let n := screen_cells fb in
  allocate_contiguous (pages_for n) s0 = Ret (Some f, s1) ->
  (4096 | f) -> 0 <= f -> f + pages_for n * 4096 <= PHYS_LIM -> taken s0 f (pages_for n * BootFrames.PAGE_SIZE) s1 ->
  (exists l, NoDup l /\ length l = 4%nat /\ forall y, y ∈ l -> 0 <= y < MAX_PAGES /\ free_byte (active s1) (Buddy.PAGE_SIZE * y)) ->
  exists p vec rc v x px', let F := mkFramebuffer (fb_buffer fb) (f + off) (info_width (fb_info fb)) (info_height (fb_info fb)) (info_stride (fb_info fb)) in
    picture_and_heap off mapper s0 fb (booted K d (booted_heap m) px) =
      Ret (mkLocals off mapper s1 F (p, vec, rc),
           booted K (mkDev true (console d ++ [Text "Testing graphics..."; Text newline; Text "Initializing heap..."; Text newline] ++
             demo_report p vec) (lapic_address d) (mmio d)) x px') /\
    demo_heap off m x [] p vec rc v /\ hs_frames x = [] /\
    (forall y, y ∈ hs_fed x <-> 0 <= y < MAX_PAGES /\ free_byte (active s1) (Buddy.PAGE_SIZE * y)) /\
    (forall i j, 0 <= i < stride F -> 0 <= j < height F ->
      pixel px' (fb_buffer fb + 4 * (j * stride F + i)) = if decide (i < width F) then GREEN else 0).
Proof.
  intros Hbi Hcan Hd n Ha Hdiv Hf Hend Htk Hroom.
  destruct Hbi as [_ Hoff Hal Hg _ _ _ _ Hs Hbuf Hap]. pose proof (pages_for_bounds n (sk_size _ _ _ Hs)) as Hpg.
  pose proof (sk_size _ _ _ Hs) as Hn. fold (screen_cells fb) in Hn.
  assert (off + f < 2 ^ 47) as Hfo by (apply Hcan, (tk_free _ _ _ _ Htk); change BootFrames.PAGE_SIZE with 4096; lia).
  assert (off mod 4 = 0) as Hm4 by (destruct Hal as [q ->]; replace (q * 4096) with (q * 1024 * 4) by lia; by apply Z.mod_mul).
  destruct (graphics_run fb off s0 px f s1 Hs Hoff Hm4 Hbuf Hap Ha Hdiv Hf Hend ltac:(unfold PHYS_LIM; lia))
    as (p1 & p2 & p3 & p4 & E1 & E2 & E3 & E4 & Hpix & _).
  set (d2 := printed (printed d [Text "Testing graphics..."]) [Text "Initializing heap..."]).
  destruct (boot_heap_demo_run off s1 m (k_io K) d2 (tk_inv _ _ _ _ Htk) Hoff Hal ltac:(lia)) as
    (x1 & p & vec & rc & v & x & E5 & E6 & Hdh & Hfr & Hfd); [|done|done|].
  { intros a Hfa. apply Hcan. by apply (tk_rest _ _ _ _ Htk) in Hfa as [? _]. }
  exists p, vec, rc, v, x, p4. cbv zeta. split_and!; [|done|done|done|exact Hpix].
  unfold picture_and_heap. run (run_on_graphics s0 _ (booted K d (booted_heap m) px) _ _ _ E1).
  change (mkM _ p1) with (booted K d (booted_heap m) p1).
  run (run_m_print K d (booted_heap m) p1 [Text "Testing graphics..."] Hd).
  run (run_on_graphics s1 _ (booted K _ (booted_heap m) p1) _ _ _ E2).
  run (run_on_graphics s1 _ (mkM _ p2) _ _ _ E3). run (run_on_graphics s1 _ (mkM _ p3) _ _ _ E4).
  change (mkM _ p4) with (booted K (printed d [Text "Testing graphics..."]) (booted_heap m) p4).
  run (run_m_print K (printed d [Text "Testing graphics..."]) (booted_heap m) p4 [Text "Initializing heap..."] eq_refl).
  fold d2. run (run_booted _ K d2 (booted_heap m) p4 _ d2 x1 E5). run (run_booted _ K d2 x1 p4 _ _ x E6).
  unfold d2, printed. cbn [console lapic_address mmio]. by rewrite <- !app_assoc.
Qed.

(** C11: [main] reaches a working heap.  From a freshly loaded kernel with a
    well-formed boot information, the frames for the back buffer are asked for; if
    there is no such run, [main] panics.  Otherwise, as long as four frames of the
    first gigabyte are left, [main] comes to the line that announces the APICs
    with no panic and no undefined behaviour: the console shows the lines of every
    step, the shared vector counted twice and then once; the screen shows the green
    picture; the heap is reachable, owns exactly the free frames of the first
    gigabyte, none of them in the back buffer, and holds exactly the box with 41,
    the vector with 0 to 499 and the shared vector with 1, 2, 3 and one owner. *)
Theorem main_boots_heap img cpu bi off fb m t c k px :
  stacks_ok (img_stacks img) -> Events.mouse_init (set_on_complete mouse_new) = (k, inr ()) -> boot_info_ok bi off fb ->
  let n := screen_cells fb in let run := main_boot img cpu bi (mkM (kernel_loaded m t c) px) in
  exists s0 res s1, BootFrames.init (memory_regions bi) = Ret s0 /\ allocate_contiguous (pages_for n) s0 = Ret (res, s1) /\
  match res with
  | None => run = Panic
  | Some f =>
      (exists l, NoDup l /\ length l = 4%nat /\
        forall y, y ∈ l -> 0 <= y < MAX_PAGES /\ free_byte (active s1) (Buddy.PAGE_SIZE * y)) ->
      exists p vec rc v x st F, run = Ret (mkLocals off (mkOffsetTable (off + cr3_frame) off) s1 F (p, vec, rc), st) /\
        console (dev (k_io (m_sys st))) = boot_report img ++ demo_report p vec /\
        (kheap (k_io (m_sys st)), memory (k_io (m_sys st))) = (hs_heap x, hs_mem x) /\
        demo_heap off m x [] p vec rc v /\
        (forall y, y ∈ hs_fed x <-> 0 <= y < MAX_PAGES /\ free_byte (active s1) (Buddy.PAGE_SIZE * y)) /\
        (forall y, y ∈ hs_fed x -> BuddyProofs.addr off y + 4096 <= back_buffer F \/
          back_buffer F + 4 * n <= BuddyProofs.addr off y) /\
        (forall i j, 0 <= i < stride F -> 0 <= j < height F ->
          pixel (m_pix st) (front_buffer F + 4 * (j * stride F + i)) = if decide (i < width F) then GREEN else 0)
  end.
Proof.
  intros Hst Hk Hbi n run. destruct (init_frames_ok bi off fb Hbi) as (s0 & E0 & Hinv & Hcan).
  pose proof (bo_screen _ _ _ Hbi) as Hs. pose proof (sk_size _ _ _ Hs) as Hn. pose proof (sk_bytes _ _ _ Hs) as Hby.
  change (info_stride (fb_info fb) * info_height (fb_info fb)) with n in Hn, Hby.
  destruct (back_buffer_alloc s0 n Hinv Hn) as (res & s1 & Ea & Hres); [lia|].
  exists s0, res, s1. split_and!; [done|done|]. unfold run. rewrite (main_boot_start img cpu bi off fb m t c k px s0 Hst Hk Hbi E0).
  pose proof (bo_aligned _ _ _ Hbi) as [q Hq].
  assert (off mod 4 = 0) as Hm4 by (rewrite Hq; replace (q * 4096) with (q * 1024 * 4) by lia; by apply Z.mod_mul).
  destruct res as [f|].
  2: { pose proof (Framebuffer_new_run fb off s0 px s1 None Hs Ea (bo_low _ _ _ Hbi) Hm4) as Hnew.
       unfold picture_and_heap. apply run_bind_panic. unfold on_graphics. cbn [m_pix booted]. by rewrite Hnew. }
  intros Hroom. destruct Hres as (Hdiv & Hf & Hend & Htk).
  destruct (picture_and_heap_run bi off fb (mkOffsetTable (off + cr3_frame) off) (kernel_ready img cpu m c k)
    (printed (printed (boot_dev (syscall_report (img_syscall_handler img))) [Text "Hello World!"]) [Text "Initializing graphics..."])
    m px s0 f s1 Hbi Hcan eq_refl Ea Hdiv Hf Hend Htk Hroom) as (p & vec & rc & v & x & px' & E & Hdh & _ & Hfd & Hpix).
  eexists p, vec, rc, v, x, _, _. split_and!; [exact E| |done|exact Hdh|exact Hfd| |exact Hpix].
  - unfold boot_report, printed, boot_dev. cbn [console dev k_io m_sys booted io_with]. by rewrite <- !app_assoc.
  - intros y [_ Hfree]%Hfd. apply (tk_rest _ _ _ _ Htk) in Hfree as [_ Hno]. destruct Hdiv as [kf ->].
    pose proof (pages_for_bounds n Hn). cbn [back_buffer]. unfold BuddyProofs.addr.
    change BootFrames.PAGE_SIZE with 4096 in Hno. change Buddy.PAGE_SIZE with 4096 in Hno |- *. lia.
Qed.
End main_proofs.

(** ** Witness: the memory map and screen of the framebuffer's witness *)

Module Demo.
#[local] Existing Instances ReferenceGdt.gdt_api ReferenceGdt.gdt_laws EventsTheorems.Demo.demo_keyboard
  EventsTheorems.Demo.demo_mouse EventsTheorems.Demo.demo_queue HeapTheorems.Demo.demo_layout HeapTheorems.Demo.demo_layout_laws
  ReferenceApi.phys_frame_api ReferenceApi.phys_frame_laws KernelInit.Demo.demo_checks KernelInit.Demo.demo_virt
  KernelInit.Demo.demo_virt_laws GraphicsTheorems.Demo.demo_phys GraphicsTheorems.Demo.demo_phys_laws
  Paging.Demo.demo_api Paging.Demo.demo_laws.
#[local] Instance demo_fields : VecFields := {| cap_at := 0; ptr_at := 8; len_at := 16 |}.
#[local] Instance demo_fields_laws : VecFieldsLaws.
Proof. unfold VecFieldsLaws. reflexivity. Qed.
#[local] Instance demo_slice : SlicePointerFmt := fun p _ => [Text "0x"; Hex p].

Definition demo_info : BootInfo :=
  mkBootInfo (Some (2 ^ 40)) GraphicsTheorems.Demo.demo_map (Some GraphicsTheorems.Demo.demo_fb) (Some 0xE0000).

Lemma demo_info_ok : boot_info_ok demo_info (2 ^ 40) GraphicsTheorems.Demo.demo_fb.
Proof.
  constructor; [done|done|by exists 268435456|done|done|exact GraphicsTheorems.Demo.screen_map_ok| |done|split; cbn; lia
    |split; cbn; lia || done|left; by vm_compute].
  intros r Hr _. apply list_elem_of_singleton in Hr as ->. done.
Qed.

(** The back buffer is the first page; the next four are free after it. *)
Lemma demo_frames_left s1 f :
  allocate_contiguous (pages_for 6) GraphicsTheorems.Demo.demo_state = Ret (Some f, s1) ->
  forall y, y ∈ [2; 3; 4; 5] -> 0 <= y < MAX_PAGES /\ free_byte (active s1) (Buddy.PAGE_SIZE * y).
Proof.
  intros E. assert (match allocate_contiguous (pages_for 6) GraphicsTheorems.Demo.demo_state with
    | Ret (_, s) => active s = [mkRange 8192 651264] | _ => False end) as Ha by (vm_compute; reflexivity).
  rewrite E in Ha. intros y Hy. rewrite Ha. unfold MAX_PAGES, Buddy.PAGE_SIZE. split.
  - rewrite !elem_of_cons, elem_of_nil in Hy. lia.
  - exists (mkRange 8192 651264). split; [left|]. rewrite !elem_of_cons, elem_of_nil in Hy. unfold in_range. cbn. lia.
Qed.

Lemma main_boots_heap_witness :
  exists l st, main_boot KernelInit.Demo.demo_image (mkFeatures None None None) demo_info
    (mkM (kernel_loaded ∅ KernelInit.Demo.demo_tables KernelInit.Demo.demo_control) ∅) = Ret (l, st).
Proof.
  destruct (main_boots_heap KernelInit.Demo.demo_image (mkFeatures None None None) demo_info (2 ^ 40) GraphicsTheorems.Demo.demo_fb
    ∅ KernelInit.Demo.demo_tables KernelInit.Demo.demo_control (fst (Events.mouse_init (set_on_complete mouse_new))) ∅) as (s0 & res & s1 & E0 & E1 & Hres);
    [unfold stacks_ok, ApicTheorems.stack_ok, STACK_SIZE; cbn; lia|reflexivity|exact demo_info_ok|].
  assert (s0 = GraphicsTheorems.Demo.demo_state) as ->.
  { assert (BootFrames.init GraphicsTheorems.Demo.demo_map = Ret GraphicsTheorems.Demo.demo_state) as E
      by (vm_compute; reflexivity). cbn [memory_regions demo_info] in E0. rewrite E in E0. by injection E0. }
  change (screen_cells GraphicsTheorems.Demo.demo_fb) with 6 in E1.
  destruct res as [f|].
  - destruct Hres as (p & vec & rc & v & x & st & F & E & _); [|eexists _, st; exact E].
    exists [2; 3; 4; 5]. split_and!; [by_decide|reflexivity|]. by eapply demo_frames_left.
  - exfalso. assert (match allocate_contiguous (pages_for 6) GraphicsTheorems.Demo.demo_state with
      | Ret (r, _) => r = Some 4096 | _ => False end) as Ha by (vm_compute; reflexivity). by rewrite E1 in Ha.
Defined.
End Demo.
